(* ===== verification/_CoqProject ===== *)
-Q . S2P
Prelude.v
RustStd.v
Interface.v
Authenticators.v
Fs.v
KeyInfo.v
OnDisk.v
Concrete.v
Persistence.v
KeyInfoSpec.v
Provide.v
Backend.v
FrontEnd.v
CoreProvider.v
Mbed.v
MbedSpec.v
Scenario.v
MbedThreads.v
MbedConcurrency.v
CryptoAuthLib.v
CryptoAuthLibSpec.v
Threads.v
Claims.v
CalThreads.v
CalConcurrency.v
Config.v
ServiceBuilder.v
ServiceSpec.v
Listener.v
Main.v
Residence.v
ProviderState.v
TrustedService.v
TrustedServiceSpec.v
TsThreads.v
TsConcurrency.v
Pkcs11.v
Pkcs11Spec.v
Pkcs11Scenario.v
Pkcs11Threads.v
Pkcs11Concurrency.v
ParallelIsolation.v
Tpm.v
TpmSpec.v
TpmScenario.v
FullService.v
ServiceScenario.v
MainSpec.v
MainScenario.v
TestClient.v
TestClientSpec.v
Stress.v
StressSpec.v
StressScenario.v
Tooling.v
ToolingSpec.v
Fuzz.v
UnitTests.v
