(* ===== verification/Prelude.v ===== *)
(** * Parsec: a verification library of the service

    Parsec ([src/src]) is a daemon that offers one cryptographic interface to the
    applications of a machine.  A client connects over a socket and sends one
    request: a header (provider, content types, authentication type, opcode), an
    authentication field and a body.  The front end reads it, an authenticator
    gives the application a name, the dispatcher finds the back end handler of
    the provider, the handler checks and decodes the request and calls the
    provider, and one response goes back.  A provider keeps keys in a library or
    a device and asks a key info manager to remember which application owns
    which key: a mapping from key triples (application, provider, key name) to
    key identifiers and attributes, stored on disk.

    ** Files

    [Prelude] holds the notions shared by all: results with panics, the state and
    error monad [ST], loops, [safe_in], [agree_off], tactics and hint databases.
    [RustStd] models what the source uses of the Rust standard library (bytes,
    wrap-around, UTF-8, little-endian and decimal integers, sorting).
    [Interface] has the types of the [parsec_interface] crate and, as classes with
    laws, the functions of it that the source calls.

    - [Authenticators]: [authenticators/mod.rs] and the three authenticators.
      [Authenticate] is the trait; the modules [DirectAuthenticator],
      [UnixPeerCredentialsAuthenticator] and [JwtSvidAuthenticator] implement it.
    - [Fs]: a file system in which any call may fail, possibly part-way.
    - [KeyInfo], [KeyInfoSpec]: [key_info_managers/mod.rs]; the class
      [ManageKeyInfo] is the trait, [KimSpec] its contract, and the methods of
      [KeyInfoManagerClient] are proved against the contract.
    - [OnDisk], [Persistence]: [on_disk_manager/mod.rs]; the module [Manager] has
      the file layout, start-up, insertion and removal, [OnDisk_KimSpec]
      discharges the contract, and [Persistence] relates memory and disk.
    - [Provide]: [providers/mod.rs]; the trait as a record of methods over a state,
      its default methods ([DefaultMethods]), [provider_call] (the method an operation
      is for), and the contracts the service relies on: [well_behaved] (a call changes only the caller's
      mappings), [keeps_to] (and only those of its own provider) and [safe] (no
      panic, an invariant is kept).
    - [Backend]: [back/backend_handler.rs] and [back/dispatcher.rs].
    - [FrontEnd]: [front/front_end.rs]; the wire format is the class [Wire].
    - [CoreProvider]: [providers/core/mod.rs], over any list of providers.
    - [Mbed], [MbedSpec], [MbedThreads], [MbedConcurrency]: [providers/mbed_crypto];
      the library is the class [PsaCrypto] with the laws [PsaLaws].  The last two
      files interleave the threads of the pool: a request is a sequence of blocks
      ([advance]), each an atomic access or what is done under one lock, and
      [work_step] and [pool_step] run one block of one request.
    - [CryptoAuthLib], [CryptoAuthLibSpec]: [providers/cryptoauthlib]; the modules
      [KeySlot], [KeySlotStorage] and [CalProvider] follow its files, and the
      device is the class [Atecc].
    - [Threads], [Claims]: programs of threads as trees of atomic steps; what a thread
      guarantees when the others keep to a relation ([rg], [pool_rg]); and, for programs
      that can fail, the pool of threads on which requests arrive ([crew]) with a logic
      of what each request holds of the shared state ([claims], [crew_claims]).
    - [CalThreads], [CalConcurrency], [TsThreads], [TsConcurrency], [Pkcs11Threads],
      [Pkcs11Concurrency]: the methods of the CryptoAuthLib, Trusted Service and PKCS 11
      providers once more, as programs of [Claims] in which every access of the key info
      manager, of a counter or set behind a lock and of the device is a step of its own.
      [ParallelIsolation] is about all three.
    - [ProviderState]: what the three providers below share: the state as a key
      info manager and a device, and the invariant [mapped].
    - [TrustedService], [TrustedServiceSpec]: [providers/trusted_service]; the
      module [TsContext] is its [context] directory over the C functions of the RPC
      layer ([RpcCaller]), [TsProvider] the rest.
    - [Pkcs11], [Pkcs11Spec], [Pkcs11Scenario]: [providers/pkcs11] over a token
      ([Cryptoki]), a DER codec and a random generator.
    - [Tpm], [TpmSpec], [TpmScenario]: [providers/tpm] over the TSS library
      ([Tss]), with the conversions of its [utils.rs].
    - [Config], [ServiceBuilder], [ServiceSpec]: [utils/config.rs],
      [utils/global_config.rs] and [utils/service_builder.rs]; [World] is the state
      of the whole service, and the builders of the providers are an argument.
    - [Residence], [FullService]: how a provider's own state lies in that of the
      service ([zoom_provide], [resident]), also when providers share a key info
      manager, and [get_provider] with the builders of all five providers.
    - [Listener]: [front/domain_socket.rs] over the calls of the operating system.
    - [Main]: [bin/main.rs]; [start] and [reload] are functions, the loop with the
      threads of the pool and the signals is the step relation [work_step] and
      [signal_step].
    - [MainSpec]: the same loop over the services of [FullService].
    - [TestClient], [TestClientSpec]: [e2e_tests/src/lib.rs], the client of the
      end-to-end tests over the [parsec_client] crate ([BasicClient]).
    - [Stress], [StressSpec], [StressScenario]: [e2e_tests/src/stress.rs]; the
      workers, the checker and [execute] as the step relation [stress_step].
    - [Tooling], [ToolingSpec]: [fuzz/build.rs], the stream of the fuzz target, the
      raw client of the tests and [build.rs].
    - [Fuzz]: [fuzz/fuzz_targets/fuzz_service.rs], the target over the whole service.
    - [UnitTests]: the unit tests of [src/src] as programs over the definitions above.
    - [Concrete], [Scenario], [ServiceScenario], [MainScenario] and the other
      scenarios: concrete instances of the parameters, on which the theorems are
      applied and the definitions run.

    ** What is proved

    - Authentication: which fields each authenticator accepts and which it refuses,
      which name they give, and that administrators are exactly those configured.
    - The mapping: what storing, removing and listing do on every branch; that it
      survives any number of restarts; that a disk fault affects one file only and
      leaves memory alone.
    - The request path: [execute_request] refines a small specification;
      every provider call is mediated by the checks; every refusal has its status
      and no effect; every connection gets one response.
    - Isolation: a connection changes only the mappings of the application it was
      authenticated as, unless that is an administrator; stated for any front end
      whose providers are [well_behaved], and for every service [build_service] can
      build with any choice of the five providers ([full_service_isolation]).
    - Providers: for Mbed Crypto, CryptoAuthLib, PKCS 11 and the Trusted Service an
      invariant between mapping and key store, for the TPM an invariant of the
      mapping, that every operation keeps whatever fails underneath; what key
      creation, destruction and start-up do; for the chip, the choice of slots
      ([find_suitable_slot_spec]); for PKCS 11, that sessions are closed, that a
      generated key pair lies on the token with the policy its attributes ask for and
      no other ([generated_key_carries_policy]) and that drawing an identifier ends; for the Trusted Service, that RPC calls are ended; for the
      TPM, that keys are used as their attributes say and signatures are converted
      without loss.
    - Threads in the Mbed Crypto provider: however the blocks of requests are
      interleaved, no identifier is given to two keys and none is used for another
      key than its own ([threads_no_confusion]), the threads never block each other
      for ever ([threads_finish]), and the invariant is kept as long as no two
      requests create the same key ([parallel_calls_safe]), which is necessary
      ([parallel_generate_race]).  One request alone is the method of the provider
      ([alone_is_provider_call]).
    - Threads in the CryptoAuthLib, PKCS 11 and Trusted Service providers: the
      invariants are kept however requests are interleaved, as long as no two in
      progress create the same key and, for the first two, no two destroy the same key
      ([cal_parallel_safe], [pkcs11_parallel_safe], [ts_parallel_safe]).  The conditions
      are necessary: otherwise the key of another application can lose its slot
      ([cal_destroy_race]) or its object on the token ([pkcs11_destroy_race]), or a name
      its key ([ts_create_race]).  Without any condition, requests leave the mappings of
      other applications alone ([parallel_isolation]).  One request alone is the method
      of the provider ([cal_run_alone], [pkcs11_run_alone], [ts_run_alone]).
    - Assembly: a built service has exactly the providers its configuration asks for,
      but for an optional TPM that is not there, each with the manager and the
      identifier configured for it ([build_service_wiring]); from mappings its
      providers can be started from ([ready]), which any run leaves behind, start-up
      establishes the invariants of all of them, and from then on every connection is
      answered ([full_service_responds]).
    - The program: what the listener hands over; that every accepted connection is
      served once and none is lost when the service is reloaded or stopped, and that
      each is answered by one response and no panic while the providers can be started
      from the mappings found at start and at every reload ([main_serves_all]); that the loop ends after SIGTERM ([main_terminates]);
      that it does not run as root unless it is told to ([main_refuses_root]).
    - The tests: the client of a test leaves no keys with the service when it is
      dropped, unless the test asked to keep them, or the service refused to destroy
      them, and also when the test panics, but for a key whose creation the service did
      not confirm ([client_leaves_no_keys]); nor does the stress
      test, however its threads are interleaved ([stress_test_leaves_no_keys]); the pauses and the draws of its
      workers ([interval_spec], [draw_operation_spec]); that the corpus for fuzzing is
      complete ([corpus_complete]) and that no input of the fuzzer makes the service
      or the stream it is given on panic ([fuzz_never_panics]); when the build script succeeds ([build_script_spec]);
      and that the unit tests pass on the model ([unit_tests_pass]).

    Some theorems state a behaviour that the code hardly means to have
    ([cal_new_forgets_keys], [import_leaks_slot], [parallel_generate_race],
    [ts_create_race], [cal_destroy_race], [pkcs11_destroy_race], [tpm_p521_unusable], [tpm_key_validation], part of [insert_key_info_spec], of
    [generate_random_length], of [ts_new_spec], of [send_request_balanced], of
    [listener_accept_spec] and of [interval_spec]).

    ** Choices

    Every definition is total and runs; loops are structural over the list or the
    count the source iterates over.  The one loop of the service with no bound draws
    identifiers for PKCS 11 until one is free ([draw_free]); it takes the number of
    draws to follow as fuel and panics without, and [create_key_id_terminates]
    says how many are enough, and that no number is while every draw is taken; the
    draw of an operation in the stress test is treated the same way.  For
    this reason [full_service_responds] is about services without PKCS 11.  A panic
    is a value ([Panic]) and stays one to the end of the request.  Locks are
    modelled by the atomicity of what they protect; outside the files on threads requests
    run one after the other, and in [Main] a request is one step.  The counters of the
    Mbed Crypto and Trusted Service providers have 32 bits and may pass their limit by
    one for each thread; the theorems on their threads allow 2^30 threads, which keeps
    them from wrapping around.  In the test programs a call of the service is one step.
    Integers are [Z] with wrap-around written out where the source can reach it
    ([u32_wrap], [usize_wrap], arithmetic as in a release build).  Logging is left
    out.  Code outside the repository (the interface crate, [bincode], [base64],
    [psa_crypto], the device, token, TSS and RPC libraries, the DER and Protobuf
    codecs, the random generators, the SPIFFE client, the client library of the tests,
    [bindgen] and [prost], sockets and other calls of the operating system, the file
    system's faults) is a parameter; its documented
    behaviour is a class of laws, and the scenarios give instances that meet them.
    Dropping the front end handler, which frees what the providers hold, is a
    parameter of [Main].

    ** Not modelled

    Wiping secrets from memory and logging, except for the text of the errors of the
    Trusted Service; decoding of the configuration file, which is the [toml] crate; the
    cases of the end-to-end tests, which are calls of the test client with constant
    arguments against a running service; the interleaving of requests to the TPM
    provider, which keeps no identifiers of its own and calls the TPM under one mutex; and
    what dropping a provider frees when the service is reloaded, which is a parameter of
    [Main].  But for these the development covers every operation of the service and of
    its tools. *)
From stdpp Require Export base option list gmap sets strings pretty.
From Stdlib Require Export Ascii ZArith Lia.
From Stdlib Require String.

(** ** Results

    Rust's [Result<A, E>], with a third outcome for a panic ([unwrap] of a
    [None], an index out of bounds, [unreachable!()]).  The error type comes
    first so that [result E] is a monad. *)
Inductive result (E A : Type) : Type :=
  | Ok (a : A)
  | Err (e : E)
  | Panic.
Arguments Ok {E A} a.
Arguments Err {E A} e.
Arguments Panic {E A}.

#[export] Instance result_ret E : MRet (result E) := fun A a => Ok a.
#[export] Instance result_bind E : MBind (result E) := fun A B f m =>
  match m with Ok a => f a | Err e => Err e | Panic => Panic end.

#[export] Instance result_eq_dec E A :
  EqDecision E -> EqDecision A -> EqDecision (result E A).
Proof. intros ? ?. solve_decision. Defined.

(** [Result::map_err], [Option::ok_or], [Result::is_err], [Result::ok]. *)
Definition map_err {E F A} (f : E -> F) (r : result E A) : result F A :=
  match r with Ok a => Ok a | Err e => Err (f e) | Panic => Panic end.

Definition ok_or {E A} (o : option A) (e : E) : result E A :=
  match o with Some a => Ok a | None => Err e end.

(** The [expect]/[unwrap] of an option. *)
Definition unwrap {E A} (o : option A) : result E A :=
  match o with Some a => Ok a | None => Panic end.

Definition is_ok {E A} (r : result E A) : bool :=
  match r with Ok _ => true | _ => false end.

(** ** Stateful computations

    A method of a Rust object that mutates state [S] (directly or behind a
    lock) is a function from the state to a result and the state it leaves;
    an [Err] keeps the mutations made before the error. *)
Definition ST (S E A : Type) : Type := S -> result E A * S.

#[export] Instance ST_ret S E : MRet (ST S E) := fun A a s => (Ok a, s).
#[export] Instance ST_bind S E : MBind (ST S E) := fun A B f m s =>
  match m s with
  | (Ok a, s') => f a s'
  | (Err e, s') => (Err e, s')
  | (Panic, s') => (Panic, s')
  end.

Definition raise {S E A} (e : E) : ST S E A := fun s => (Err e, s).
Definition panic {S E A} : ST S E A := fun s => (Panic, s).
Definition lift {S E A} (r : result E A) : ST S E A := fun s => (r, s).
Definition gets {S E A} (f : S -> A) : ST S E A := fun s => (Ok (f s), s).
Definition modify {S E} (f : S -> S) : ST S E unit := fun s => (Ok tt, f s).

(** [match m { Ok(..) => .., Err(..) => .. }]: the outcome of [m] becomes a
    value; a panic still unwinds. *)
Definition attempt {S E F A} (m : ST S E A) : ST S F (result E A) := fun s =>
  match m s with
  | (Panic, s') => (Panic, s')
  | (r, s') => (Ok r, s')
  end.

(** Run a computation on a component [T] of the state [S]. *)
Definition zoom {S T E A} (get : S -> T) (put : T -> S -> S)
    (m : ST T E A) : ST S E A := fun s =>
  let '(r, t) := m (get s) in (r, put t s).

(** Change the error type of a computation. *)
Definition on_err {S E F A} (f : E -> F) (m : ST S E A) : ST S F A := fun s =>
  let '(r, s') := m s in (map_err f r, s').

(** A [for x in l { .. }] loop over a list, threading the state. *)
Fixpoint for_each {S E A} (l : list A) (body : A -> ST S E unit) : ST S E unit :=
  match l with
  | [] => mret tt
  | x :: l' => body x ;; for_each l' body
  end.

(** A loop that also threads an accumulator (a local [let mut] variable). *)
Fixpoint fold_each {S E A B} (l : list A) (acc : B) (body : B -> A -> ST S E B)
    : ST S E B :=
  match l with
  | [] => mret acc
  | x :: l' => acc' ← body acc x; fold_each l' acc' body
  end.

(** The computation leaves the state as it is. *)
Definition pure_on {S E A} (m : ST S E A) : Prop := forall s, (m s).2 = s.

(** ** Automation *)
Create HintDb parsec.
Create HintDb parsec_run.
Create Rewrite HintDb parsec_rw.

#[export] Hint Unfold mbind mret ST_bind ST_ret result_bind result_ret raise lift
  gets modify attempt zoom on_err panic map_err ok_or unwrap : parsec_run.

(** Unfold the monad and normalise. *)
Ltac run_unfold := repeat (autounfold with parsec_run in *; simpl in *).

(** Unfold the monad, then split every [match] that blocks the run. *)
Ltac run_cases :=
  run_unfold; repeat (case_match; simplify_eq/=); run_unfold.

(** ** Lemmas on the monad *)
Section Monad.
Context {S E : Type}.

Lemma bind_Ok {A B} (m : ST S E A) (k : A -> ST S E B) s s' b :
  (x ← m; k x) s = (Ok b, s') <->
  exists a s1, m s = (Ok a, s1) /\ k a s1 = (Ok b, s').
Proof.
  split.
  - run_unfold. destruct (m s) as [[a| |] s1]; naive_solver.
  - intros (a & s1 & Hm & Hk). run_unfold. by rewrite Hm.
Qed.

Lemma bind_run {A B} (m : ST S E A) (k : A -> ST S E B) s a s1 :
  m s = (Ok a, s1) -> (x ← m; k x) s = k a s1.
Proof. intros Hm. run_unfold. by rewrite Hm. Qed.

Lemma bind_Err {A B} (m : ST S E A) (k : A -> ST S E B) s e s1 :
  m s = (Err e, s1) -> (x ← m; k x) s = (Err e, s1).
Proof. intros Hm. run_unfold. by rewrite Hm. Qed.

Lemma bind_assoc {A B C} (m : ST S E A) (k : A -> ST S E B) (h : B -> ST S E C) s :
  (y ← (x ← m; k x); h y) s = (x ← m; y ← k x; h y) s.
Proof. run_unfold. destruct (m s) as [[| |] ?]; reflexivity. Qed.

Lemma pure_on_bind {A B} (m : ST S E A) (k : A -> ST S E B) :
  pure_on m -> (forall a, pure_on (k a)) -> pure_on (x ← m; k x).
Proof.
  intros Hm Hk s. run_unfold. specialize (Hm s).
  destruct (m s) as [[a| |] s1]; simpl in *; subst; [apply Hk|done|done].
Qed.

Lemma pure_on_lift {A} (r : result E A) : pure_on (lift (S := S) r).
Proof. done. Qed.

Lemma pure_on_gets {A} (f : S -> A) : pure_on (gets (E := E) f).
Proof. done. Qed.

(** An invariant kept by the body is kept by the loop. *)
Lemma for_each_preserves {A} (l : list A) (body : A -> ST S E unit) (I : S -> Prop) s :
  (forall x s, x ∈ l -> I s -> I (body x s).2) -> I s -> I (for_each l body s).2.
Proof.
  revert s. induction l as [|x l IH]; intros s Hb Hs; [done|].
  run_unfold. assert (HI : I (body x s).2) by (apply Hb; [left|done]).
  destruct (body x s) as [[[]| |] s1]; simpl in *; [|done|done].
  apply IH; [|done]. intros y s2 Hy. apply Hb. by right.
Qed.

Lemma fold_each_preserves {A B} (l : list A) (acc : B) (body : B -> A -> ST S E B)
    (I : S -> Prop) s :
  (forall acc x s, x ∈ l -> I s -> I (body acc x s).2) ->
  I s -> I (fold_each l acc body s).2.
Proof.
  revert acc s. induction l as [|x l IH]; intros acc s Hb Hs; [done|].
  run_unfold. assert (HI : I (body acc x s).2) by (apply Hb; [left|done]).
  destruct (body acc x s) as [[acc'| |] s1]; simpl in *; [|done|done].
  apply IH; [|done]. intros ? ? ? Hy. apply Hb. by right.
Qed.
End Monad.

#[export] Hint Resolve pure_on_bind pure_on_lift pure_on_gets : parsec.

(** In the states of [I] the computation does not panic, and it stays in [I]. *)
Definition safe_in {S E A} (I : S -> Prop) (m : ST S E A) : Prop :=
  forall s, I s -> I (m s).2 /\ (m s).1 <> Panic.

Section Safe.
Context {S E : Type} (I : S -> Prop).

Lemma safe_ret {A} (a : A) : safe_in (E := E) I (mret a).
Proof. done. Qed.

Lemma safe_raise {A} (e : E) : safe_in (A := A) I (raise e).
Proof. done. Qed.

Lemma safe_lift {A} (r : result E A) : r <> Panic -> safe_in I (lift r).
Proof. done. Qed.

Lemma safe_bind {A B} (m : ST S E A) (k : A -> ST S E B) :
  safe_in I m -> (forall a, safe_in I (k a)) -> safe_in I (x ← m; k x).
Proof.
  intros Hm Hk s Hs. run_unfold. specialize (Hm s Hs).
  destruct (m s) as [[a|e|] s1]; simpl in *; [by apply Hk, Hm|by split; [apply Hm|]|naive_solver].
Qed.

(** The value of a call may be replaced without changing how it runs. *)
Lemma safe_bind_ret {A B} (m : ST S E A) (f : A -> B) :
  safe_in I (x ← m; mret (f x)) <-> safe_in I m.
Proof.
  split; intros Hm s Hs; specialize (Hm s Hs); revert Hm; run_unfold;
    destruct (m s) as [[a|e|] s1]; simpl; naive_solver.
Qed.

Lemma safe_attempt {F A} (m : ST S E A) : safe_in I m -> safe_in (E := F) I (attempt m).
Proof.
  intros Hm s Hs. run_unfold. specialize (Hm s Hs).
  destruct (m s) as [[a|e|] s1]; simpl in *; naive_solver.
Qed.

Lemma safe_for_each {A} (l : list A) (body : A -> ST S E unit) :
  (forall x, x ∈ l -> safe_in I (body x)) -> safe_in I (for_each l body).
Proof.
  induction l as [|x l IH]; intros Hb; [apply safe_ret|].
  apply safe_bind; [apply Hb; left|intros _; apply IH; intros y Hy; apply Hb; by right].
Qed.

Lemma safe_fold_each {A B} (l : list A) (acc : B) (body : B -> A -> ST S E B) :
  (forall acc x, x ∈ l -> safe_in I (body acc x)) -> safe_in I (fold_each l acc body).
Proof.
  revert acc. induction l as [|x l IH]; intros acc Hb; [apply safe_ret|].
  apply safe_bind; [apply Hb; left|intros a; apply IH; intros b y Hy; apply Hb; by right].
Qed.
End Safe.
#[export] Hint Resolve safe_ret safe_raise safe_bind safe_attempt safe_for_each safe_fold_each : parsec.

(** ** Generic lemmas *)

(** Maps that agree outside a set of keys. *)
Definition agree_off {K A} `{Countable K} (P : K -> Prop) (m1 m2 : gmap K A) : Prop :=
  forall k, ~ P k -> m1 !! k = m2 !! k.

#[export] Instance agree_off_equiv {K A} `{Countable K} (P : K -> Prop) :
  Equivalence (agree_off (A := A) P).
Proof.
  unfold agree_off. split.
  - intros m k _. done.
  - intros m1 m2 H12 k Hk. symmetry. by apply H12.
  - intros m1 m2 m3 H12 H23 k Hk. rewrite H12 by done. by apply H23.
Qed.

Lemma agree_off_insert {K A} `{Countable K} (P : K -> Prop) (m : gmap K A) k a :
  P k -> agree_off P (<[k := a]> m) m.
Proof. intros HP j Hj. rewrite lookup_insert_ne; naive_solver. Qed.

Lemma agree_off_delete {K A} `{Countable K} (P : K -> Prop) (m : gmap K A) k :
  P k -> agree_off P (delete k m) m.
Proof. intros HP j Hj. rewrite lookup_delete_ne; naive_solver. Qed.

#[export] Hint Resolve agree_off_insert agree_off_delete : parsec.
