(* ===== verification/RustStd.v ===== *)
(** * The parts of the Rust language and standard library the service uses

    Bytes and strings, UTF-8 validation ([std::str::from_utf8]), decimal
    printing and parsing of integers ([to_string], [str::parse::<u8>]),
    little-endian integers ([u32::from_le_bytes]), machine-width arithmetic,
    and the [Vec] operations [resize], [truncate], [sort] and [dedup].

    A [Vec<u8>] is a list of [ascii] (an [ascii] is exactly eight bits); a Rust
    [String] is a [string], its bytes being [String.list_ascii_of_string]. *)
From stdpp Require Export sorting.
From S2P Require Import Prelude.

Abbreviation bytes := (list ascii).

Definition u8_val (a : ascii) : Z := Z.of_N (N_of_ascii a).
Definition u8_of (z : Z) : ascii := ascii_of_N (Z.to_N (z `mod` 256)).

Lemma u8_val_range a : (0 <= u8_val a < 256)%Z.
Proof. unfold u8_val. pose proof (N_ascii_bounded a). lia. Qed.

Lemma u8_val_of z : (0 <= z < 256)%Z -> u8_val (u8_of z) = z.
Proof.
  intros Hz. unfold u8_val, u8_of. rewrite Z.mod_small by lia.
  rewrite N_ascii_embedding by lia. lia.
Qed.

Lemma u8_of_val a : u8_of (u8_val a) = a.
Proof.
  unfold u8_of. rewrite Z.mod_small by apply u8_val_range.
  unfold u8_val. rewrite N2Z.id. apply ascii_N_embedding.
Qed.

(** ** Machine integers *)
Definition u16_wrap (z : Z) : Z := (z `mod` 2 ^ 16)%Z.
Definition u32_wrap (z : Z) : Z := (z `mod` 2 ^ 32)%Z.
Definition usize_wrap (z : Z) : Z := (z `mod` 2 ^ 64)%Z.

(** ** Strings and UTF-8 *)
Definition as_bytes (s : string) : bytes := String.list_ascii_of_string s.
Definition string_of_bytes (b : bytes) : string := String.string_of_list_ascii b.

Definition byte_in (lo hi : Z) (a : ascii) : bool :=
  ((lo <=? u8_val a) && (u8_val a <=? hi))%Z.

(** Well-formed UTF-8, the byte ranges of the Unicode standard (what
    [core::str::from_utf8] accepts): no overlong form, no surrogate, nothing
    above U+10FFFF. *)
Fixpoint utf8_valid (b : bytes) : bool :=
  match b with
  | [] => true
  | b0 :: r0 =>
    if byte_in 0 127 b0 then utf8_valid r0
    else match r0 with
    | [] => false
    | b1 :: r1 =>
      if byte_in 194 223 b0 then byte_in 128 191 b1 && utf8_valid r1
      else match r1 with
      | [] => false
      | b2 :: r2 =>
        let second3 :=
          (byte_in 224 224 b0 && byte_in 160 191 b1) ||
          (byte_in 225 236 b0 && byte_in 128 191 b1) ||
          (byte_in 237 237 b0 && byte_in 128 159 b1) ||
          (byte_in 238 239 b0 && byte_in 128 191 b1) in
        if second3 then byte_in 128 191 b2 && utf8_valid r2
        else match r2 with
        | [] => false
        | b3 :: r3 =>
          let second4 :=
            (byte_in 240 240 b0 && byte_in 144 191 b1) ||
            (byte_in 241 243 b0 && byte_in 128 191 b1) ||
            (byte_in 244 244 b0 && byte_in 128 143 b1) in
          second4 && byte_in 128 191 b2 && byte_in 128 191 b3 && utf8_valid r3
        end
      end
    end
  end.

(** [str::from_utf8] / [String::from_utf8]. *)
Definition from_utf8 (b : bytes) : option string :=
  if utf8_valid b then Some (string_of_bytes b) else None.

(** The invariant of the Rust type [String]. *)
Definition is_utf8 (s : string) : bool := utf8_valid (as_bytes s).

Lemma as_bytes_inj s1 s2 : as_bytes s1 = as_bytes s2 -> s1 = s2.
Proof.
  intros H. rewrite <- (String.string_of_list_ascii_of_string s1),
    <- (String.string_of_list_ascii_of_string s2). unfold as_bytes in H. by rewrite H.
Qed.

Lemma from_utf8_as_bytes s : is_utf8 s = true -> from_utf8 (as_bytes s) = Some s.
Proof.
  intros H. unfold from_utf8, is_utf8 in *. rewrite H. f_equal.
  apply String.string_of_list_ascii_of_string.
Qed.

Lemma from_utf8_Some b s : from_utf8 b = Some s -> as_bytes s = b /\ is_utf8 s = true.
Proof.
  unfold from_utf8, is_utf8. destruct (utf8_valid b) eqn:Hb; [|done].
  intros [= <-]. unfold as_bytes, string_of_bytes.
  by rewrite String.list_ascii_of_string_of_list_ascii.
Qed.

(** ** Little-endian integers *)
Fixpoint from_le_bytes (b : bytes) : Z :=
  match b with [] => 0 | a :: r => u8_val a + 256 * from_le_bytes r end%Z.

Fixpoint to_le_bytes (w : nat) (z : Z) : bytes :=
  match w with 0%nat => [] | S w' => u8_of z :: to_le_bytes w' (z / 256)%Z end.

Lemma length_to_le_bytes w z : length (to_le_bytes w z) = w.
Proof. revert z. induction w; intros; simpl; auto. Qed.

Lemma from_le_bytes_range b : (0 <= from_le_bytes b < 256 ^ Z.of_nat (length b))%Z.
Proof.
  induction b as [|a b IH]; simpl; [lia|]. pose proof (u8_val_range a).
  rewrite Nat2Z.inj_succ, Z.pow_succ_r by lia. lia.
Qed.

Lemma from_to_le_bytes w z :
  (0 <= z < 256 ^ Z.of_nat w)%Z -> from_le_bytes (to_le_bytes w z) = z.
Proof.
  revert z. induction w as [|w IH]; intros z Hz; [simpl in *; lia|].
  rewrite Nat2Z.inj_succ, Z.pow_succ_r in Hz by lia.
  simpl to_le_bytes. simpl from_le_bytes. rewrite IH.
  - unfold u8_val, u8_of. pose proof (Z.mod_pos_bound z 256 ltac:(lia)).
    rewrite N_ascii_embedding by lia. rewrite Z2N.id by lia.
    pose proof (Z.div_mod z 256 ltac:(lia)). lia.
  - split; [apply Z.div_pos; lia|]. apply Z.div_lt_upper_bound; lia.
Qed.
Lemma to_from_le_bytes b : to_le_bytes (length b) (from_le_bytes b) = b.
Proof.
  induction b as [|a b IH]; [done|]. simpl. pose proof (u8_val_range a).
  assert (Hq : ((u8_val a + 256 * from_le_bytes b) / 256 = from_le_bytes b)%Z)
    by (symmetry; apply (Z.div_unique _ _ _ (u8_val a)); lia).
  rewrite Hq, IH. f_equal. unfold u8_of.
  replace (u8_val a + 256 * from_le_bytes b)%Z with (u8_val a + from_le_bytes b * 256)%Z by lia.
  rewrite Z_mod_plus_full, Z.mod_small by lia. unfold u8_val.
  by rewrite N2Z.id, ascii_N_embedding.
Qed.

(** ** Decimal integers *)

(** [u32::to_string], [u8::to_string]: decimal, no leading zero. *)
Definition int_to_string (z : Z) : string := pretty z.

Lemma int_to_string_inj z1 z2 : int_to_string z1 = int_to_string z2 -> z1 = z2.
Proof. apply (inj pretty). Qed.

Definition digit (a : ascii) : option Z :=
  if byte_in 48 57 a then Some (u8_val a - 48)%Z else None.

Fixpoint parse_u8_digits (acc : Z) (l : bytes) : option Z :=
  match l with
  | [] => Some acc
  | a :: r =>
    d ← digit a;
    let acc' := (acc * 10 + d)%Z in
    if (acc' <=? 255)%Z then parse_u8_digits acc' r else None
  end.

(** [str::parse::<u8>()]: an optional [+], at least one digit, no overflow. *)
Definition parse_u8 (s : string) : option Z :=
  match as_bytes s with
  | [] => None
  | [a] => parse_u8_digits 0 [a]
  | a :: r => if decide (a = "+"%char) then parse_u8_digits 0 r
              else parse_u8_digits 0 (a :: r)
  end.

Lemma parse_u8_to_string z : (0 <= z < 256)%Z -> parse_u8 (int_to_string z) = Some z.
Proof.
  intros Hz.
  assert (H : forallb (fun n => bool_decide
      (parse_u8 (int_to_string (Z.of_nat n)) = Some (Z.of_nat n))) (seq 0 256) = true)
    by (vm_compute; reflexivity).
  rewrite forallb_forall in H. specialize (H (Z.to_nat z)).
  rewrite bool_decide_eq_true, Z2Nat.id in H by lia. apply H, in_seq. lia.
Qed.

(** ** Vectors *)

(** [Vec::resize(n, x)] is stdpp's [resize], [Vec::truncate(n)] is [take]. *)
Definition zeroed (n : nat) : bytes := replicate n "000"%char.

Lemma length_zeroed n : length (zeroed n) = n.
Proof. apply length_replicate. Qed.

(** [Ord] for [String]: lexicographic on bytes. *)
Fixpoint bytes_le (l1 l2 : bytes) : bool :=
  match l1, l2 with
  | [], _ => true
  | _ :: _, [] => false
  | a :: r1, b :: r2 =>
    if (u8_val a <? u8_val b)%Z then true
    else if (u8_val b <? u8_val a)%Z then false else bytes_le r1 r2
  end.

Definition str_le (s1 s2 : string) : Prop := bytes_le (as_bytes s1) (as_bytes s2) = true.

#[export] Instance str_le_dec : RelDecision str_le.
Proof. intros s1 s2. unfold str_le. apply _. Defined.

Lemma u8_val_inj a b : u8_val a = u8_val b -> a = b.
Proof. intros H. by rewrite <- (u8_of_val a), H, u8_of_val. Qed.

#[export] Instance str_le_total : Total str_le.
Proof.
  intros s1 s2. unfold str_le. generalize (as_bytes s2). generalize (as_bytes s1).
  intros l1. induction l1 as [|a l1 IH]; intros [|b l2]; simpl; auto.
  destruct (Z.ltb_spec (u8_val a) (u8_val b)), (Z.ltb_spec (u8_val b) (u8_val a));
    auto; lia.
Qed.

#[export] Instance str_le_trans : Transitive str_le.
Proof.
  intros s1 s2 s3. unfold str_le. generalize (as_bytes s3), (as_bytes s2), (as_bytes s1).
  intros l3 l2 l1. revert l2 l3.
  induction l1 as [|a l1 IH]; intros [|b l2] [|c l3]; simpl; auto; try done.
  destruct (Z.ltb_spec (u8_val a) (u8_val b)), (Z.ltb_spec (u8_val b) (u8_val c)),
    (Z.ltb_spec (u8_val a) (u8_val c)); auto;
  destruct (Z.ltb_spec (u8_val b) (u8_val a)), (Z.ltb_spec (u8_val c) (u8_val b)),
    (Z.ltb_spec (u8_val c) (u8_val a)); try done; try lia. apply IH.
Qed.

#[export] Instance str_le_antisym : AntiSymm (=) str_le.
Proof.
  intros s1 s2 H12 H21. apply as_bytes_inj. revert H12 H21. unfold str_le.
  generalize (as_bytes s2), (as_bytes s1). intros l2 l1. revert l2.
  induction l1 as [|a l1 IH]; intros [|b l2]; simpl; try done.
  destruct (Z.ltb_spec (u8_val a) (u8_val b)), (Z.ltb_spec (u8_val b) (u8_val a));
    intros H1 H2; try discriminate; try lia.
  f_equal; [apply u8_val_inj; lia|auto].
Qed.

(** [Vec<String>::sort]. *)
Definition sort_strings (l : list string) : list string := merge_sort str_le l.

(** [Vec::dedup]: drop an element equal to the one before it. *)
Fixpoint dedup {A} `{EqDecision A} (l : list A) : list A :=
  match l with
  | [] => []
  | x :: r =>
    match r with
    | [] => [x]
    | y :: _ => if decide (x = y) then dedup r else x :: dedup r
    end
  end.

Lemma dedup_cons {A} `{EqDecision A} (x y : A) l :
  dedup (x :: y :: l) = if decide (x = y) then dedup (y :: l) else x :: dedup (y :: l).
Proof. done. Qed.

Lemma elem_of_dedup {A} `{EqDecision A} (x : A) l : x ∈ dedup l <-> x ∈ l.
Proof.
  induction l as [|a [|b l] IH]; [done|done|].
  rewrite dedup_cons. case_decide; subst.
  - rewrite IH. set_solver.
  - rewrite elem_of_cons, IH. set_solver.
Qed.

Lemma dedup_sorted_NoDup l : StronglySorted str_le l -> NoDup (dedup l).
Proof.
  induction l as [|a [|b l] IH]; intros Hs; [constructor|apply NoDup_singleton|].
  rewrite dedup_cons. inversion Hs as [|? ? Hs' Hall]; subst.
  case_decide as Hab; [by apply IH|]. constructor; [|by apply IH].
  rewrite elem_of_dedup. intros Hin. apply Hab.
  inversion Hall as [|? ? Hle _]; subst.
  apply list_elem_of_In in Hin. destruct Hin as [->|Hin]; [done|].
  inversion Hs' as [|? ? _ Hb]; subst. rewrite Forall_forall in Hb.
  apply (anti_symm str_le); [done|]. apply Hb. by apply list_elem_of_In.
Qed.

Lemma dedup_sorted l : StronglySorted str_le l -> StronglySorted str_le (dedup l).
Proof.
  induction l as [|a [|b l] IH]; intros Hs; [done|done|].
  rewrite dedup_cons. inversion Hs as [|? ? Hs' Hall]; subst.
  case_decide; [by apply IH|]. constructor; [by apply IH|].
  rewrite Forall_forall in *. intros x Hx. apply Hall. by apply elem_of_dedup.
Qed.

Lemma sort_strings_sorted l : StronglySorted str_le (sort_strings l).
Proof. apply StronglySorted_merge_sort; apply _. Qed.

Lemma elem_of_sort_strings x l : x ∈ sort_strings l <-> x ∈ l.
Proof. unfold sort_strings. by rewrite (merge_sort_Permutation str_le l). Qed.
