(* ===== verification/Interface.v ===== *)
(** * The vocabulary of the crates the service is written against

    The types of [parsec_interface] and [psa_crypto] that the service names:
    provider identifiers, opcodes, statuses, key attributes, the operations and
    their results, and the request and response headers.  Those crates are not
    part of this repository.  An enumeration lists the variants the service
    names and an [.._other] constructor for the ones it does not; a struct has
    the fields the service reads or writes.  Functions of the crates are fields
    of the class [ParsecInterface], and what the service relies on about them is
    the class [ParsecInterfaceLaws]. *)
From S2P Require Import Prelude RustStd.

(** ** Identifiers and statuses *)
Inductive ProviderId := Core | MbedCrypto | Pkcs11 | Tpm | CryptoAuthLib | TrustedService.
#[export] Instance ProviderId_eq_dec : EqDecision ProviderId.
Proof. solve_decision. Defined.
#[export] Instance ProviderId_countable : Countable ProviderId.
Proof.
  refine (inj_countable'
    (fun p => match p with Core => 0 | MbedCrypto => 1 | Pkcs11 => 2 | Tpm => 3
              | CryptoAuthLib => 4 | TrustedService => 5 end)
    (fun n => match n with 0 => Core | 1 => MbedCrypto | 2 => Pkcs11 | 3 => Tpm
              | 4 => CryptoAuthLib | _ => TrustedService end) _).
  by intros [].
Defined.

Inductive AuthType := NoAuth | Direct | UnixPeerCredentials | JwtSvid | AuthType_other.
#[export] Instance AuthType_eq_dec : EqDecision AuthType.
Proof. solve_decision. Defined.
#[export] Instance AuthType_countable : Countable AuthType.
Proof.
  refine (inj_countable'
    (fun p => match p with NoAuth => 0 | Direct => 1 | UnixPeerCredentials => 2
              | JwtSvid => 3 | AuthType_other => 4 end)
    (fun n => match n with 0 => NoAuth | 1 => Direct | 2 => UnixPeerCredentials
              | 3 => JwtSvid | _ => AuthType_other end) _).
  by intros [].
Defined.

Inductive BodyType := Protobuf | BodyType_other.
#[export] Instance BodyType_eq_dec : EqDecision BodyType.
Proof. solve_decision. Defined.

Inductive Opcode :=
  | OpPing | OpListProviders | OpListOpcodes | OpListAuthenticators | OpListKeys
  | OpListClients | OpDeleteClient
  | OpPsaGenerateKey | OpPsaImportKey | OpPsaExportPublicKey | OpPsaExportKey
  | OpPsaDestroyKey | OpPsaSignHash | OpPsaVerifyHash | OpPsaSignMessage
  | OpPsaVerifyMessage | OpPsaAsymmetricEncrypt | OpPsaAsymmetricDecrypt
  | OpPsaAeadEncrypt | OpPsaAeadDecrypt | OpPsaHashCompute | OpPsaHashCompare
  | OpPsaRawKeyAgreement | OpPsaGenerateRandom.
#[export] Instance Opcode_eq_dec : EqDecision Opcode.
Proof. solve_decision. Defined.

Definition all_opcodes : list Opcode :=
  [ OpPing; OpListProviders; OpListOpcodes; OpListAuthenticators; OpListKeys;
    OpListClients; OpDeleteClient; OpPsaGenerateKey; OpPsaImportKey;
    OpPsaExportPublicKey; OpPsaExportKey; OpPsaDestroyKey; OpPsaSignHash;
    OpPsaVerifyHash; OpPsaSignMessage; OpPsaVerifyMessage; OpPsaAsymmetricEncrypt;
    OpPsaAsymmetricDecrypt; OpPsaAeadEncrypt; OpPsaAeadDecrypt; OpPsaHashCompute;
    OpPsaHashCompare; OpPsaRawKeyAgreement; OpPsaGenerateRandom ].

#[export] Instance Opcode_countable : Countable Opcode.
Proof.
  refine (inj_countable'
    (fun o => match list_find (fun x => x = o) all_opcodes with
              | Some (i, _) => i | None => 0 end)
    (fun i => nth i all_opcodes OpPing) _).
  by intros [].
Defined.

Inductive ResponseStatus :=
  | Success | WrongProviderId | ContentTypeNotSupported | AcceptTypeNotSupported
  | ProviderNotRegistered | ProviderDoesNotExist | DeserializingBodyFailed
  | SerializingBodyFailed | OpcodeDoesNotExist | ResponseTooLarge
  | AuthenticationError | AuthenticatorDoesNotExist | AuthenticatorNotRegistered
  | KeyInfoManagerError | ConnectionError | InvalidEncoding | InvalidHeader
  | BodySizeExceedsLimit | AdminOperation | NotAuthenticated
  | PsaErrorGenericError | PsaErrorNotPermitted | PsaErrorNotSupported
  | PsaErrorInvalidArgument | PsaErrorAlreadyExists | PsaErrorDoesNotExist
  | PsaErrorInsufficientMemory | PsaErrorInsufficientStorage
  | PsaErrorCommunicationFailure | PsaErrorStorageFailure | PsaErrorHardwareFailure
  | PsaErrorInsufficientEntropy | PsaErrorInvalidSignature | PsaErrorCorruptionDetected
  | ResponseStatus_other (code : Z).
#[export] Instance ResponseStatus_eq_dec : EqDecision ResponseStatus.
Proof. solve_decision. Defined.

(** [parsec_interface::requests::Result]. *)
Abbreviation Result := (result ResponseStatus).

(** ** Algorithms *)
Inductive Hash :=
  | Sha1 | Sha224 | Sha256 | Sha384 | Sha512 | Sha3_256 | Sha3_384 | Sha3_512
  | Ripemd160 | Hash_other (n : nat).
Inductive SignHash := SignHash_Any | SignHash_Specific (h : Hash).
Inductive FullLengthMac := Hmac_mac (hash_alg : Hash) | CbcMac | Cmac | FullLengthMac_other (n : nat).
Inductive Mac := Mac_FullLength (m : FullLengthMac) | Mac_Truncated (mac_alg : FullLengthMac) (mac_length : Z).
Inductive Cipher := Cipher_Ctr | Cipher_Cfb | Cipher_Ofb | Cipher_CbcPkcs7 | Cipher_other (n : nat).
Inductive AeadWithDefaultLengthTag := Ccm | Gcm | AeadWithDefaultLengthTag_other (n : nat).
Inductive Aead :=
  | Aead_WithDefaultLengthTag (a : AeadWithDefaultLengthTag)
  | Aead_WithShortenedTag (aead_alg : AeadWithDefaultLengthTag) (tag_length : Z).
Inductive AsymmetricSignature :=
  | RsaPkcs1v15Sign (hash_alg : SignHash) | Ecdsa (hash_alg : SignHash)
  | DeterministicEcdsa (hash_alg : SignHash) | AsymmetricSignature_other (n : nat).
Inductive AsymmetricEncryption :=
  | RsaPkcs1v15Crypt | RsaOaep (hash_alg : Hash) | AsymmetricEncryption_other (n : nat).
Inductive RawKeyAgreement := Ecdh | RawKeyAgreement_other (n : nat).
Inductive KeyAgreement :=
  | KeyAgreement_Raw (a : RawKeyAgreement)
  | KeyAgreement_WithKeyDerivation (ka_alg : RawKeyAgreement) (kdf_alg : nat).
Inductive Algorithm :=
  | Alg_Hash (h : Hash) | Alg_Mac (m : Mac) | Alg_Cipher (c : Cipher) | Alg_Aead (a : Aead)
  | Alg_AsymmetricSignature (a : AsymmetricSignature)
  | Alg_AsymmetricEncryption (a : AsymmetricEncryption)
  | Alg_KeyAgreement (k : KeyAgreement) | Alg_other (n : nat).

(** ** Key attributes *)
Inductive EccFamily := SecpR1 | SecpK1 | BrainpoolPR1 | Montgomery | EccFamily_other (n : nat).
Inductive KeyType :=
  | RawData | Hmac | Derive | Aes | RsaKeyPair | RsaPublicKey
  | EccKeyPair (curve_family : EccFamily) | EccPublicKey (curve_family : EccFamily)
  | DhKeyPair (group_family : nat) | DhPublicKey (group_family : nat)
  | KeyType_other (n : nat).
Inductive Lifetime := Volatile | Persistent | Lifetime_other (n : Z).
Record UsageFlags := {
  export : bool; copy : bool; cache : bool; encrypt : bool; decrypt : bool;
  sign_message : bool; verify_message : bool; sign_hash : bool; verify_hash : bool;
  derive : bool }.
Record Policy := { usage_flags : UsageFlags; permitted_algorithms : Algorithm }.
Record Attributes := { lifetime : Lifetime; key_type : KeyType; bits : Z; policy : Policy }.

#[export] Instance Hash_eq_dec : EqDecision Hash. Proof. solve_decision. Defined.
#[export] Instance SignHash_eq_dec : EqDecision SignHash. Proof. solve_decision. Defined.
#[export] Instance FullLengthMac_eq_dec : EqDecision FullLengthMac. Proof. solve_decision. Defined.
#[export] Instance Mac_eq_dec : EqDecision Mac. Proof. solve_decision. Defined.
#[export] Instance Cipher_eq_dec : EqDecision Cipher. Proof. solve_decision. Defined.
#[export] Instance AeadTag_eq_dec : EqDecision AeadWithDefaultLengthTag. Proof. solve_decision. Defined.
#[export] Instance Aead_eq_dec : EqDecision Aead. Proof. solve_decision. Defined.
#[export] Instance AsymSign_eq_dec : EqDecision AsymmetricSignature. Proof. solve_decision. Defined.
#[export] Instance AsymEnc_eq_dec : EqDecision AsymmetricEncryption. Proof. solve_decision. Defined.
#[export] Instance RawKA_eq_dec : EqDecision RawKeyAgreement. Proof. solve_decision. Defined.
#[export] Instance KA_eq_dec : EqDecision KeyAgreement. Proof. solve_decision. Defined.
#[export] Instance Algorithm_eq_dec : EqDecision Algorithm. Proof. solve_decision. Defined.
#[export] Instance EccFamily_eq_dec : EqDecision EccFamily. Proof. solve_decision. Defined.
#[export] Instance KeyType_eq_dec : EqDecision KeyType. Proof. solve_decision. Defined.
#[export] Instance Lifetime_eq_dec : EqDecision Lifetime. Proof. solve_decision. Defined.
#[export] Instance UsageFlags_eq_dec : EqDecision UsageFlags. Proof. solve_decision. Defined.
#[export] Instance Policy_eq_dec : EqDecision Policy. Proof. solve_decision. Defined.
#[export] Instance Attributes_eq_dec : EqDecision Attributes. Proof. solve_decision. Defined.

(** ** Operations *)
Record GenerateKeyOp := { gk_key_name : string; gk_attributes : Attributes }.
Record ImportKeyOp := { ik_key_name : string; ik_attributes : Attributes; ik_data : bytes }.
Record SignHashOp := { sh_key_name : string; sh_alg : AsymmetricSignature; sh_hash : bytes }.
Record VerifyHashOp := { vh_key_name : string; vh_alg : AsymmetricSignature;
  vh_hash : bytes; vh_signature : bytes }.
Record SignMessageOp := { sm_key_name : string; sm_alg : AsymmetricSignature; sm_message : bytes }.
Record VerifyMessageOp := { vm_key_name : string; vm_alg : AsymmetricSignature;
  vm_message : bytes; vm_signature : bytes }.
Record AsymEncryptOp := { ae_key_name : string; ae_alg : AsymmetricEncryption;
  ae_plaintext : bytes; ae_salt : option bytes }.
Record AsymDecryptOp := { ad_key_name : string; ad_alg : AsymmetricEncryption;
  ad_ciphertext : bytes; ad_salt : option bytes }.
Record AeadEncryptOp := { aee_key_name : string; aee_alg : Aead; aee_nonce : bytes;
  aee_additional_data : bytes; aee_plaintext : bytes }.
Record AeadDecryptOp := { aed_key_name : string; aed_alg : Aead; aed_nonce : bytes;
  aed_additional_data : bytes; aed_ciphertext : bytes }.
Record HashComputeOp := { hc_alg : Hash; hc_input : bytes }.
Record HashCompareOp := { hp_alg : Hash; hp_input : bytes; hp_hash : bytes }.
Record RawKeyAgreementOp := { ka_alg_op : RawKeyAgreement; ka_private_key_name : string;
  ka_peer_key : bytes }.
Record GenerateRandomOp := { gr_size : Z }.

Inductive NativeOperation :=
  | ListProviders | ListOpcodes (provider_id : ProviderId) | Ping | ListAuthenticators
  | ListKeys | ListClients | DeleteClient (client : string)
  | PsaGenerateKey (op : GenerateKeyOp) | PsaImportKey (op : ImportKeyOp)
  | PsaExportPublicKey (key_name : string) | PsaExportKey (key_name : string)
  | PsaDestroyKey (key_name : string)
  | PsaSignHash (op : SignHashOp) | PsaVerifyHash (op : VerifyHashOp)
  | PsaSignMessage (op : SignMessageOp) | PsaVerifyMessage (op : VerifyMessageOp)
  | PsaAsymmetricEncrypt (op : AsymEncryptOp) | PsaAsymmetricDecrypt (op : AsymDecryptOp)
  | PsaAeadEncrypt (op : AeadEncryptOp) | PsaAeadDecrypt (op : AeadDecryptOp)
  | PsaHashCompute (op : HashComputeOp) | PsaHashCompare (op : HashCompareOp)
  | PsaRawKeyAgreement (op : RawKeyAgreementOp) | PsaGenerateRandom (op : GenerateRandomOp).

(** [NativeOperation::opcode]. *)
Definition operation_opcode (op : NativeOperation) : Opcode :=
  match op with
  | ListProviders => OpListProviders | ListOpcodes _ => OpListOpcodes | Ping => OpPing
  | ListAuthenticators => OpListAuthenticators | ListKeys => OpListKeys
  | ListClients => OpListClients | DeleteClient _ => OpDeleteClient
  | PsaGenerateKey _ => OpPsaGenerateKey | PsaImportKey _ => OpPsaImportKey
  | PsaExportPublicKey _ => OpPsaExportPublicKey | PsaExportKey _ => OpPsaExportKey
  | PsaDestroyKey _ => OpPsaDestroyKey | PsaSignHash _ => OpPsaSignHash
  | PsaVerifyHash _ => OpPsaVerifyHash | PsaSignMessage _ => OpPsaSignMessage
  | PsaVerifyMessage _ => OpPsaVerifyMessage
  | PsaAsymmetricEncrypt _ => OpPsaAsymmetricEncrypt
  | PsaAsymmetricDecrypt _ => OpPsaAsymmetricDecrypt
  | PsaAeadEncrypt _ => OpPsaAeadEncrypt | PsaAeadDecrypt _ => OpPsaAeadDecrypt
  | PsaHashCompute _ => OpPsaHashCompute | PsaHashCompare _ => OpPsaHashCompare
  | PsaRawKeyAgreement _ => OpPsaRawKeyAgreement
  | PsaGenerateRandom _ => OpPsaGenerateRandom
  end.

(** ** Results of operations *)
Record ProviderInfo := { pi_uuid : string; pi_description : string; pi_vendor : string;
  pi_version_maj : Z; pi_version_min : Z; pi_version_rev : Z; pi_id : ProviderId }.
Record AuthenticatorInfo := { ai_description : string; ai_version_maj : Z;
  ai_version_min : Z; ai_version_rev : Z; ai_id : AuthType }.
(** [list_keys::KeyInfo]. *)
Record ListedKey := { lk_provider_id : ProviderId; lk_name : string; lk_attributes : Attributes }.

Inductive NativeResult :=
  | RListProviders (providers : list ProviderInfo)
  | RListOpcodes (opcodes : gset Opcode)
  | RPing (wire_protocol_version_maj wire_protocol_version_min : Z)
  | RListAuthenticators (authenticators : list AuthenticatorInfo)
  | RListKeys (keys : list ListedKey)
  | RListClients (clients : list string)
  | RDeleteClient | RPsaGenerateKey | RPsaImportKey
  | RPsaExportPublicKey (data : bytes) | RPsaExportKey (data : bytes)
  | RPsaDestroyKey | RPsaSignHash (signature : bytes) | RPsaVerifyHash
  | RPsaSignMessage (signature : bytes) | RPsaVerifyMessage
  | RPsaAsymmetricEncrypt (ciphertext : bytes) | RPsaAsymmetricDecrypt (plaintext : bytes)
  | RPsaAeadEncrypt (ciphertext : bytes) | RPsaAeadDecrypt (plaintext : bytes)
  | RPsaHashCompute (hash : bytes) | RPsaHashCompare
  | RPsaRawKeyAgreement (shared_secret : bytes) | RPsaGenerateRandom (random_bytes : bytes).

(** ** Requests and responses *)
Record RequestHeader := { rh_provider : ProviderId; rh_content_type : BodyType;
  rh_accept_type : BodyType; rh_auth_type : AuthType; rh_opcode : Opcode }.
Record Request := { req_header : RequestHeader; req_body : bytes; req_auth : bytes }.
Record ResponseHeader := { sh_provider : ProviderId; sh_opcode : Opcode; sh_status : ResponseStatus }.
Record Response := { resp_header : ResponseHeader; resp_body : bytes }.

(** [response.body = body] and [response.header.status = status]. *)
Definition set_body (b : bytes) (r : Response) : Response :=
  {| resp_header := resp_header r; resp_body := b |}.
Definition set_status (s : ResponseStatus) (r : Response) : Response :=
  {| resp_header := {| sh_provider := sh_provider (resp_header r);
                       sh_opcode := sh_opcode (resp_header r); sh_status := s |};
     resp_body := resp_body r |}.
Definition status (r : Response) : ResponseStatus := sh_status (resp_header r).

(** ** Functions of the interface crate *)
Class ParsecInterface := {
  (** [Opcode::is_core], [Opcode::is_admin] *)
  is_core : Opcode -> bool;
  is_admin_op : Opcode -> bool;
  (** [ProviderId as u8] and [ProviderId::try_from] *)
  provider_id_u8 : ProviderId -> Z;
  provider_id_try_from : Z -> option ProviderId;
  (** [Response::from_request_header] and [Response::from_status] *)
  from_request_header : RequestHeader -> ResponseStatus -> Response;
  from_status : ResponseStatus -> Response;
}.

Class ParsecInterfaceLaws `{ParsecInterface} : Prop := {
  provider_id_u8_range p : (0 <= provider_id_u8 p < 256)%Z;
  provider_id_round p : provider_id_try_from (provider_id_u8 p) = Some p;
  provider_id_try_from_u8 z p : provider_id_try_from z = Some p -> provider_id_u8 p = z;
  from_request_header_status h s : status (from_request_header h s) = s;
  from_request_header_body h s : resp_body (from_request_header h s) = [];
  from_status_status s : status (from_status s) = s;
  is_admin_delete_client : is_admin_op OpDeleteClient = true;
  is_admin_list_clients : is_admin_op OpListClients = true;
}.

(** [parsec_interface::operations::Convert], the marshalling of bodies. *)
Record Convert := {
  body_to_operation : bytes -> Opcode -> Result NativeOperation;
  result_to_body : NativeResult -> Result bytes;
}.

(** A converter decodes a body into an operation of the opcode it is given and
    does not panic. *)
Definition converter_faithful (c : Convert) : Prop :=
  (forall b oc op, body_to_operation c b oc = Ok op -> operation_opcode op = oc) /\
  (forall b oc, body_to_operation c b oc <> Panic) /\
  (forall r, result_to_body c r <> Panic).
