(* ===== verification/Authenticators.v ===== *)
(** * Request authentication ([src/authenticators])

    The [Authenticate] trait is the record [Authenticate]; each authenticator is
    a module with its state, its constructor and its two methods.  An
    authentication turns the request's authentication field and the connection's
    metadata into an [Application]: a name and whether it is an administrator. *)
From S2P Require Import Prelude RustStd Interface.

(** ** Application identities ([src/authenticators/mod.rs]) *)
Record ApplicationName := { app_name_string : string }.

#[export] Instance ApplicationName_eq_dec : EqDecision ApplicationName.
Proof. solve_decision. Defined.
#[export] Instance ApplicationName_countable : Countable ApplicationName.
Proof.
  refine (inj_countable' app_name_string (fun s => {| app_name_string := s |}) _).
  by intros [].
Defined.

Record Application := { application_name : ApplicationName; application_is_admin : bool }.
#[export] Instance Application_eq_dec : EqDecision Application.
Proof. solve_decision. Defined.

(** [ApplicationName::from_name] *)
Definition from_name (name : string) : ApplicationName := {| app_name_string := name |}.

(** [Application::new] *)
Definition Application_new (name : string) (is_admin : bool) : Application :=
  {| application_name := from_name name; application_is_admin := is_admin |}.

(** [Application::is_admin], [Application::get_name] and
    [From<Application> for ApplicationName] *)
Definition is_admin (app : Application) : bool := application_is_admin app.
Definition get_name (app : Application) : ApplicationName := application_name app.
Definition into_name (app : Application) : ApplicationName := application_name app.

(** [utils::config::Admin] *)
Record Admin := { admin_name : string }.

(** [AdminList] and [AdminList::is_admin] *)
Definition AdminList := list Admin.
Definition AdminList_is_admin (admins : AdminList) (app_name : string) : bool :=
  existsb (fun admin => bool_decide (admin_name admin = app_name)) admins.

(** [front::listener::ConnectionMetadata] *)
Inductive ConnectionMetadata :=
  | UnixPeerCredentialsMeta (uid gid : Z) (pid : option Z).

(** The trait [Authenticate]. *)
Record Authenticate := {
  trait_describe : Result AuthenticatorInfo;
  trait_authenticate : bytes -> option ConnectionMetadata -> Result Application;
}.

(** An authenticator grants administrator rights to exactly the applications
    named in its list, and it never panics. *)
Record authenticator_honours (admins : AdminList) (a : Authenticate) : Prop := {
  honours_admins buf meta app :
    trait_authenticate a buf meta = Ok app ->
    is_admin app = true <-> exists adm, adm ∈ admins /\
      admin_name adm = app_name_string (get_name app);
  honours_no_panic buf meta : trait_authenticate a buf meta <> Panic;
}.

Lemma AdminList_is_admin_iff admins name :
  AdminList_is_admin admins name = true <->
  exists adm, adm ∈ admins /\ admin_name adm = name.
Proof.
  unfold AdminList_is_admin. rewrite existsb_exists. split.
  - intros (adm & Hin & Heq). exists adm. rewrite list_elem_of_In.
    split; [done|]. by apply bool_decide_eq_true in Heq.
  - intros (adm & Hin & Heq). exists adm. rewrite <- list_elem_of_In.
    split; [done|]. by apply bool_decide_eq_true.
Qed.
#[export] Hint Resolve AdminList_is_admin_iff : parsec.

(** ** Direct authentication ([direct_authenticator/mod.rs]) *)
Module DirectAuthenticator.
Record t := { admins : AdminList }.

Definition new (admins : list Admin) : t := {| admins := admins |}.

Definition describe : Result AuthenticatorInfo :=
  Ok {| ai_description :=
          "Directly parses the authentication field as a UTF-8 string and uses that as the application identity. Should be used for testing only.";
        ai_version_maj := 0; ai_version_min := 1; ai_version_rev := 0;
        ai_id := Direct |}.

Definition authenticate (self : t) (auth : bytes) (_ : option ConnectionMetadata)
    : Result Application :=
  match auth with
  | [] => Err AuthenticationError
  | _ =>
    match from_utf8 auth with
    | Some str =>
      let app_name := str in
      let is_admin := AdminList_is_admin (admins self) app_name in
      Ok (Application_new app_name is_admin)
    | None => Err AuthenticationError
    end
  end.

Definition impl (self : t) : Authenticate :=
  {| trait_describe := describe; trait_authenticate := authenticate self |}.
End DirectAuthenticator.

(** ** Unix peer credentials ([unix_peer_credentials_authenticator/mod.rs]) *)
Module UnixPeerCredentialsAuthenticator.
Record t := { admins : AdminList }.

Definition new (admins : list Admin) : t := {| admins := admins |}.

Definition describe : Result AuthenticatorInfo :=
  Ok {| ai_description :=
          "Uses Unix peer credentials to authenticate the client. Verifies that the self-declared Unix user identifier (UID) in the request's authentication header matches that which is found from the peer credentials.";
        ai_version_maj := 0; ai_version_min := 1; ai_version_rev := 0;
        ai_id := UnixPeerCredentials |}.

Definition EXPECTED_UID_SIZE_BYTES : nat := 4.

Definition authenticate (self : t) (auth : bytes) (meta : option ConnectionMetadata)
    : Result Application :=
  let expected_uid_bytes := auth in
  expected_uid ← (if decide (length expected_uid_bytes = EXPECTED_UID_SIZE_BYTES)
                  then Ok expected_uid_bytes else Err AuthenticationError);
  let expected_uid := from_le_bytes expected_uid in
  meta ← ok_or meta AuthenticationError;
  let '(UnixPeerCredentialsMeta uid _gid _pid) := meta in
  if decide (uid = expected_uid) then
    let app_name := int_to_string uid in
    let is_admin := AdminList_is_admin (admins self) app_name in
    Ok (Application_new app_name is_admin)
  else Err AuthenticationError.

Definition impl (self : t) : Authenticate :=
  {| trait_describe := describe; trait_authenticate := authenticate self |}.
End UnixPeerCredentialsAuthenticator.

(** ** JWT-SVID ([jwt_svid_authenticator/mod.rs])

    The SPIFFE Workload API client is outside the repository: its
    [validate_jwt_token], from an audience and a token to the SPIFFE identity,
    is a field of the client. *)
Module JwtSvidAuthenticator.
Record WorkloadApiClient := { validate_jwt_token : string -> string -> option string }.
Record t := { client : WorkloadApiClient; admins : AdminList }.

Definition new (connect : string -> option WorkloadApiClient)
    (workload_endpoint : string) (admins : list Admin) : option t :=
  match connect workload_endpoint with
  | Some client => Some {| client := client; admins := admins |}
  | None => None
  end.

Definition describe : Result AuthenticatorInfo :=
  Ok {| ai_description :=
          "Authenticator validating a JWT SPIFFE Verifiable Identity Document";
        ai_version_maj := 0; ai_version_min := 1; ai_version_rev := 0;
        ai_id := JwtSvid |}.

Definition authenticate (self : t) (auth : bytes) (_ : option ConnectionMetadata)
    : Result Application :=
  svid ← ok_or (from_utf8 auth) InvalidEncoding;
  spiffe_id ← ok_or (validate_jwt_token (client self) "parsec" svid) AuthenticationError;
  let app_name := spiffe_id in
  let is_admin := AdminList_is_admin (admins self) app_name in
  Ok (Application_new app_name is_admin).

Definition impl (self : t) : Authenticate :=
  {| trait_describe := describe; trait_authenticate := authenticate self |}.
End JwtSvidAuthenticator.

(** ** Functional behaviour *)
Section Behaviour.
Import UnixPeerCredentialsAuthenticator.

Lemma unix_authenticate_cases self auth meta :
  authenticate self auth meta =
  match meta with
  | Some (UnixPeerCredentialsMeta uid _ _) =>
    if decide (length auth = 4 /\ from_le_bytes auth = uid)
    then Ok (Application_new (int_to_string uid)
               (AdminList_is_admin (admins self) (int_to_string uid)))
    else Err AuthenticationError
  | None => Err AuthenticationError
  end.
Proof.
  unfold authenticate, EXPECTED_UID_SIZE_BYTES.
  destruct meta as [[uid gid pid]|]; run_unfold;
    repeat case_decide; naive_solver.
Qed.
End Behaviour.

Lemma direct_honours self :
  authenticator_honours (DirectAuthenticator.admins self) (DirectAuthenticator.impl self).
Proof.
  split; simpl; unfold DirectAuthenticator.authenticate.
  - intros [|c buf] meta app; [done|].
    destruct (from_utf8 (c :: buf)); intros [= <-]. apply AdminList_is_admin_iff.
  - intros [|c buf] meta; [done|]. by destruct (from_utf8 (c :: buf)).
Qed.

Lemma unix_honours self :
  authenticator_honours (UnixPeerCredentialsAuthenticator.admins self)
    (UnixPeerCredentialsAuthenticator.impl self).
Proof.
  split; simpl; intros buf meta; rewrite unix_authenticate_cases.
  - intros app. repeat case_match; intros; simplify_eq. apply AdminList_is_admin_iff.
  - by repeat case_match.
Qed.

Lemma jwt_honours self :
  authenticator_honours (JwtSvidAuthenticator.admins self) (JwtSvidAuthenticator.impl self).
Proof.
  split; simpl; unfold JwtSvidAuthenticator.authenticate.
  - intros buf meta app. run_unfold. repeat case_match; intros; simplify_eq.
    apply AdminList_is_admin_iff.
  - intros buf meta. run_unfold. by repeat case_match.
Qed.

(** The direct authenticator accepts exactly the non-empty well-formed
    UTF-8 authentication fields; the application name is then the field itself,
    byte for byte, and every refusal is an authentication error. *)
Theorem direct_authenticate_spec self auth meta :
  match DirectAuthenticator.authenticate self auth meta with
  | Ok app => auth <> [] /\ utf8_valid auth = true /\
              as_bytes (app_name_string (get_name app)) = auth /\
              is_admin app = AdminList_is_admin (DirectAuthenticator.admins self)
                               (app_name_string (get_name app))
  | Err e => e = AuthenticationError /\ (auth = [] \/ utf8_valid auth = false)
  | Panic => False
  end.
Proof.
  unfold DirectAuthenticator.authenticate. destruct auth as [|c auth]; [auto|].
  destruct (from_utf8 (c :: auth)) as [s|] eqn:Hs.
  - apply from_utf8_Some in Hs as [Hb Hu]. simpl. unfold is_utf8 in Hu.
    rewrite Hb in Hu. auto.
  - unfold from_utf8 in Hs. destruct (utf8_valid (c :: auth)); naive_solver.
Qed.

(** C36: with Unix peer credentials, authentication succeeds exactly when the
    request declares, as a four-byte little-endian integer, the user identifier
    the kernel reports for the peer: for each peer there is one field that is
    accepted, and every other one, or a connection without credentials, is an
    authentication error.  The application name is the identifier in decimal, so
    two peers get the same name only if they are the same user; it is an
    administrator exactly when that name is in the list. *)
Theorem unix_authenticate_spec self auth uid gid pid :
  (0 <= uid < 2 ^ 32)%Z ->
  let authenticate := UnixPeerCredentialsAuthenticator.authenticate in
  let result := authenticate self auth (Some (UnixPeerCredentialsMeta uid gid pid)) in
  (auth = to_le_bytes 4 uid -> exists app, result = Ok app /\
     get_name app = from_name (int_to_string uid) /\
     (is_admin app = true <-> exists adm,
        adm ∈ UnixPeerCredentialsAuthenticator.admins self /\
        admin_name adm = int_to_string uid)) /\
  (auth <> to_le_bytes 4 uid -> result = Err AuthenticationError) /\
  authenticate self auth None = Err AuthenticationError /\
  (forall self' auth' uid' gid' pid' app app', result = Ok app ->
     authenticate self' auth' (Some (UnixPeerCredentialsMeta uid' gid' pid')) = Ok app' ->
     get_name app' = get_name app <-> uid' = uid).
Proof.
  intros Huid. cbv zeta. setoid_rewrite unix_authenticate_cases. split_and!.
  - intros ->. rewrite decide_True; [|split; [apply length_to_le_bytes|by apply from_to_le_bytes]].
    eexists. split_and!; [done|done|]. apply AdminList_is_admin_iff.
  - intros Hne. rewrite decide_False; [done|]. intros [Hl Hu]. apply Hne. subst uid.
    rewrite <- Hl. by rewrite to_from_le_bytes.
  - done.
  - intros self' auth' uid' gid' pid' app app'. case_decide; [|done]. intros [= <-].
    case_decide; [|done]. intros [= <-]. simpl. split; [|by intros ->].
    intros [= Heq]. by apply int_to_string_inj.
Qed.

Lemma unix_authenticate_spec_witness :
  exists app, UnixPeerCredentialsAuthenticator.authenticate
    {| UnixPeerCredentialsAuthenticator.admins := [] |} (to_le_bytes 4 1000)
    (Some (UnixPeerCredentialsMeta 1000 100 None)) = Ok app /\
    get_name app = from_name "1000".
Proof.
  destruct (unix_authenticate_spec {| UnixPeerCredentialsAuthenticator.admins := [] |}
    (to_le_bytes 4 1000) 1000 100 None) as [Hok _]; [lia|].
  destruct (Hok eq_refl) as (app & Hrun & Hname & _). exists app. split; [exact Hrun|].
  rewrite Hname. vm_compute. reflexivity.
Defined.

(** C37: whatever the authenticator, an authenticated application is an
    administrator exactly when its name is in the configured list. *)
Theorem authenticators_admin_rights admins (auth : Authenticate) buf meta app :
  (auth = DirectAuthenticator.impl (DirectAuthenticator.new admins) \/
   auth = UnixPeerCredentialsAuthenticator.impl
            (UnixPeerCredentialsAuthenticator.new admins) \/
   exists connect endpoint jwt,
     JwtSvidAuthenticator.new connect endpoint admins = Some jwt /\
     auth = JwtSvidAuthenticator.impl jwt) ->
  trait_authenticate auth buf meta = Ok app ->
  is_admin app = true <->
  exists adm, adm ∈ admins /\ admin_name adm = app_name_string (get_name app).
Proof.
  intros [->|[->|(connect & endpoint & jwt & Hnew & ->)]] Hauth.
  - exact (honours_admins _ _ (direct_honours (DirectAuthenticator.new admins)) _ _ _ Hauth).
  - exact (honours_admins _ _
      (unix_honours (UnixPeerCredentialsAuthenticator.new admins)) _ _ _ Hauth).
  - assert (JwtSvidAuthenticator.admins jwt = admins) as <-.
    { unfold JwtSvidAuthenticator.new in Hnew.
      destruct (connect endpoint); naive_solver. }
    exact (honours_admins _ _ (jwt_honours jwt) _ _ _ Hauth).
Qed.

Lemma authenticators_admin_rights_witness :
  exists app, DirectAuthenticator.authenticate
      (DirectAuthenticator.new [{| admin_name := "root" |}]) (as_bytes "root") None = Ok app /\
    is_admin app = true.
Proof.
  exists (Application_new "root" true). split; [vm_compute; reflexivity|].
  apply (authenticators_admin_rights [{| admin_name := "root" |}]
    (DirectAuthenticator.impl (DirectAuthenticator.new [{| admin_name := "root" |}]))
    (as_bytes "root") None).
  - by left.
  - vm_compute. reflexivity.
  - exists {| admin_name := "root" |}. split; [left|reflexivity].
Defined.
