(* ===== verification/Fs.v ===== *)
(** * The file system seen by the service ([std::fs], [std::path])

    A file system is a finite map from paths (lists of components) to nodes; the
    empty path is the root and is a directory.  Every call that can fail in the
    environment (a full disk, a permission, a removed device) first consumes one
    entry of [faults]: [None] lets the call proceed, [Some n] makes it fail after
    [n] units of its work (directories made, bytes written).  An exhausted list
    means no further fault, so a statement over all fault lists covers every
    pattern of failures, and [faults = []] is a healthy disk. *)
From S2P Require Import Prelude RustStd.

Abbreviation path := (list string).
Inductive node := File (data : bytes) | Dir.
#[export] Instance node_eq_dec : EqDecision node.
Proof. solve_decision. Defined.

Record fs := { nodes : gmap path node; faults : list (option nat) }.
Definition with_nodes (m : gmap path node) (s : fs) : fs :=
  {| nodes := m; faults := faults s |}.

(** [std::io::Error], its message. *)
Abbreviation io_error := string.

(** [Path::join] for a component without a separator; joining [""] adds a
    trailing slash only. *)
Definition join (p : path) (s : string) : path :=
  if decide (s = "") then p else p ++ [s].

Definition is_dir (m : gmap path node) (p : path) : bool :=
  bool_decide (p = []) || bool_decide (m !! p = Some Dir).
Definition is_file (m : gmap path node) (p : path) : bool :=
  match m !! p with Some (File _) => true | _ => false end.

(** The fault of the next call. *)
Definition next_fault (s : fs) : option nat * fs :=
  match faults s with
  | [] => (None, s)
  | f :: r => (f, {| nodes := nodes s; faults := r |})
  end.

(** A call: on a fault, [failing n] is what is left on the disk. *)
Definition call {A : Type} (failing : nat -> gmap path node -> gmap path node)
    (m : ST fs io_error A) : ST fs io_error A := fun s =>
  let '(f, s') := next_fault s in
  match f with
  | Some n => (Err "I/O error", with_nodes (failing n (nodes s')) s')
  | None => m s'
  end.

Definition no_effect (_ : nat) (m : gmap path node) : gmap path node := m.

(** [Path::exists]: an error while reading the metadata answers [false]. *)
Definition exists_ (p : path) : ST fs io_error bool := fun s =>
  let '(f, s') := next_fault s in
  match f with
  | Some _ => (Ok false, s')
  | None => (Ok (is_dir (nodes s') p || is_file (nodes s') p), s')
  end.

(** The non-empty prefixes of a path, the shortest first. *)
Fixpoint prefixes_from (pre p : path) : list path :=
  match p with
  | [] => []
  | x :: r => (pre ++ [x]) :: prefixes_from (pre ++ [x]) r
  end.
Definition prefixes (p : path) : list path := prefixes_from [] p.

Definition mkdir (m : gmap path node) (p : path) : gmap path node :=
  match m !! p with None => <[p := Dir]> m | Some _ => m end.

(** [fs::create_dir_all] *)
Definition create_dir_all (p : path) : ST fs io_error unit :=
  call (fun n m => foldl mkdir m (take n (prefixes p))) (fun s =>
    if existsb (is_file (nodes s)) (prefixes p) then (Err "Not a directory", s)
    else (Ok tt, with_nodes (foldl mkdir (nodes s) (prefixes p)) s)).

(** [fs::remove_file] *)
Definition remove_file (p : path) : ST fs io_error unit :=
  call no_effect (fun s =>
    match nodes s !! p with
    | Some (File _) => (Ok tt, with_nodes (delete p (nodes s)) s)
    | Some Dir => (Err "Is a directory", s)
    | None => (Err (if is_dir (nodes s) p then "Is a directory" else "No such file"), s)
    end).

(** [File::create]: truncates an existing file. *)
Definition create (p : path) : ST fs io_error unit :=
  call no_effect (fun s =>
    if is_dir (nodes s) p then (Err "Is a directory", s)
    else if is_dir (nodes s) (removelast p)
    then (Ok tt, with_nodes (<[p := File []]> (nodes s)) s)
    else (Err "No such file", s)).

(** [Write::write_all] on the file just created: a fault leaves a prefix of
    the data on the disk. *)
Definition write_all (p : path) (data : bytes) : ST fs io_error unit :=
  call (fun n m => <[p := File (take n data)]> m) (fun s =>
    (Ok tt, with_nodes (<[p := File data]> (nodes s)) s)).

(** The child named by [q] in directory [p]. *)
Definition child_of (p q : path) : option path :=
  match decide (length q = S (length p) /\ take (length p) q = p) with
  | left _ => Some q
  | right _ => None
  end.

(** [Path::read_dir]: the entries in an unspecified order. *)
Definition read_dir (p : path) : ST fs io_error (list path) :=
  call no_effect (fun s =>
    if is_dir (nodes s) p
    then (Ok (omap (child_of p) (map_to_list (nodes s)).*1), s)
    else (Err "Not a directory", s)).

(** [File::open] followed by [read_to_end]. *)
Definition read_file (p : path) : ST fs io_error bytes :=
  call no_effect (fun s =>
    match nodes s !! p with
    | Some (File data) => (Ok data, s)
    | _ => (Err "No such file", s)
    end).

(** ** Lemmas *)
Lemma child_of_Some p q r : child_of p q = Some r <-> r = q /\ exists x, q = p ++ [x].
Proof.
  unfold child_of. case_decide as Hd.
  - destruct Hd as [Hl Ht]. split; [intros [= <-]; split; [done|]|by intros [-> _]].
    exists (List.last q ""). rewrite <- Ht at 1.
    rewrite <- (take_drop (length p) q) at 1. f_equal.
    assert (length (drop (length p) q) = 1) as Hd by (rewrite length_drop; lia).
    rewrite <- (take_drop (length p) q) at 2. destruct (drop (length p) q) as [|x [|]]; [done| |done].
    by rewrite last_last.
  - split; [done|]. intros [-> [x ->]]. exfalso. apply Hd.
    rewrite length_app, take_app_length. simpl. split; [lia|done].
Qed.

Lemma elem_of_children (m : gmap path node) p q :
  q ∈ omap (child_of p) (map_to_list m).*1 <->
  exists x n, q = p ++ [x] /\ m !! q = Some n.
Proof.
  rewrite list_elem_of_omap. split.
  - intros (r & Hr & [-> [x Hx]]%child_of_Some).
    apply list_elem_of_fmap in Hr as [[r' n] [-> Hn%elem_of_map_to_list]]. eauto.
  - intros (x & n & -> & Hn). exists (p ++ [x]). split.
    + apply list_elem_of_fmap. exists (p ++ [x], n). by rewrite elem_of_map_to_list.
    + apply child_of_Some. eauto.
Qed.

Lemma lookup_mkdir m p q :
  mkdir m p !! q = if decide (p = q) then Some (default Dir (m !! p)) else m !! q.
Proof.
  unfold mkdir. case_decide; subst.
  - destruct (m !! q) eqn:Hq; [by rewrite Hq|]. by rewrite lookup_insert_eq.
  - destruct (m !! p); [done|]. by rewrite lookup_insert_ne.
Qed.

Lemma lookup_mkdirs m l q :
  foldl mkdir m l !! q =
  if decide (q ∈ l) then Some (default Dir (m !! q)) else m !! q.
Proof.
  revert m. induction l as [|p l IH]; intros m; simpl; [done|].
  rewrite IH, lookup_mkdir.
  repeat case_decide; subst; try done; set_solver.
Qed.

Lemma elem_of_prefixes_from pre p q :
  q ∈ prefixes_from pre p <-> exists r r', r <> [] /\ q = pre ++ r /\ p = r ++ r'.
Proof.
  revert pre. induction p as [|x p IH]; intros pre; simpl.
  - split; [by intros ?%elem_of_nil|]. intros ([|] & r' & ? & ? & ?); done.
  - rewrite elem_of_cons, IH. split.
    + intros [->|(r & r' & Hr & -> & ->)]; [by exists [x], p|].
      exists (x :: r), r'. by rewrite <- app_assoc.
    + intros ([|y [|z r]] & r' & Hr & -> & Hp); simplify_eq/=; [by left|].
      right. exists (z :: r), r'. by rewrite <- app_assoc.
Qed.

Lemma elem_of_prefixes p q :
  q ∈ prefixes p <-> q <> [] /\ exists r, p = q ++ r.
Proof.
  unfold prefixes. rewrite elem_of_prefixes_from. simpl. naive_solver.
Qed.

Lemma is_dir_lookup m p : p <> [] -> is_dir m p = true <-> m !! p = Some Dir.
Proof.
  intros Hp. unfold is_dir. rewrite orb_true_iff, !bool_decide_eq_true. naive_solver.
Qed.

Lemma is_file_lookup m p : is_file m p = true <-> exists d, m !! p = Some (File d).
Proof. unfold is_file. destruct (m !! p) as [[]|]; naive_solver. Qed.

(** A healthy disk raises no fault. *)
Lemma next_fault_nil s : faults s = [] -> next_fault s = (None, s).
Proof. unfold next_fault. by intros ->. Qed.

Lemma call_healthy {A : Type} f (m : ST fs io_error A) s :
  faults s = [] -> call f m s = m s.
Proof. intros H. unfold call. by rewrite next_fault_nil. Qed.
#[export] Hint Rewrite @call_healthy using done : parsec_rw.

Lemma call_spec {A : Type} f (m : ST fs io_error A) s :
  (exists fl, call f m s = m {| nodes := nodes s; faults := fl |}) \/
  (exists fl n, call f m s =
     (Err "I/O error", {| nodes := f n (nodes s); faults := fl |})).
Proof.
  unfold call, next_fault. destruct s as [m0 [|[n|] fl]]; simpl; eauto.
Qed.
