(* ===== verification/KeyInfo.v ===== *)
(** * Key info managers ([src/key_info_managers/mod.rs])

    The persistent mapping from key triples to key information.  The trait
    [ManageKeyInfo] is a class of operations over the manager's state; the class
    [KimSpec] is what the rest of the service may assume of a manager: it behaves
    as a finite map ([kim_view]), and a failing insertion or removal leaves that
    map alone.  The client of a provider is proved against [KimSpec];
    [OnDisk.v] discharges it. *)
From S2P Require Import Prelude RustStd Interface Authenticators.

Record KeyTriple := { kt_app_name : ApplicationName; kt_provider_id : ProviderId;
  kt_key_name : string }.
#[export] Instance KeyTriple_eq_dec : EqDecision KeyTriple.
Proof. solve_decision. Defined.
#[export] Instance KeyTriple_countable : Countable KeyTriple.
Proof.
  refine (inj_countable' (fun t => (kt_app_name t, kt_provider_id t, kt_key_name t))
    (fun '(a, p, k) => {| kt_app_name := a; kt_provider_id := p; kt_key_name := k |}) _).
  by intros [].
Defined.

Record KeyInfo := { ki_id : bytes; ki_attributes : Attributes }.
#[export] Instance KeyInfo_eq_dec : EqDecision KeyInfo.
Proof. solve_decision. Defined.

(** [KeyTriple::new], [KeyTriple::belongs_to_provider] *)
Definition KeyTriple_new (app_name : ApplicationName) (provider_id : ProviderId)
    (key_name : string) : KeyTriple :=
  {| kt_app_name := app_name; kt_provider_id := provider_id; kt_key_name := key_name |}.
Definition belongs_to_provider (t : KeyTriple) (provider_id : ProviderId) : bool :=
  bool_decide (kt_provider_id t = provider_id).

Definition to_response_status (_ : string) : ResponseStatus := KeyInfoManagerError.

(** [bincode], outside the repository: serialisation of a type. *)
Class Bincode (T : Type) := {
  bincode_serialize : T -> option bytes;
  bincode_deserialize : bytes -> option T;
}.
Class BincodeLaws (T : Type) `{Bincode T} : Prop :=
  bincode_round x b : bincode_serialize x = Some b -> bincode_deserialize b = Some x.

(** ** The trait and its contract *)
Class ManageKeyInfo (K : Type) := {
  kim_get : KeyTriple -> ST K string (option KeyInfo);
  kim_get_all : ProviderId -> ST K string (list KeyTriple);
  kim_insert : KeyTriple -> KeyInfo -> ST K string (option KeyInfo);
  kim_remove : KeyTriple -> ST K string (option KeyInfo);
  kim_exists : KeyTriple -> ST K string bool;
}.

Class KimSpec (K : Type) `{ManageKeyInfo K} := {
  kim_view : K -> gmap KeyTriple KeyInfo;
  kim_get_spec t s : kim_get t s = (Ok (kim_view s !! t), s);
  kim_get_all_spec p s : exists l, kim_get_all p s = (Ok l, s) /\ NoDup l /\
    forall t, t ∈ l <-> is_Some (kim_view s !! t) /\ kt_provider_id t = p;
  kim_exists_spec t s : kim_exists t s = (Ok (bool_decide (is_Some (kim_view s !! t))), s);
  kim_insert_spec t i s :
    match kim_insert t i s with
    | (Ok old, s') => old = kim_view s !! t /\ kim_view s' = <[t := i]> (kim_view s)
    | (Err _, s') => kim_view s' = kim_view s
    | (Panic, _) => False
    end;
  kim_remove_spec t s :
    match kim_remove t s with
    | (Ok old, s') => old = kim_view s !! t /\ kim_view s' = delete t (kim_view s)
    | (Err _, s') => kim_view s' = kim_view s
    | (Panic, _) => False
    end;
}.

(** ** The client of a provider ([KeyInfoManagerClient]) *)
Record KeyInfoManagerClient := { client_provider_id : ProviderId }.

Section Client.
Context {K : Type} `{ManageKeyInfo K}.
Implicit Types (c : KeyInfoManagerClient) (t : KeyTriple).

Definition get_key_triple c (app_name : ApplicationName) (key_name : string) : KeyTriple :=
  KeyTriple_new app_name (client_provider_id c) key_name.

Definition get_key_id (T : Type) `{Bincode T} c t : ST K ResponseStatus T :=
  r ← attempt (kim_get t);
  key_info ← (match r with
              | Ok (Some key_info) => mret key_info
              | Ok None => raise PsaErrorDoesNotExist
              | Err string => raise (to_response_status string)
              | Panic => panic
              end);
  lift (ok_or (bincode_deserialize (ki_id key_info)) InvalidEncoding).

Definition get_key_attributes c t : ST K ResponseStatus Attributes :=
  r ← attempt (kim_get t);
  key_info ← (match r with
              | Ok (Some key_info) => mret key_info
              | Ok None => raise PsaErrorDoesNotExist
              | Err string => raise (to_response_status string)
              | Panic => panic
              end);
  mret (ki_attributes key_info).

Definition get_all c : ST K ResponseStatus (list KeyTriple) :=
  on_err to_response_status (kim_get_all (client_provider_id c)).

Definition remove_key_info c t : ST K ResponseStatus unit :=
  r ← attempt (kim_remove t);
  match r with
  | Ok (Some _key_info) => mret tt
  | Ok None => raise PsaErrorDoesNotExist
  | Err string => raise (to_response_status string)
  | Panic => panic
  end.

Definition insert_key_info {T : Type} `{Bincode T} c t (key_id : T)
    (attributes : Attributes) : ST K ResponseStatus unit :=
  id ← lift (ok_or (bincode_serialize key_id) InvalidEncoding);
  let key_info := {| ki_id := id; ki_attributes := attributes |} in
  r ← attempt (kim_insert t key_info);
  match r with
  | Ok None => mret tt
  | Ok (Some _) => raise PsaErrorAlreadyExists
  | Err string => raise (to_response_status string)
  | Panic => panic
  end.

(** One turn of the loop of [list_clients]. *)
Definition push_client (clients : list ApplicationName) t : list ApplicationName :=
  if decide (kt_app_name t ∈ clients) then clients else clients ++ [kt_app_name t].

Definition list_clients c : ST K ResponseStatus (list ApplicationName) :=
  key_triples ← on_err to_response_status (kim_get_all (client_provider_id c));
  mret (foldl push_client [] key_triples).

(** One turn of the loop of [list_keys]. *)
Definition push_key (app_name : ApplicationName) (keys : list ListedKey) (t : KeyTriple)
    : ST K ResponseStatus (list ListedKey) :=
  if decide (kt_app_name t <> app_name) then mret keys
  else
    key_info ← on_err to_response_status (kim_get t);
    match key_info with
    | Some key_info =>
      mret (keys ++ [{| lk_provider_id := kt_provider_id t;
                        lk_name := kt_key_name t;
                        lk_attributes := ki_attributes key_info |}])
    | None => mret keys
    end.

Definition list_keys c (app_name : ApplicationName) : ST K ResponseStatus (list ListedKey) :=
  key_triples ← on_err to_response_status (kim_get_all (client_provider_id c));
  fold_each key_triples [] (push_key app_name).

Definition does_not_exist c t : ST K ResponseStatus unit :=
  b ← on_err to_response_status (kim_exists t);
  match b with true => raise PsaErrorAlreadyExists | false => mret tt end.
End Client.

(** ** The client over any manager that meets the contract *)
Section ClientSpec.
Context {K : Type} `{KimSpec K}.
Implicit Types (c : KeyInfoManagerClient) (t : KeyTriple) (s : K).

Lemma get_key_id_run T `{Bincode T} c t s :
  get_key_id T c t s =
  (match kim_view s !! t with
   | Some i => ok_or (bincode_deserialize (ki_id i)) InvalidEncoding
   | None => Err PsaErrorDoesNotExist
   end, s).
Proof.
  unfold get_key_id. run_unfold. rewrite kim_get_spec. simpl.
  destruct (kim_view s !! t); [|done]. simpl.
  by destruct (bincode_deserialize (ki_id k)).
Qed.

Lemma get_key_attributes_run c t s :
  get_key_attributes c t s =
  (ok_or (ki_attributes <$> kim_view s !! t) PsaErrorDoesNotExist, s).
Proof.
  unfold get_key_attributes. run_unfold. rewrite kim_get_spec. simpl.
  by destruct (kim_view s !! t).
Qed.

Lemma does_not_exist_run c t s :
  does_not_exist c t s =
  (match kim_view s !! t with Some _ => Err PsaErrorAlreadyExists | None => Ok tt end, s).
Proof.
  unfold does_not_exist. run_unfold. rewrite kim_exists_spec. simpl.
  destruct (kim_view s !! t) eqn:Ht.
  - by rewrite bool_decide_eq_true_2 by eauto.
  - by rewrite bool_decide_eq_false_2 by (intros [? ?]; congruence).
Qed.

Lemma remove_key_info_cases c t s :
  exists s', 
    (remove_key_info c t s = (Err KeyInfoManagerError, s') /\ kim_view s' = kim_view s) \/
    (remove_key_info c t s =
       (match kim_view s !! t with Some _ => Ok tt | None => Err PsaErrorDoesNotExist end, s')
     /\ kim_view s' = delete t (kim_view s)).
Proof.
  unfold remove_key_info. run_unfold. pose proof (kim_remove_spec t s) as Hr.
  destruct (kim_remove t s) as [[[i|]|e|] s']; [| | |done]; exists s'; simpl.
  - destruct Hr as [<- ?]. auto.
  - destruct Hr as [<- ?]. auto.
  - auto.
Qed.

Lemma insert_key_info_cases {T} `{Bincode T} c t (x : T) attrs s b :
  bincode_serialize x = Some b ->
  exists s',
    (insert_key_info c t x attrs s = (Err KeyInfoManagerError, s') /\
     kim_view s' = kim_view s) \/
    (insert_key_info c t x attrs s =
       (match kim_view s !! t with Some _ => Err PsaErrorAlreadyExists | None => Ok tt end, s')
     /\ kim_view s' = <[t := {| ki_id := b; ki_attributes := attrs |}]> (kim_view s)).
Proof.
  intros Hb. unfold insert_key_info. run_unfold. rewrite Hb. simpl.
  pose proof (kim_insert_spec t {| ki_id := b; ki_attributes := attrs |} s) as Hr.
  destruct (kim_insert _ _ s) as [[[i|]|e|] s']; [| | |done]; exists s'; simpl.
  - destruct Hr as [<- ?]. auto.
  - destruct Hr as [<- ?]. auto.
  - auto.
Qed.

Lemma push_client_loop l acc :
  NoDup acc ->
  NoDup (foldl push_client acc l) /\
  forall a, a ∈ foldl push_client acc l <-> a ∈ acc \/ exists t, t ∈ l /\ kt_app_name t = a.
Proof.
  revert acc. induction l as [|t l IH]; intros acc Hacc; simpl; [set_solver|].
  unfold push_client at 2 4. destruct (decide (kt_app_name t ∈ acc)) as [Hin|Hin].
  - destruct (IH acc Hacc) as [? Hr]. split; [done|]. intros a. rewrite Hr. set_solver.
  - destruct (IH (acc ++ [kt_app_name t])) as [? Hr].
    { apply NoDup_app. split_and!; [done| |apply NoDup_singleton]. set_solver. }
    split; [done|]. intros a. rewrite Hr. set_solver.
Qed.

Lemma list_clients_run c s :
  exists l, list_clients c s = (Ok l, s) /\ NoDup l /\
    forall a, a ∈ l <-> exists t, is_Some (kim_view s !! t) /\
      kt_provider_id t = client_provider_id c /\ kt_app_name t = a.
Proof.
  destruct (kim_get_all_spec (client_provider_id c) s) as (ts & Hrun & _ & Hts).
  unfold list_clients. run_unfold. rewrite Hrun. simpl. eexists. split; [done|].
  destruct (push_client_loop ts [] ltac:(constructor)) as [HN Hr]. split; [done|].
  intros a. rewrite Hr. setoid_rewrite Hts. set_solver.
Qed.

(** What [list_keys] reports of one triple of the provider. *)
Definition report (a : ApplicationName) (s : K) (t : KeyTriple) : option ListedKey :=
  if decide (kt_app_name t = a) then
    i ← kim_view s !! t;
    Some {| lk_provider_id := kt_provider_id t; lk_name := kt_key_name t;
            lk_attributes := ki_attributes i |}
  else None.

Lemma push_key_run a acc t s :
  push_key a acc t s = (Ok (acc ++ option_list (report a s t)), s).
Proof.
  unfold push_key, report. destruct (decide (kt_app_name t = a)).
  - rewrite decide_False by tauto. run_unfold. rewrite kim_get_spec. simpl.
    destruct (kim_view s !! t); [done|]. by rewrite app_nil_r.
  - rewrite decide_True by done. by rewrite app_nil_r.
Qed.

Lemma push_key_loop a ts acc s :
  fold_each ts acc (push_key a) s = (Ok (acc ++ omap (report a s) ts), s).
Proof.
  revert acc. induction ts as [|t ts IH]; intros acc; simpl; [by rewrite app_nil_r|].
  run_unfold. rewrite push_key_run, IH. destruct (report a s t); simpl.
  - by rewrite <- app_assoc.
  - by rewrite app_nil_r.
Qed.

Lemma NoDup_omap_report a s ts p :
  (forall t, t ∈ ts -> kt_provider_id t = p) -> NoDup ts ->
  NoDup (lk_name <$> omap (report a s) ts).
Proof.
  intros Hp. induction ts as [|t ts IH]; intros Hnd; [constructor|].
  inversion Hnd as [|? ? Hnt Hnd']; subst. specialize (IH ltac:(set_solver) Hnd').
  simpl. destruct (report a s t) as [lk|] eqn:Hlk; [|done]. simpl.
  constructor; [|done].
  intros (lk' & Hn & (t' & Ht' & Hr')%list_elem_of_omap)%list_elem_of_fmap.
  apply Hnt. assert (t = t') as ->; [|done].
  pose proof (Hp t ltac:(set_solver)). pose proof (Hp t' ltac:(set_solver)).
  unfold report in *. repeat case_decide; simplify_option_eq.
  destruct t, t'; simpl in *; congruence.
Qed.

Lemma list_keys_run c a s :
  exists l, list_keys c a s = (Ok l, s) /\ NoDup (lk_name <$> l) /\
    forall lk, lk ∈ l <-> exists k i,
      kim_view s !! KeyTriple_new a (client_provider_id c) k = Some i /\
      lk = {| lk_provider_id := client_provider_id c; lk_name := k;
              lk_attributes := ki_attributes i |}.
Proof.
  destruct (kim_get_all_spec (client_provider_id c) s) as (ts & Hrun & HN & Hts).
  unfold list_keys. run_unfold. rewrite Hrun. rewrite push_key_loop. eexists.
  split_and!; [done|apply (NoDup_omap_report _ _ _ (client_provider_id c)); naive_solver|].
  intros lk. simpl. rewrite list_elem_of_omap. split.
  - intros (t & [[i Hi] Hp]%Hts & Hr). unfold report in Hr.
    case_decide; simplify_option_eq. exists (kt_key_name t), i. split; [|by rewrite Hp].
    rewrite <- Hi. f_equal. destruct t; simpl in *. unfold KeyTriple_new. congruence.
  - intros (k & i & Hi & ->). exists (KeyTriple_new a (client_provider_id c) k).
    split; [apply Hts; split; [eauto|done]|].
    unfold report. rewrite Hi. by rewrite decide_True.
Qed.
End ClientSpec.

(** The states of [R], in which removing a stored triple succeeds. *)
Definition kim_reliable {K : Type} `{KimSpec K} (R : K -> Prop) : Prop :=
  forall t k, R k -> is_Some (kim_view k !! t) ->
    exists o k', kim_remove t k = (Ok o, k') /\ R k'.
