(* ===== verification/OnDisk.v ===== *)
(** * The on-disk key info manager ([src/key_info_managers/on_disk_manager/mod.rs])

    The manager keeps the mapping in memory ([key_store]) and one file per key
    under [mappings_dir_path]: [app/provider/key], the application and key names
    in base64.  Its state here is the manager and the disk.  [base64] is outside
    the repository: its URL-safe encoding is the class [Base64]. *)
From S2P Require Import Prelude RustStd Interface Authenticators KeyInfo Fs.

Class Base64 := {
  b64_encode : bytes -> string;
  b64_decode : bytes -> option bytes;
}.

(** The URL-safe alphabet, padding included. *)
Definition b64_char (a : ascii) : bool :=
  byte_in 65 90 a || byte_in 97 122 a || byte_in 48 57 a ||
  byte_in 45 45 a || byte_in 95 95 a || byte_in 61 61 a.

Class Base64Laws `{Base64} : Prop := {
  b64_round b : b64_decode (as_bytes (b64_encode b)) = Some b;
  b64_alphabet b : Forall (fun a => b64_char a = true) (as_bytes (b64_encode b));
  b64_nonempty b : b64_encode b = "" -> b = [];
}.

Record OnDiskKeyInfoManager := {
  key_store : gmap KeyTriple KeyInfo;
  mappings_dir_path : path;
}.

(** The manager and the disk it writes to. *)
Record OnDisk := { od_manager : OnDiskKeyInfoManager; od_disk : fs }.

Definition set_store (m : gmap KeyTriple KeyInfo) (s : OnDisk) : OnDisk :=
  {| od_manager := {| key_store := m;
                      mappings_dir_path := mappings_dir_path (od_manager s) |};
     od_disk := od_disk s |}.
Definition set_disk (d : fs) (s : OnDisk) : OnDisk :=
  {| od_manager := od_manager s; od_disk := d |}.
Definition on_disk {E A} (m : ST fs E A) : ST OnDisk E A := zoom od_disk set_disk m.

Module Manager.
Section OnDiskManager.
Context `{ParsecInterface} `{Base64} `{Bincode KeyInfo}.

Definition key_triple_to_base64_filenames (t : KeyTriple) : string * string * string :=
  (b64_encode (as_bytes (app_name_string (kt_app_name t))),
   int_to_string (provider_id_u8 (kt_provider_id t)),
   b64_encode (as_bytes (kt_key_name t))).

Definition base64_data_to_string (base64_bytes : bytes) : result string string :=
  match b64_decode base64_bytes with
  | Some decode_bytes =>
    match from_utf8 decode_bytes with
    | Some s => Ok s
    | None => Err "invalid utf-8 sequence"
    end
  | None => Err "invalid base64"
  end.

Definition base64_data_triple_to_key_triple (app_name : bytes) (provider_id : ProviderId)
    (key_name : bytes) : result string KeyTriple :=
  app_name ← base64_data_to_string app_name;
  key_name ← base64_data_to_string key_name;
  mret {| kt_app_name := from_name app_name; kt_provider_id := provider_id;
          kt_key_name := key_name |}.

(** [OsStr::to_str] succeeds on well-formed UTF-8. *)
Definition os_str_to_u8_ref (os_str : string) : result io_error bytes :=
  if is_utf8 os_str then Ok (as_bytes os_str)
  else Err "Conversion from PathBuf to String failed.".

Definition os_str_to_provider_id (os_str : string) : result io_error ProviderId :=
  if is_utf8 os_str then
    match parse_u8 os_str with
    | Some provider_id_u8 =>
      match provider_id_try_from provider_id_u8 with
      | Some provider_id => Ok provider_id
      | None => Err "The provider requested does not exist."
      end
    | None => Err "Failed to convert Provider directory name to an u8 number."
    end
  else Err "Conversion from PathBuf to String failed.".

Definition list_dirs (p : path) : ST fs io_error (list path) :=
  dir_entries ← read_dir p;
  gets (fun s => filter (fun dir_path => is_dir (nodes s) dir_path = true) dir_entries).

Definition list_files (p : path) : ST fs io_error (list path) :=
  dir_entries ← read_dir p;
  gets (fun s => filter (fun dir_path => is_file (nodes s) dir_path = true) dir_entries).

(** [Path::file_name().expect(..)] *)
Definition file_name (p : path) : result io_error string := unwrap (last p).

(** The body of the innermost loop of [new]: read one mapping file. *)
Definition load_mapping (app_name_dir_path provider_dir_path : path)
    (store : gmap KeyTriple KeyInfo) (key_name_file_path : path)
    : ST fs io_error (gmap KeyTriple KeyInfo) :=
  key_info ← read_file key_name_file_path;
  key_info ← lift (ok_or (bincode_deserialize key_info) "error deserializing key info");
  app_name ← lift (file_name app_name_dir_path ≫= os_str_to_u8_ref);
  provider_id ← lift (file_name provider_dir_path ≫= os_str_to_provider_id);
  key_name ← lift (file_name key_name_file_path ≫= os_str_to_u8_ref);
  match base64_data_triple_to_key_triple app_name provider_id key_name with
  | Ok key_triple => mret (<[key_triple := key_info]> store)
  | Err _ => raise "error parsing mapping path"
  | Panic => panic
  end.

Definition load_provider (app_name_dir_path : path) (store : gmap KeyTriple KeyInfo)
    (provider_dir_path : path) : ST fs io_error (gmap KeyTriple KeyInfo) :=
  files ← list_files provider_dir_path;
  fold_each files store (load_mapping app_name_dir_path provider_dir_path).

Definition load_app (store : gmap KeyTriple KeyInfo) (app_name_dir_path : path)
    : ST fs io_error (gmap KeyTriple KeyInfo) :=
  provider_dirs ← list_dirs app_name_dir_path;
  fold_each provider_dirs store (load_provider app_name_dir_path).

(** [OnDiskKeyInfoManager::new] *)
Definition new (mappings_dir_path : path) : ST fs io_error OnDiskKeyInfoManager :=
  create_dir_all mappings_dir_path ;;
  app_dirs ← list_dirs mappings_dir_path;
  key_store ← fold_each app_dirs ∅ load_app;
  mret {| key_store := key_store; mappings_dir_path := mappings_dir_path |}.

Definition save_mapping (root : path) (t : KeyTriple) (key_info : KeyInfo)
    : ST fs io_error unit :=
  let '(app_name, prov, key_name) := key_triple_to_base64_filenames t in
  let provider_dir_path := join (join root app_name) prov in
  let key_name_file_path := join provider_dir_path key_name in
  create_dir_all provider_dir_path ;;
  present ← exists_ key_name_file_path;
  match present with true => remove_file key_name_file_path | false => mret tt end ;;
  create key_name_file_path ;;
  data ← lift (ok_or (bincode_serialize key_info) "error serializing key info");
  write_all key_name_file_path data.

Definition delete_mapping (root : path) (t : KeyTriple) : ST fs io_error unit :=
  let '(app_name, prov, key_name) := key_triple_to_base64_filenames t in
  let key_name_file_path := join (join (join root app_name) prov) key_name in
  present ← exists_ key_name_file_path;
  match present with true => remove_file key_name_file_path | false => mret tt end.

Definition get (t : KeyTriple) : ST OnDisk string (option KeyInfo) :=
  gets (fun s => key_store (od_manager s) !! t).

Definition get_all (provider_id : ProviderId) : ST OnDisk string (list KeyTriple) :=
  gets (fun s => filter (fun t => belongs_to_provider t provider_id = true)
                   (map_to_list (key_store (od_manager s))).*1).

Definition insert (t : KeyTriple) (key_info : KeyInfo)
    : ST OnDisk string (option KeyInfo) :=
  root ← gets (fun s => mappings_dir_path (od_manager s));
  on_disk (save_mapping root t key_info) ;;
  old ← gets (fun s => key_store (od_manager s) !! t);
  modify (fun s => set_store (<[t := key_info]> (key_store (od_manager s))) s) ;;
  mret old.

Definition remove (t : KeyTriple) : ST OnDisk string (option KeyInfo) :=
  root ← gets (fun s => mappings_dir_path (od_manager s));
  on_disk (delete_mapping root t) ;;
  old ← gets (fun s => key_store (od_manager s) !! t);
  modify (fun s => set_store (delete t (key_store (od_manager s))) s) ;;
  mret old.

Definition exists_key (t : KeyTriple) : ST OnDisk string bool :=
  gets (fun s => bool_decide (is_Some (key_store (od_manager s) !! t))).

#[export] Instance OnDisk_ManageKeyInfo : ManageKeyInfo OnDisk := {
  kim_get := get; kim_get_all := get_all; kim_insert := insert;
  kim_remove := remove; kim_exists := exists_key;
}.
End OnDiskManager.
End Manager.
#[export] Existing Instance Manager.OnDisk_ManageKeyInfo.
Import Manager.

(** ** The disk calls do not panic *)
Section NoPanic.
Context `{ParsecInterface} `{Base64} `{Bincode KeyInfo}.

Lemma save_mapping_no_panic root t i s s' : save_mapping root t i s <> (Panic, s').
Proof.
  unfold save_mapping, create_dir_all, exists_, remove_file, create, write_all, call.
  simpl. run_unfold. intros Hp. repeat (case_match; simplify_eq/=).
Qed.

Lemma delete_mapping_no_panic root t s s' : delete_mapping root t s <> (Panic, s').
Proof.
  unfold delete_mapping, exists_, remove_file, call.
  simpl. run_unfold. intros Hp. repeat (case_match; simplify_eq/=).
Qed.
End NoPanic.

(** ** The manager meets the contract of [ManageKeyInfo] *)
Section Spec.
Context `{ParsecInterface} `{Base64} `{Bincode KeyInfo}.

#[export] Program Instance OnDisk_KimSpec : KimSpec OnDisk := {
  kim_view := fun s => key_store (od_manager s);
}.
Next Obligation. done. Qed.
Next Obligation.
  intros p s. eexists. split; [done|]. split.
  - apply NoDup_filter, NoDup_fst_map_to_list.
  - intros t. rewrite list_elem_of_filter. unfold belongs_to_provider.
    rewrite bool_decide_eq_true, list_elem_of_fmap. split.
    + intros [Hp ([t' i] & -> & Hi%elem_of_map_to_list)]. eauto.
    + intros [[i Hi] Hp]. split; [done|]. exists (t, i). by rewrite elem_of_map_to_list.
Qed.
Next Obligation. done. Qed.
Next Obligation.
  intros t i s. simpl. unfold insert, on_disk. run_unfold.
  destruct (save_mapping _ t i (od_disk s)) as [[[]| |] d] eqn:Hs; simpl; [done|done|].
  by apply save_mapping_no_panic in Hs.
Qed.
Next Obligation.
  intros t s. simpl. unfold remove, on_disk. run_unfold.
  destruct (delete_mapping _ t (od_disk s)) as [[[]| |] d] eqn:Hs; simpl; [done|done|].
  by apply delete_mapping_no_panic in Hs.
Qed.
End Spec.
