(* ===== verification/Concrete.v ===== *)
(** * A concrete environment

    Small instances of the crates outside the repository, on which the
    hypotheses of the theorems are shown to be satisfiable and the definitions
    run: the discriminants of [parsec_interface], a base-16 encoding over the
    base-64 URL-safe alphabet, and a serialisation of key information for a few
    attributes. *)
From S2P Require Import Prelude RustStd Interface Authenticators KeyInfo OnDisk.

(** ** The interface crate *)
Definition demo_u8 (p : ProviderId) : Z :=
  match p with Core => 0 | MbedCrypto => 1 | Pkcs11 => 2 | Tpm => 3
             | CryptoAuthLib => 4 | TrustedService => 5 end.
Definition demo_try_from (z : Z) : option ProviderId :=
  find (fun p => bool_decide (demo_u8 p = z))
    [Core; MbedCrypto; Pkcs11; Tpm; CryptoAuthLib; TrustedService].

Definition demo_response (p : ProviderId) (o : Opcode) (s : ResponseStatus) : Response :=
  {| resp_header := {| sh_provider := p; sh_opcode := o; sh_status := s |}; resp_body := [] |}.

#[export] Instance demo_interface : ParsecInterface := {
  is_core o := bool_decide (o ∈ [OpPing; OpListProviders; OpListOpcodes; OpListAuthenticators;
    OpListKeys; OpListClients; OpDeleteClient]);
  is_admin_op o := bool_decide (o ∈ [OpListClients; OpDeleteClient]);
  provider_id_u8 := demo_u8;
  provider_id_try_from := demo_try_from;
  from_request_header h s := demo_response (rh_provider h) (rh_opcode h) s;
  from_status s := demo_response Core OpPing s;
}.

#[export] Instance demo_interface_laws : ParsecInterfaceLaws.
Proof.
  split; try done.
  - intros []; simpl; lia.
  - by intros [].
  - intros z p [_ Hp%bool_decide_eq_true]%find_some. done.
Qed.

(** ** Encoding of names *)
Definition nibble_char (n : N) : ascii := ascii_of_N (65 + n).
Definition char_nibble (a : ascii) : option N :=
  let n := N_of_ascii a in if ((65 <=? n) && (n <? 81))%N then Some (n - 65)%N else None.
Definition hex_byte (a : ascii) : bytes :=
  [nibble_char (N_of_ascii a / 16); nibble_char (N_of_ascii a mod 16)].
Fixpoint hex_decode (b : bytes) : option bytes :=
  match b with
  | [] => Some []
  | x :: y :: r => hi ← char_nibble x; lo ← char_nibble y; t ← hex_decode r;
                   Some (ascii_of_N (16 * hi + lo) :: t)
  | _ => None
  end.

#[export] Instance demo_base64 : Base64 := {
  b64_encode b := string_of_bytes (flat_map hex_byte b);
  b64_decode := hex_decode;
}.

Lemma hex_decode_byte a r :
  hex_decode (hex_byte a ++ r) = (t ← hex_decode r; Some (a :: t)).
Proof. by destruct a as [[] [] [] [] [] [] [] []]. Qed.

Lemma hex_byte_alphabet a : Forall (fun c => b64_char c = true) (hex_byte a).
Proof. destruct a as [[] [] [] [] [] [] [] []]; repeat constructor. Qed.

#[export] Instance demo_base64_laws : Base64Laws.
Proof.
  split; simpl; intros b; unfold as_bytes, string_of_bytes;
    rewrite ?String.list_ascii_of_string_of_list_ascii.
  - induction b as [|a b IH]; [done|]. cbn [flat_map]. by rewrite hex_decode_byte, IH.
  - induction b as [|a b IH]; [constructor|]. cbn [flat_map].
    apply Forall_app. split; [apply hex_byte_alphabet|done].
  - by destruct b.
Qed.

(** ** Attributes and the serialisation of key information *)
Definition demo_flags : UsageFlags :=
  {| export := true; copy := false; cache := false; encrypt := true; decrypt := true;
     sign_message := true; verify_message := true; sign_hash := true; verify_hash := true;
     derive := false |}.
Definition ecc_attributes : Attributes :=
  {| lifetime := Persistent; key_type := EccKeyPair SecpR1; bits := 256;
     policy := {| usage_flags := demo_flags;
                  permitted_algorithms :=
                    Alg_AsymmetricSignature (Ecdsa (SignHash_Specific Sha256)) |} |}.
Definition rsa_attributes : Attributes :=
  {| lifetime := Persistent; key_type := RsaKeyPair; bits := 1024;
     policy := {| usage_flags := demo_flags;
                  permitted_algorithms :=
                    Alg_AsymmetricSignature (RsaPkcs1v15Sign (SignHash_Specific Sha256)) |} |}.
Definition ecc_public_attributes : Attributes :=
  {| lifetime := Persistent; key_type := EccPublicKey SecpR1; bits := 256;
     policy := policy ecc_attributes |}.

#[export] Instance demo_bincode_info : Bincode KeyInfo := {
  bincode_serialize i :=
    if decide (ki_attributes i = ecc_attributes) then Some ("E"%char :: ki_id i)
    else if decide (ki_attributes i = rsa_attributes) then Some ("R"%char :: ki_id i)
    else if decide (ki_attributes i = ecc_public_attributes) then Some ("P"%char :: ki_id i)
    else None;
  bincode_deserialize b :=
    match b with
    | c :: id =>
      if decide (c = "E"%char) then Some {| ki_id := id; ki_attributes := ecc_attributes |}
      else if decide (c = "R"%char) then Some {| ki_id := id; ki_attributes := rsa_attributes |}
      else if decide (c = "P"%char) then
        Some {| ki_id := id; ki_attributes := ecc_public_attributes |}
      else None
    | [] => None
    end;
}.

#[export] Instance demo_bincode_info_laws : BincodeLaws KeyInfo.
Proof.
  intros [id attrs] b. simpl. repeat case_decide; intros [= <-]; subst; done.
Qed.

(** Key identifiers that are integers of [w] bytes. *)
Definition bincode_uint (w : nat) : Bincode Z := {|
  bincode_serialize z :=
    if decide (0 <= z < 256 ^ Z.of_nat w)%Z then Some (to_le_bytes w z) else None;
  bincode_deserialize b := if decide (length b = w) then Some (from_le_bytes b) else None;
|}.

#[export] Instance demo_bincode_u32 : Bincode Z := bincode_uint 4.

#[export] Instance demo_bincode_u32_laws : BincodeLaws Z.
Proof.
  intros z b. cbn [bincode_serialize demo_bincode_u32 bincode_uint]. case_decide; [|done].
  intros Hb. assert (b = to_le_bytes 4 z) as -> by congruence.
  cbn [bincode_deserialize demo_bincode_u32 bincode_uint].
  rewrite length_to_le_bytes, decide_True by done. by rewrite from_to_le_bytes.
Qed.
