(* ===== verification/Persistence.v ===== *)
(** * The mapping survives a restart

    [mirrors root m d]: the tree [d] under [root] holds exactly the mapping [m],
    one file per key.  On a healthy disk every successful insertion and removal
    keeps the mirror, and [Manager.new] reads the mapping back, so a restarted
    service finds the keys it had. *)
From S2P Require Import Prelude RustStd Interface Authenticators KeyInfo Fs OnDisk Concrete.
Import Manager.

(** Every node but the root sits in a directory. *)
Definition fs_wf (d : gmap path node) : Prop :=
  forall q x n, d !! (q ++ [x]) = Some n -> is_dir d q = true.

(** The names a Rust [String] can hold, and non-empty. *)
Definition wf_triple (t : KeyTriple) : Prop :=
  app_name_string (kt_app_name t) <> "" /\ is_utf8 (app_name_string (kt_app_name t)) = true /\
  kt_key_name t <> "" /\ is_utf8 (kt_key_name t) = true.

#[export] Instance wf_triple_dec t : Decision (wf_triple t).
Proof. unfold wf_triple. apply _. Defined.

Section Persistence.
Context `{PI : ParsecInterface} `{!ParsecInterfaceLaws} `{B : Base64} `{!Base64Laws}.
Context `{BK : Bincode KeyInfo} `{!BincodeLaws KeyInfo}.
Implicit Types (t : KeyTriple) (i : KeyInfo) (d : gmap path node) (m : gmap KeyTriple KeyInfo).

Definition comps (t : KeyTriple) : path :=
  let '(a, p, k) := key_triple_to_base64_filenames t in [a; p; k].

Record mirrors (root : path) m d : Prop := {
  mir_wf : fs_wf d;
  mir_root q : q ∈ prefixes root -> d !! q = Some Dir;
  mir_file t i : m !! t = Some i -> wf_triple t /\
    exists data, bincode_serialize i = Some data /\ d !! (root ++ comps t) = Some (File data);
  mir_sound a p k data : d !! (root ++ [a; p; k]) = Some (File data) ->
    exists t, is_Some (m !! t) /\ comps t = [a; p; k];
}.

(** *** File names *)
Lemma b64_encode_inj b1 b2 : b64_encode b1 = b64_encode b2 -> b1 = b2.
Proof. intros Heq. pose proof (b64_round b1) as Hr. rewrite Heq, b64_round in Hr. congruence. Qed.

Lemma as_bytes_nil s : as_bytes s = [] -> s = "".
Proof. intros Hs. by apply as_bytes_inj. Qed.

Lemma b64_name_nonempty s : s <> "" -> b64_encode (as_bytes s) <> "".
Proof. intros Hs Hb. by apply b64_nonempty, as_bytes_nil in Hb. Qed.

Lemma utf8_ascii b : Forall (fun a => (u8_val a < 128)%Z) b -> utf8_valid b = true.
Proof.
  induction 1 as [|a b Ha _ IH]; [done|]. simpl. unfold byte_in at 1.
  pose proof (u8_val_range a).
  destruct (Z.leb_spec 0 (u8_val a)), (Z.leb_spec (u8_val a) 127); simpl; try lia; done.
Qed.

Lemma b64_utf8 b : is_utf8 (b64_encode b) = true.
Proof.
  unfold is_utf8. apply utf8_ascii. eapply Forall_impl; [apply b64_alphabet|].
  intros a. simpl. unfold b64_char, byte_in. rewrite !orb_true_iff, !andb_true_iff. lia.
Qed.

Lemma provider_name_utf8 p : is_utf8 (int_to_string (provider_id_u8 p)) = true.
Proof.
  pose proof (provider_id_u8_range p) as Hr.
  assert (Hall : forallb (fun n => is_utf8 (int_to_string (Z.of_nat n))) (seq 0 256) = true)
    by (vm_compute; reflexivity).
  rewrite forallb_forall in Hall.
  specialize (Hall (Z.to_nat (provider_id_u8 p))). rewrite Z2Nat.id in Hall by lia.
  apply Hall, in_seq. lia.
Qed.

Lemma provider_name_nonempty p : int_to_string (provider_id_u8 p) <> "".
Proof.
  intros Heq. pose proof (parse_u8_to_string _ (provider_id_u8_range p)) as Hp.
  by rewrite Heq in Hp.
Qed.

Lemma comps_inj t1 t2 : comps t1 = comps t2 -> t1 = t2.
Proof.
  destruct t1 as [[a1] p1 k1], t2 as [[a2] p2 k2]. unfold comps. simpl. intros Heq.
  injection Heq as Ha Hp Hk. apply b64_encode_inj, as_bytes_inj in Ha, Hk.
  apply int_to_string_inj in Hp.
  pose proof (provider_id_round p1) as Hr. rewrite Hp, provider_id_round in Hr. congruence.
Qed.

Lemma decode_name s : is_utf8 s = true ->
  base64_data_to_string (as_bytes (b64_encode (as_bytes s))) = Ok s.
Proof. intros Hs. unfold base64_data_to_string. by rewrite b64_round, from_utf8_as_bytes. Qed.

(** The three levels of the path of a key. *)
Definition prov_dir (root : path) t : path := root ++ take 2 (comps t).

Lemma key_path_join root t : wf_triple t ->
  let '(a, p, k) := key_triple_to_base64_filenames t in
  join (join root a) p = prov_dir root t /\
  join (join (join root a) p) k = root ++ comps t.
Proof.
  intros (Ha & _ & Hk & _). unfold join, prov_dir, comps. simpl.
  rewrite !decide_False by (by apply b64_name_nonempty || apply provider_name_nonempty).
  by rewrite <- !app_assoc.
Qed.

Lemma comps_length t : length (comps t) = 3.
Proof. done. Qed.

Lemma key_path_split root t : exists k, root ++ comps t = prov_dir root t ++ [k].
Proof. eexists. unfold prov_dir, comps. simpl. by rewrite <- app_assoc. Qed.

Lemma key_path_not_prefix root t q : q ∈ prefixes (prov_dir root t) -> q <> root ++ comps t.
Proof.
  intros [_ [r Hr]]%elem_of_prefixes ->. apply (f_equal length) in Hr.
  unfold prov_dir in Hr. rewrite !length_app, comps_length in Hr. simpl in Hr. lia.
Qed.

Lemma app_self_neq (q : path) x : q ++ [x] <> q.
Proof. intros Heq%(f_equal length). rewrite length_app in Heq. simpl in Heq. lia. Qed.

(** *** One mapping written to a healthy disk *)
Lemma lookup_saved root t data d q :
  (<[root ++ comps t := File data]> (foldl mkdir d (prefixes (prov_dir root t)))) !! q =
  if decide (q = root ++ comps t) then Some (File data)
  else if decide (q ∈ prefixes (prov_dir root t)) then Some (default Dir (d !! q))
  else d !! q.
Proof.
  case_decide; subst; [by rewrite lookup_insert_eq|].
  rewrite lookup_insert_ne by done. apply lookup_mkdirs.
Qed.

Lemma no_file_prefix d p q :
  existsb (is_file d) (prefixes p) = false -> q ∈ prefixes p ->
  default Dir (d !! q) = Dir.
Proof.
  intros Hf Hq. destruct (d !! q) as [[data|]|] eqn:Hd; try done.
  exfalso. assert (existsb (is_file d) (prefixes p) = true); [|congruence].
  apply existsb_exists. exists q. rewrite <- list_elem_of_In. split; [done|].
  apply is_file_lookup. eauto.
Qed.

Lemma mkdirs_wf d p :
  existsb (is_file d) (prefixes p) = false -> fs_wf d -> fs_wf (foldl mkdir d (prefixes p)).
Proof.
  intros Hf Hwf q x n. rewrite lookup_mkdirs. destruct (decide (q = [])) as [->|Hq]; [done|].
  rewrite is_dir_lookup by done. rewrite lookup_mkdirs.
  case_decide as Hqx.
  - intros _. apply elem_of_prefixes in Hqx as [_ [r ->]].
    assert (Hin : q ∈ prefixes ((q ++ [x]) ++ r)).
    { apply elem_of_prefixes. split; [done|]. rewrite <- app_assoc. eauto. }
    rewrite decide_True by done. f_equal. by eapply no_file_prefix.
  - intros Hn. apply Hwf in Hn. apply is_dir_lookup in Hn; [|done]. rewrite Hn.
    by case_decide.
Qed.

Lemma mkdirs_mirrors root m d p :
  existsb (is_file d) (prefixes p) = false -> mirrors root m d ->
  mirrors root m (foldl mkdir d (prefixes p)).
Proof.
  intros Hf [Hwf Hroot Hfile Hsound]. split.
  - by apply mkdirs_wf.
  - intros q Hq. rewrite lookup_mkdirs, (Hroot q Hq). by case_decide.
  - intros t i Hi. destruct (Hfile t i Hi) as (Hw & data & Hs & Hd).
    split; [done|]. exists data. split; [done|]. rewrite lookup_mkdirs, Hd. by case_decide.
  - intros a p' k data. rewrite lookup_mkdirs. case_decide; [|apply Hsound].
    rewrite (no_file_prefix _ _ _ Hf) by done. done.
Qed.

Lemma insert_mirrors root m d t i data :
  wf_triple t -> bincode_serialize i = Some data ->
  d !! (prov_dir root t) = Some Dir -> d !! (root ++ comps t) <> Some Dir ->
  mirrors root m d ->
  mirrors root (<[t := i]> m) (<[root ++ comps t := File data]> d).
Proof.
  intros Hw Hs Hdir Hnd [Hwf Hroot Hfile Hsound]. split.
  - intros q x n. destruct (decide (root ++ comps t = q ++ [x])) as [Heq|Hne].
    + intros _. assert (q = prov_dir root t) as ->.
      { destruct (key_path_split root t) as [k Hk]. rewrite Hk in Heq.
        by apply app_inj_tail in Heq as [-> _]. }
      unfold is_dir. apply orb_true_iff. right. apply bool_decide_eq_true.
      rewrite lookup_insert_ne; [done|]. intros Hp. apply (f_equal length) in Hp.
      unfold prov_dir in Hp. rewrite !length_app, comps_length in Hp. simpl in Hp. lia.
    + rewrite lookup_insert_ne by done. intros Hn%Hwf. revert Hn.
      destruct (decide (q = [])) as [->|Hq]; [done|]. rewrite !is_dir_lookup by done.
      intros Hq'. rewrite lookup_insert_ne; [done|]. congruence.
  - intros q Hq. rewrite lookup_insert_ne; [by apply Hroot|].
    intros <-. by apply Hnd, Hroot.
  - intros t' i'. destruct (decide (t = t')) as [<-|Hne].
    + rewrite lookup_insert_eq. intros [= <-]. rewrite lookup_insert_eq. eauto.
    + rewrite lookup_insert_ne by done. intros (Hw' & data' & ? & ?)%Hfile.
      split; [done|]. exists data'. rewrite lookup_insert_ne; [done|].
      intros Heq%app_inv_head. by apply comps_inj in Heq.
  - intros a p k data'. destruct (decide (root ++ comps t = root ++ [a; p; k])) as [Heq|Hne].
    + intros _. exists t. rewrite lookup_insert_eq. apply app_inv_head in Heq. eauto.
    + rewrite lookup_insert_ne by done. intros (t' & Ht' & Hc)%Hsound. exists t'.
      rewrite lookup_insert_ne; [done|]. intros <-. by rewrite Hc in Hne.
Qed.

Lemma delete_mirrors root m d t :
  d !! (root ++ comps t) <> Some Dir -> mirrors root m d ->
  mirrors root (delete t m) (delete (root ++ comps t) d).
Proof.
  intros Hnd [Hwf Hroot Hfile Hsound]. split.
  - intros q x n [_ Hn%Hwf]%lookup_delete_Some. revert Hn.
    destruct (decide (q = [])) as [->|Hq]; [done|]. rewrite !is_dir_lookup by done.
    intros Hq'. rewrite lookup_delete_ne; [done|]. congruence.
  - intros q Hq. rewrite lookup_delete_ne; [by apply Hroot|].
    intros <-. by apply Hnd, Hroot.
  - intros t' i' [Hne (Hw' & data' & ? & ?)%Hfile]%lookup_delete_Some.
    split; [done|]. exists data'. rewrite lookup_delete_ne; [done|].
    intros Heq%app_inv_head. by apply comps_inj in Heq.
  - intros a p k data [Hne (t' & Ht' & Hc)%Hsound]%lookup_delete_Some.
    exists t'. rewrite lookup_delete_ne; [done|]. intros <-. by rewrite Hc in Hne.
Qed.

(** *** The operations on a healthy disk *)
Lemma key_path_nonempty root t : root ++ comps t <> [].
Proof. intros Heq%(f_equal length). rewrite length_app, comps_length in Heq. simpl in Heq. lia. Qed.

Lemma prov_dir_in_prefixes root t : prov_dir root t ∈ prefixes (prov_dir root t).
Proof.
  apply elem_of_prefixes. split; [|exists []; by rewrite app_nil_r].
  intros Heq%(f_equal length). unfold prov_dir in Heq. rewrite length_app in Heq. simpl in Heq. lia.
Qed.

(** Creating the file of a key whose directory is there. *)
Lemma create_ok root t d :
  d !! prov_dir root t = Some Dir -> d !! (root ++ comps t) <> Some Dir ->
  create (root ++ comps t) {| nodes := d; faults := [] |} =
  (Ok tt, {| nodes := <[root ++ comps t := File []]> d; faults := [] |}).
Proof.
  intros Hdir Hnd. unfold create, call. simpl.
  destruct (is_dir d (root ++ comps t)) eqn:Hk.
  { apply is_dir_lookup in Hk; [done|apply key_path_nonempty]. }
  assert (is_dir d (removelast (root ++ comps t)) = true) as ->; [|done].
  destruct (key_path_split root t) as [k ->]. rewrite removelast_last.
  apply orb_true_iff. right. by apply bool_decide_eq_true.
Qed.

Lemma write_all_ok p data d (old : bytes) :
  write_all p data {| nodes := <[p := File old]> d; faults := [] |} =
  (Ok tt, {| nodes := <[p := File data]> d; faults := [] |}).
Proof. unfold write_all, call, with_nodes. simpl. by rewrite insert_insert_eq. Qed.

Lemma save_mapping_healthy root t i s data m :
  faults s = [] -> wf_triple t -> bincode_serialize i = Some data ->
  mirrors root m (nodes s) ->
  exists r s', save_mapping root t i s = (r, s') /\ faults s' = [] /\
    match r with
    | Ok _ => mirrors root (<[t := i]> m) (nodes s')
    | Err _ => mirrors root m (nodes s')
    | Panic => False
    end.
Proof.
  intros Hf Hw Hs Hm. destruct s as [d fl]. simpl in *. subst fl.
  unfold save_mapping. pose proof (key_path_join root t Hw) as Hp.
  destruct (key_triple_to_base64_filenames t) as [[a p] k]. destruct Hp as [-> ->].
  unfold create_dir_all, exists_. run_unfold. rewrite call_healthy by done. simpl.
  destruct (existsb _ _) eqn:Hex; [eauto|]. simpl. unfold with_nodes. simpl.
  apply (mkdirs_mirrors _ _ _ _ Hex) in Hm.
  assert (Hdir : foldl mkdir d (prefixes (prov_dir root t)) !! prov_dir root t = Some Dir).
  { rewrite lookup_mkdirs, decide_True by apply prov_dir_in_prefixes. f_equal.
    eapply no_file_prefix; [done|apply prov_dir_in_prefixes]. }
  revert Hm Hdir. generalize (foldl mkdir d (prefixes (prov_dir root t))) as d1.
  intros d1 Hm Hdir.
  destruct (d1 !! (root ++ comps t)) as [[old|]|] eqn:Hk.
  - rewrite (proj2 (is_file_lookup _ _)) by eauto. rewrite orb_true_r.
    unfold remove_file, call. simpl. rewrite Hk. unfold with_nodes. simpl.
    rewrite create_ok; [|rewrite lookup_delete_ne; [done|]|by rewrite lookup_delete_eq].
    2:{ destruct (key_path_split root t) as [k' ->]. apply app_self_neq. }
    simpl. rewrite Hs. simpl. rewrite write_all_ok, insert_delete_eq.
    eexists _, _. split_and!; [done|done|].
    apply insert_mirrors; rewrite ?Hk; done.
  - rewrite (proj2 (is_dir_lookup _ _ (key_path_nonempty root t)) Hk). simpl.
    unfold remove_file, call. simpl. rewrite Hk. simpl. eauto.
  - assert (is_dir d1 (root ++ comps t) || is_file d1 (root ++ comps t) = false) as ->.
    { unfold is_file. rewrite Hk, orb_false_r. apply not_true_iff_false.
      rewrite is_dir_lookup by apply key_path_nonempty. congruence. }
    rewrite create_ok by (done || congruence). simpl. rewrite Hs. simpl.
    rewrite write_all_ok. eexists _, _. split_and!; [done|done|]. apply insert_mirrors; rewrite ?Hk; done.
Qed.

Lemma delete_mapping_healthy root t s m :
  faults s = [] -> wf_triple t -> mirrors root m (nodes s) ->
  exists r s', delete_mapping root t s = (r, s') /\ faults s' = [] /\
    match r with
    | Ok _ => mirrors root (delete t m) (nodes s')
    | Err _ => mirrors root m (nodes s')
    | Panic => False
    end.
Proof.
  intros Hf Hw Hm. destruct s as [d fl]. simpl in *. subst fl.
  unfold delete_mapping. pose proof (key_path_join root t Hw) as Hp.
  destruct (key_triple_to_base64_filenames t) as [[a p] k]. destruct Hp as [_ ->].
  unfold exists_. run_unfold.
  destruct (d !! (root ++ comps t)) as [[old|]|] eqn:Hk.
  - rewrite (proj2 (is_file_lookup _ _)) by eauto. rewrite orb_true_r.
    unfold remove_file, call. simpl. rewrite Hk. eexists _, _. split_and!; [done|done|].
    apply delete_mirrors; rewrite ?Hk; done.
  - rewrite (proj2 (is_dir_lookup _ _ (key_path_nonempty root t)) Hk). simpl.
    unfold remove_file, call. simpl. rewrite Hk. simpl. eauto.
  - assert (is_dir d (root ++ comps t) || is_file d (root ++ comps t) = false) as ->.
    { unfold is_file. rewrite Hk, orb_false_r. apply not_true_iff_false.
      rewrite is_dir_lookup by apply key_path_nonempty. congruence. }
    eexists _, _. split_and!; [done|done|]. rewrite delete_id; [done|].
    apply eq_None_not_Some. intros [i (_ & data & _ & Hd)%(mir_file _ _ _ Hm)]. congruence.
Qed.

(** *** Reading the mapping back *)

(** A loop whose turns read nothing but part of [m], turn [x] reading at least
    the triples in [P x], reads at least those of all its turns. *)
Definition reads {A} (m : gmap KeyTriple KeyInfo) (s : fs) (P : A -> KeyTriple -> Prop)
    (body : gmap KeyTriple KeyInfo -> A -> ST fs io_error (gmap KeyTriple KeyInfo)) (x : A)
    : Prop :=
  forall acc, acc ⊆ m -> exists acc', body acc x s = (Ok acc', s) /\ acc ⊆ acc' /\
    acc' ⊆ m /\ forall t, is_Some (m !! t) -> P x t -> is_Some (acc' !! t).

Lemma fold_each_reads {A} m s P body (l : list A) :
  (forall x, x ∈ l -> reads m s P body x) ->
  reads m s (fun l t => exists x, x ∈ l /\ P x t)
    (fun acc l => fold_each l acc body) l.
Proof.
  induction l as [|x l IH]; intros Hl acc Hacc.
  - exists acc. split_and!; [done|done|done|]. set_solver.
  - destruct (Hl x ltac:(left) acc Hacc) as (acc1 & Hx & Hs1 & Hm1 & Hc1).
    destruct (IH ltac:(set_solver) acc1 Hm1) as (acc2 & Hr & Hs2 & Hm2 & Hc2).
    exists acc2. split_and!; [|by etrans|done|].
    + simpl. run_unfold. rewrite Hx. by simpl in Hr.
    + intros t Ht (y & [->|Hy]%elem_of_cons & HP); [|by apply Hc2; eauto].
      destruct (Hc1 t Ht HP) as [i Hi]. exists i. by eapply lookup_weaken.
Qed.

Lemma list_dirs_healthy p s :
  faults s = [] -> is_dir (nodes s) p = true ->
  exists l, list_dirs p s = (Ok l, s) /\
    forall q, q ∈ l <-> exists x, q = p ++ [x] /\ nodes s !! q = Some Dir.
Proof.
  intros Hf Hp. unfold list_dirs, read_dir. run_unfold.
  rewrite call_healthy, Hp by done. simpl. eexists. split; [done|]. intros q.
  rewrite list_elem_of_filter, elem_of_children. split.
  - intros [Hq (x & n & -> & Hn)]. apply is_dir_lookup in Hq; [eauto|by destruct p].
  - intros (x & -> & Hd). rewrite is_dir_lookup by (by destruct p). eauto.
Qed.

Lemma list_files_healthy p s :
  faults s = [] -> is_dir (nodes s) p = true ->
  exists l, list_files p s = (Ok l, s) /\
    forall q, q ∈ l <-> exists x data, q = p ++ [x] /\ nodes s !! q = Some (File data).
Proof.
  intros Hf Hp. unfold list_files, read_dir. run_unfold.
  rewrite call_healthy, Hp by done. simpl. eexists. split; [done|]. intros q.
  rewrite list_elem_of_filter, elem_of_children, is_file_lookup. naive_solver.
Qed.

Lemma last_comps (root l : path) x : last (root ++ l ++ [x]) = Some x.
Proof. rewrite app_assoc. apply last_snoc. Qed.

Lemma load_mapping_reads root m s a p :
  faults s = [] -> mirrors root m (nodes s) -> forall x,
  (exists k data, x = (root ++ [a; p]) ++ [k] /\ nodes s !! x = Some (File data)) ->
  reads m s (fun x t => x = root ++ comps t)
    (load_mapping (root ++ [a]) (root ++ [a; p])) x.
Proof.
  intros Hf Hm x (k & data & -> & Hd) acc Hacc.
  rewrite <- app_assoc in Hd. simpl in Hd.
  destruct (mir_sound _ _ _ Hm _ _ _ _ Hd) as (t & [i Hi] & Hc).
  destruct (mir_file _ _ _ Hm _ _ Hi) as ((_ & Ha & _ & Hk) & data' & Hs & Hd').
  rewrite Hc, Hd in Hd'. injection Hd' as <-.
  exists (<[t := i]> acc). split_and!.
  - unfold load_mapping, read_file, file_name. run_unfold. rewrite call_healthy by done.
    rewrite <- app_assoc. simpl. rewrite Hd. simpl. rewrite (bincode_round _ _ Hs). simpl.
    rewrite (last_comps root [] a : last (root ++ [a]) = _),
      (last_comps root [a] p : last (root ++ [a; p]) = _),
      (last_comps root [a; p] k : last (root ++ [a; p; k]) = _).
    simpl.
    destruct t as [[an] pid kn]. unfold comps in Hc. simpl in *. injection Hc as <- <- <-.
    unfold os_str_to_u8_ref, os_str_to_provider_id.
    rewrite !b64_utf8, provider_name_utf8, parse_u8_to_string by apply provider_id_u8_range.
    rewrite provider_id_round. simpl.
    unfold base64_data_triple_to_key_triple. rewrite !decode_name by done. done.
  - apply map_subseteq_spec. intros t' i' Ht'.
    destruct (decide (t = t')) as [<-|Hne]; [|by rewrite lookup_insert_ne].
    rewrite lookup_insert_eq. eapply lookup_weaken in Ht'; [|done]. congruence.
  - by apply insert_subseteq_l.
  - intros t' _ Heq. rewrite <- app_assoc in Heq. apply app_inv_head in Heq. simpl in Heq.
    rewrite <- Hc in Heq. apply comps_inj in Heq. subst. rewrite lookup_insert_eq. eauto.
Qed.

Lemma load_provider_reads root m s a :
  faults s = [] -> mirrors root m (nodes s) -> forall x,
  (exists p, x = (root ++ [a]) ++ [p] /\ nodes s !! x = Some Dir) ->
  reads m s (fun x t => exists k, x ++ [k] = root ++ comps t)
    (load_provider (root ++ [a])) x.
Proof.
  intros Hf Hm x (p & -> & Hd) acc Hacc. rewrite <- app_assoc in *. simpl in *.
  destruct (list_files_healthy (root ++ [a; p]) s Hf) as (l & Hl & Hin).
  { apply is_dir_lookup; [by destruct root|done]. }
  unfold load_provider. run_unfold. rewrite Hl.
  destruct (fold_each_reads m s (fun x t => x = root ++ comps t) (load_mapping (root ++ [a]) (root ++ [a; p])) l)
    with (acc := acc) as (acc' & Hr & Hs1 & Hs2 & Hc); [|done|].
  { intros x (k & data & -> & Hk)%Hin. eapply load_mapping_reads; eauto. }
  exists acc'. split_and!; [done|done|done|]. intros t [i Hi] [k Hk].
  apply Hc; [eauto|]. exists (root ++ comps t). split; [|done].
  destruct (mir_file _ _ _ Hm _ _ Hi) as (_ & data & _ & Hd'). apply Hin. eauto.
Qed.

Lemma load_app_reads root m s :
  faults s = [] -> mirrors root m (nodes s) -> forall x,
  (exists a, x = root ++ [a] /\ nodes s !! x = Some Dir) ->
  reads m s (fun x t => exists p k, x ++ [p; k] = root ++ comps t) load_app x.
Proof.
  intros Hf Hm x (a & -> & Hd) acc Hacc.
  destruct (list_dirs_healthy (root ++ [a]) s Hf) as (l & Hl & Hin).
  { apply is_dir_lookup; [by destruct root|done]. }
  unfold load_app. run_unfold. rewrite Hl.
  destruct (fold_each_reads m s (fun x t => exists k, x ++ [k] = root ++ comps t)
    (load_provider (root ++ [a])) l)
    with (acc := acc) as (acc' & Hr & Hs1 & Hs2 & Hc); [|done|].
  { intros x (p & -> & Hp)%Hin. eapply load_provider_reads; eauto. }
  exists acc'. split_and!; [done|done|done|]. intros t [i Hi] (p & k & Hk).
  apply Hc; [eauto|]. exists ((root ++ [a]) ++ [p]). split.
  - apply Hin. exists p. split; [done|].
    destruct (mir_file _ _ _ Hm _ _ Hi) as (_ & data & _ & Hd').
    rewrite <- Hk in Hd'. rewrite (app_assoc _ [p] [k] : (root ++ [a]) ++ [p; k] = _) in Hd'.
    apply (mir_wf _ _ _ Hm), is_dir_lookup in Hd'; [done|by destruct root].
  - exists k. by rewrite <- app_assoc.
Qed.

(** Restarting over a mirrored tree restores the mapping and changes nothing
    on the disk. *)
Lemma new_mirrors root m s :
  faults s = [] -> mirrors root m (nodes s) ->
  new root s = (Ok {| key_store := m; mappings_dir_path := root |}, s).
Proof.
  intros Hf Hm. unfold new, create_dir_all. run_unfold. rewrite call_healthy by done.
  destruct (existsb (is_file (nodes s)) (prefixes root)) eqn:Hex.
  { apply existsb_exists in Hex as (q & Hq & [data Hd]%is_file_lookup).
    apply list_elem_of_In, (mir_root _ _ _ Hm) in Hq. congruence. }
  assert (foldl mkdir (nodes s) (prefixes root) = nodes s) as ->.
  { apply map_eq. intros q. rewrite lookup_mkdirs. case_decide as Hq; [|done].
    by rewrite (mir_root _ _ _ Hm q Hq). }
  assert (with_nodes (nodes s) s = s) as -> by by destruct s.
  destruct (list_dirs_healthy root s Hf) as (l & -> & Hin).
  { destruct root as [|x r]; [done|]. apply is_dir_lookup; [done|].
    apply (mir_root _ _ _ Hm), elem_of_prefixes. split; [done|]. exists [].
    by rewrite app_nil_r. }
  destruct (fold_each_reads m s (fun x t => exists p k, x ++ [p; k] = root ++ comps t)
    load_app l) with (acc := ∅ : gmap KeyTriple KeyInfo)
    as (acc' & Hr & _ & Hs2 & Hc); [|apply map_empty_subseteq|].
  { intros x (a & -> & Ha)%Hin. eapply load_app_reads; eauto. }
  simpl in Hr. rewrite Hr. do 3 f_equal. apply map_eq. intros t.
  destruct (m !! t) as [i|] eqn:Hi; [|by eapply lookup_weaken_None].
  destruct (Hc t ltac:(eauto)) as [i' Hi']; [|eapply lookup_weaken in Hi' as Hm'; [|done]; congruence].
  destruct (mir_file _ _ _ Hm _ _ Hi) as (_ & data & _ & Hd).
  destruct (comps t) as [|a [|p [|k [|]]]] eqn:Hct; try done.
  exists (root ++ [a]). split; [|exists p, k; by rewrite <- app_assoc].
  apply Hin. exists a. split; [done|].
  rewrite (app_assoc root [a; p] [k] : root ++ [a; p; k] = _) in Hd.
  apply (mir_wf _ _ _ Hm), is_dir_lookup in Hd; [|by destruct root].
  rewrite (app_assoc root [a] [p] : root ++ [a; p] = _) in Hd.
  apply (mir_wf _ _ _ Hm), is_dir_lookup in Hd; [done|by destruct root].
Qed.

(** *** Histories of the manager *)

(** One step of a service using the manager under [root]: an insertion or a
    removal (whatever it returns), or a restart. *)
Inductive kim_step (root : path) : OnDisk -> OnDisk -> Prop :=
  | step_insert t i r s s' :
      wf_triple t -> is_Some (bincode_serialize i) ->
      insert t i s = (r, s') -> kim_step root s s'
  | step_remove t r s s' :
      wf_triple t -> remove t s = (r, s') -> kim_step root s s'
  | step_restart s mgr (fsd : fs) :
      new root (od_disk s) = (Ok mgr, fsd) ->
      kim_step root s {| od_manager := mgr; od_disk := fsd |}.

(** A first start over an empty healthy disk. *)
Definition first_start (root : path) (s : OnDisk) : Prop :=
  new root {| nodes := ∅; faults := [] |} = (Ok (od_manager s), od_disk s).

Record kim_inv (root : path) (s : OnDisk) : Prop := {
  inv_healthy : faults (od_disk s) = [];
  inv_root : mappings_dir_path (od_manager s) = root;
  inv_mirrors : mirrors root (key_store (od_manager s)) (nodes (od_disk s));
}.

Lemma mirrors_empty root : mirrors root ∅ (foldl mkdir ∅ (prefixes root)).
Proof.
  split.
  - apply mkdirs_wf; [|intros q x n; by rewrite lookup_empty].
    apply not_true_iff_false. intros (q & _ & [d Hd]%is_file_lookup)%existsb_exists.
    by rewrite lookup_empty in Hd.
  - intros q Hq. by rewrite lookup_mkdirs, lookup_empty, decide_True.
  - intros t i Hi. by rewrite lookup_empty in Hi.
  - intros a p k data. rewrite lookup_mkdirs, lookup_empty. by case_decide.
Qed.

Lemma first_start_inv root s : first_start root s -> kim_inv root s.
Proof.
  unfold first_start. pose proof (new_mirrors root ∅
    {| nodes := foldl mkdir ∅ (prefixes root); faults := [] |} eq_refl (mirrors_empty root)) as Hn.
  revert Hn. unfold new, create_dir_all. run_unfold. rewrite !call_healthy by done. simpl.
  assert (existsb (is_file ∅) (prefixes root) = false) as ->.
  { apply not_true_iff_false. intros (q & _ & [d Hd]%is_file_lookup)%existsb_exists.
    by rewrite lookup_empty in Hd. }
  destruct (existsb _ _); [done|]. unfold with_nodes. simpl.
  assert (foldl mkdir (foldl mkdir ∅ (prefixes root)) (prefixes root) =
    foldl mkdir ∅ (prefixes root)) as ->.
  { apply map_eq. intros q. rewrite !lookup_mkdirs, lookup_empty. by repeat case_decide. }
  intros -> [= Hmgr Hd]. split; rewrite <- ?Hmgr, <- ?Hd; [done|done|]. apply mirrors_empty.
Qed.

Lemma kim_step_inv root s s' : kim_inv root s -> kim_step root s s' -> kim_inv root s'.
Proof.
  intros [Hf Hroot Hm] Hstep. destruct Hstep as [t i r s s' Hw [data Hs] Hr|t r s s' Hw Hr|s mgr d Hr].
  - destruct (save_mapping_healthy root t i (od_disk s) data _ Hf Hw Hs Hm)
      as (r' & d' & Hsave & Hf' & Hm').
    revert Hr. unfold insert, on_disk. run_unfold. rewrite Hroot, Hsave.
    destruct r' as [[]| |]; simpl; intros [= <- <-]; done.
  - destruct (delete_mapping_healthy root t (od_disk s) _ Hf Hw Hm)
      as (r' & d' & Hdel & Hf' & Hm').
    revert Hr. unfold remove, on_disk. run_unfold. rewrite Hroot, Hdel.
    destruct r' as [[]| |]; simpl; intros [= <- <-]; done.
  - rewrite (new_mirrors _ _ _ Hf Hm) in Hr. injection Hr as <- <-. done.
Qed.

Lemma OnDisk_reliable root : kim_reliable (kim_inv root).
Proof.
  intros t s Hinv [i Hi]. pose proof Hinv as [Hf Hroot Hm].
  destruct (mir_file _ _ _ Hm t i Hi) as [Hw (data & _ & Hd)].
  assert (Hex : exists o s', kim_remove t s = (Ok o, s')).
  { simpl. unfold remove, on_disk. run_unfold. rewrite Hroot. unfold delete_mapping.
    pose proof (key_path_join root t Hw) as Hp.
    destruct (key_triple_to_base64_filenames t) as [[a p] k]. destruct Hp as [_ ->].
    unfold exists_, remove_file, call, next_fault. run_unfold. rewrite Hf.
    rewrite (proj2 (is_file_lookup _ _)) by eauto. rewrite orb_true_r. simpl.
    unfold next_fault. rewrite Hf, Hd. simpl. eauto. }
  destruct Hex as (o & s' & Hrun). exists o, s'. split; [done|].
  eapply kim_step_inv; [done|]. by eapply step_remove.
Qed.

(** C1: the mapping survives a restart.  After a first start on an empty
    healthy disk and any history of insertions, removals (successful or not)
    and restarts, starting the manager again succeeds, yields exactly the
    mapping the running manager holds, and does not touch the disk. *)
Theorem persistence_across_restarts root s0 s :
  first_start root s0 -> rtc (kim_step root) s0 s ->
  new root (od_disk s) = (Ok (od_manager s), od_disk s).
Proof.
  intros Hinit Hs. apply first_start_inv in Hinit.
  assert (Hinv : kim_inv root s).
  { induction Hs as [|s1 s2 s3 Hstep _ IH]; [done|]. eauto using kim_step_inv. }
  destruct Hinv as [Hf Hroot Hm]. rewrite (new_mirrors _ _ _ Hf Hm).
  destruct s as [[m r] d]. simpl in *. by subst.
Qed.
End Persistence.

(** A service that stored two keys, removed one and restarted. *)
Definition demo_triple (key : string) : KeyTriple :=
  KeyTriple_new (from_name "app") MbedCrypto key.
Definition demo_info : KeyInfo := {| ki_id := as_bytes "0001"; ki_attributes := ecc_attributes |}.
Definition demo_start : OnDisk :=
  {| od_manager := {| key_store := ∅; mappings_dir_path := ["map"] |};
     od_disk := {| nodes := {[ ["map"] := Dir ]}; faults := [] |} |}.
Definition demo_one_key : OnDisk := (insert (demo_triple "k") demo_info demo_start).2.

Lemma persistence_across_restarts_witness :
  first_start ["map"] demo_start /\
  key_store (od_manager demo_one_key) !! demo_triple "k" = Some demo_info /\
  new ["map"] (od_disk demo_one_key) = (Ok (od_manager demo_one_key), od_disk demo_one_key).
Proof.
  assert (H0 : first_start ["map"] demo_start) by (vm_compute; reflexivity).
  split; [exact H0|]. split; [vm_compute; reflexivity|].
  apply (persistence_across_restarts ["map"] demo_start); [exact H0|].
  eapply rtc_l; [|apply rtc_refl].
  apply (step_insert _ (demo_triple "k") demo_info
    (insert (demo_triple "k") demo_info demo_start).1).
  - apply (bool_decide_eq_true_1 (wf_triple (demo_triple "k"))). vm_compute. reflexivity.
  - eexists. vm_compute. reflexivity.
  - vm_compute. reflexivity.
Defined.

(** ** Faults on the disk *)
Section Faults.
Context `{PI : ParsecInterface} `{B : Base64} `{BK : Bincode KeyInfo}.

(** Every node of [d] but the one at [q] is in [d'], unchanged. *)
Definition keeps_others (q : path) (d d' : gmap path node) : Prop :=
  forall q' n, q' <> q -> d !! q' = Some n -> d' !! q' = Some n.

#[export] Instance keeps_others_preorder q : PreOrder (keeps_others q).
Proof. split; [by intros d ? ?|]. intros d1 d2 d3 H12 H23 q' n Hq Hd. auto. Qed.

Lemma mkdirs_keeps q d l : keeps_others q d (foldl mkdir d l).
Proof.
  revert d. induction l as [|x l IH]; intros d; simpl; [done|].
  etrans; [|apply IH]. intros q' n Hq Hd. rewrite lookup_mkdir.
  case_decide; subst; by rewrite ?Hd.
Qed.

Lemma insert_keeps q d x : keeps_others q d (<[q := x]> d).
Proof. intros q' n Hq Hd. by rewrite lookup_insert_ne. Qed.

Lemma delete_keeps q d : keeps_others q d (delete q d).
Proof. intros q' n Hq Hd. by rewrite lookup_delete_ne. Qed.
Hint Resolve mkdirs_keeps insert_keeps delete_keeps : parsec.

(** A call whose effects, complete or cut short, spare the other nodes. *)
Definition spares {A} (q : path) (m : ST fs io_error A) : Prop :=
  forall d, keeps_others q (nodes d) (nodes (m d).2).

Lemma spares_call {A} q failing (m : ST fs io_error A) :
  (forall n d, keeps_others q d (failing n d)) -> spares q m -> spares q (call failing m).
Proof.
  intros Hf Hm d. unfold call, next_fault. destruct (faults d) as [|[n|] fl]; simpl.
  - apply Hm.
  - apply Hf.
  - apply (Hm {| nodes := nodes d; faults := fl |}).
Qed.

Lemma spares_bind {A C} q (m : ST fs io_error A) (k : A -> ST fs io_error C) :
  spares q m -> (forall a, spares q (k a)) -> spares q (x ← m; k x).
Proof.
  intros Hm Hk d. specialize (Hm d). run_unfold.
  destruct (m d) as [[a| |] d1]; simpl in *; [|done|done]. etrans; [exact Hm|apply Hk].
Qed.

Lemma spares_exists q p : spares q (exists_ p).
Proof. intros d. unfold exists_, next_fault. by repeat case_match; simplify_eq/=. Qed.

Lemma spares_create_dir_all q p : spares q (create_dir_all p).
Proof. apply spares_call; [eauto with parsec|]. intros d. case_match; simpl; [done|]. eauto with parsec. Qed.

Lemma spares_remove_file q : spares q (remove_file q).
Proof. apply spares_call; [done|]. intros d. repeat case_match; simpl; try done. eauto with parsec. Qed.

Lemma spares_create q : spares q (create q).
Proof. apply spares_call; [done|]. intros d. repeat case_match; simpl; try done. eauto with parsec. Qed.

Lemma spares_write_all q data : spares q (write_all q data).
Proof. apply spares_call; [|intros d; simpl]; eauto with parsec. Qed.

Lemma spares_pure {A} q (r : result io_error A) : spares q (lift r).
Proof. by intros d. Qed.
Hint Resolve spares_exists spares_create_dir_all spares_remove_file spares_create
  spares_write_all spares_pure : parsec.

(** The file that holds a mapping. *)
Definition mapping_file (root : path) (t : KeyTriple) : path :=
  let '(a, p, k) := key_triple_to_base64_filenames t in join (join (join root a) p) k.

Lemma save_mapping_spares root t i : spares (mapping_file root t) (save_mapping root t i).
Proof.
  unfold save_mapping, mapping_file. simpl.
  repeat (apply spares_bind; [|intros ?]); try case_match; eauto with parsec; by intros ?.
Qed.

Lemma delete_mapping_spares root t : spares (mapping_file root t) (delete_mapping root t).
Proof.
  unfold delete_mapping, mapping_file. simpl.
  repeat (apply spares_bind; [|intros ?]); try case_match; eauto with parsec; by intros ?.
Qed.

(** C9: whatever calls fail on the disk and wherever they stop, an insertion or
    a removal leaves every other file and directory on the disk as it was, and
    if it returns an error the mapping the service uses is unchanged. *)
Theorem faults_are_local t i s r s' :
  insert t i s = (r, s') \/ remove t s = (r, s') ->
  keeps_others (mapping_file (mappings_dir_path (od_manager s)) t)
    (nodes (od_disk s)) (nodes (od_disk s')) /\
  (is_ok r = false -> key_store (od_manager s') = key_store (od_manager s)).
Proof.
  set (root := mappings_dir_path (od_manager s)). intros [Hr|Hr]; revert Hr.
  - pose proof (save_mapping_spares root t i (od_disk s)) as Hk. unfold insert, on_disk.
    run_unfold. fold root. destruct (save_mapping root t i (od_disk s)) as [[[]| |] d];
      simpl in *; intros [= <- <-]; done.
  - pose proof (delete_mapping_spares root t (od_disk s)) as Hk. unfold remove, on_disk.
    run_unfold. fold root. destruct (delete_mapping root t (od_disk s)) as [[[]| |] d];
      simpl in *; intros [= <- <-]; done.
Qed.
End Faults.

(** A write that stops after one byte. *)
Definition demo_torn : OnDisk :=
  (insert (demo_triple "l") demo_info
    (set_disk {| nodes := nodes (od_disk demo_one_key);
                 faults := [None; None; None; Some 0] |} demo_one_key)).2.

Lemma faults_are_local_witness :
  key_store (od_manager demo_torn) = key_store (od_manager demo_one_key).
Proof.
  refine (proj2 (faults_are_local (demo_triple "l") demo_info
    (set_disk {| nodes := nodes (od_disk demo_one_key);
                 faults := [None; None; None; Some 0] |} demo_one_key)
    (Err "I/O error") demo_torn (or_introl _)) _); vm_compute; reflexivity.
Defined.

(** The torn file of one key makes the next start fail, although the mapping of
    the other key is intact on the disk. *)
Example torn_file_blocks_start :
  (new ["map"] (od_disk demo_torn)).1 = Err "error deserializing key info" /\
  nodes (od_disk demo_torn) !! mapping_file ["map"] (demo_triple "k") =
  nodes (od_disk demo_one_key) !! mapping_file ["map"] (demo_triple "k").
Proof. split; vm_compute; reflexivity. Qed.
