(* ===== verification/KeyInfoSpec.v ===== *)
(** * What a provider's client of the key info manager promises

    The theorems hold for every manager that meets [KimSpec]; the witnesses run
    them on the on-disk manager over a concrete disk. *)
From S2P Require Import Prelude RustStd Interface Authenticators KeyInfo Fs OnDisk Concrete.

Section Client.
Context {K : Type} `{KimSpec K} {T : Type} `{BincodeLaws T}.
Implicit Types (c : KeyInfoManagerClient) (t : KeyTriple) (s : K).

(** C29: storing the information of a key.  On success the triple was free, the
    identifier and the attributes read back are the ones stored, and every other
    triple is untouched.  On failure either the manager could not store anything
    and the mapping is unchanged, or the triple was already bound, in which case
    the call reports [PsaErrorAlreadyExists] although the old binding has been
    replaced. *)
Theorem insert_key_info_spec c t (key_id : T) attrs b s r s' :
  bincode_serialize key_id = Some b ->
  insert_key_info c t key_id attrs s = (r, s') ->
  match r with
  | Ok _ => kim_view s !! t = None /\
      get_key_id T c t s' = (Ok key_id, s') /\
      get_key_attributes c t s' = (Ok attrs, s') /\
      agree_off (eq t) (kim_view s') (kim_view s)
  | Err KeyInfoManagerError => kim_view s' = kim_view s
  | Err PsaErrorAlreadyExists => is_Some (kim_view s !! t) /\
      get_key_id T c t s' = (Ok key_id, s') /\
      agree_off (eq t) (kim_view s') (kim_view s)
  | _ => False
  end.
Proof.
  intros Hb Hr. destruct (insert_key_info_cases c t key_id attrs s b Hb)
    as (s1 & [[Hrun Hv]|[Hrun Hv]]); rewrite Hr in Hrun.
  - by injection Hrun as -> ->.
  - destruct (kim_view s !! t) eqn:Ht; injection Hrun as -> ->;
      rewrite ?get_key_id_run, ?get_key_attributes_run, Hv, lookup_insert_eq; simpl;
      rewrite (bincode_round _ _ Hb); split_and!; eauto with parsec.
Qed.

(** Removing the information of a key.  On success the triple was bound and
    no longer is: reading its identifier or attributes reports
    [PsaErrorDoesNotExist] and it can be created again; every other triple is
    untouched.  On failure the mapping is unchanged. *)
Theorem remove_key_info_spec c t s r s' :
  remove_key_info c t s = (r, s') ->
  match r with
  | Ok _ => is_Some (kim_view s !! t) /\
      get_key_id T c t s' = (Err PsaErrorDoesNotExist, s') /\
      get_key_attributes c t s' = (Err PsaErrorDoesNotExist, s') /\
      does_not_exist c t s' = (Ok tt, s') /\
      agree_off (eq t) (kim_view s') (kim_view s)
  | Err KeyInfoManagerError => kim_view s' = kim_view s
  | Err PsaErrorDoesNotExist => kim_view s !! t = None /\ kim_view s' = kim_view s
  | _ => False
  end.
Proof.
  intros Hr. destruct (remove_key_info_cases c t s) as (s1 & [[Hrun Hv]|[Hrun Hv]]);
    rewrite Hr in Hrun.
  - by injection Hrun as -> ->.
  - destruct (kim_view s !! t) eqn:Ht; injection Hrun as -> ->.
    + rewrite get_key_id_run, get_key_attributes_run, does_not_exist_run, Hv,
        lookup_delete_eq. simpl. split_and!; eauto with parsec.
    + split; [done|]. by rewrite Hv, delete_id.
Qed.

(** [list_keys] reports exactly the keys the application has with this
    provider, each with its stored attributes and each once, and nothing of
    another application or provider; [list_clients] reports exactly the
    applications that have a key with this provider, each once. *)
Theorem listing_spec c a s :
  (exists keys, list_keys c a s = (Ok keys, s) /\ NoDup (lk_name <$> keys) /\
    forall k, k ∈ keys <->
      lk_provider_id k = client_provider_id c /\
      get_key_attributes c (get_key_triple c a (lk_name k)) s = (Ok (lk_attributes k), s)) /\
  (exists clients, list_clients c s = (Ok clients, s) /\ NoDup clients /\
    forall a', a' ∈ clients <-> exists name,
      does_not_exist c (get_key_triple c a' name) s = (Err PsaErrorAlreadyExists, s)).
Proof.
  split.
  - destruct (list_keys_run c a s) as (l & Hrun & HN & Hl). exists l.
    split_and!; [done|done|]. intros k. rewrite Hl, get_key_attributes_run.
    unfold get_key_triple. split.
    + intros (n & i & Hi & ->). simpl. by rewrite Hi.
    + destruct k as [p n at_]. simpl. intros [-> Hk].
      destruct (kim_view s !! _) as [i|] eqn:Hi; simplify_eq/=. eauto.
  - destruct (list_clients_run c s) as (l & Hrun & HN & Hl). exists l.
    split_and!; [done|done|]. intros a'. rewrite Hl. setoid_rewrite does_not_exist_run.
    unfold get_key_triple. split.
    + intros ([a1 p k] & [i Hi] & Hp & Ha). simpl in *. subst. exists k.
      unfold KeyTriple_new. by rewrite Hi.
    + intros [k Hk]. exists (KeyTriple_new a' (client_provider_id c) k).
      split_and!; [|done|done]. destruct (kim_view s !! _); [eauto|done].
Qed.
End Client.

(** Witnesses: the on-disk manager on a concrete disk. *)
Definition demo_client : KeyInfoManagerClient := {| client_provider_id := MbedCrypto |}.
Definition demo_key (key : string) : KeyTriple :=
  get_key_triple demo_client (from_name "app") key.
Definition empty_service : OnDisk :=
  {| od_manager := {| key_store := ∅; mappings_dir_path := ["map"] |};
     od_disk := {| nodes := {[ ["map"] := Dir ]}; faults := [] |} |}.
Definition one_key_service : OnDisk :=
  (insert_key_info demo_client (demo_key "k") 7%Z ecc_attributes empty_service).2.

Lemma insert_key_info_spec_witness :
  get_key_id Z demo_client (demo_key "k") one_key_service = (Ok 7%Z, one_key_service).
Proof.
  refine (proj1 (proj2 (insert_key_info_spec demo_client (demo_key "k") 7%Z ecc_attributes
    (to_le_bytes 4 7) empty_service (Ok tt) one_key_service _ _)));
    vm_compute; reflexivity.
Defined.

Lemma remove_key_info_spec_witness :
  kim_view (remove_key_info demo_client (demo_key "k") one_key_service).2 !! demo_key "j" = None.
Proof.
  pose proof (remove_key_info_spec (T := Z) demo_client (demo_key "k") one_key_service (Ok tt)
    (remove_key_info demo_client (demo_key "k") one_key_service).2) as Hs.
  destruct Hs as (_ & _ & _ & _ & Ha); [vm_compute; reflexivity|].
  rewrite (Ha (demo_key "j")) by discriminate. vm_compute. reflexivity.
Defined.
