(* ===== verification/Provide.v ===== *)
(** * The provider interface ([src/providers/mod.rs])

    The trait [Provide] as a record of methods over a state [W] (the providers'
    keys, mappings and devices); [default_provide] has the default bodies of the
    trait.  [provider_call] is the method an operation is meant for, and
    [well_behaved] is what the service assumes of a provider about key
    ownership: a call changes no mapping but those of the application on whose
    behalf it is made. *)
From S2P Require Import Prelude RustStd Interface Authenticators KeyInfo.

Record Provide (W : Type) := {
  prov_describe : Result (ProviderInfo * gset Opcode);
  prov_list_providers : ST W ResponseStatus (list ProviderInfo);
  prov_list_opcodes : ProviderId -> ST W ResponseStatus (gset Opcode);
  prov_list_authenticators : ST W ResponseStatus (list AuthenticatorInfo);
  prov_list_keys : ApplicationName -> ST W ResponseStatus (list ListedKey);
  prov_list_clients : ST W ResponseStatus (list string);
  prov_delete_client : string -> ST W ResponseStatus unit;
  prov_ping : ST W ResponseStatus (Z * Z);
  prov_psa_generate_key : ApplicationName -> GenerateKeyOp -> ST W ResponseStatus unit;
  prov_psa_import_key : ApplicationName -> ImportKeyOp -> ST W ResponseStatus unit;
  prov_psa_export_public_key : ApplicationName -> string -> ST W ResponseStatus bytes;
  prov_psa_export_key : ApplicationName -> string -> ST W ResponseStatus bytes;
  prov_psa_destroy_key : ApplicationName -> string -> ST W ResponseStatus unit;
  prov_psa_sign_hash : ApplicationName -> SignHashOp -> ST W ResponseStatus bytes;
  prov_psa_verify_hash : ApplicationName -> VerifyHashOp -> ST W ResponseStatus unit;
  prov_psa_asymmetric_encrypt : ApplicationName -> AsymEncryptOp -> ST W ResponseStatus bytes;
  prov_psa_asymmetric_decrypt : ApplicationName -> AsymDecryptOp -> ST W ResponseStatus bytes;
  prov_psa_aead_encrypt : ApplicationName -> AeadEncryptOp -> ST W ResponseStatus bytes;
  prov_psa_aead_decrypt : ApplicationName -> AeadDecryptOp -> ST W ResponseStatus bytes;
  prov_psa_hash_compute : HashComputeOp -> ST W ResponseStatus bytes;
  prov_psa_hash_compare : HashCompareOp -> ST W ResponseStatus unit;
  prov_psa_raw_key_agreement : ApplicationName -> RawKeyAgreementOp -> ST W ResponseStatus bytes;
  prov_psa_generate_random : GenerateRandomOp -> ST W ResponseStatus bytes;
  prov_psa_sign_message : ApplicationName -> SignMessageOp -> ST W ResponseStatus bytes;
  prov_psa_verify_message : ApplicationName -> VerifyMessageOp -> ST W ResponseStatus unit;
}.
Arguments prov_describe {W}.
Arguments prov_list_providers {W}.
Arguments prov_list_opcodes {W}.
Arguments prov_list_authenticators {W}.
Arguments prov_list_keys {W}.
Arguments prov_list_clients {W}.
Arguments prov_delete_client {W}.
Arguments prov_ping {W}.
Arguments prov_psa_generate_key {W}.
Arguments prov_psa_import_key {W}.
Arguments prov_psa_export_public_key {W}.
Arguments prov_psa_export_key {W}.
Arguments prov_psa_destroy_key {W}.
Arguments prov_psa_sign_hash {W}.
Arguments prov_psa_verify_hash {W}.
Arguments prov_psa_asymmetric_encrypt {W}.
Arguments prov_psa_asymmetric_decrypt {W}.
Arguments prov_psa_aead_encrypt {W}.
Arguments prov_psa_aead_decrypt {W}.
Arguments prov_psa_hash_compute {W}.
Arguments prov_psa_hash_compare {W}.
Arguments prov_psa_raw_key_agreement {W}.
Arguments prov_psa_generate_random {W}.
Arguments prov_psa_sign_message {W}.
Arguments prov_psa_verify_message {W}.

(** The trait's default methods: everything but [describe], [list_keys] and
    [list_clients], which have none. *)
Module DefaultMethods.
Section Methods.
Context {W : Type}.

Definition list_providers : ST W ResponseStatus (list ProviderInfo) :=
  raise PsaErrorNotSupported.
Definition list_opcodes (_op : ProviderId) : ST W ResponseStatus (gset Opcode) :=
  raise PsaErrorNotSupported.
Definition list_authenticators : ST W ResponseStatus (list AuthenticatorInfo) :=
  raise PsaErrorNotSupported.
Definition delete_client (_op : string) : ST W ResponseStatus unit :=
  raise PsaErrorNotSupported.
Definition ping : ST W ResponseStatus (Z * Z) :=
  raise PsaErrorNotSupported.
Definition psa_generate_key (_app_name : ApplicationName) (_op : GenerateKeyOp)
    : ST W ResponseStatus unit :=
  raise PsaErrorNotSupported.
Definition psa_import_key (_app_name : ApplicationName) (_op : ImportKeyOp)
    : ST W ResponseStatus unit :=
  raise PsaErrorNotSupported.
Definition psa_export_public_key (_app_name : ApplicationName) (_op : string)
    : ST W ResponseStatus bytes :=
  raise PsaErrorNotSupported.
Definition psa_export_key (_app_name : ApplicationName) (_op : string)
    : ST W ResponseStatus bytes :=
  raise PsaErrorNotSupported.
Definition psa_destroy_key (_app_name : ApplicationName) (_op : string)
    : ST W ResponseStatus unit :=
  raise PsaErrorNotSupported.
Definition psa_sign_hash (_app_name : ApplicationName) (_op : SignHashOp)
    : ST W ResponseStatus bytes :=
  raise PsaErrorNotSupported.
Definition psa_verify_hash (_app_name : ApplicationName) (_op : VerifyHashOp)
    : ST W ResponseStatus unit :=
  raise PsaErrorNotSupported.
Definition psa_asymmetric_encrypt (_app_name : ApplicationName) (_op : AsymEncryptOp)
    : ST W ResponseStatus bytes :=
  raise PsaErrorNotSupported.
Definition psa_asymmetric_decrypt (_app_name : ApplicationName) (_op : AsymDecryptOp)
    : ST W ResponseStatus bytes :=
  raise PsaErrorNotSupported.
Definition psa_aead_encrypt (_app_name : ApplicationName) (_op : AeadEncryptOp)
    : ST W ResponseStatus bytes :=
  raise PsaErrorNotSupported.
Definition psa_aead_decrypt (_app_name : ApplicationName) (_op : AeadDecryptOp)
    : ST W ResponseStatus bytes :=
  raise PsaErrorNotSupported.
Definition psa_hash_compute (_op : HashComputeOp) : ST W ResponseStatus bytes :=
  raise PsaErrorNotSupported.
Definition psa_hash_compare (_op : HashCompareOp) : ST W ResponseStatus unit :=
  raise PsaErrorNotSupported.
Definition psa_raw_key_agreement (_app_name : ApplicationName) (_op : RawKeyAgreementOp)
    : ST W ResponseStatus bytes :=
  raise PsaErrorNotSupported.
Definition psa_generate_random (_op : GenerateRandomOp) : ST W ResponseStatus bytes :=
  raise PsaErrorNotSupported.
Definition psa_sign_message (_app_name : ApplicationName) (_op : SignMessageOp)
    : ST W ResponseStatus bytes :=
  raise PsaErrorNotSupported.
Definition psa_verify_message (_app_name : ApplicationName) (_op : VerifyMessageOp)
    : ST W ResponseStatus unit :=
  raise PsaErrorNotSupported.
End Methods.
End DefaultMethods.
Arguments DefaultMethods.list_providers {W} /.
Arguments DefaultMethods.list_opcodes {W} _op /.
Arguments DefaultMethods.list_authenticators {W} /.
Arguments DefaultMethods.delete_client {W} _op /.
Arguments DefaultMethods.ping {W} /.
Arguments DefaultMethods.psa_generate_key {W} _app_name _op /.
Arguments DefaultMethods.psa_import_key {W} _app_name _op /.
Arguments DefaultMethods.psa_export_public_key {W} _app_name _op /.
Arguments DefaultMethods.psa_export_key {W} _app_name _op /.
Arguments DefaultMethods.psa_destroy_key {W} _app_name _op /.
Arguments DefaultMethods.psa_sign_hash {W} _app_name _op /.
Arguments DefaultMethods.psa_verify_hash {W} _app_name _op /.
Arguments DefaultMethods.psa_asymmetric_encrypt {W} _app_name _op /.
Arguments DefaultMethods.psa_asymmetric_decrypt {W} _app_name _op /.
Arguments DefaultMethods.psa_aead_encrypt {W} _app_name _op /.
Arguments DefaultMethods.psa_aead_decrypt {W} _app_name _op /.
Arguments DefaultMethods.psa_hash_compute {W} _op /.
Arguments DefaultMethods.psa_hash_compare {W} _op /.
Arguments DefaultMethods.psa_raw_key_agreement {W} _app_name _op /.
Arguments DefaultMethods.psa_generate_random {W} _op /.
Arguments DefaultMethods.psa_sign_message {W} _app_name _op /.
Arguments DefaultMethods.psa_verify_message {W} _app_name _op /.

(** The methods of a provider that implements nothing else. *)
Definition default_provide {W} (describe : Result (ProviderInfo * gset Opcode))
    (list_keys : ApplicationName -> ST W ResponseStatus (list ListedKey))
    (list_clients : ST W ResponseStatus (list string)) : Provide W := {|
  prov_describe := describe;
  prov_list_keys := list_keys;
  prov_list_clients := list_clients;
  prov_list_providers := DefaultMethods.list_providers;
  prov_list_opcodes := DefaultMethods.list_opcodes;
  prov_list_authenticators := DefaultMethods.list_authenticators;
  prov_delete_client := DefaultMethods.delete_client;
  prov_ping := DefaultMethods.ping;
  prov_psa_generate_key := DefaultMethods.psa_generate_key;
  prov_psa_import_key := DefaultMethods.psa_import_key;
  prov_psa_export_public_key := DefaultMethods.psa_export_public_key;
  prov_psa_export_key := DefaultMethods.psa_export_key;
  prov_psa_destroy_key := DefaultMethods.psa_destroy_key;
  prov_psa_sign_hash := DefaultMethods.psa_sign_hash;
  prov_psa_verify_hash := DefaultMethods.psa_verify_hash;
  prov_psa_asymmetric_encrypt := DefaultMethods.psa_asymmetric_encrypt;
  prov_psa_asymmetric_decrypt := DefaultMethods.psa_asymmetric_decrypt;
  prov_psa_aead_encrypt := DefaultMethods.psa_aead_encrypt;
  prov_psa_aead_decrypt := DefaultMethods.psa_aead_decrypt;
  prov_psa_hash_compute := DefaultMethods.psa_hash_compute;
  prov_psa_hash_compare := DefaultMethods.psa_hash_compare;
  prov_psa_raw_key_agreement := DefaultMethods.psa_raw_key_agreement;
  prov_psa_generate_random := DefaultMethods.psa_generate_random;
  prov_psa_sign_message := DefaultMethods.psa_sign_message;
  prov_psa_verify_message := DefaultMethods.psa_verify_message;
|}.

(** ** The specification of a call *)

(** The operations that act on behalf of an application. *)
Definition needs_app (op : NativeOperation) : bool :=
  match op with
  | ListProviders | ListOpcodes _ | Ping | ListAuthenticators | ListClients
  | DeleteClient _ | PsaHashCompute _ | PsaHashCompare _ | PsaGenerateRandom _ => false
  | _ => true
  end.

(** The method for an operation, and how its outcome is wrapped. *)
Definition provider_call {W} (p : Provide W) (app : ApplicationName) (op : NativeOperation)
    : ST W ResponseStatus NativeResult :=
  match op with
  | ListProviders => r ← prov_list_providers p; mret (RListProviders r)
  | ListOpcodes id => r ← prov_list_opcodes p id; mret (RListOpcodes r)
  | Ping => r ← prov_ping p; mret (RPing r.1 r.2)
  | ListAuthenticators => r ← prov_list_authenticators p; mret (RListAuthenticators r)
  | ListKeys => r ← prov_list_keys p app; mret (RListKeys r)
  | ListClients => r ← prov_list_clients p; mret (RListClients r)
  | DeleteClient c => prov_delete_client p c ;; mret RDeleteClient
  | PsaGenerateKey o => prov_psa_generate_key p app o ;; mret RPsaGenerateKey
  | PsaImportKey o => prov_psa_import_key p app o ;; mret RPsaImportKey
  | PsaExportPublicKey o => r ← prov_psa_export_public_key p app o; mret (RPsaExportPublicKey r)
  | PsaExportKey o => r ← prov_psa_export_key p app o; mret (RPsaExportKey r)
  | PsaDestroyKey o => prov_psa_destroy_key p app o ;; mret RPsaDestroyKey
  | PsaSignHash o => r ← prov_psa_sign_hash p app o; mret (RPsaSignHash r)
  | PsaVerifyHash o => prov_psa_verify_hash p app o ;; mret RPsaVerifyHash
  | PsaSignMessage o => r ← prov_psa_sign_message p app o; mret (RPsaSignMessage r)
  | PsaVerifyMessage o => prov_psa_verify_message p app o ;; mret RPsaVerifyMessage
  | PsaAsymmetricEncrypt o =>
    r ← prov_psa_asymmetric_encrypt p app o; mret (RPsaAsymmetricEncrypt r)
  | PsaAsymmetricDecrypt o =>
    r ← prov_psa_asymmetric_decrypt p app o; mret (RPsaAsymmetricDecrypt r)
  | PsaAeadEncrypt o => r ← prov_psa_aead_encrypt p app o; mret (RPsaAeadEncrypt r)
  | PsaAeadDecrypt o => r ← prov_psa_aead_decrypt p app o; mret (RPsaAeadDecrypt r)
  | PsaHashCompute o => r ← prov_psa_hash_compute p o; mret (RPsaHashCompute r)
  | PsaHashCompare o => prov_psa_hash_compare p o ;; mret RPsaHashCompare
  | PsaRawKeyAgreement o => r ← prov_psa_raw_key_agreement p app o; mret (RPsaRawKeyAgreement r)
  | PsaGenerateRandom o => r ← prov_psa_generate_random p o; mret (RPsaGenerateRandom r)
  end.

(** The application whose mappings a call may change: its own when it creates
    or destroys a key, the named one when it deletes a client. *)
Definition touches (app : ApplicationName) (op : NativeOperation) : option ApplicationName :=
  match op with
  | DeleteClient c => Some (from_name c)
  | PsaGenerateKey _ | PsaImportKey _ | PsaDestroyKey _ => Some app
  | _ => None
  end.

Section WellBehaved.
Context {W : Type} (view : W -> gmap KeyTriple KeyInfo).

(** Triples of application [a]. *)
Definition owned_by (a : option ApplicationName) (t : KeyTriple) : Prop :=
  a = Some (kt_app_name t).

Definition well_behaved (p : Provide W) : Prop :=
  forall app op s,
    agree_off (owned_by (touches app op)) (view (provider_call p app op s).2) (view s).

(** Triples of application [a] and provider [p]; a provider that keeps to its
    own triples. *)
Definition own (p : ProviderId) (a : option ApplicationName) (t : KeyTriple) : Prop :=
  kt_provider_id t = p /\ owned_by a t.
Definition keeps_to (id : ProviderId) (p : Provide W) : Prop :=
  forall app op s,
    agree_off (own id (touches app op)) (view (provider_call p app op s).2) (view s).

Lemma keeps_to_well_behaved id p : keeps_to id p -> well_behaved p.
Proof. intros Hp app op s t Ht. apply Hp. by intros [_ Ho]. Qed.

(** In the states of [Inv] no call panics or leaves [Inv]. *)
Definition safe (Inv : W -> Prop) (p : Provide W) : Prop :=
  forall app op, safe_in Inv (provider_call p app op).
End WellBehaved.

(** A state change made of two, and a call wrapped by [mret]. *)
Lemma bind_state {W E A C} (R : W -> W -> Prop) `{!PreOrder R} (m : ST W E A)
    (k : A -> ST W E C) s :
  R (m s).2 s -> (forall a s1, m s = (Ok a, s1) -> R (k a s1).2 s1) ->
  R ((x ← m; k x) s).2 s.
Proof.
  intros Hm Hk. run_unfold. destruct (m s) as [[a| |] s1] eqn:Hs; simpl in *; [|done|done].
  etrans; [by apply (Hk a)|done].
Qed.

Lemma bind_ret_state {W E A C} (m : ST W E A) (f : A -> C) s :
  ((x ← m; mret (f x)) s).2 = (m s).2.
Proof. run_unfold. by destruct (m s) as [[| |] ?]. Qed.

Lemma bind_ret_panic {W E A C} (m : ST W E A) (f : A -> C) s :
  ((x ← m; mret (f x)) s).1 = Panic <-> (m s).1 = Panic.
Proof. run_unfold. by destruct (m s) as [[| |] ?]. Qed.
