(* ===== verification/Backend.v ===== *)
(** * The back end ([src/back/backend_handler.rs], [src/back/dispatcher.rs])

    A [BackEndHandler] guards one provider: it checks that it can serve a
    request, enforces the administrator and authentication rules, and marshals
    the outcome.  The [Dispatcher] finds the handler of the requested provider. *)
From S2P Require Import Prelude RustStd Interface Authenticators KeyInfo Provide.

Record BackEndHandler (W : Type) := {
  provider : Provide W;
  converter : Convert;
  provider_id : ProviderId;
  content_type : BodyType;
  accept_type : BodyType;
}.
Arguments provider {W}.
Arguments converter {W}.
Arguments provider_id {W}.
Arguments content_type {W}.
Arguments accept_type {W}.

(** A computation with early returns: [return r] is [raise r]. *)
Definition returning {W R} (m : ST W R R) : ST W Empty_set R := fun s =>
  match m s with
  | (Ok r, s') | (Err r, s') => (Ok r, s')
  | (Panic, s') => (Panic, s')
  end.

Section Handler.
Context {W : Type} `{ParsecInterface}.
Implicit Types (self : BackEndHandler W) (header : RequestHeader).

Definition result_to_response self (result : NativeResult) (request_hdr : RequestHeader)
    : ST W Response Response :=
  let response := from_request_header request_hdr Success in
  match result_to_body (converter self) result with
  | Ok body => mret (set_body body response)
  | Err status => mret (set_status status response)
  | Panic => panic
  end.

Definition is_capable self (request : Request) : Result unit :=
  let header := req_header request in
  if negb (Bool.eqb (bool_decide (provider_id self = Core)) (is_core (rh_opcode header)))
  then Err PsaErrorNotSupported
  else if decide (rh_provider header <> provider_id self) then Err WrongProviderId
  else if decide (rh_content_type header <> content_type self) then Err ContentTypeNotSupported
  else if decide (rh_accept_type header <> accept_type self) then Err AcceptTypeNotSupported
  else Ok tt.

(** The macro [unwrap_or_else_return!]. *)
Definition unwrap_or_else_return {A} header (m : ST W ResponseStatus A) : ST W Response A :=
  on_err (from_request_header header) m.

Definition execute_request self (request : Request) (app : option Application)
    : ST W Empty_set Response :=
  let header := req_header request in
  let opcode := rh_opcode header in
  let unwrap {A : Type} (m : ST W ResponseStatus A) : ST W Response A :=
    unwrap_or_else_return header m in
  let authenticated : ST W Response Application :=
    unwrap (lift (ok_or app NotAuthenticated)) in
  returning (
    (if is_admin_op opcode then
       app ← unwrap (lift (ok_or app NotAuthenticated));
       if negb (is_admin app) then raise (from_request_header header AdminOperation)
       else mret tt
     else mret tt) ;;
    operation ← unwrap (lift (body_to_operation (converter self) (req_body request) opcode));
    match operation with
    | ListProviders =>
      result ← unwrap (prov_list_providers (provider self));
      result_to_response self (RListProviders result) header
    | ListOpcodes op_list_opcodes =>
      result ← unwrap (prov_list_opcodes (provider self) op_list_opcodes);
      result_to_response self (RListOpcodes result) header
    | Ping =>
      result ← unwrap (prov_ping (provider self));
      result_to_response self (RPing result.1 result.2) header
    | PsaGenerateKey op_generate_key =>
      app ← authenticated;
      unwrap (prov_psa_generate_key (provider self) (into_name app) op_generate_key) ;;
      result_to_response self RPsaGenerateKey header
    | PsaImportKey op_import_key =>
      app ← authenticated;
      unwrap (prov_psa_import_key (provider self) (into_name app) op_import_key) ;;
      result_to_response self RPsaImportKey header
    | PsaExportPublicKey op_export_public_key =>
      app ← authenticated;
      result ← unwrap (prov_psa_export_public_key (provider self) (into_name app)
                         op_export_public_key);
      result_to_response self (RPsaExportPublicKey result) header
    | PsaExportKey op_export_key =>
      app ← authenticated;
      result ← unwrap (prov_psa_export_key (provider self) (into_name app) op_export_key);
      result_to_response self (RPsaExportKey result) header
    | PsaDestroyKey op_destroy_key =>
      app ← authenticated;
      unwrap (prov_psa_destroy_key (provider self) (into_name app) op_destroy_key) ;;
      result_to_response self RPsaDestroyKey header
    | PsaSignHash op_sign_hash =>
      app ← authenticated;
      result ← unwrap (prov_psa_sign_hash (provider self) (into_name app) op_sign_hash);
      result_to_response self (RPsaSignHash result) header
    | PsaVerifyHash op_verify_hash =>
      app ← authenticated;
      unwrap (prov_psa_verify_hash (provider self) (into_name app) op_verify_hash) ;;
      result_to_response self RPsaVerifyHash header
    | PsaAsymmetricEncrypt op_asymmetric_encrypt =>
      app ← authenticated;
      result ← unwrap (prov_psa_asymmetric_encrypt (provider self) (into_name app)
                         op_asymmetric_encrypt);
      result_to_response self (RPsaAsymmetricEncrypt result) header
    | PsaAsymmetricDecrypt op_asymmetric_decrypt =>
      app ← authenticated;
      result ← unwrap (prov_psa_asymmetric_decrypt (provider self) (into_name app)
                         op_asymmetric_decrypt);
      result_to_response self (RPsaAsymmetricDecrypt result) header
    | PsaAeadEncrypt op_aead_encrypt =>
      app ← authenticated;
      result ← unwrap (prov_psa_aead_encrypt (provider self) (into_name app) op_aead_encrypt);
      result_to_response self (RPsaAeadEncrypt result) header
    | PsaAeadDecrypt op_aead_decrypt =>
      app ← authenticated;
      result ← unwrap (prov_psa_aead_decrypt (provider self) (into_name app) op_aead_decrypt);
      result_to_response self (RPsaAeadDecrypt result) header
    | ListAuthenticators =>
      result ← unwrap (prov_list_authenticators (provider self));
      result_to_response self (RListAuthenticators result) header
    | ListKeys =>
      app ← authenticated;
      result ← unwrap (prov_list_keys (provider self) (into_name app));
      result_to_response self (RListKeys result) header
    | ListClients =>
      result ← unwrap (prov_list_clients (provider self));
      result_to_response self (RListClients result) header
    | DeleteClient op_delete_client =>
      unwrap (prov_delete_client (provider self) op_delete_client) ;;
      result_to_response self RDeleteClient header
    | PsaHashCompute op_hash_compute =>
      result ← unwrap (prov_psa_hash_compute (provider self) op_hash_compute);
      result_to_response self (RPsaHashCompute result) header
    | PsaHashCompare op_hash_compare =>
      unwrap (prov_psa_hash_compare (provider self) op_hash_compare) ;;
      result_to_response self RPsaHashCompare header
    | PsaRawKeyAgreement op_raw_key_agreement =>
      app ← authenticated;
      result ← unwrap (prov_psa_raw_key_agreement (provider self) (into_name app)
                         op_raw_key_agreement);
      result_to_response self (RPsaRawKeyAgreement result) header
    | PsaGenerateRandom op_generate_random =>
      result ← unwrap (prov_psa_generate_random (provider self) op_generate_random);
      result_to_response self (RPsaGenerateRandom result) header
    | PsaSignMessage op_sign_message =>
      app ← authenticated;
      result ← unwrap (prov_psa_sign_message (provider self) (into_name app) op_sign_message);
      result_to_response self (RPsaSignMessage result) header
    | PsaVerifyMessage op_verify_message =>
      app ← authenticated;
      unwrap (prov_psa_verify_message (provider self) (into_name app) op_verify_message) ;;
      result_to_response self RPsaVerifyMessage header
    end).

(** ** [BackEndHandlerBuilder] *)
Record BackEndHandlerBuilder := {
  b_provider : option (Provide W);
  b_converter : option Convert;
  b_provider_id : option ProviderId;
  b_content_type : option BodyType;
  b_accept_type : option BodyType;
}.

Definition BackEndHandlerBuilder_new : BackEndHandlerBuilder :=
  {| b_provider := None; b_converter := None; b_provider_id := None;
     b_content_type := None; b_accept_type := None |}.
Definition with_provider (p : Provide W) (b : BackEndHandlerBuilder) : BackEndHandlerBuilder :=
  {| b_provider := Some p; b_converter := b_converter b; b_provider_id := b_provider_id b;
     b_content_type := b_content_type b; b_accept_type := b_accept_type b |}.
Definition with_converter (c : Convert) (b : BackEndHandlerBuilder) : BackEndHandlerBuilder :=
  {| b_provider := b_provider b; b_converter := Some c; b_provider_id := b_provider_id b;
     b_content_type := b_content_type b; b_accept_type := b_accept_type b |}.
Definition with_provider_id (i : ProviderId) (b : BackEndHandlerBuilder) : BackEndHandlerBuilder :=
  {| b_provider := b_provider b; b_converter := b_converter b; b_provider_id := Some i;
     b_content_type := b_content_type b; b_accept_type := b_accept_type b |}.
Definition with_content_type (t : BodyType) (b : BackEndHandlerBuilder) : BackEndHandlerBuilder :=
  {| b_provider := b_provider b; b_converter := b_converter b; b_provider_id := b_provider_id b;
     b_content_type := Some t; b_accept_type := b_accept_type b |}.
Definition with_accept_type (t : BodyType) (b : BackEndHandlerBuilder) : BackEndHandlerBuilder :=
  {| b_provider := b_provider b; b_converter := b_converter b; b_provider_id := b_provider_id b;
     b_content_type := b_content_type b; b_accept_type := Some t |}.

Definition BackEndHandlerBuilder_build (b : BackEndHandlerBuilder)
    : result string (BackEndHandler W) :=
  p ← ok_or (b_provider b) "provider is missing";
  c ← ok_or (b_converter b) "converter is missing";
  i ← ok_or (b_provider_id b) "provider_id is missing";
  ct ← ok_or (b_content_type b) "content_type is missing";
  at_ ← ok_or (b_accept_type b) "accept_type is missing";
  mret {| provider := p; converter := c; provider_id := i; content_type := ct;
          accept_type := at_ |}.
End Handler.
Arguments BackEndHandlerBuilder W : clear implicits.

(** ** The dispatcher *)
Record Dispatcher (W : Type) := { backends : gmap ProviderId (BackEndHandler W) }.
Arguments backends {W}.
Record DispatcherBuilder (W : Type) :=
  { b_backends : option (gmap ProviderId (BackEndHandler W)) }.
Arguments b_backends {W}.

Section Dispatch.
Context {W : Type} `{ParsecInterface}.

Definition dispatch_request (self : Dispatcher W) (request : Request)
    (app : option Application) : ST W Empty_set Response :=
  match backends self !! rh_provider (req_header request) with
  | Some backend =>
    match is_capable backend request with
    | Err status => mret (from_request_header (req_header request) status)
    | Ok _ => execute_request backend request app
    | Panic => panic
    end
  | None => mret (from_request_header (req_header request) ProviderNotRegistered)
  end.

Definition DispatcherBuilder_new : DispatcherBuilder W := {| b_backends := None |}.
Definition with_backend (i : ProviderId) (h : BackEndHandler W) (b : DispatcherBuilder W)
    : DispatcherBuilder W :=
  {| b_backends := Some (<[i := h]> (default ∅ (b_backends b))) |}.
Definition with_backends (new_backends : gmap ProviderId (BackEndHandler W))
    (b : DispatcherBuilder W) : DispatcherBuilder W :=
  {| b_backends := Some (new_backends ∪ default ∅ (b_backends b)) |}.
Definition DispatcherBuilder_build (b : DispatcherBuilder W) : result string (Dispatcher W) :=
  m ← ok_or (b_backends b) "backends is missing"; mret {| backends := m |}.
End Dispatch.

(** ** Refinement: what the back end decides *)
Section Spec.
Context {W : Type} `{ParsecInterface}.

(** The outcome of the checks made before a provider is called. *)
Inductive decision :=
  | Refuse (status : ResponseStatus)
  | Allow (app : ApplicationName) (op : NativeOperation).

(** The name given to operations that need no application; the call ignores it. *)
Definition nobody : ApplicationName := from_name "".

Definition decide_request (conv : Convert) (request : Request) (app : option Application)
    : result Empty_set decision :=
  let opcode := rh_opcode (req_header request) in
  match is_admin_op opcode, app with
  | true, None => Ok (Refuse NotAuthenticated)
  | true, Some {| application_is_admin := false |} => Ok (Refuse AdminOperation)
  | _, _ =>
    match body_to_operation conv (req_body request) opcode with
    | Err status => Ok (Refuse status)
    | Panic => Panic
    | Ok op =>
      match app with
      | Some a => Ok (Allow (get_name a) op)
      | None => Ok (if needs_app op then Refuse NotAuthenticated else Allow nobody op)
      end
    end
  end.

(** The response that carries an outcome. *)
Definition marshal (conv : Convert) (header : RequestHeader)
    (r : result ResponseStatus NativeResult) : result Empty_set Response :=
  match r with
  | Ok v =>
    match result_to_body conv v with
    | Ok body => Ok (set_body body (from_request_header header Success))
    | Err status => Ok (set_status status (from_request_header header Success))
    | Panic => Panic
    end
  | Err status => Ok (from_request_header header status)
  | Panic => Panic
  end.

Definition serve (self : BackEndHandler W) (request : Request) (app : option Application)
    : ST W Empty_set Response :=
  d ← lift (decide_request (converter self) request app);
  match d with
  | Refuse status => mret (from_request_header (req_header request) status)
  | Allow name op => fun s =>
    let '(r, s') := provider_call (provider self) name op s in
    (marshal (converter self) (req_header request) r, s')
  end.

(** The shape every arm of [execute_request] has. *)
Lemma call_and_marshal {A} (self : BackEndHandler W) header (m : ST W ResponseStatus A)
    (wrap : A -> NativeResult) s :
  returning (result ← unwrap_or_else_return header m;
             result_to_response self (wrap result) header) s =
  let '(r, s') := (x ← m; mret (wrap x)) s in (marshal (converter self) header r, s').
Proof.
  unfold returning, unwrap_or_else_return, result_to_response, marshal. run_unfold.
  destruct (m s) as [[a| |] s']; simpl; [|done|done].
  by destruct (result_to_body _ _).
Qed.

Lemma returning_ok {A} (m : ST W Response A) (k : A -> ST W Response Response) s a s1 :
  m s = (Ok a, s1) -> returning (x ← m; k x) s = returning (k a) s1.
Proof. intros Hm. unfold returning. by rewrite (bind_run _ _ _ _ _ Hm). Qed.

Lemma returning_err {A} (m : ST W Response A) (k : A -> ST W Response Response) s r s1 :
  m s = (Err r, s1) -> returning (x ← m; k x) s = (Ok r, s1).
Proof. intros Hm. unfold returning. by rewrite (bind_Err _ _ _ _ _ Hm). Qed.

(** The 24 arms differ in nothing but the method and the result they wrap. *)
Lemma execute_request_serve (self : BackEndHandler W) request app s :
  execute_request self request app s = serve self request app s.
Proof.
  unfold execute_request, serve, decide_request.
  destruct (is_admin_op _), app as [[name []]|]; try reflexivity;
    (erewrite (returning_ok _ _ s) by reflexivity);
    destruct (body_to_operation _ _ _) as [op|e|] eqn:Hop; try reflexivity;
    (erewrite (returning_ok _ _ s) by reflexivity);
    destruct op; try reflexivity;
    try (erewrite (returning_ok _ _ s) by reflexivity);
    exact (call_and_marshal self (req_header request) _ _ s) ||
    exact (call_and_marshal self (req_header request) _ (fun _ => _) s).
Qed.

(** C4: a back end handler implements its specification: it calls the provider
    method the operation is for, exactly once and only after every check passed,
    and turns the outcome into the response.  It uses the provider in no other
    way: two providers that answer these calls alike cannot be told apart. *)
Theorem execute_request_refines (self : BackEndHandler W) request app s :
  execute_request self request app s = serve self request app s /\
  forall p', (forall name op s, provider_call p' name op s = provider_call (provider self) name op s) ->
    execute_request {| provider := p'; converter := converter self;
                       provider_id := provider_id self; content_type := content_type self;
                       accept_type := accept_type self |} request app s =
    execute_request self request app s.
Proof.
  split; [apply execute_request_serve|]. intros p' Hp. rewrite !execute_request_serve.
  unfold serve. run_unfold. destruct (decide_request _ request app) as [[st|name op]| |]; try done.
  by rewrite Hp.
Qed.

(** What must hold for a provider to be called on behalf of a request. *)
Record admitted (self : Dispatcher W) (request : Request) (app : option Application)
    (backend : BackEndHandler W) (name : ApplicationName) (op : NativeOperation) : Prop := {
  adm_backend : backends self !! rh_provider (req_header request) = Some backend;
  adm_provider : provider_id backend = rh_provider (req_header request);
  adm_core : is_core (rh_opcode (req_header request)) = bool_decide (provider_id backend = Core);
  adm_content : rh_content_type (req_header request) = content_type backend;
  adm_accept : rh_accept_type (req_header request) = accept_type backend;
  adm_op : body_to_operation (converter backend) (req_body request)
             (rh_opcode (req_header request)) = Ok op;
  adm_admin : is_admin_op (rh_opcode (req_header request)) = true ->
              exists a, app = Some a /\ is_admin a = true;
  adm_app : needs_app op = true -> app <> None;
  adm_name a : app = Some a -> name = get_name a;
}.

Lemma is_capable_Ok (backend : BackEndHandler W) request u :
  is_capable backend request = Ok u ->
  provider_id backend = rh_provider (req_header request) /\
  is_core (rh_opcode (req_header request)) = bool_decide (provider_id backend = Core) /\
  rh_content_type (req_header request) = content_type backend /\
  rh_accept_type (req_header request) = accept_type backend.
Proof.
  unfold is_capable. destruct (Bool.eqb _ _) eqn:Hc; [|done]. simpl.
  apply eqb_prop in Hc. intros Hcap.
  repeat case_match; try discriminate.
  split_and!; [symmetry; by apply dec_stable|done|by apply dec_stable|by apply dec_stable].
Qed.

(** C5: the complete mediation of the back end.  A request either is refused,
    with an error response and no effect at all, or makes exactly one provider
    call, and then the provider is the one the header names, speaks the content
    types of the header, an administrator made the request if the opcode needs
    one, an authenticated application if the operation needs one, and the call is
    made under that application's name. *)
Theorem dispatch_mediates (self : Dispatcher W) request app s r s' :
  dispatch_request self request app s = (Ok r, s') ->
  (s' = s /\ exists status, r = from_request_header (req_header request) status) \/
  (exists backend name op outcome, admitted self request app backend name op /\
     provider_call (provider backend) name op s = (outcome, s') /\
     marshal (converter backend) (req_header request) outcome = Ok r).
Proof.
  unfold dispatch_request. destruct (backends self !! _) as [backend|] eqn:Hb;
    [|intros [= <- <-]; eauto].
  destruct (is_capable backend request) as [u|e|] eqn:Hc; [|intros [= <- <-]; eauto|done].
  apply is_capable_Ok in Hc as (Hp & Hcore & Hct & Hat).
  rewrite execute_request_serve. unfold serve, decide_request.
  destruct (is_admin_op _) eqn:Hadm, app as [[name []]|];
    try (intros [= <- <-]; eauto; fail);
    destruct (body_to_operation _ _ _) as [op|e|] eqn:Hop; try done;
    try (intros [= <- <-]; eauto; fail);
    try (destruct (needs_app op) eqn:Hneeds; [intros [= <- <-]; eauto; fail|]);
    run_unfold; destruct (provider_call _ _ _ _) as [outcome s1] eqn:Hcall;
    intros Hr; injection Hr as Hm <-; right;
    (eexists backend, _, op, outcome; split; [|by split]);
    split; try done; intros; simplify_eq; eauto; congruence.
Qed.

(** How a request is refused, in the order of the checks: an unknown
    provider, an opcode of the wrong class, a foreign content or accept type, a
    missing or insufficient identity.  The state is untouched. *)
Theorem dispatch_refusals `{!ParsecInterfaceLaws} (self : Dispatcher W) request app s :
  let header := req_header request in
  let refused st :=
    exists r, dispatch_request self request app s = (Ok r, s) /\ status r = st in
  match backends self !! rh_provider header with
  | None => refused ProviderNotRegistered
  | Some backend =>
    if negb (Bool.eqb (bool_decide (provider_id backend = Core)) (is_core (rh_opcode header)))
    then refused PsaErrorNotSupported
    else if bool_decide (rh_provider header <> provider_id backend) then refused WrongProviderId
    else if bool_decide (rh_content_type header <> content_type backend)
    then refused ContentTypeNotSupported
    else if bool_decide (rh_accept_type header <> accept_type backend)
    then refused AcceptTypeNotSupported
    else (is_admin_op (rh_opcode header) = true -> app = None -> refused NotAuthenticated) /\
         (is_admin_op (rh_opcode header) = true ->
          forall a, app = Some a -> is_admin a = false -> refused AdminOperation) /\
         (is_admin_op (rh_opcode header) = false -> app = None ->
          forall op, body_to_operation (converter backend) (req_body request)
                       (rh_opcode header) = Ok op ->
          needs_app op = true -> refused NotAuthenticated)
  end.
Proof.
  simpl. unfold dispatch_request.
  destruct (backends self !! _) as [b|]; [|eexists; split; [done|apply from_request_header_status]].
  unfold is_capable. rewrite <- !decide_bool_decide.
  destruct (negb _); [eexists; split; [done|apply from_request_header_status]|].
  repeat (case_decide; [eexists; split; [done|apply from_request_header_status]|]).
  rewrite execute_request_serve. unfold serve, decide_request.
  split_and!.
  - intros -> ->. eexists. split; [done|apply from_request_header_status].
  - intros -> [name adm] -> Ha. unfold is_admin in Ha. simpl in Ha. subst.
    eexists. split; [done|apply from_request_header_status].
  - intros -> -> op -> Hn. run_unfold. rewrite Hn.
    eexists. split; [done|apply from_request_header_status].
Qed.
End Spec.
