(* ===== verification/FrontEnd.v ===== *)
(** * The front end ([src/front/front_end.rs], [src/front/listener.rs])

    A connection carries one request: it is read from the stream, authenticated,
    dispatched, and one response is written back.  Reading and writing headers
    is [parsec_interface]'s: the class [Wire] over the type of streams. *)
From S2P Require Import Prelude RustStd Interface Authenticators KeyInfo Provide Backend.

Class Wire (Str : Type) := {
  (** [Request::read_from_stream], with the limit on the body's length *)
  read_from_stream : Z -> ST Str ResponseStatus Request;
  (** [Response::write_to_stream] *)
  write_to_stream : Response -> ST Str ResponseStatus unit;
}.

(** The wire functions return errors, they do not panic. *)
Class WireLaws (Str : Type) `{Wire Str} : Prop := {
  read_no_panic n s : (read_from_stream n s).1 <> Panic;
  write_no_panic r s : (write_to_stream r s).1 <> Panic;
}.

Record FrontEndHandler (W : Type) := {
  dispatcher : Dispatcher W;
  authenticators : gmap AuthType Authenticate;
  body_len_limit : Z;
}.
Arguments dispatcher {W}.
Arguments authenticators {W}.
Arguments body_len_limit {W}.

Section FrontEnd.
Context {W Str : Type} `{ParsecInterface} `{Wire Str}.

(** The service's state and the connection's stream. *)
Definition on_service {E A} (m : ST W E A) : ST (W * Str) E A :=
  zoom fst (fun w s => (w, s.2)) m.
Definition on_stream {E A} (m : ST Str E A) : ST (W * Str) E A :=
  zoom snd (fun st s => (s.1, st)) m.

(** [FrontEndHandler::handle_request]; the connection's metadata is an argument
    and its stream is part of the state.  Logging is left out. *)
Definition handle_request (self : FrontEndHandler W) (metadata : option ConnectionMetadata)
    : ST (W * Str) Empty_set unit :=
  r ← attempt (on_stream (read_from_stream (body_len_limit self)));
  match r with
  | Panic => panic
  | Err status =>
    let response := from_status status in
    attempt (on_stream (write_to_stream response)) ;;
    mret tt
  | Ok request =>
    '(app, err_response) ← (
      if decide (NoAuth = rh_auth_type (req_header request)) then mret (None, None)
      else match authenticators self !! rh_auth_type (req_header request) with
      | Some authenticator =>
        match trait_authenticate authenticator (req_auth request) metadata with
        | Ok app => mret (Some app, None)
        | Err status => mret (None, Some (from_request_header (req_header request) status))
        | Panic => panic
        end
      | None =>
        mret (None,
              Some (from_request_header (req_header request) AuthenticatorNotRegistered))
      end);
    response ← (match err_response with
                | Some err_response => mret err_response
                | None => on_service (dispatch_request (dispatcher self) request app)
                end);
    attempt (on_stream (write_to_stream response)) ;;
    mret tt
  end.

(** ** [FrontEndHandlerBuilder] *)
Record FrontEndHandlerBuilder := {
  fb_dispatcher : option (Dispatcher W);
  fb_authenticators : option (gmap AuthType Authenticate);
  fb_body_len_limit : option Z;
}.
Definition FrontEndHandlerBuilder_new : FrontEndHandlerBuilder :=
  {| fb_dispatcher := None; fb_authenticators := None; fb_body_len_limit := None |}.
Definition with_dispatcher (d : Dispatcher W) (b : FrontEndHandlerBuilder)
    : FrontEndHandlerBuilder :=
  {| fb_dispatcher := Some d; fb_authenticators := fb_authenticators b;
     fb_body_len_limit := fb_body_len_limit b |}.
Definition with_authenticator (auth_type : AuthType) (authenticator : Authenticate)
    (b : FrontEndHandlerBuilder) : FrontEndHandlerBuilder :=
  {| fb_dispatcher := fb_dispatcher b;
     fb_authenticators :=
       match fb_authenticators b with
       | Some authenticators => Some (<[auth_type := authenticator]> authenticators)
       | None => Some (<[auth_type := authenticator]> ∅)
       end;
     fb_body_len_limit := fb_body_len_limit b |}.
Definition with_body_len_limit (n : Z) (b : FrontEndHandlerBuilder) : FrontEndHandlerBuilder :=
  {| fb_dispatcher := fb_dispatcher b; fb_authenticators := fb_authenticators b;
     fb_body_len_limit := Some n |}.
Definition FrontEndHandlerBuilder_build (b : FrontEndHandlerBuilder)
    : result string (FrontEndHandler W) :=
  d ← ok_or (fb_dispatcher b) "dispatcher is missing";
  a ← ok_or (fb_authenticators b) "authenticators is missing";
  n ← ok_or (fb_body_len_limit b) "body_len_limit is missing";
  mret {| dispatcher := d; authenticators := a; body_len_limit := n |}.

(** ** Who a request is from *)
Definition identify (self : FrontEndHandler W) (metadata : option ConnectionMetadata)
    (request : Request) : Result (option Application) :=
  if decide (NoAuth = rh_auth_type (req_header request)) then Ok None
  else
    authenticator ← ok_or (authenticators self !! rh_auth_type (req_header request))
                      AuthenticatorNotRegistered;
    app ← trait_authenticate authenticator (req_auth request) metadata;
    Ok (Some app).

(** The response for a request that could be read, and the service after it. *)
Definition answer (self : FrontEndHandler W) (metadata : option ConnectionMetadata)
    (request : Request) : ST W Empty_set Response :=
  match identify self metadata request with
  | Ok app => dispatch_request (dispatcher self) request app
  | Err status => mret (from_request_header (req_header request) status)
  | Panic => panic
  end.

(** The write of a response ends the request. *)
Ltac written :=
  match goal with |- context [write_to_stream ?r ?st] =>
    let Hp := fresh in pose proof (write_no_panic r st) as Hp;
    destruct (write_to_stream r st) as [[| |] ?]; done
  end.

Lemma handle_request_run `{!WireLaws Str} (self : FrontEndHandler W) metadata w str :
  handle_request self metadata (w, str) =
  match read_from_stream (body_len_limit self) str with
  | (Ok request, str1) =>
    match answer self metadata request w with
    | (Ok response, w') => (Ok tt, (w', (write_to_stream response str1).2))
    | (_, w') => (Panic, (w', str1))
    end
  | (Err status, str1) => (Ok tt, (w, (write_to_stream (from_status status) str1).2))
  | (Panic, str1) => (Panic, (w, str1))
  end.
Proof.
  unfold handle_request, answer, identify, on_stream, on_service. run_unfold.
  destruct (read_from_stream _ str) as [[request|st|] str1]; simpl; [|written|done].
  case_decide; simpl;
    [|destruct (authenticators self !! _) as [a|]; simpl;
      [destruct (trait_authenticate a _ _) as [app|st|]; simpl|]]; try done; try written.
  all: destruct (dispatch_request _ _ _ w) as [[r|[]|] w']; simpl; [written|done].
Qed.

(** Nothing the front end calls can panic in the states of [Inv]. *)
Record panic_free (Inv : W -> Prop) (self : FrontEndHandler W) : Prop := {
  free_backends : map_Forall (fun _ b => safe Inv (provider b) /\ converter_faithful (converter b))
    (backends (dispatcher self));
  free_authenticators : map_Forall (fun _ a => forall buf meta, trait_authenticate a buf meta <> Panic)
    (authenticators self);
}.

Lemma is_capable_total (b : BackEndHandler W) request : is_capable b request <> Panic.
Proof. unfold is_capable. destruct (negb _); [done|]. by repeat case_decide. Qed.

Lemma dispatch_total Inv (self : FrontEndHandler W) request app :
  panic_free Inv self -> safe_in Inv (dispatch_request (dispatcher self) request app).
Proof.
  intros [Hb _] w Hw. unfold dispatch_request.
  destruct (backends (dispatcher self) !! _) as [b|] eqn:Hl; [|done].
  destruct (map_Forall_lookup_1 _ _ _ _ Hb Hl) as (Hsafe & _ & Hbody & Hres).
  pose proof (is_capable_total b request) as Hc.
  destruct (is_capable b request); [|done|done].
  rewrite execute_request_serve. unfold serve, decide_request.
  assert (Hcall : forall name op,
    let run := let '(r, s') := provider_call (provider b) name op w in
               (marshal (converter b) (req_header request) r, s') in
    Inv run.2 /\ run.1 <> Panic).
  { intros name op. specialize (Hsafe name op w Hw). simpl.
    destruct (provider_call _ name op w) as [[v|e|] w1]; simpl in *; [|naive_solver..].
    specialize (Hres v). destruct (result_to_body _ v); naive_solver. }
  specialize (Hbody (req_body request) (rh_opcode (req_header request))).
  destruct (is_admin_op _), app as [[name []]|]; try done;
    destruct (body_to_operation _ _ _) as [op|e|]; try done; simpl; try apply Hcall.
  destruct (needs_app op); [done|apply Hcall].
Qed.

Lemma identify_total Inv (self : FrontEndHandler W) metadata request :
  panic_free Inv self -> identify self metadata request <> Panic.
Proof.
  intros [_ Ha]. unfold identify. case_decide; [done|].
  destruct (authenticators self !! _) as [a|] eqn:Hl; simpl; [|done].
  pose proof (map_Forall_lookup_1 _ _ _ _ Ha Hl (req_auth request) metadata).
  by destruct (trait_authenticate a _ _).
Qed.

Lemma answer_total Inv (self : FrontEndHandler W) metadata request w :
  panic_free Inv self -> Inv w ->
  exists response w', answer self metadata request w = (Ok response, w') /\ Inv w'.
Proof.
  intros Hfree Hw. unfold answer. pose proof (identify_total Inv self metadata request Hfree) as Hi.
  destruct (identify self metadata request) as [app|st|]; [|by eauto|done].
  pose proof (dispatch_total Inv self request app Hfree w Hw) as [Hw' Hp].
  destruct (dispatch_request _ _ app w) as [[r|[]|] w1]; [|done]. eauto.
Qed.

Lemma handle_run_total `{!WireLaws Str} Inv (self : FrontEndHandler W) metadata w str :
  panic_free Inv self -> Inv w ->
  exists response w', Inv w' /\
    handle_request self metadata (w, str) =
      (Ok tt, (w', (write_to_stream response (read_from_stream (body_len_limit self) str).2).2)).
Proof.
  intros Hfree Hw. rewrite handle_request_run by done.
  pose proof (read_no_panic (body_len_limit self) str) as Hr.
  destruct (read_from_stream _ str) as [[request|st|] str1]; simpl in *; [|by eauto|done].
  destruct (answer_total Inv self metadata request w Hfree Hw) as (response & w' & -> & Hw').
  eauto.
Qed.

(** C8: one request, one response.  If no provider, converter or authenticator
    can panic, handling a connection terminates normally and writes exactly one
    response, on the stream as the read left it: the read error when the request
    cannot be read, the authentication error when the authenticator of the
    header refuses it or is not registered, and the dispatcher's answer
    otherwise; in the first two cases the service is not touched.  The service
    is then ready for the next connection. *)
Theorem handle_request_responds `{!WireLaws Str} Inv (self : FrontEndHandler W) metadata w str :
  panic_free Inv self -> Inv w ->
  exists response w', Inv w' /\
    handle_request self metadata (w, str) =
      (Ok tt, (w', (write_to_stream response (read_from_stream (body_len_limit self) str).2).2)) /\
    match (read_from_stream (body_len_limit self) str).1 with
    | Ok request =>
      match identify self metadata request with
      | Ok app => dispatch_request (dispatcher self) request app w = (Ok response, w')
      | Err st => response = from_request_header (req_header request) st /\ w' = w
      | Panic => False
      end
    | Err st => response = from_status st /\ w' = w
    | Panic => False
    end.
Proof.
  intros Hfree Hw. rewrite handle_request_run by done.
  pose proof (read_no_panic (body_len_limit self) str) as Hr.
  destruct (read_from_stream _ str) as [[request|st|] str1]; simpl in *; [|by eauto 10|done].
  destruct (answer_total Inv self metadata request w Hfree Hw) as (response & w' & Ha & Hw').
  pose proof (identify_total Inv self metadata request Hfree) as Hi.
  exists response, w'. rewrite Ha. split_and!; [done|done|]. unfold answer in Ha.
  destruct (identify self metadata request) as [app|st|]; [done| |done]. by injection Ha as <- <-.
Qed.
End FrontEnd.
Arguments FrontEndHandlerBuilder W : clear implicits.

(** ** End to end: whose keys a request can change *)
Section Isolation.
Context {W Str : Type} `{ParsecInterface} `{!ParsecInterfaceLaws} `{Wire Str}.
Context (view : W -> gmap KeyTriple KeyInfo).

(** Every provider behind the dispatcher keeps to the application's own keys,
    and decodes bodies into operations of the header's opcode. *)
Definition trusted_backends (d : Dispatcher W) : Prop :=
  map_Forall (fun _ b => well_behaved view (provider b) /\ converter_faithful (converter b))
    (backends d).

(** The applications whose mappings a request from [app] may change. *)
Definition may_change (app : option Application) (t : KeyTriple) : Prop :=
  exists a, app = Some a /\ (kt_app_name t = get_name a \/ is_admin a = true).

Lemma dispatch_isolation (d : Dispatcher W) request app w :
  trusted_backends d ->
  agree_off (may_change app) (view (dispatch_request d request app w).2) (view w).
Proof.
  intros Ht. unfold dispatch_request. destruct (backends d !! _) as [b|] eqn:Hb; [|done].
  destruct (is_capable b request); [|done|done].
  destruct (map_Forall_lookup_1 _ _ _ _ Ht Hb) as [Hwell Hconv].
  rewrite execute_request_serve. unfold serve, decide_request.
  assert (Hcall : forall name op,
    (forall t, owned_by (touches name op) t -> may_change app t) ->
    agree_off (may_change app)
      (view (let '(r, s') := provider_call (provider b) name op w in
             (marshal (converter b) (req_header request) r, s')).2) (view w)).
  { intros name op Ho t Hn. specialize (Hwell name op w t).
    destruct (provider_call _ _ _ w). simpl in *. apply Hwell. auto. }
  destruct Hconv as (Hop & _ & _).
  destruct (is_admin_op _) eqn:Hadm, app as [[name []]|]; try done;
    destruct (body_to_operation _ _ _) as [op|e|] eqn:Hb2; try done; simpl;
    try (destruct (needs_app op) eqn:Hneeds; [done|]); apply Hcall; intros t Ht';
    apply Hop in Hb2; unfold owned_by in Ht';
    destruct op; simpl in *; simplify_eq;
    try (eexists; split; [reflexivity|simpl; auto; fail]);
    rewrite <- Hb2, ?is_admin_delete_client in Hadm; done.
Qed.

Lemma handle_isolation `{!WireLaws Str} (self : FrontEndHandler W) metadata w str :
  trusted_backends (dispatcher self) ->
  agree_off (fun t => exists request app,
      (read_from_stream (body_len_limit self) str).1 = Ok request /\
      identify self metadata request = Ok app /\ may_change app t)
    (view (handle_request self metadata (w, str)).2.1) (view w).
Proof.
  intros Ht. rewrite handle_request_run by done.
  destruct (read_from_stream _ str) as [[request|st|] str1]; [|done|done].
  unfold answer. destruct (identify self metadata request) as [app|st|] eqn:Hi; [|done|done].
  pose proof (dispatch_isolation (dispatcher self) request app w Ht) as Hd.
  intros t Hn. specialize (Hd t).
  destruct (dispatch_request _ request app w) as [[r|[]|] w1]; simpl in *; apply Hd; eauto 10.
Qed.

(** Isolation, end to end.  Handling a connection changes no mapping but
    those of the application the connection was authenticated as, unless that
    application is an administrator; a request that cannot be read, is not
    authenticated or is refused changes none. *)
Theorem request_isolation `{!WireLaws Str} (self : FrontEndHandler W) metadata w str out w' str' :
  trusted_backends (dispatcher self) ->
  handle_request self metadata (w, str) = (out, (w', str')) ->
  view w' = view w \/
  exists request app, (read_from_stream (body_len_limit self) str).1 = Ok request /\
    identify self metadata request = Ok (Some app) /\
    agree_off (fun t => kt_app_name t = get_name app \/ is_admin app = true) (view w') (view w).
Proof.
  intros Ht Hrun. pose proof (handle_isolation self metadata w str Ht) as Hag.
  rewrite Hrun in Hag. simpl in Hag.
  assert (Hnone : (forall request app,
    (read_from_stream (body_len_limit self) str).1 = Ok request ->
    identify self metadata request <> Ok (Some app)) -> view w' = view w).
  { intros Hn. apply map_eq. intros t. apply Hag.
    intros (request & app & Hr & Hi & a & -> & _). by apply (Hn request a). }
  destruct (read_from_stream _ str) as [[request|st|] str1]; [|left; apply Hnone; done..].
  destruct (identify self metadata request) as [[a|]|st|] eqn:Hi;
    [|left; apply Hnone; simpl in *; intros; simplify_eq; congruence..].
  right. exists request, a. split_and!; [done|done|]. intros t Hn. apply Hag.
  intros (request' & app & [= <-] & Hi' & a' & -> & Ha). rewrite Hi in Hi'. by simplify_eq.
Qed.
End Isolation.
