(* ===== verification/CoreProvider.v ===== *)
(** * The core provider ([src/providers/core/mod.rs])

    The provider of the service-level operations: it answers about the service
    itself and gathers or deletes what the other providers hold. *)
From S2P Require Import Prelude RustStd Interface Authenticators KeyInfo Provide.

Module CoreProvider.
Definition SUPPORTED_OPCODES : list Opcode :=
  [OpListProviders; OpListOpcodes; OpPing; OpListAuthenticators; OpListKeys].

Record Provider (W : Type) := {
  wire_protocol_version_min : Z;
  wire_protocol_version_maj : Z;
  provider_info : list ProviderInfo;
  provider_opcodes : gmap ProviderId (gset Opcode);
  authenticator_info : list AuthenticatorInfo;
  prov_list : list (Provide W);
}.
Arguments wire_protocol_version_min {W}.
Arguments wire_protocol_version_maj {W}.
Arguments provider_info {W}.
Arguments provider_opcodes {W}.
Arguments authenticator_info {W}.
Arguments prov_list {W}.

Section Core.
Context {W : Type}.
Implicit Types (self : Provider W) (p : Provide W).

Definition list_opcodes self (id : ProviderId) : ST W ResponseStatus (gset Opcode) :=
  opcodes ← lift (ok_or (provider_opcodes self !! id) ProviderNotRegistered);
  mret opcodes.

Definition list_providers self : ST W ResponseStatus (list ProviderInfo) :=
  mret (provider_info self).

Definition list_authenticators self : ST W ResponseStatus (list AuthenticatorInfo) :=
  mret (authenticator_info self).

(** [Result::unwrap_or_else] with a logging closure that answers [d]. *)
Definition or_log {A} (m : ST W ResponseStatus A) (log : ST W ResponseStatus unit) (d : A)
    : ST W ResponseStatus A :=
  r ← attempt m;
  match r with
  | Ok a => mret a
  | Err _ => log ;; mret d
  | Panic => panic
  end.

(** [if let Ok(..) = provider.describe() {..} else {..}]: a label for the log. *)
Definition label p : ST W ResponseStatus unit :=
  attempt (F := ResponseStatus) (lift (prov_describe p)) ;; mret tt.

Definition list_keys self (app_name : ApplicationName) : ST W ResponseStatus (list ListedKey) :=
  fold_each (prov_list self) [] (fun keys provider =>
    label provider ;;
    result ← or_log (prov_list_keys provider app_name) (mret tt) [];
    mret (keys ++ result)).

Definition list_clients self : ST W ResponseStatus (list string) :=
  clients ← fold_each (prov_list self) [] (fun clients provider =>
    result ← or_log (prov_list_clients provider) (label provider) [];
    mret (clients ++ result));
  mret (dedup (sort_strings clients)).

Definition delete_client self (client : string) : ST W ResponseStatus unit :=
  for_each (prov_list self) (fun provider =>
    label provider ;;
    keys ← or_log (prov_list_keys provider (from_name client)) (mret tt) [];
    for_each keys (fun key =>
      or_log (prov_psa_destroy_key provider (from_name client) (lk_name key)) (mret tt) tt)).

Definition ping self : ST W ResponseStatus (Z * Z) :=
  mret (wire_protocol_version_maj self, wire_protocol_version_min self).

(** [unreachable!()] *)
Definition describe : Result (ProviderInfo * gset Opcode) := Panic.

Definition provide self : Provide W := {|
  prov_describe := describe;
  prov_list_providers := list_providers self;
  prov_list_opcodes := list_opcodes self;
  prov_list_authenticators := list_authenticators self;
  prov_list_keys := list_keys self;
  prov_list_clients := list_clients self;
  prov_delete_client := delete_client self;
  prov_ping := ping self;
  prov_psa_generate_key := DefaultMethods.psa_generate_key;
  prov_psa_import_key := DefaultMethods.psa_import_key;
  prov_psa_export_public_key := DefaultMethods.psa_export_public_key;
  prov_psa_export_key := DefaultMethods.psa_export_key;
  prov_psa_destroy_key := DefaultMethods.psa_destroy_key;
  prov_psa_sign_hash := DefaultMethods.psa_sign_hash;
  prov_psa_verify_hash := DefaultMethods.psa_verify_hash;
  prov_psa_asymmetric_encrypt := DefaultMethods.psa_asymmetric_encrypt;
  prov_psa_asymmetric_decrypt := DefaultMethods.psa_asymmetric_decrypt;
  prov_psa_aead_encrypt := DefaultMethods.psa_aead_encrypt;
  prov_psa_aead_decrypt := DefaultMethods.psa_aead_decrypt;
  prov_psa_hash_compute := DefaultMethods.psa_hash_compute;
  prov_psa_hash_compare := DefaultMethods.psa_hash_compare;
  prov_psa_raw_key_agreement := DefaultMethods.psa_raw_key_agreement;
  prov_psa_generate_random := DefaultMethods.psa_generate_random;
  prov_psa_sign_message := DefaultMethods.psa_sign_message;
  prov_psa_verify_message := DefaultMethods.psa_verify_message;
|}.

(** ** [ProviderBuilder] *)
Record ProviderBuilder := {
  version_maj : option Z;
  version_min : option Z;
  b_prov_list : list (Provide W);
  b_authenticator_info : list AuthenticatorInfo;
}.
Definition ProviderBuilder_new : ProviderBuilder :=
  {| version_maj := None; version_min := None; b_prov_list := []; b_authenticator_info := [] |}.
Definition with_wire_protocol_version (min maj : Z) (b : ProviderBuilder) : ProviderBuilder :=
  {| version_maj := Some maj; version_min := Some min; b_prov_list := b_prov_list b;
     b_authenticator_info := b_authenticator_info b |}.
Definition with_provider p (b : ProviderBuilder) : ProviderBuilder :=
  {| version_maj := version_maj b; version_min := version_min b;
     b_prov_list := b_prov_list b ++ [p]; b_authenticator_info := b_authenticator_info b |}.
Definition with_authenticator_info (i : AuthenticatorInfo) (b : ProviderBuilder)
    : ProviderBuilder :=
  {| version_maj := version_maj b; version_min := version_min b;
     b_prov_list := b_prov_list b; b_authenticator_info := b_authenticator_info b ++ [i] |}.

(** One turn of the loop over the providers in [build]. *)
Definition describe_into (acc : gmap ProviderId (gset Opcode) * list ProviderInfo) p
    : result string (gmap ProviderId (gset Opcode) * list ProviderInfo) :=
  '(info, opcodes) ← map_err (fun _ => "Failed to describe provider") (prov_describe p);
  mret (<[pi_id info := opcodes]> acc.1, acc.2 ++ [info]).

Fixpoint describe_all (acc : gmap ProviderId (gset Opcode) * list ProviderInfo)
    (l : list (Provide W)) : result string (gmap ProviderId (gset Opcode) * list ProviderInfo) :=
  match l with
  | [] => mret acc
  | p :: l' => acc' ← describe_into acc p; describe_all acc' l'
  end.

(** [build]; the version the crate was built with ([version!()]) and the UUID
    parser are arguments. *)
Definition build (crate_version : option (Z * Z * Z)) (parse_uuid : string -> option string)
    (b : ProviderBuilder) : result string (Provider W) :=
  '(opcodes, infos) ← describe_all ({[ Core := list_to_set SUPPORTED_OPCODES ]}, [])
                        (b_prov_list b);
  '(major, minor, patch) ← ok_or crate_version "crate version number has invalid format";
  uuid ← ok_or (parse_uuid "47049873-2a43-4845-9d72-831eab668784") "provider UUID is invalid";
  let infos := infos ++ [{| pi_uuid := uuid;
       pi_description := "Software provider that implements only administrative (i.e. no cryptographic) operations";
       pi_vendor := ""; pi_version_maj := major; pi_version_min := minor;
       pi_version_rev := patch; pi_id := Core |}] in
  maj ← ok_or (version_maj b) "version maj is missing";
  min ← ok_or (version_min b) "version min is missing";
  mret {| wire_protocol_version_maj := maj; wire_protocol_version_min := min;
          provider_opcodes := opcodes; provider_info := infos;
          authenticator_info := b_authenticator_info b; prov_list := b_prov_list b |}.
End Core.
Arguments ProviderBuilder W : clear implicits.
End CoreProvider.
Import CoreProvider.

(** ** What the core provider relies on

    [key_owner Inv view id p]: in the states of [Inv], provider [p] reports
    exactly the mappings it has under the identifier [id], and destroying one of
    them removes it and keeps the rest. *)
Record key_owner {W} (Inv : W -> Prop) (view : W -> gmap KeyTriple KeyInfo)
    (id : ProviderId) (p : Provide W) : Prop := {
  own_describe : prov_describe p <> Panic;
  own_list a s : Inv s -> exists l, prov_list_keys p a s = (Ok l, s) /\
    NoDup (lk_name <$> l) /\
    forall k, k ∈ lk_name <$> l <-> is_Some (view s !! KeyTriple_new a id k);
  own_clients s : Inv s -> exists l, prov_list_clients p s = (Ok l, s) /\
    forall a, a ∈ l <-> exists k, is_Some (view s !! KeyTriple_new (from_name a) id k);
  own_destroy a k s : Inv s -> is_Some (view s !! KeyTriple_new a id k) ->
    exists r s', prov_psa_destroy_key p a k s = (r, s') /\ r <> Panic /\ Inv s' /\
      view s' = delete (KeyTriple_new a id k) (view s);
}.

Section Laws.
Context {W : Type} (Inv : W -> Prop) (view : W -> gmap KeyTriple KeyInfo).
Implicit Types (self : Provider W) (p : Provide W) (s : W).

Lemma or_log_Ok {A} (m : ST W ResponseStatus A) log d s a s' :
  m s = (Ok a, s') -> or_log m log d s = (Ok a, s').
Proof. intros Hm. unfold or_log. run_unfold. by rewrite Hm. Qed.

Lemma or_log_quiet {A} (m : ST W ResponseStatus A) d s r s' :
  m s = (r, s') -> r <> Panic -> exists a, or_log m (mret tt) d s = (Ok a, s').
Proof. intros Hm Hr. unfold or_log. run_unfold. rewrite Hm. destruct r; simpl; eauto; done. Qed.

Lemma label_run p s : prov_describe p <> Panic -> label p s = (Ok tt, s).
Proof. intros Hp. unfold label. run_unfold. by destruct (prov_describe p). Qed.

(** The mappings of the client [a] with one of the providers [ids]. *)
Definition of_client (a : ApplicationName) (ids : list ProviderId) (t : KeyTriple) : Prop :=
  kt_app_name t = a /\ kt_provider_id t ∈ ids.
#[local] Instance of_client_dec a ids t : Decision (of_client a ids t).
Proof. unfold of_client. apply _. Defined.

Lemma destroy_loop id p a s names :
  key_owner Inv view id p -> Inv s -> NoDup (lk_name <$> names) ->
  (forall k, k ∈ lk_name <$> names -> is_Some (view s !! KeyTriple_new a id k)) ->
  exists s', for_each names (fun key =>
      or_log (prov_psa_destroy_key p a (lk_name key)) (mret tt) tt) s = (Ok tt, s') /\
    Inv s' /\ forall t, view s' !! t =
      if decide (kt_app_name t = a /\ kt_provider_id t = id /\
                 kt_key_name t ∈ lk_name <$> names) then None else view s !! t.
Proof.
  intros Hp. revert s. induction names as [|k names IH]; intros s Hinv HN Hin.
  - exists s. split_and!; [done|done|]. intros t. rewrite decide_False; [done|].
    intros (_ & _ & Hk). by apply not_elem_of_nil in Hk.
  - cbn [fmap list_fmap] in HN, Hin. apply NoDup_cons in HN as [Hk HN].
    destruct (own_destroy _ _ _ _ Hp a (lk_name k) s Hinv) as (r & s1 & Hd & Hr & Hinv1 & Hv).
    { apply Hin. left. }
    destruct (or_log_quiet _ tt _ _ _ Hd Hr) as [[] Hlog].
    destruct (IH s1 Hinv1 HN) as (s' & Hrun & Hinv' & Hview).
    { intros k' Hk'. rewrite Hv, lookup_delete_ne; [apply Hin; by right|].
      unfold KeyTriple_new. intros Heq. by simplify_eq. }
    exists s'. split_and!; [|done|].
    { simpl. by rewrite (bind_run _ _ _ _ _ Hlog). }
    intros [ta tp tk]. rewrite Hview, Hv. cbn [fmap list_fmap]. simpl.
    destruct (decide (KeyTriple_new a id (lk_name k) =
      {| kt_app_name := ta; kt_provider_id := tp; kt_key_name := tk |})) as [Heq|Hne].
    + unfold KeyTriple_new in Heq. simplify_eq. rewrite lookup_delete_eq.
      rewrite (decide_True (P := _ /\ _ /\ lk_name k ∈ lk_name k :: _)) by (split_and!; [done|done|left]).
      by case_decide.
    + rewrite lookup_delete_ne by done. unfold KeyTriple_new in Hne.
      repeat case_decide; try done; exfalso; set_solver.
Qed.

Lemma delete_one_provider id p a s :
  key_owner Inv view id p -> Inv s ->
  exists s', (label p ;;
    keys ← or_log (prov_list_keys p a) (mret tt) [];
    for_each keys (fun key =>
      or_log (prov_psa_destroy_key p a (lk_name key)) (mret tt) tt)) s = (Ok tt, s') /\
    Inv s' /\ view s' = filter (fun '(t, _) => ~ of_client a [id] t) (view s).
Proof.
  intros Hp Hinv. destruct (own_list _ _ _ _ Hp a s Hinv) as (l & Hl & HN & Hin).
  destruct (destroy_loop id p a s l Hp Hinv HN) as (s' & Hrun & Hinv' & Hv).
  { intros k. apply Hin. }
  exists s'. split_and!; [|done|].
  - rewrite (bind_run _ _ _ _ _ (label_run p s (own_describe _ _ _ _ Hp))).
    by rewrite (bind_run _ _ _ _ _ (or_log_Ok _ _ _ _ _ _ Hl)).
  - apply map_eq. intros t. rewrite Hv. symmetry. case_decide as Ht.
    + apply map_lookup_filter_None. right. intros i _ Hn. apply Hn.
      unfold of_client. set_solver.
    + destruct (view s !! t) as [i|] eqn:Hi.
      * apply map_lookup_filter_Some. split; [done|]. intros [Ha Hid]. apply Ht.
        apply list_elem_of_singleton in Hid. split_and!; [done|done|].
        apply Hin. exists i. rewrite <- Hi. f_equal. destruct t. simpl in *. by subst.
      * apply map_lookup_filter_None. by left.
Qed.

Lemma filter_of_client_app a ids1 ids2 (m : gmap KeyTriple KeyInfo) :
  filter (fun '(t, _) => ~ of_client a ids2 t)
    (filter (fun '(t, _) => ~ of_client a ids1 t) m) =
  filter (fun '(t, _) => ~ of_client a (ids1 ++ ids2) t) m.
Proof.
  apply map_eq. intros t. apply option_eq. intros i.
  rewrite !map_lookup_filter_Some. unfold of_client. rewrite elem_of_app. tauto.
Qed.

Lemma delete_client_run ids provs a s :
  Forall2 (key_owner Inv view) ids provs -> Inv s ->
  exists s', for_each provs (fun p => label p ;;
      keys ← or_log (prov_list_keys p a) (mret tt) [];
      for_each keys (fun key =>
        or_log (prov_psa_destroy_key p a (lk_name key)) (mret tt) tt)) s = (Ok tt, s') /\
    Inv s' /\ view s' = filter (fun '(t, _) => ~ of_client a ids t) (view s).
Proof.
  intros Hall. revert s. induction Hall as [|id p ids provs Hp _ IH]; intros s Hinv.
  - exists s. split_and!; [done|done|]. symmetry. apply map_filter_id.
    unfold of_client. intros t i _ [_ Hn]. by apply not_elem_of_nil in Hn.
  - destruct (delete_one_provider id p a s Hp Hinv) as (s1 & Hrun1 & Hinv1 & Hv1).
    destruct (IH s1 Hinv1) as (s' & Hrun & Hinv' & Hv). exists s'. split_and!; [|done|].
    + cbn [for_each]. by rewrite (bind_run _ _ _ _ _ Hrun1).
    + rewrite Hv, Hv1. apply (filter_of_client_app a [id] ids).
Qed.

(** C27: deleting a client removes every mapping the client has with any of the
    providers, and no mapping of anyone else; the operation succeeds even if
    some underlying key cannot be destroyed. *)
Theorem delete_client_complete self ids client s :
  Forall2 (key_owner Inv view) ids (prov_list self) -> Inv s ->
  exists s', delete_client self client s = (Ok tt, s') /\
    view s' = filter (fun '(t, _) => ~ (kt_app_name t = from_name client /\
                                        kt_provider_id t ∈ ids)) (view s).
Proof.
  intros Hall Hinv. destruct (delete_client_run ids _ (from_name client) s Hall Hinv)
    as (s' & Hrun & _ & Hv). exists s'. split; [exact Hrun|exact Hv].
Qed.

Lemma core_clients_run ids provs acc s :
  Forall2 (key_owner Inv view) ids provs -> Inv s ->
  exists l, fold_each provs acc (fun clients p =>
      result ← or_log (prov_list_clients p) (label p) []; mret (clients ++ result)) s =
    (Ok (acc ++ l), s) /\
    forall a, a ∈ l <-> exists id k, id ∈ ids /\
      is_Some (view s !! KeyTriple_new (from_name a) id k).
Proof.
  intros Hall Hinv. revert acc. induction Hall as [|id p ids provs Hp _ IH]; intros acc.
  - exists []. rewrite app_nil_r. split; [done|]. set_solver.
  - destruct (own_clients _ _ _ _ Hp s Hinv) as (l1 & Hl1 & Hin1).
    destruct (IH (acc ++ l1)) as (l2 & Hl2 & Hin2). exists (l1 ++ l2). split.
    + cbn [fold_each]. rewrite bind_assoc.
      rewrite (bind_run _ _ _ _ _ (or_log_Ok _ _ _ _ _ _ Hl1)).
      etrans; [exact Hl2|]. by rewrite app_assoc.
    + intros a. rewrite elem_of_app, Hin1, Hin2. set_solver.
Qed.

(** Listing clients reports exactly the applications that have a mapping
    with some provider, sorted and each once, and changes nothing. *)
Theorem core_list_clients_spec self ids s :
  Forall2 (key_owner Inv view) ids (prov_list self) -> Inv s ->
  exists l, list_clients self s = (Ok l, s) /\ StronglySorted str_le l /\ NoDup l /\
    forall a, a ∈ l <-> exists id k, id ∈ ids /\
      is_Some (view s !! KeyTriple_new (from_name a) id k).
Proof.
  intros Hall Hinv. destruct (core_clients_run ids _ [] s Hall Hinv) as (l & Hl & Hin).
  exists (dedup (sort_strings l)). unfold list_clients. rewrite (bind_run _ _ _ _ _ Hl).
  split_and!; [done|apply dedup_sorted, sort_strings_sorted|
    apply dedup_sorted_NoDup, sort_strings_sorted|].
  intros a. by rewrite elem_of_dedup, elem_of_sort_strings.
Qed.
End Laws.

(** ** Safety of the core provider *)
Section CoreSafe.
Context {W : Type} (Inv : W -> Prop).
Implicit Types (p : Provide W) (s : W).

Lemma safe_label p : prov_describe p <> Panic -> safe_in Inv (label p).
Proof. intros Hp. unfold label. auto using safe_lift with parsec. Qed.

Lemma safe_or_log {A} (m : ST W ResponseStatus A) log d :
  safe_in Inv m -> safe_in Inv log -> safe_in Inv (or_log m log d).
Proof.
  intros Hm Hl s Hs. specialize (Hm s Hs). unfold or_log. run_unfold.
  destruct (m s) as [[a|e|] s1]; simpl in *; [done| |done].
  destruct (Hl s1 (proj1 Hm)) as [H1 H2]. by destruct (log s1) as [[| |] s2].
Qed.

Lemma safe_method {A} p (f : A -> NativeResult) app op (m : ST W ResponseStatus A) :
  safe Inv p -> provider_call p app op = (x ← m; mret (f x)) -> safe_in Inv m.
Proof. intros Hp Heq. apply (safe_bind_ret Inv m f). rewrite <- Heq. apply Hp. Qed.

(** If no provider it gathers from can panic, neither can the core provider. *)
Lemma core_safe (self : Provider W) :
  Forall (fun p => prov_describe p <> Panic /\ safe Inv p) (prov_list self) ->
  safe Inv (provide self).
Proof.
  intros Hall app op. rewrite Forall_forall in Hall.
  destruct op; simpl; apply safe_bind_ret; try apply safe_ret; try apply safe_raise.
  - unfold list_opcodes. apply safe_bind; [|auto with parsec].
    apply safe_lift. by destruct (provider_opcodes self !! _).
  - unfold list_keys. apply safe_fold_each. intros acc p [Hd Hp]%Hall.
    apply safe_bind; [by apply safe_label|intros _]. apply safe_bind; [|auto with parsec].
    apply safe_or_log; [|auto with parsec]. by apply (safe_method p RListKeys app ListKeys).
  - unfold list_clients. apply safe_bind; [|auto with parsec].
    apply safe_fold_each. intros acc p [Hd Hp]%Hall. apply safe_bind; [|auto with parsec].
    apply safe_or_log; [|by apply safe_label].
    by apply (safe_method p RListClients app ListClients).
  - unfold delete_client. apply safe_for_each. intros p [Hd Hp]%Hall.
    apply safe_bind; [by apply safe_label|intros _]. apply safe_bind.
    + apply safe_or_log; [|auto with parsec].
      by apply (safe_method p RListKeys (from_name client) ListKeys).
    + intros keys. apply safe_for_each. intros key _. apply safe_or_log; [|auto with parsec].
      by apply (safe_method p (fun _ => RPsaDestroyKey) (from_name client)
                  (PsaDestroyKey (lk_name key))).
Qed.
End CoreSafe.

(** ** Key ownership through the core provider *)
Section Isolation.
Context {W : Type} (view : W -> gmap KeyTriple KeyInfo).
Implicit Types (p : Provide W) (s : W).

Definition keeps (P : KeyTriple -> Prop) (s1 s2 : W) : Prop := agree_off P (view s1) (view s2).
#[export] Instance keeps_preorder P : PreOrder (keeps P).
Proof. split; [by intros s|]. intros s1 s2 s3 H12 H23. unfold keeps in *. by etrans. Qed.

Lemma or_log_keeps {A} P (m : ST W ResponseStatus A) d s :
  keeps P (m s).2 s -> keeps P (or_log m (mret tt) d s).2 s.
Proof. intros Hm. unfold or_log. run_unfold. by destruct (m s) as [[| |] ?]. Qed.

Lemma or_label_keeps {A} P (m : ST W ResponseStatus A) p d s :
  keeps P (m s).2 s -> keeps P (or_log m (label p) d s).2 s.
Proof.
  intros Hm. unfold or_log, label. run_unfold.
  destruct (m s) as [[| |] ?]; simpl in *; try done. by destruct (prov_describe p).
Qed.

Lemma label_keeps P p s : keeps P (label p s).2 s.
Proof. unfold label. run_unfold. by destruct (prov_describe p). Qed.

(** One loop whose body keeps [P]. *)
Lemma for_each_keeps {A} P (l : list A) (body : A -> ST W ResponseStatus unit) s :
  (forall x s, x ∈ l -> keeps P (body x s).2 s) -> keeps P (for_each l body s).2 s.
Proof.
  intros Hb. apply (for_each_preserves l body (fun s' => keeps P s' s)); [|done].
  intros x s' Hx Hs'. etrans; [by apply Hb|done].
Qed.

Lemma fold_each_keeps {A B} P (l : list A) (acc : B) (body : B -> A -> ST W ResponseStatus B) s :
  (forall acc x s, x ∈ l -> keeps P (body acc x s).2 s) -> keeps P (fold_each l acc body s).2 s.
Proof.
  intros Hb. apply (fold_each_preserves l acc body (fun s' => keeps P s' s)); [|done].
  intros acc' x s' Hx Hs'. etrans; [by apply Hb|done].
Qed.

Lemma call_keeps p app op s :
  well_behaved view p -> keeps (owned_by (touches app op)) (provider_call p app op s).2 s.
Proof. intros Hp. apply Hp. Qed.

(** If the providers it gathers from keep to the application's own keys, so does
    the core provider. *)
Lemma core_well_behaved (self : Provider W) :
  Forall (well_behaved view) (prov_list self) -> well_behaved view (provide self).
Proof.
  intros Hall app op s. rewrite Forall_forall in Hall.
  change (keeps (owned_by (touches app op)) (provider_call (provide self) app op s).2 s).
  destruct op; simpl; rewrite ?bind_ret_state; try done.
  - unfold list_opcodes. run_unfold. by destruct (provider_opcodes self !! _).
  - unfold list_keys. apply fold_each_keeps. intros acc p s1 Hp.
    apply bind_state; [apply _|apply label_keeps|intros ? s2 _].
    rewrite bind_ret_state. apply or_log_keeps. intros t Ht.
    pose proof (Hall p Hp app ListKeys s2 t Ht) as Hk. simpl in Hk.
    by rewrite bind_ret_state in Hk.
  - unfold list_clients. rewrite bind_ret_state. apply fold_each_keeps. intros acc p s1 Hp.
    rewrite bind_ret_state. apply or_label_keeps. intros t Ht.
    pose proof (Hall p Hp app ListClients s1 t Ht) as Hk. simpl in Hk.
    by rewrite bind_ret_state in Hk.
  - unfold delete_client. apply for_each_keeps. intros p s1 Hp.
    apply bind_state; [apply _|apply label_keeps|intros ? s2 _].
    apply bind_state; [apply _| |intros keys s3 _].
    + apply or_log_keeps. intros t Ht.
      pose proof (Hall p Hp (from_name client) ListKeys s2 t) as Hk. simpl in Hk.
      rewrite bind_ret_state in Hk. apply Hk. done.
    + apply for_each_keeps. intros key s4 _. apply or_log_keeps. intros t Ht.
      pose proof (Hall p Hp (from_name client) (PsaDestroyKey (lk_name key)) s4 t Ht) as Hk.
      simpl in Hk. by rewrite bind_ret_state in Hk.
Qed.
End Isolation.

(** ** What the builder gathers *)
Section Build.
Context {W : Type}.
Implicit Types (p : Provide W) (b : ProviderBuilder W).

Abbreviation ids ds := ((fun d : ProviderInfo * gset Opcode => pi_id d.1) <$> ds).

Lemma describe_all_run provs acc ops infos :
  describe_all acc provs = Ok (ops, infos) ->
  exists ds, Forall2 (fun p d => prov_describe p = Ok d) provs ds /\
    infos = acc.2 ++ (fst <$> ds) /\
    (forall id, id ∉ ids ds -> ops !! id = acc.1 !! id) /\
    (NoDup (ids ds) -> forall d, d ∈ ds -> ops !! pi_id d.1 = Some d.2).
Proof.
  revert acc. induction provs as [|p provs IH]; intros acc Hrun; simpl in Hrun.
  - injection Hrun as Hacc. subst acc. exists []. simpl. rewrite app_nil_r.
    split_and!; auto. set_solver.
  - unfold describe_into in Hrun. run_unfold.
    destruct (prov_describe p) as [[info opcodes]| |] eqn:Hd; try done.
    destruct (IH _ Hrun) as (ds & Hall & -> & Hout & Hin). simpl in *.
    exists ((info, opcodes) :: ds). split_and!; [by constructor|by rewrite <- app_assoc| |].
    + intros id Hid. rewrite Hout by set_solver. rewrite lookup_insert_ne; set_solver.
    + cbn. intros [Hi HN]%NoDup_cons d [->|Hds]%elem_of_cons; [|by apply Hin].
      rewrite Hout by done. by rewrite lookup_insert_eq.
Qed.

(** A core provider that was built describes the service it was built for:
    [ListProviders] lists the providers in the order they were added, the core
    provider last, and [ListOpcodes] gives each one's own opcodes, and an error
    for a provider that is not there. *)
Theorem core_build_spec ver uuid b core s :
  build ver uuid b = Ok core ->
  exists ds, Forall2 (fun p d => prov_describe p = Ok d) (b_prov_list b) ds /\
    prov_list core = b_prov_list b /\
    pi_id <$> provider_info core = ids ds ++ [Core] /\
    (forall id, id ∉ ids ds -> list_opcodes core id s =
      (if decide (id = Core) then Ok (list_to_set SUPPORTED_OPCODES)
       else Err ProviderNotRegistered, s)) /\
    (NoDup (ids ds) -> forall d, d ∈ ds -> list_opcodes core (pi_id d.1) s = (Ok d.2, s)).
Proof.
  unfold build. intros Hb. destruct (describe_all _ _) as [[ops infos]| |] eqn:Hd; try done.
  destruct (describe_all_run _ _ _ _ Hd) as (ds & Hall & -> & Hout & Hin).
  destruct ver as [[[maj min] patch]|], (uuid _), (version_maj b), (version_min b); try done.
  run_unfold. injection Hb as <-. exists ds. split_and!; [done|done| | |].
  - simpl. rewrite fmap_app, <- list_fmap_compose. done.
  - intros id Hid. unfold list_opcodes. run_unfold. rewrite Hout by done.
    case_decide as Hc; subst; [by rewrite lookup_singleton_eq|].
    by rewrite lookup_singleton_ne.
  - intros HN d Hds. unfold list_opcodes. run_unfold. by rewrite (Hin HN d Hds).
Qed.
End Build.

(** A service with one provider that supports nothing but listing. *)
Definition idle_info : ProviderInfo :=
  {| pi_uuid := "1c1139dc-ad7c-47dc-ad6b-db6fdb466552"; pi_description := "idle";
     pi_vendor := ""; pi_version_maj := 0; pi_version_min := 1; pi_version_rev := 0;
     pi_id := MbedCrypto |}.
Definition idle_provider : Provide unit :=
  default_provide (Ok (idle_info, {[ OpPsaGenerateRandom ]})) (fun _ => mret []) (mret []).
Definition idle_core : result string (Provider unit) :=
  build (Some (0, 7, 0)%Z) Some
    (with_provider idle_provider (with_wire_protocol_version 0 1 ProviderBuilder_new)).

Lemma core_build_spec_witness :
  exists core, idle_core = Ok core /\
    list_opcodes core MbedCrypto tt = (Ok {[ OpPsaGenerateRandom ]}, tt).
Proof.
  destruct idle_core as [core| |] eqn:Hc; [|discriminate Hc|discriminate Hc].
  exists core. split; [reflexivity|].
  destruct (core_build_spec _ _ _ core tt Hc) as (ds & Hall & _ & _ & _ & Hin).
  inversion Hall as [|p d l k Hd Hn]; subst. inversion Hn; subst. injection Hd as <-.
  refine (Hin _ (idle_info, _) _); [apply NoDup_singleton|left].
Defined.

(** The core provider does not report [ListClients] and [DeleteClient], which it
    implements. *)
Example core_opcodes_omit_admin :
  (OpListClients ∉ SUPPORTED_OPCODES) /\ (OpDeleteClient ∉ SUPPORTED_OPCODES) /\
  forall core : Provider unit, prov_list core = [] ->
    (provider_call (provide core) (from_name "a") ListClients tt).1 = Ok (RListClients []).
Proof.
  split_and!; [by apply (bool_decide_eq_true_1 (_ ∉ _))..|].
  intros core Hp. simpl. unfold list_clients. by rewrite Hp.
Qed.
