(* ===== verification/Mbed.v ===== *)
(** * The Mbed Crypto provider ([src/providers/mbed_crypto])

    [psa_crypto], the Rust binding of the cryptographic library, is outside the
    repository: it is the class [PsaCrypto] over a state [B] (the key store of
    the library), and [PsaLaws] is its documented effect on the set of stored
    keys.  The provider's state is the key info manager, the library and the
    counter of key identifiers.  A buffer passed as [&mut] is an argument and a
    result. *)
From S2P Require Import Prelude RustStd Interface Authenticators KeyInfo Provide.

(** [psa_crypto::types::status::Error] *)
Inductive psa_error := PsaDoesNotExist | psa_error_other (code : Z).

(** [psa_crypto::types::key::Id] is opened from a persistent identifier. *)
Class PsaCrypto (B : Type) := {
  (** [ResponseStatus::from] on an error of the library *)
  status_of : psa_error -> ResponseStatus;
  PSA_KEY_ID_USER_MIN : Z;
  PSA_KEY_ID_USER_MAX : Z;
  psa_init : ST B psa_error unit;
  from_persistent_key_id : Z -> ST B psa_error Z;
  attributes_from_key_id : Z -> ST B psa_error Attributes;
  psa_generate : Attributes -> option Z -> ST B psa_error Z;
  psa_import : Attributes -> option Z -> bytes -> ST B psa_error Z;
  psa_destroy : Z -> ST B psa_error unit;
  psa_export : Z -> bytes -> ST B psa_error (nat * bytes);
  psa_export_public : Z -> bytes -> ST B psa_error (nat * bytes);
  psa_sign_hash : Z -> AsymmetricSignature -> bytes -> bytes -> ST B psa_error (nat * bytes);
  psa_verify_hash : Z -> AsymmetricSignature -> bytes -> bytes -> ST B psa_error unit;
  psa_encrypt : Z -> AsymmetricEncryption -> bytes -> option bytes -> bytes ->
    ST B psa_error (nat * bytes);
  psa_decrypt : Z -> AsymmetricEncryption -> bytes -> option bytes -> bytes ->
    ST B psa_error (nat * bytes);
  psa_aead_encrypt : Z -> Aead -> bytes -> bytes -> bytes -> bytes -> ST B psa_error (nat * bytes);
  psa_aead_decrypt : Z -> Aead -> bytes -> bytes -> bytes -> bytes -> ST B psa_error (nat * bytes);
  psa_raw_key_agreement : RawKeyAgreement -> Z -> bytes -> bytes -> ST B psa_error (nat * bytes);
  psa_hash_compute : Hash -> bytes -> bytes -> ST B psa_error (nat * bytes);
  psa_hash_compare : Hash -> bytes -> bytes -> ST B psa_error unit;
  psa_random : bytes -> ST B psa_error bytes;
  (** sizes of output buffers ([key::Attributes]) and [Hash::hash_length] *)
  export_key_output_size : Attributes -> result psa_error nat;
  export_public_key_output_size : Attributes -> result psa_error nat;
  sign_output_size : Attributes -> AsymmetricSignature -> result psa_error nat;
  asymmetric_encrypt_output_size : Attributes -> AsymmetricEncryption -> result psa_error nat;
  asymmetric_decrypt_output_size : Attributes -> AsymmetricEncryption -> result psa_error nat;
  aead_encrypt_output_size : Attributes -> Aead -> nat -> result psa_error nat;
  aead_decrypt_output_size : Attributes -> Aead -> nat -> result psa_error nat;
  raw_key_agreement_output_size : Attributes -> RawKeyAgreement -> result psa_error nat;
  hash_length : Hash -> nat;
}.

(** [Operation::validate] of [parsec_interface]. *)
Class Validate := {
  validate_asym_encrypt : AsymEncryptOp -> Attributes -> Result unit;
  validate_asym_decrypt : AsymDecryptOp -> Attributes -> Result unit;
  validate_aead_encrypt : AeadEncryptOp -> Attributes -> Result unit;
  validate_aead_decrypt : AeadDecryptOp -> Attributes -> Result unit;
  validate_raw_key_agreement : RawKeyAgreementOp -> Attributes -> Result unit;
}.

Module MbedProvider.
Definition SUPPORTED_OPCODES : list Opcode :=
  [ OpPsaGenerateKey; OpPsaDestroyKey; OpPsaSignHash; OpPsaVerifyHash; OpPsaImportKey;
    OpPsaExportKey; OpPsaExportPublicKey; OpPsaAsymmetricDecrypt; OpPsaAsymmetricEncrypt;
    OpPsaAeadEncrypt; OpPsaAeadDecrypt; OpPsaHashCompare; OpPsaHashCompute;
    OpPsaRawKeyAgreement; OpPsaGenerateRandom ].

(** What the provider's methods share and change. *)
Record state (K B : Type) := { kim : K; crypto : B; id_counter : Z }.
Arguments kim {K B}.
Arguments crypto {K B}.
Arguments id_counter {K B}.

(** The provider: the client it reads and writes mappings with.  The mutex
    around the library is always free when a method starts. *)
Record Provider := { key_info_store : KeyInfoManagerClient }.

Section Mbed.
Context {K B : Type} `{ManageKeyInfo K} `{PsaCrypto B} `{Validate} `{Bincode Z}.
Implicit Types (self : Provider) (app_name : ApplicationName).
Abbreviation M A := (ST (state K B) ResponseStatus A).

Definition on_kim {E A} (m : ST K E A) : ST (state K B) E A :=
  zoom kim (fun k s => {| kim := k; crypto := crypto s; id_counter := id_counter s |}) m.
Definition on_crypto {E A} (m : ST B E A) : ST (state K B) E A :=
  zoom crypto (fun b s => {| kim := kim s; crypto := b; id_counter := id_counter s |}) m.
(** A call of the library followed by [?]. *)
Definition psa {A} (m : ST B psa_error A) : M A := on_err status_of (on_crypto m).
Definition psa_size (r : result psa_error nat) : M nat := lift (map_err status_of r).

(** [AtomicU32::fetch_add] and [store] *)
Definition fetch_add (n : Z) : M Z :=
  old ← gets id_counter;
  modify (fun s => {| kim := kim s; crypto := crypto s;
                      id_counter := u32_wrap (id_counter s + n) |}) ;;
  mret old.
Definition store_counter (n : Z) : M unit :=
  modify (fun s => {| kim := kim s; crypto := crypto s; id_counter := n |}).

Definition create_key_id : M Z :=
  old ← fetch_add 1;
  let new_key_id := u32_wrap (old + 1) in
  if (PSA_KEY_ID_USER_MAX <? new_key_id)%Z then
    store_counter PSA_KEY_ID_USER_MAX ;;
    raise PsaErrorInsufficientMemory
  else mret new_key_id.

Definition triple app_name (key_name : string) : KeyTriple :=
  KeyTriple_new app_name MbedCrypto key_name.

(** The part of [psa_generate_key_internal] and [psa_import_key_internal] that
    runs under the mutex: create the key with [make], store its information, and
    destroy it again if that fails. *)
Definition create_and_store self (t : KeyTriple) (key_attributes : Attributes) (key_id : Z)
    (make : ST B psa_error Z) : M unit :=
  r ← attempt (on_crypto make);
  match r with
  | Ok key =>
    r ← attempt (on_kim (insert_key_info (key_info_store self) t key_id key_attributes));
    match r with
    | Err e => attempt (F := ResponseStatus) (on_crypto (psa_destroy key)) ;; raise e
    | Ok _ => mret tt
    | Panic => panic
    end
  | Err error => raise (status_of error)
  | Panic => panic
  end.

Definition psa_generate_key_internal self app_name (op : GenerateKeyOp) : M unit :=
  let key_triple := triple app_name (gk_key_name op) in
  on_kim (does_not_exist (key_info_store self) key_triple) ;;
  key_id ← create_key_id;
  create_and_store self key_triple (gk_attributes op) key_id
    (psa_generate (gk_attributes op) (Some key_id)).

Definition psa_import_key_internal self app_name (op : ImportKeyOp) : M unit :=
  let key_triple := triple app_name (ik_key_name op) in
  on_kim (does_not_exist (key_info_store self) key_triple) ;;
  key_id ← create_key_id;
  create_and_store self key_triple (ik_attributes op) key_id
    (psa_import (ik_attributes op) (Some key_id) (ik_data op)).

(** Look a key up and open it: the first lines of every operation on a key. *)
Definition open_key self app_name (key_name : string) : M Z :=
  key_id ← on_kim (get_key_id Z (key_info_store self) (triple app_name key_name));
  psa (from_persistent_key_id key_id).

(** Run an operation of the library on a zeroed buffer of [buffer_size] bytes
    and cut the buffer to the size the library reports. *)
Definition with_buffer (buffer_size : nat) (run : bytes -> ST B psa_error (nat * bytes))
    : M bytes :=
  '(n, buffer) ← psa (run (zeroed buffer_size));
  mret (resize n "000"%char buffer).

Definition psa_export_public_key_internal self app_name (key_name : string) : M bytes :=
  id ← open_key self app_name key_name;
  key_attributes ← psa (attributes_from_key_id id);
  buffer_size ← psa_size (export_public_key_output_size key_attributes);
  with_buffer buffer_size (psa_export_public id).

Definition psa_export_key_internal self app_name (key_name : string) : M bytes :=
  id ← open_key self app_name key_name;
  key_attributes ← psa (attributes_from_key_id id);
  buffer_size ← psa_size (export_key_output_size key_attributes);
  with_buffer buffer_size (psa_export id).

Definition psa_destroy_key_internal self app_name (key_name : string) : M unit :=
  let key_triple := triple app_name key_name in
  key_id ← on_kim (get_key_id Z (key_info_store self) key_triple);
  on_kim (remove_key_info (key_info_store self) key_triple) ;;
  id ← psa (from_persistent_key_id key_id);
  psa (psa_destroy id).

Definition psa_sign_hash_internal self app_name (op : SignHashOp) : M bytes :=
  id ← open_key self app_name (sh_key_name op);
  key_attributes ← psa (attributes_from_key_id id);
  buffer_size ← psa_size (sign_output_size key_attributes (sh_alg op));
  with_buffer buffer_size (psa_sign_hash id (sh_alg op) (sh_hash op)).

Definition psa_verify_hash_internal self app_name (op : VerifyHashOp) : M unit :=
  id ← open_key self app_name (vh_key_name op);
  psa (psa_verify_hash id (vh_alg op) (vh_hash op) (vh_signature op)).

Definition psa_asymmetric_encrypt_internal self app_name (op : AsymEncryptOp) : M bytes :=
  id ← open_key self app_name (ae_key_name op);
  key_attributes ← psa (attributes_from_key_id id);
  lift (validate_asym_encrypt op key_attributes) ;;
  buffer_size ← psa_size (asymmetric_encrypt_output_size key_attributes (ae_alg op));
  with_buffer buffer_size (psa_encrypt id (ae_alg op) (ae_plaintext op) (ae_salt op)).

Definition psa_asymmetric_decrypt_internal self app_name (op : AsymDecryptOp) : M bytes :=
  id ← open_key self app_name (ad_key_name op);
  key_attributes ← psa (attributes_from_key_id id);
  lift (validate_asym_decrypt op key_attributes) ;;
  buffer_size ← psa_size (asymmetric_decrypt_output_size key_attributes (ad_alg op));
  with_buffer buffer_size (psa_decrypt id (ad_alg op) (ad_ciphertext op) (ad_salt op)).

Definition psa_aead_encrypt_internal self app_name (op : AeadEncryptOp) : M bytes :=
  id ← open_key self app_name (aee_key_name op);
  key_attributes ← psa (attributes_from_key_id id);
  lift (validate_aead_encrypt op key_attributes) ;;
  buffer_size ← psa_size (aead_encrypt_output_size key_attributes (aee_alg op)
                            (length (aee_plaintext op)));
  with_buffer buffer_size (psa_aead_encrypt id (aee_alg op) (aee_nonce op)
                             (aee_additional_data op) (aee_plaintext op)).

Definition psa_aead_decrypt_internal self app_name (op : AeadDecryptOp) : M bytes :=
  id ← open_key self app_name (aed_key_name op);
  key_attributes ← psa (attributes_from_key_id id);
  lift (validate_aead_decrypt op key_attributes) ;;
  buffer_size ← psa_size (aead_decrypt_output_size key_attributes (aed_alg op)
                            (length (aed_ciphertext op)));
  with_buffer buffer_size (psa_aead_decrypt id (aed_alg op) (aed_nonce op)
                             (aed_additional_data op) (aed_ciphertext op)).

Definition psa_raw_key_agreement_internal self app_name (op : RawKeyAgreementOp) : M bytes :=
  id ← open_key self app_name (ka_private_key_name op);
  key_attributes ← psa (attributes_from_key_id id);
  lift (validate_raw_key_agreement op key_attributes) ;;
  buffer_size ← psa_size (raw_key_agreement_output_size key_attributes (ka_alg_op op));
  with_buffer buffer_size (psa_raw_key_agreement (ka_alg_op op) id (ka_peer_key op)).

Definition psa_hash_compute_internal (op : HashComputeOp) : M bytes :=
  with_buffer (hash_length (hc_alg op)) (psa_hash_compute (hc_alg op) (hc_input op)).

Definition psa_hash_compare_internal (op : HashCompareOp) : M unit :=
  psa (psa_hash_compare (hp_alg op) (hp_input op) (hp_hash op)).

(** [GlobalConfig::buffer_size_limit] is an argument. *)
Definition psa_generate_random_internal (buffer_size_limit : Z) (op : GenerateRandomOp) : M bytes :=
  if (buffer_size_limit <? gr_size op)%Z then raise ResponseTooLarge
  else psa (psa_random (zeroed (Z.to_nat (gr_size op)))).

(** ** Initialisation: [Provider::new] *)

(** One turn of the loop over the stored triples; [None] abandons the
    initialisation. *)
Definition check_stored (c : KeyInfoManagerClient) (acc : Z * list KeyTriple)
    (key_triple : KeyTriple) : ST (state K B) unit (Z * list KeyTriple) :=
  let '(max_key_id, to_remove) := acc in
  r ← attempt (on_kim (get_key_id Z c key_triple));
  match r with
  | Err _ => mret (max_key_id, to_remove ++ [key_triple])
  | Ok key_id =>
    r ← attempt (on_crypto (from_persistent_key_id key_id));
    match r with
    | Ok _ => mret (if (max_key_id <? key_id)%Z then key_id else max_key_id, to_remove)
    | Err PsaDoesNotExist => mret (max_key_id, to_remove ++ [key_triple])
    | Err _ => raise tt
    | Panic => panic
    end
  | Panic => panic
  end.

(** [Provider::new]: an error is the [None] of the source. *)
Definition new (c : KeyInfoManagerClient) : ST (state K B) unit Provider :=
  on_err (fun _ => tt) (on_crypto psa_init) ;;
  modify (fun s => {| kim := kim s; crypto := crypto s; id_counter := PSA_KEY_ID_USER_MIN |}) ;;
  key_triples ← on_err (fun _ => tt) (on_kim (get_all c));
  '(max_key_id, to_remove) ← fold_each key_triples (PSA_KEY_ID_USER_MIN, []) (check_stored c);
  for_each to_remove (fun key_triple =>
    on_err (fun _ => tt) (on_kim (remove_key_info c key_triple))) ;;
  modify (fun s => {| kim := kim s; crypto := crypto s; id_counter := max_key_id |}) ;;
  mret {| key_info_store := c |}.

(** ** The builder *)
Record ProviderBuilder := { b_key_info_store : option KeyInfoManagerClient }.
Definition ProviderBuilder_new : ProviderBuilder := {| b_key_info_store := None |}.
Definition with_key_info_store (c : KeyInfoManagerClient) (b : ProviderBuilder) : ProviderBuilder :=
  {| b_key_info_store := Some c |}.

Definition build (b : ProviderBuilder) : ST (state K B) string Provider :=
  c ← lift (ok_or (b_key_info_store b) "missing key info store");
  on_err (fun _ => "MbedCrypto Provider initialization failed") (new c).

(** ** The trait *)
Definition describe (parse_uuid : string -> option string)
    : Result (ProviderInfo * gset Opcode) :=
  uuid ← ok_or (parse_uuid "1c1139dc-ad7c-47dc-ad6b-db6fdb466552") InvalidEncoding;
  Ok ({| pi_uuid := uuid;
         pi_description := "User space software provider, based on Mbed Crypto - the reference implementation of the PSA crypto API";
         pi_vendor := "Arm"; pi_version_maj := 0; pi_version_min := 1; pi_version_rev := 0;
         pi_id := MbedCrypto |}, list_to_set SUPPORTED_OPCODES).

Definition list_keys self app_name : M (list ListedKey) :=
  on_kim (KeyInfo.list_keys (key_info_store self) app_name).

Definition list_clients self : M (list string) :=
  clients ← on_kim (KeyInfo.list_clients (key_info_store self));
  mret (app_name_string <$> clients).

Definition provide (parse_uuid : string -> option string) (buffer_size_limit : Z) self
    : Provide (state K B) := {|
  prov_describe := describe parse_uuid;
  prov_list_providers := DefaultMethods.list_providers;
  prov_list_opcodes := DefaultMethods.list_opcodes;
  prov_list_authenticators := DefaultMethods.list_authenticators;
  prov_list_keys := list_keys self;
  prov_list_clients := list_clients self;
  prov_delete_client := DefaultMethods.delete_client;
  prov_ping := DefaultMethods.ping;
  prov_psa_generate_key := psa_generate_key_internal self;
  prov_psa_import_key := psa_import_key_internal self;
  prov_psa_export_public_key := psa_export_public_key_internal self;
  prov_psa_export_key := psa_export_key_internal self;
  prov_psa_destroy_key := psa_destroy_key_internal self;
  prov_psa_sign_hash := psa_sign_hash_internal self;
  prov_psa_verify_hash := psa_verify_hash_internal self;
  prov_psa_asymmetric_encrypt := psa_asymmetric_encrypt_internal self;
  prov_psa_asymmetric_decrypt := psa_asymmetric_decrypt_internal self;
  prov_psa_aead_encrypt := psa_aead_encrypt_internal self;
  prov_psa_aead_decrypt := psa_aead_decrypt_internal self;
  prov_psa_hash_compute := psa_hash_compute_internal;
  prov_psa_hash_compare := psa_hash_compare_internal;
  prov_psa_raw_key_agreement := psa_raw_key_agreement_internal self;
  prov_psa_generate_random := psa_generate_random_internal buffer_size_limit;
  prov_psa_sign_message := DefaultMethods.psa_sign_message;
  prov_psa_verify_message := DefaultMethods.psa_verify_message;
|}.
End Mbed.
End MbedProvider.
