(* ===== verification/MbedSpec.v ===== *)
(** * Correctness of the Mbed Crypto provider

    Proved against any key info manager ([KimSpec]) and any library that has the
    documented effect on its key store ([PsaLaws]). *)
From S2P Require Import Prelude RustStd Interface Authenticators KeyInfo Provide CoreProvider.
From S2P Require Import Mbed.
Import MbedProvider.

(** A call that leaves the set of stored keys alone and does not panic. *)
Definition reads_keys {B A : Type} (keys : B -> gset Z) (m : ST B psa_error A) : Prop :=
  forall b, keys (m b).2 = keys b /\ (m b).1 <> Panic.

(** A call that creates the key [id], or fails without a trace. *)
Definition makes_key {B : Type} (keys : B -> gset Z) (id : Z) (m : ST B psa_error Z) : Prop :=
  forall b, match m b with
  | (Ok i, b') => i = id /\ (id ∉ keys b) /\ keys b' = {[id]} ∪ keys b
  | (Err _, b') => keys b' = keys b
  | (Panic, _) => False
  end.

Class PsaLaws (B : Type) `{PsaCrypto B} := {
  psa_keys : B -> gset Z;
  psa_id_bounds : (0 < PSA_KEY_ID_USER_MIN <= PSA_KEY_ID_USER_MAX /\
                   PSA_KEY_ID_USER_MAX < 2 ^ 30)%Z;
  psa_init_reads : reads_keys psa_keys psa_init;
  psa_open_spec id b :
    match from_persistent_key_id id b with
    | (Ok i, b') => i = id /\ id ∈ psa_keys b /\ psa_keys b' = psa_keys b
    | (Err PsaDoesNotExist, b') => (id ∉ psa_keys b) /\ psa_keys b' = psa_keys b
    | (Err _, b') => psa_keys b' = psa_keys b
    | (Panic, _) => False
    end;
  psa_generate_makes a id : makes_key psa_keys id (psa_generate a (Some id));
  psa_import_makes a id d : makes_key psa_keys id (psa_import a (Some id) d);
  psa_destroy_spec id b :
    match psa_destroy id b with
    | (Ok _, b') => psa_keys b' = psa_keys b ∖ {[id]}
    | (Err _, b') => psa_keys b' = psa_keys b \/ psa_keys b' = psa_keys b ∖ {[id]}
    | (Panic, _) => False
    end;
  psa_attributes_reads id : reads_keys psa_keys (attributes_from_key_id id);
  psa_export_reads id b : reads_keys psa_keys (psa_export id b);
  psa_export_public_reads id b : reads_keys psa_keys (psa_export_public id b);
  psa_sign_reads id a h b : reads_keys psa_keys (psa_sign_hash id a h b);
  psa_verify_reads id a h s : reads_keys psa_keys (psa_verify_hash id a h s);
  psa_encrypt_reads id a p s b : reads_keys psa_keys (psa_encrypt id a p s b);
  psa_decrypt_reads id a p s b : reads_keys psa_keys (psa_decrypt id a p s b);
  psa_aead_encrypt_reads id a n d p b : reads_keys psa_keys (psa_aead_encrypt id a n d p b);
  psa_aead_decrypt_reads id a n d p b : reads_keys psa_keys (psa_aead_decrypt id a n d p b);
  psa_agreement_reads a id p b : reads_keys psa_keys (psa_raw_key_agreement a id p b);
  psa_hash_compute_reads a i b : reads_keys psa_keys (psa_hash_compute a i b);
  psa_hash_compare_reads a i h : reads_keys psa_keys (psa_hash_compare a i h);
  psa_random_reads b : reads_keys psa_keys (psa_random b);
  psa_sizes_no_panic a :
    export_key_output_size a <> Panic /\ export_public_key_output_size a <> Panic /\
    (forall g, sign_output_size a g <> Panic) /\
    (forall g, asymmetric_encrypt_output_size a g <> Panic) /\
    (forall g, asymmetric_decrypt_output_size a g <> Panic) /\
    (forall g n, aead_encrypt_output_size a g n <> Panic) /\
    (forall g n, aead_decrypt_output_size a g n <> Panic) /\
    (forall g, raw_key_agreement_output_size a g <> Panic);
}.

Class ValidateLaws `{Validate} : Prop := validate_no_panic a :
  (forall op, validate_asym_encrypt op a <> Panic) /\
  (forall op, validate_asym_decrypt op a <> Panic) /\
  (forall op, validate_aead_encrypt op a <> Panic) /\
  (forall op, validate_aead_decrypt op a <> Panic) /\
  (forall op, validate_raw_key_agreement op a <> Panic).

(** Key identifiers are [u32] and serialise as such. *)
Class BincodeU32 `{Bincode Z} : Prop :=
  bincode_u32 z : (0 <= z < 2 ^ 32)%Z -> is_Some (bincode_serialize z).

#[export] Hint Resolve psa_init_reads psa_attributes_reads psa_export_reads
  psa_export_public_reads psa_sign_reads psa_verify_reads psa_encrypt_reads psa_decrypt_reads
  psa_aead_encrypt_reads psa_aead_decrypt_reads psa_agreement_reads psa_hash_compute_reads
  psa_hash_compare_reads psa_random_reads psa_generate_makes psa_import_makes : parsec.

Section Spec.
Context {K B : Type} `{KimSpec K} `{PsaLaws B} `{ValidateLaws} `{BZ : Bincode Z}.
Context `{!BincodeLaws Z} `{!BincodeU32}.
Implicit Types (s : state K B) (self : Provider).

Definition view s : gmap KeyTriple KeyInfo := kim_view (kim s).
Definition keys s : gset Z := psa_keys (crypto s).

(** ** Operations that only read *)
Definition same s1 s2 : Prop :=
  view s1 = view s2 /\ keys s1 = keys s2 /\ id_counter s1 = id_counter s2.
#[export] Instance same_preorder : PreOrder same.
Proof. split; [by intros s|]. unfold same. intros s1 s2 s3. naive_solver congruence. Qed.

Definition quiet {A} (m : ST (state K B) ResponseStatus A) : Prop :=
  forall s, same (m s).2 s /\ (m s).1 <> Panic.

Lemma quiet_bind {A C} (m : ST (state K B) ResponseStatus A) (k : A -> ST _ ResponseStatus C) :
  quiet m -> (forall a, quiet (k a)) -> quiet (x ← m; k x).
Proof.
  intros Hm Hk s. destruct (Hm s) as [Hs Hp]. run_unfold.
  destruct (m s) as [[a| |] s1]; simpl in *; [|done|done].
  destruct (Hk a s1). split; [by etrans|done].
Qed.

Lemma quiet_ret {A} (a : A) : quiet (mret a).
Proof. by intros s. Qed.
Lemma quiet_raise {A} e : quiet (A := A) (raise e).
Proof. by intros s. Qed.
Lemma quiet_lift {A} (r : Result A) : r <> Panic -> quiet (lift r).
Proof. by intros Hr s. Qed.

Lemma quiet_size r : r <> Panic -> quiet (psa_size r).
Proof. intros Hr. apply quiet_lift. by destruct r. Qed.

Lemma quiet_psa {A} (m : ST B psa_error A) : reads_keys psa_keys m -> quiet (psa m).
Proof.
  intros Hm s. destruct (Hm (crypto s)) as [Hk Hp]. unfold psa, on_crypto. run_unfold.
  destruct (m (crypto s)) as [[a| |] b]; simpl in *; done.
Qed.

Lemma quiet_kim {A} (m : ST K ResponseStatus A) :
  (forall k, kim_view (m k).2 = kim_view k /\ (m k).1 <> Panic) -> quiet (on_kim m).
Proof.
  intros Hm s. destruct (Hm (kim s)) as [Hv Hp]. unfold on_kim. run_unfold.
  by destruct (m (kim s)) as [r k].
Qed.

Lemma open_reads id : reads_keys psa_keys (from_persistent_key_id id).
Proof.
  intros b. pose proof (psa_open_spec id b) as Ho.
  destruct (from_persistent_key_id id b) as [[|[]|] b']; naive_solver.
Qed.
Hint Resolve open_reads : parsec.

Lemma get_key_id_quiet c t : quiet (on_kim (get_key_id Z c t)).
Proof.
  apply quiet_kim. intros k. rewrite get_key_id_run. split; [done|]. simpl.
  destruct (kim_view k !! t); [|done]. by destruct (bincode_deserialize _).
Qed.

Lemma open_key_quiet self a k : quiet (open_key self a k).
Proof. apply quiet_bind; [apply get_key_id_quiet|]. intros id. apply quiet_psa. eauto with parsec. Qed.

Lemma with_buffer_quiet n run :
  (forall b, reads_keys psa_keys (run b)) -> quiet (with_buffer (K := K) n run).
Proof.
  intros Hr. apply quiet_bind; [by apply quiet_psa|]. intros [m buf]. apply quiet_ret.
Qed.

(** The operations on a key that do not create or destroy one, and those on no
    key. *)
Definition reading (op : NativeOperation) : bool :=
  match op with
  | PsaGenerateKey _ | PsaImportKey _ | PsaDestroyKey _ => false
  | _ => true
  end.

Lemma reading_quiet uuid limit self a op :
  reading op = true -> quiet (provider_call (provide uuid limit self) a op).
Proof.
  destruct op; intros Hr; try discriminate Hr; simpl;
    (apply quiet_bind; [|intros; apply quiet_ret]); try apply quiet_raise.
  all: try (apply quiet_kim; intros k;
    destruct (list_keys_run (key_info_store self) a k) as (l & Hl & _); by rewrite Hl).
  all: try (apply quiet_bind; [apply open_key_quiet|intros id]).
  all: try (apply quiet_bind; [apply quiet_psa; eauto with parsec|intros attrs];
    pose proof (psa_sizes_no_panic attrs); pose proof (validate_no_panic attrs); destruct_and?).
  all: repeat (apply quiet_bind; [first [by apply quiet_size | by apply quiet_lift]|intros ?]).
  all: try (apply with_buffer_quiet; intros; eauto with parsec).
  all: try (apply quiet_psa; eauto with parsec).
  - apply quiet_bind; [|intros; apply quiet_ret]. apply quiet_kim. intros k.
    destruct (list_clients_run (key_info_store self) k) as (l & Hl & _). by rewrite Hl.
  - unfold psa_generate_random_internal. destruct (_ <? _)%Z; [apply quiet_raise|].
    apply quiet_psa. eauto with parsec.
Qed.

(** ** Creating keys *)
Definition counter_ok s : Prop := (0 <= id_counter s <= PSA_KEY_ID_USER_MAX)%Z.

Definition bump s : state K B :=
  {| kim := kim s; crypto := crypto s; id_counter := (id_counter s + 1)%Z |}.

Lemma create_key_id_run s : counter_ok s ->
  create_key_id s =
  if decide (id_counter s = PSA_KEY_ID_USER_MAX) then (Err PsaErrorInsufficientMemory, s)
  else (Ok (id_counter s + 1)%Z, bump s).
Proof.
  intros Hc. unfold counter_ok in Hc. pose proof psa_id_bounds as Hb.
  unfold create_key_id, fetch_add, store_counter. run_unfold.
  assert (Hw : u32_wrap (id_counter s + 1) = (id_counter s + 1)%Z).
  { unfold u32_wrap. apply Z.mod_small. lia. }
  rewrite Hw. case_decide as Hm; destruct (Z.ltb_spec PSA_KEY_ID_USER_MAX (id_counter s + 1));
    simpl; try lia; [|done].
  rewrite <- Hm at 1. by destruct s.
Qed.

(** The outcome of making the key [id] and storing its information under the
    free triple [t]: everything happened, or the mapping is as before and the
    key is gone unless the library refused to destroy it. *)
Lemma create_and_store_spec self t attrs id make s :
  (0 <= id < 2 ^ 32)%Z -> makes_key psa_keys id make -> view s !! t = None ->
  match create_and_store self t attrs id make s with
  | (Ok _, s') => exists b, bincode_serialize id = Some b /\ (id ∉ keys s) /\
      view s' = <[t := {| ki_id := b; ki_attributes := attrs |}]> (view s) /\
      keys s' = {[id]} ∪ keys s /\ id_counter s' = id_counter s
  | (Err _, s') => view s' = view s /\ id_counter s' = id_counter s /\
      (keys s' = keys s \/ keys s' = {[id]} ∪ keys s)
  | (Panic, _) => False
  end.
Proof.
  intros Hid Hmake Hfree. destruct (bincode_u32 id Hid) as [b Hb].
  unfold create_and_store, on_crypto, on_kim. specialize (Hmake (crypto s)).
  run_unfold. destruct (make (crypto s)) as [[i|e|] b1]; simpl; [|by auto|done].
  destruct Hmake as (-> & Hnew & Hkeys).
  destruct (insert_key_info_cases (key_info_store self) t id attrs (kim s) b Hb)
    as (k1 & [[Hrun Hv]|[Hrun Hv]]); rewrite Hrun.
  - pose proof (psa_destroy_spec id b1) as Hd. simpl.
    destruct (psa_destroy id b1) as [[[]|e|] b2]; simpl; [| |done].
    + split_and!; [done|done|]. left. unfold keys. simpl. rewrite Hd, Hkeys. set_solver.
    + split_and!; [done|done|]. unfold keys. simpl.
      destruct Hd as [Hd|Hd]; [right; congruence|left; rewrite Hd, Hkeys; set_solver].
  - change (kim_view (kim s) !! t) with (view s !! t). rewrite Hfree. simpl. eauto 10.
Qed.

(** What creating a key under [t] does, for [generate] and [import]. *)
Definition creates t attrs (m : ST (state K B) ResponseStatus unit) : Prop :=
  forall s, counter_ok s ->
  match m s with
  | (Ok _, s') => view s !! t = None /\
      let id := (id_counter s + 1)%Z in
      exists b, bincode_serialize id = Some b /\ (id ∉ keys s) /\
      view s' = <[t := {| ki_id := b; ki_attributes := attrs |}]> (view s) /\
      keys s' = {[id]} ∪ keys s /\ id_counter s' = id /\ counter_ok s'
  | (Err e, s') => view s' = view s /\ counter_ok s' /\
      (id_counter s <= id_counter s' <= id_counter s + 1)%Z /\
      (keys s' = keys s \/ keys s' = {[(id_counter s + 1)%Z]} ∪ keys s) /\
      (is_Some (view s !! t) -> e = PsaErrorAlreadyExists /\ s' = s)
  | (Panic, _) => False
  end.

Lemma create_creates self t attrs (make : Z -> ST B psa_error Z) :
  (forall id, makes_key psa_keys id (make id)) ->
  creates t attrs (
    on_kim (does_not_exist (key_info_store self) t) ;;
    key_id ← create_key_id;
    create_and_store self t attrs key_id (make key_id)).
Proof.
  intros Hmake s Hc. pose proof psa_id_bounds as Hb. pose proof Hc as Hc'.
  unfold counter_ok in Hc'. unfold on_kim at 1. unfold mbind at 1, ST_bind at 1, zoom.
  rewrite does_not_exist_run. change (kim_view (kim s)) with (view s).
  destruct (view s !! t) as [i|] eqn:Ht; simpl.
  { replace {| kim := kim s; crypto := crypto s; id_counter := id_counter s |} with s
      by by destruct s.
    split_and!; auto; lia. }
  replace {| kim := kim s; crypto := crypto s; id_counter := id_counter s |} with s
    by by destruct s.
  unfold mbind at 1, ST_bind at 1. rewrite create_key_id_run by done. case_decide as Hm.
  { split_and!; auto; try lia. intros [? ?]. done. }
  pose proof (create_and_store_spec self t attrs (id_counter s + 1) (make (id_counter s + 1)%Z)
    (bump s) ltac:(lia) (Hmake _) Ht) as Hcs.
  destruct (create_and_store _ _ _ _ _ (bump s)) as [[u|e|] s']; [| |done].
  - split; [done|]. destruct Hcs as (b & Hb' & Hn & Hv & Hk & Hi). exists b.
    split_and!; try done. unfold counter_ok. rewrite Hi. simpl. lia.
  - destruct Hcs as (Hv & Hi & Hk). simpl in Hi.
    split_and!; try done; try (unfold counter_ok; lia).
Qed.

Lemma generate_creates self a op :
  creates (triple a (gk_key_name op)) (gk_attributes op) (psa_generate_key_internal self a op).
Proof. apply (create_creates self _ _ (fun id => _)). eauto with parsec. Qed.

Lemma import_creates self a op :
  creates (triple a (ik_key_name op)) (ik_attributes op) (psa_import_key_internal self a op).
Proof. apply (create_creates self _ _ (fun id => _)). eauto with parsec. Qed.

(** ** Destroying keys *)
Lemma destroy_spec self a k s :
  match psa_destroy_key_internal self a k s with
  | (Ok _, s') => exists i id, view s !! triple a k = Some i /\
      bincode_deserialize (ki_id i) = Some id /\ id ∈ keys s /\
      view s' = delete (triple a k) (view s) /\ keys s' = keys s ∖ {[id]} /\
      id_counter s' = id_counter s
  | (Err e, s') => id_counter s' = id_counter s /\
      (view s' = view s /\ keys s' = keys s \/
       exists i, view s !! triple a k = Some i /\ view s' = delete (triple a k) (view s) /\
         (keys s' = keys s \/
          exists id, bincode_deserialize (ki_id i) = Some id /\ keys s' = keys s ∖ {[id]})) /\
      (view s !! triple a k = None -> e = PsaErrorDoesNotExist)
  | (Panic, _) => False
  end.
Proof.
  unfold psa_destroy_key_internal, on_kim, psa, on_crypto. run_unfold.
  rewrite get_key_id_run. change (kim_view (kim s)) with (view s).
  destruct (view s !! triple a k) as [i|] eqn:Ht; [|simpl; by auto 10].
  destruct (bincode_deserialize (ki_id i)) as [id|] eqn:Hi; simpl; [|by split_and!; auto].
  destruct (remove_key_info_cases (key_info_store self) (triple a k) (kim s))
    as (k1 & [[-> Hv]|[-> Hv]]); simpl; [by split_and!; auto|].
  change (kim_view (kim s)) with (view s) in *. rewrite Ht. simpl.
  pose proof (psa_open_spec id (crypto s)) as Ho.
  destruct (from_persistent_key_id id (crypto s)) as [[i'|e|] b1]; simpl; [| |done].
  - destruct Ho as (-> & Hin & Hk). pose proof (psa_destroy_spec id b1) as Hd.
    destruct (psa_destroy id b1) as [[[]|e|] b2]; simpl; [| |done].
    + exists i, id. split_and!; auto. unfold keys. simpl. congruence.
    + split_and!; [done| |done]. right. exists i. split_and!; [done|done|]. unfold keys. simpl.
      destruct Hd as [Hd|Hd]; [left; congruence|right]. exists id. split; [done|congruence].
  - split_and!; [done| |done]. right. exists i. split_and!; [done|done|left]. unfold keys. simpl.
    destruct e; naive_solver.
Qed.

(** ** The invariant of a running provider *)
Definition key_id_of (i : KeyInfo) : option Z := bincode_deserialize (ki_id i).

(** Two different keys of the provider never share an identifier. *)
Definition ids_distinct (m : gmap KeyTriple KeyInfo) : Prop :=
  forall t1 t2 i1 i2 id, m !! t1 = Some i1 -> m !! t2 = Some i2 ->
    kt_provider_id t1 = MbedCrypto -> kt_provider_id t2 = MbedCrypto ->
    key_id_of i1 = Some id -> key_id_of i2 = Some id -> t1 = t2.

Record mbed_ok s : Prop := {
  mo_counter : counter_ok s;
  mo_ids t i : view s !! t = Some i -> kt_provider_id t = MbedCrypto ->
    exists id, key_id_of i = Some id /\ id ∈ keys s /\ (id <= id_counter s)%Z;
  mo_distinct : ids_distinct (view s);
}.

Lemma mbed_ok_grow s s' :
  mbed_ok s -> view s' = view s -> keys s ⊆ keys s' -> counter_ok s' ->
  (id_counter s <= id_counter s')%Z -> mbed_ok s'.
Proof.
  intros [Hc Hi Hd] Hv Hk Hc' Hle. split; [done| |by rewrite Hv].
  intros t i. rewrite Hv. intros Ht Hp. destruct (Hi t i Ht Hp) as (id & ? & ? & ?).
  exists id. split_and!; [done|set_solver|lia].
Qed.

(** The identifier is in use by a mapping. *)
Definition in_use s (id : Z) : Prop :=
  exists t i, view s !! t = Some i /\ kt_provider_id t = MbedCrypto /\ key_id_of i = Some id.

Lemma in_use_counter s id : mbed_ok s -> in_use s id -> (id <= id_counter s)%Z.
Proof.
  intros Hs (t & i & Ht & Hp & Hid). destruct (mo_ids s Hs t i Ht Hp) as (id' & ? & _ & ?).
  simplify_eq. done.
Qed.

Lemma mbed_ok_insert s s' t id b attrs :
  mbed_ok s -> bincode_serialize id = Some b -> ~ in_use s id ->
  view s' = <[t := {| ki_id := b; ki_attributes := attrs |}]> (view s) ->
  keys s' = {[id]} ∪ keys s -> (id <= id_counter s')%Z -> (id_counter s <= id_counter s')%Z ->
  counter_ok s' -> mbed_ok s'.
Proof.
  intros [Hc Hi Hd] Hb Hfresh Hv Hk Hn Hn' Hc'. apply bincode_round in Hb.
  assert (Hnew : key_id_of {| ki_id := b; ki_attributes := attrs |} = Some id) by exact Hb.
  split; [done| |].
  - intros t' i'. rewrite Hv. intros [[<- <-]|[Hne Ht']]%lookup_insert_Some Hp.
    + exists id. split_and!; [done|set_solver|lia].
    + destruct (Hi t' i' Ht' Hp) as (id' & ? & ? & ?). exists id'. split_and!; [done|set_solver|lia].
  - intros t1 t2 i1 i2 id'. rewrite Hv.
    intros [[<- <-]|[Hne1 Ht1]]%lookup_insert_Some [[<- <-]|[Hne2 Ht2]]%lookup_insert_Some Hp1 Hp2 H1' H2';
      [done| | |by eapply Hd].
    + exfalso. apply Hfresh. exists t2, i2. rewrite Hnew in H1'. simplify_eq. done.
    + exfalso. apply Hfresh. exists t1, i1. rewrite Hnew in H2'. simplify_eq. done.
Qed.

Lemma mbed_ok_delete s s' t i id :
  mbed_ok s -> view s !! t = Some i -> kt_provider_id t = MbedCrypto -> key_id_of i = Some id ->
  view s' = delete t (view s) -> keys s ∖ {[id]} ⊆ keys s' ->
  id_counter s' = id_counter s -> mbed_ok s'.
Proof.
  intros [Hc Hi Hd] Ht Hp Hid Hv Hk Hn. split.
  - unfold counter_ok. by rewrite Hn.
  - intros t' i'. rewrite Hv, Hn. intros [Hne Ht']%lookup_delete_Some Hp'.
    destruct (Hi t' i' Ht' Hp') as (id' & Hid' & Hin & Hle). exists id'.
    split_and!; [done| |done]. apply Hk. apply elem_of_difference. split; [done|].
    intros ->%elem_of_singleton. apply Hne. by eapply Hd.
  - intros t1 t2 i1 i2 id'. rewrite Hv.
    intros [_ Ht1]%lookup_delete_Some [_ Ht2]%lookup_delete_Some. by apply Hd.
Qed.

Lemma creates_ok t attrs m s :
  creates t attrs m -> mbed_ok s -> mbed_ok (m s).2 /\ (m s).1 <> Panic.
Proof.
  intros Hm Hs. specialize (Hm s (mo_counter s Hs)).
  destruct (m s) as [[u|e|] s']; simpl; [| |done]; (split; [|done]).
  - destruct Hm as (_ & b & Hb & _ & Hv & Hk & Hn & Hc).
    apply (mbed_ok_insert s s' t (id_counter s + 1) b attrs); auto; try lia.
    intros Hu%in_use_counter; [lia|done].
  - destruct Hm as (Hv & Hc & Hle & Hk & _).
    apply (mbed_ok_grow s); [done|done| |done|lia]. set_solver.
Qed.

Lemma destroy_ok self a k s :
  mbed_ok s -> let m := psa_destroy_key_internal self a k in
  mbed_ok (m s).2 /\ (m s).1 <> Panic.
Proof.
  intros Hs m. subst m. pose proof (destroy_spec self a k s) as Hm.
  destruct (psa_destroy_key_internal self a k s) as [[u|e|] s']; simpl; [| |done];
    (split; [|done]).
  - destruct Hm as (i & id & Ht & Hid & _ & Hv & Hk & Hn).
    eapply (mbed_ok_delete s); [done|done|done|done|done| |done]. by rewrite Hk.
  - destruct Hm as (Hn & [[Hv Hk]|(i & Ht & Hv & Hk)] & _).
    + apply (mbed_ok_grow s); [done|done|by rewrite Hk| |lia].
      unfold counter_ok. rewrite Hn. apply Hs.
    + destruct (mo_ids s Hs _ _ Ht eq_refl) as (id & Hid & _).
      eapply (mbed_ok_delete s); [done|done|done|done|done| |done].
      destruct Hk as [Hk|(id' & Hid' & Hk)]; [set_solver|].
      unfold key_id_of in Hid. rewrite Hk. by simplify_eq.
Qed.

(** creating a key, by generation or import.  On success the name was free,
    the identifier is the next one and was not in the library's store, and the
    mapping and the store each gain exactly that key.  On failure no mapping
    changes, at most the new key is left behind in the store, and a name that is
    taken is reported as such with nothing changed. *)
Theorem mbed_create_key_spec self a gop iop :
  creates (triple a (gk_key_name gop)) (gk_attributes gop)
    (psa_generate_key_internal self a gop) /\
  creates (triple a (ik_key_name iop)) (ik_attributes iop)
    (psa_import_key_internal self a iop).
Proof. split; [apply generate_creates|apply import_creates]. Qed.

Lemma mbed_safe uuid limit self : safe mbed_ok (provide uuid limit self).
Proof.
  intros a op. destruct (reading op) eqn:Hr.
  - intros s Hs. destruct (reading_quiet uuid limit self a op Hr s) as [(Hv & Hk & Hn) Hp].
    split; [|done]. apply (mbed_ok_grow s); [done|done|by rewrite Hk| |lia].
    unfold counter_ok. rewrite Hn. apply Hs.
  - destruct op; try discriminate Hr; simpl; apply safe_bind_ret; intros s Hs.
    + by eapply creates_ok; [apply generate_creates|].
    + by eapply creates_ok; [apply import_creates|].
    + by apply destroy_ok.
Qed.

(** C10: whatever an application asks for and whatever fails underneath, the
    provider keeps its invariant and does not panic: every stored mapping names
    a key that the library holds, no two mappings name the same key, and the
    counter is above all identifiers in use. *)
Theorem mbed_invariant uuid limit self a op s r s' :
  mbed_ok s -> provider_call (provide uuid limit self) a op s = (r, s') ->
  mbed_ok s' /\ r <> Panic.
Proof. intros Hs Hcall. pose proof (mbed_safe uuid limit self a op s Hs) as Hr. by rewrite Hcall in Hr. Qed.

(** Generating a key and destroying it again restores the mapping and the
    library's store exactly, and in between the name resolves to the new key. *)
Theorem generate_destroy_roundtrip self a op s s1 s2 :
  mbed_ok s ->
  psa_generate_key_internal self a op s = (Ok tt, s1) ->
  psa_destroy_key_internal self a (gk_key_name op) s1 = (Ok tt, s2) ->
  get_key_id Z (key_info_store self) (triple a (gk_key_name op)) (kim s1) =
    (Ok (id_counter s + 1)%Z, kim s1) /\
  view s2 = view s /\ keys s2 = keys s.
Proof.
  intros Hs Hgen Hdel. pose proof (generate_creates self a op s (mo_counter s Hs)) as Hg.
  rewrite Hgen in Hg. destruct Hg as (Hfree & b & Hb & Hn & Hv & Hk & _).
  apply bincode_round in Hb. pose proof (destroy_spec self a (gk_key_name op) s1) as Hd.
  rewrite Hdel in Hd. destruct Hd as (i & id & Hi & Hid & _ & Hv' & Hk' & _).
  rewrite Hv, lookup_insert_eq in Hi. injection Hi as <-. simpl in Hid.
  assert (id = id_counter s + 1)%Z as -> by congruence. split_and!.
  - rewrite get_key_id_run. change (kim_view (kim s1)) with (view s1).
    rewrite Hv, lookup_insert_eq. simpl. by rewrite Hid.
  - rewrite Hv', Hv. by rewrite delete_insert_id.
  - rewrite Hk', Hk. set_solver.
Qed.

(** ** Key ownership *)
Lemma keeps_insert (P : KeyTriple -> Prop) c t (id : Z) attrs s :
  P t -> keeps view P (on_kim (insert_key_info c t id attrs) s).2 s.
Proof.
  intros Ht. unfold keeps, on_kim, zoom, view.
  destruct (bincode_serialize id) as [b|] eqn:Hb.
  - destruct (insert_key_info_cases c t id attrs (kim s) b Hb) as (k' & [[-> Hv]|[-> Hv]]);
      simpl; rewrite Hv; [done|by apply agree_off_insert].
  - unfold insert_key_info. run_unfold. by rewrite Hb.
Qed.

Lemma keeps_remove (P : KeyTriple -> Prop) c t s :
  P t -> keeps view P (on_kim (remove_key_info c t) s).2 s.
Proof.
  intros Ht. unfold keeps, on_kim, zoom, view.
  destruct (remove_key_info_cases c t (kim s)) as (k' & [[-> Hv]|[-> Hv]]);
    simpl; rewrite Hv; [done|by apply agree_off_delete].
Qed.

Lemma keeps_crypto {E A} P (m : ST B E A) s : keeps view P (on_crypto m s).2 s.
Proof. unfold keeps, on_crypto, zoom, view. by destruct (m (crypto s)). Qed.

Lemma keeps_attempt {E F A} P (m : ST (state K B) E A) s :
  keeps view P (m s).2 s -> keeps view P (attempt (F := F) m s).2 s.
Proof. intros Hm. unfold attempt. by destruct (m s) as [[| |] ?]. Qed.

Lemma keeps_psa {A} P (m : ST B psa_error A) s : keeps view P (psa m s).2 s.
Proof.
  unfold psa, on_err. pose proof (keeps_crypto P m s) as Hk. by destruct (on_crypto m s).
Qed.

Lemma keeps_quiet {A} P (m : ST (state K B) ResponseStatus A) s :
  quiet m -> keeps view P (m s).2 s.
Proof. intros Hm. destruct (Hm s) as [(Hv & _) _]. unfold keeps. by rewrite Hv. Qed.

Lemma keeps_create_key_id P s : keeps view P (create_key_id s).2 s.
Proof. unfold create_key_id, fetch_add, store_counter. run_unfold. by destruct (_ <? _)%Z. Qed.

Lemma keeps_create (P : KeyTriple -> Prop) self t attrs id make s :
  P t -> keeps view P (create_and_store self t attrs id make s).2 s.
Proof.
  intros Ht. unfold create_and_store.
  apply bind_state; [apply _|apply keeps_attempt, keeps_crypto|].
  intros [key|e|] s1 _; [|done|done].
  apply bind_state; [apply _|by apply keeps_attempt, keeps_insert|].
  intros [u|e|] s2 _; [done| |done].
  apply bind_state; [apply _|apply keeps_attempt, keeps_crypto|done].
Qed.

Lemma does_not_exist_quiet c t : quiet (on_kim (does_not_exist c t)).
Proof.
  apply quiet_kim. intros k. rewrite does_not_exist_run. split; [done|]. simpl.
  by destruct (kim_view k !! t).
Qed.

(** In every state, a call changes no mapping but the application's own. *)
Lemma mbed_keeps_to uuid limit self : keeps_to view MbedCrypto (provide uuid limit self).
Proof.
  intros a op s. set (P := own MbedCrypto (touches a op)).
  change (keeps view P (provider_call (provide uuid limit self) a op s).2 s).
  destruct (reading op) eqn:Hr; [by apply keeps_quiet, reading_quiet|].
  destruct op; try discriminate Hr; subst P; simpl; rewrite bind_ret_state.
  1, 2: apply bind_state; [apply _|apply keeps_quiet, does_not_exist_quiet|intros ? s1 _];
    (apply bind_state; [apply _|apply keeps_create_key_id|intros ? s2 _]); by apply keeps_create.
  apply bind_state; [apply _|apply keeps_quiet, get_key_id_quiet|intros id s1 _].
  apply bind_state; [apply _|by apply keeps_remove|intros ? s2 _].
  apply bind_state; [apply _|apply keeps_psa|intros ? s3 _]. apply keeps_psa.
Qed.
Lemma mbed_well_behaved uuid limit self : well_behaved view (provide uuid limit self).
Proof. eapply keeps_to_well_behaved, mbed_keeps_to. Qed.

(** The provider over a reliable manager is a [key_owner] for the core provider. *)
Lemma mbed_key_owner uuid limit self (R : K -> Prop) :
  client_provider_id (key_info_store self) = MbedCrypto -> kim_reliable R ->
  key_owner (fun s => R (kim s) /\ mbed_ok s) view MbedCrypto (provide uuid limit self).
Proof.
  intros Hid HR. split.
  - simpl. unfold describe. run_unfold. by destruct (uuid _).
  - intros a s _. simpl. unfold list_keys, on_kim, zoom.
    destruct (list_keys_run (key_info_store self) a (kim s)) as (l & -> & HN & Hl).
    exists l. split_and!; [by destruct s|done|]. intros k. rewrite list_elem_of_fmap.
    setoid_rewrite Hl. rewrite Hid. unfold view. split.
    + intros (lk & -> & k' & i & Hi & ->). simpl. eauto.
    + intros [i Hi]. eexists. split; [|eauto]. done.
  - intros s _. simpl. unfold list_clients, on_kim. run_unfold.
    destruct (list_clients_run (key_info_store self) (kim s)) as (l & -> & HN & Hl).
    exists (app_name_string <$> l). split; [by destruct s|]. intros a.
    rewrite list_elem_of_fmap. setoid_rewrite Hl. rewrite Hid. unfold view. split.
    + intros (an & -> & [ta tp tk] & Hi & Hp & Ha). simpl in *. subst. exists tk.
      unfold KeyTriple_new, from_name. by destruct an.
    + intros [k Hi]. exists (from_name a). split; [done|]. eauto.
  - intros a k s [HRk Hs] [i Hi].
    destruct (destroy_ok self a k s Hs) as [Hok Hp].
    pose proof (destroy_spec self a k s) as Hd.
    assert (HR' : R (kim (psa_destroy_key_internal self a k s).2) /\
      view (psa_destroy_key_internal self a k s).2 = delete (triple a k) (view s)).
    { destruct (mo_ids s Hs _ _ Hi eq_refl) as (id & Hkid & _).
      destruct (HR (triple a k) (kim s) HRk) as (o & k' & Hrm & HRk'); [by eexists|].
      clear Hd Hok Hp. unfold psa_destroy_key_internal, on_kim, psa, on_crypto. run_unfold.
      rewrite get_key_id_run. unfold view, triple in *. rewrite Hi. simpl.
      unfold key_id_of in Hkid. rewrite Hkid. simpl.
      unfold remove_key_info. run_unfold.
      pose proof (kim_remove_spec (KeyTriple_new a MbedCrypto k) (kim s)) as Hs'.
      rewrite Hrm in *. destruct Hs' as [-> Hv]. rewrite Hi. simpl.
      destruct (from_persistent_key_id id (crypto s)) as [[i'| |] b1]; simpl; [|done|done].
      destruct (psa_destroy i' b1) as [[| |] b2]; done. }
    simpl. destruct (psa_destroy_key_internal self a k s) as [r s'].
    exists r, s'. simpl in *. destruct HR'. done.
Qed.

(** ** Starting the provider *)

(** A stored key the library still holds. *)
Definition alive s (i : KeyInfo) : Prop := exists id, key_id_of i = Some id /\ id ∈ keys s.

#[export] Instance alive_dec s i : Decision (alive s i).
Proof.
  destruct (key_id_of i) as [id|] eqn:Hi.
  - destruct (decide (id ∈ keys s)) as [Hin|Hout]; [left; by exists id|right].
    intros (id' & Hid & Hin). simplify_eq. done.
  - right. intros (id' & Hid & _). congruence.
Defined.

Lemma same_alive s s' i : same s' s -> alive s' i <-> alive s i.
Proof. intros (_ & Hk & _). unfold alive. by rewrite Hk. Qed.

Lemma check_stored_spec c acc t i s :
  view s !! t = Some i ->
  match check_stored c acc t s with
  | (Ok (mx, rm), s') => same s' s /\ (acc.1 <= mx)%Z /\
      ((alive s i /\ rm = acc.2 /\ exists id, key_id_of i = Some id /\ (id <= mx)%Z /\
         (mx = acc.1 \/ mx = id)) \/
       (~ alive s i /\ rm = acc.2 ++ [t] /\ mx = acc.1))
  | (Err _, s') => same s' s
  | (Panic, _) => False
  end.
Proof.
  destruct acc as [mx rm]. intros Ht. unfold check_stored, on_kim, on_crypto. run_unfold.
  rewrite get_key_id_run. change (kim_view (kim s)) with (view s). rewrite Ht. simpl.
  change (bincode_deserialize (ki_id i)) with (key_id_of i).
  destruct (key_id_of i) as [id|] eqn:Hid; simpl.
  - pose proof (psa_open_spec id (crypto s)) as Ho.
    destruct (from_persistent_key_id id (crypto s)) as [[i'|[]|] b']; simpl; [| | |done].
    + destruct Ho as (_ & Hin & Hk). split_and!; [by split_and!|destruct (Z.ltb_spec mx id); lia|].
      left. split; [by exists id|]. split; [done|]. exists id.
      destruct (Z.ltb_spec mx id); split_and!; auto; lia.
    + destruct Ho as [Hout Hk]. split_and!; [by split_and!|lia|]. right. split_and!; [|done|done].
      intros (id' & Hid' & Hin). simplify_eq; done.
    + by split_and!.
  - split_and!; [done|lia|]. right. split_and!; [|done|done].
    intros (id' & Hid' & _). congruence.
Qed.

Lemma check_all_spec c ts : forall acc s,
  (forall t, t ∈ ts -> is_Some (view s !! t)) ->
  match fold_each ts acc (check_stored c) s with
  | (Ok (mx, rm), s') => same s' s /\ (acc.1 <= mx)%Z /\
      (mx = acc.1 \/ exists t i, t ∈ ts /\ view s !! t = Some i /\ key_id_of i = Some mx) /\
      (forall t, t ∈ rm <-> t ∈ acc.2 \/ t ∈ ts /\ exists i, view s !! t = Some i /\ ~ alive s i) /\
      (forall t i id, t ∈ ts -> view s !! t = Some i -> key_id_of i = Some id -> alive s i ->
         (id <= mx)%Z)
  | (Err _, s') => True
  | (Panic, _) => False
  end.
Proof.
  induction ts as [|t ts IH]; intros acc s Hin; cbn [fold_each].
  - destruct acc as [mx rm]. simpl. split_and!; [done|lia|auto|set_solver|set_solver].
  - destruct (Hin t) as [i Hi]; [left|]. unfold mbind, ST_bind.
    pose proof (check_stored_spec c acc t i s Hi) as Hc.
    destruct (check_stored c acc t s) as [[[mx1 rm1]|e|] s1]; [|done|done].
    destruct Hc as (Hs1 & Hle & Hcase). pose proof (proj1 Hs1) as Hv.
    specialize (IH (mx1, rm1) s1). rewrite Hv in IH. specialize (IH ltac:(set_solver)).
    destruct (fold_each ts (mx1, rm1) (check_stored c) s1) as [[[mx2 rm2]|e|] s2];
      [|done|done].
    destruct IH as (Hs2 & Hle2 & Hmax & Hrm & Hids). simpl in *.
    pose proof (fun i => same_alive s s1 i Hs1) as Hal.
    split_and!; [by etrans|lia| | |].
    + destruct Hmax as [->|(t' & i' & Ht' & Hi' & Hid')]; [|right; exists t', i'; set_solver].
      destruct Hcase as [(_ & _ & id & Hid & _ & [->| ->])|(_ & _ & ->)]; auto.
      right. exists t, i. set_solver.
    + intros t'. rewrite Hrm. setoid_rewrite Hal.
      destruct Hcase as [(Ha & -> & _)|(Ha & -> & _)]; set_solver.
    + intros t' i' id [->|Ht']%elem_of_cons Hi' Hid' Ha'.
      * destruct Hcase as [(_ & _ & id2 & Hid2 & Hle3 & _)|(Hn & _ & _)]; [|naive_solver].
        simplify_eq. lia.
      * eapply Hids; eauto. by apply Hal.
Qed.

Lemma remove_one_spec c t s :
  match on_err (fun _ => tt) (on_kim (remove_key_info c t)) s with
  | (Ok _, s') => keys s' = keys s /\ view s' = delete t (view s)
  | (Err _, _) => True
  | (Panic, _) => False
  end.
Proof.
  unfold on_kim. run_unfold.
  destruct (remove_key_info_cases c t (kim s)) as (k' & [[-> Hv]|[-> Hv]]); simpl; [done|].
  by destruct (kim_view (kim s) !! t).
Qed.

Lemma remove_all_spec c rm : forall s,
  match for_each rm (fun t => on_err (fun _ => tt) (on_kim (remove_key_info c t))) s with
  | (Ok _, s') => keys s' = keys s /\ forall t, view s' !! t =
      if decide (t ∈ rm) then None else view s !! t
  | (Err _, _) => True
  | (Panic, _) => False
  end.
Proof.
  induction rm as [|t rm IH]; intros s; cbn [for_each].
  - split; [done|]. intros t. case_decide as Ht; [by apply not_elem_of_nil in Ht|done].
  - unfold mbind, ST_bind. pose proof (remove_one_spec c t s) as Ho.
    destruct (on_err _ _ s) as [[u|e|] s1]; [|done|done]. destruct Ho as [Hk1 Hv1].
    specialize (IH s1). destruct (for_each _ _ s1) as [[u'|e|] s2]; [|done|done].
    destruct IH as [Hk Hv]. split; [congruence|]. intros t'. rewrite Hv, Hv1.
    destruct (decide (t = t')) as [->|Hne].
    + rewrite lookup_delete_eq, (decide_True (P := t' ∈ t' :: rm)) by left. by case_decide.
    + rewrite lookup_delete_ne by done. repeat case_decide; set_solver.
Qed.

(** Starting the provider establishes the invariant.  From any stored
    mapping with distinct identifiers in range, the mappings whose key the
    library no longer holds are dropped and all the others, of this provider and
    of others, are kept; the counter is set above every identifier in use, so
    the next key created cannot take over one that is mapped. *)
Theorem mbed_new_spec c s r s' :
  client_provider_id c = MbedCrypto -> ids_distinct (view s) ->
  (forall t i id, view s !! t = Some i -> kt_provider_id t = MbedCrypto ->
     key_id_of i = Some id -> (id <= PSA_KEY_ID_USER_MAX)%Z) ->
  new c s = (r, s') ->
  match r with
  | Ok self => key_info_store self = c /\ mbed_ok s' /\ keys s' = keys s /\
      forall t i, view s' !! t = Some i <->
        view s !! t = Some i /\ (kt_provider_id t = MbedCrypto -> alive s i)
  | Err _ => True
  | Panic => False
  end.
Proof.
  intros Hc Hdist Hmax. unfold new, on_crypto at 1.
  destruct (psa_init_reads (crypto s)) as [Hki Hpi]. run_unfold.
  destruct (psa_init (crypto s)) as [[u|e|] b0]; simpl in *; [|by intros [= <- <-]|done].
  set (s0 := {| kim := kim s; crypto := b0; id_counter := PSA_KEY_ID_USER_MIN |}).
  unfold get_all, on_kim at 1. run_unfold.
  destruct (kim_get_all_spec (client_provider_id c) (kim s)) as (ts & Hts & _ & Hin).
  rewrite Hts. simpl. fold s0.
  pose proof (check_all_spec c ts (PSA_KEY_ID_USER_MIN, []) s0) as Hchk.
  destruct (fold_each ts _ _ s0) as [[[mx rm]|e|] s1]; [|by intros [= <- <-]|exfalso; naive_solver].
  destruct Hchk as (Hs1 & Hle & Hmx & Hrm & Hids); [naive_solver|].
  pose proof (remove_all_spec c rm s1) as Hrem. cbn [fst snd].
  destruct (for_each rm _ s1) as [[u'|e|] s2]; simpl; [|by intros [= <- <-]|done].
  intros [= <- <-]. destruct Hrem as [Hk2 Hv2]. destruct Hs1 as (Hv1 & Hk1 & _).
  assert (Hk : keys s2 = keys s) by (rewrite Hk2, Hk1; done).
  assert (Hview : forall t i, view s2 !! t = Some i <->
    view s !! t = Some i /\ (kt_provider_id t = MbedCrypto -> alive s i)).
  { intros t i. rewrite Hv2, Hv1. change (view s0) with (view s) in *.
    assert (Hal : alive s0 i <-> alive s i).
    { unfold alive. change (keys s0) with (psa_keys b0). by rewrite Hki. }
    case_decide as Hd.
    - apply Hrm in Hd as [Hd|(Ht & i' & Hi' & Hna)]; [by apply not_elem_of_nil in Hd|].
      apply Hin in Ht as [_ Hp]. rewrite Hc in Hp. split; [done|]. intros [Hi Ha].
      simplify_eq. naive_solver.
    - split; [|tauto]. intros Hi. split; [done|]. intros Hp. apply Hal.
      destruct (decide (alive s0 i)) as [Ha|Ha]; [done|].
      exfalso. apply Hd, Hrm. right. split; [apply Hin; rewrite Hc; split; [by eexists|done]|].
      by exists i. }
  split_and!; [done| |done|exact Hview]. pose proof psa_id_bounds as Hb. split.
  - unfold counter_ok. simpl. destruct Hmx as [->|(t & i & Ht & Hi & Hid)]; [simpl; lia|].
    apply Hin in Ht as [_ Hp]. rewrite Hc in Hp.
    simpl in Hle. pose proof (Hmax t i mx Hi Hp Hid). lia.
  - intros t i Ht Hp. apply Hview in Ht as [Hi Ha]. destruct (Ha Hp) as (id & Hid & Hk').
    exists id. split_and!; [done|change (id ∈ keys s2); by rewrite Hk|]. simpl.
    apply (Hids t i id); [apply Hin; rewrite Hc; split; [by eexists|done]|done|done|].
    exists id. split; [done|]. change (id ∈ psa_keys b0). by rewrite Hki.
  - intros t1 t2 i1 i2 id H1' H2'. apply Hview in H1' as [H1' _]. apply Hview in H2' as [H2' _].
    by apply Hdist.
Qed.
End Spec.
