(* ===== verification/Scenario.v ===== *)
(** * A concrete service

    A small software library ([PsaCrypto] on a map of keys), the on-disk
    manager, the Mbed Crypto provider over both, the core provider and the front
    end.  The theorems of the components are applied to it, and the definitions
    run on it. *)
From S2P Require Import Prelude RustStd Interface Authenticators KeyInfo Fs OnDisk Concrete.
From S2P Require Import Persistence Provide Backend FrontEnd CoreProvider Mbed MbedSpec.
Import MbedProvider.

(** ** A library: the attributes of the stored keys *)
Abbreviation library := (gmap Z Attributes).

Definition lib_create (a : Attributes) (id : option Z) : ST library psa_error Z := fun b =>
  match id with
  | Some i =>
    match b !! i with
    | Some _ => (Err (psa_error_other (-139)), b)
    | None => (Ok i, <[i := a]> b)
    end
  | None => (Err (psa_error_other (-135)), b)
  end.
Definition lib_open (id : Z) : ST library psa_error Z := fun b =>
  match b !! id with Some _ => (Ok id, b) | None => (Err PsaDoesNotExist, b) end.
Definition lib_attributes (id : Z) : ST library psa_error Attributes := fun b =>
  match b !! id with Some a => (Ok a, b) | None => (Err PsaDoesNotExist, b) end.
Definition lib_destroy (id : Z) : ST library psa_error unit := fun b => (Ok tt, delete id b).
(** Every output is the byte 1 at the start of the buffer. *)
Definition lib_output (buffer : bytes) : ST library psa_error (nat * bytes) := fun b =>
  (Ok (1, <[0 := "001"%char]> buffer), b).

#[export] Instance demo_psa : PsaCrypto library := {
  status_of e := match e with PsaDoesNotExist => PsaErrorDoesNotExist
                            | psa_error_other _ => PsaErrorGenericError end;
  PSA_KEY_ID_USER_MIN := 1;
  PSA_KEY_ID_USER_MAX := 1073741823;
  psa_init := mret tt;
  from_persistent_key_id := lib_open;
  attributes_from_key_id := lib_attributes;
  psa_generate := lib_create;
  psa_import a id _ := lib_create a id;
  psa_destroy := lib_destroy;
  psa_export _ := lib_output;
  psa_export_public _ := lib_output;
  psa_sign_hash _ _ _ := lib_output;
  psa_verify_hash _ _ _ _ := mret tt;
  psa_encrypt _ _ _ _ := lib_output;
  psa_decrypt _ _ _ _ := lib_output;
  psa_aead_encrypt _ _ _ _ _ := lib_output;
  psa_aead_decrypt _ _ _ _ _ := lib_output;
  psa_raw_key_agreement _ _ _ := lib_output;
  psa_hash_compute _ _ := lib_output;
  psa_hash_compare _ _ _ := mret tt;
  psa_random b := mret b;
  export_key_output_size _ := Ok 1;
  export_public_key_output_size _ := Ok 1;
  sign_output_size _ _ := Ok 1;
  asymmetric_encrypt_output_size _ _ := Ok 1;
  asymmetric_decrypt_output_size _ _ := Ok 1;
  aead_encrypt_output_size _ _ _ := Ok 1;
  aead_decrypt_output_size _ _ _ := Ok 1;
  raw_key_agreement_output_size _ _ := Ok 1;
  hash_length _ := 32;
}.

Lemma lib_create_makes a id : makes_key (B := library) dom id (lib_create a (Some id)).
Proof.
  intros b. unfold lib_create. destruct (b !! id) eqn:Hb; [done|].
  split_and!; [done|by apply not_elem_of_dom|by rewrite dom_insert_L].
Qed.

#[export] Program Instance demo_psa_laws : PsaLaws library := { psa_keys := dom }.
Next Obligation. done. Qed.
Next Obligation. done. Qed.
Next Obligation.
  intros id b. simpl. unfold lib_open. destruct (b !! id) eqn:Hb.
  - split_and!; [done|by apply elem_of_dom_2 in Hb|done].
  - split; [by apply not_elem_of_dom|done].
Qed.
Next Obligation. intros a id. apply lib_create_makes. Qed.
Next Obligation. intros a id d. apply lib_create_makes. Qed.
Next Obligation. intros id b. simpl. by rewrite dom_delete_L. Qed.
Next Obligation. intros id b. simpl. unfold lib_attributes. by destruct (b !! id). Qed.
Next Obligation. done. Qed.
Next Obligation. done. Qed.
Next Obligation. done. Qed.
Next Obligation. done. Qed.
Next Obligation. done. Qed.
Next Obligation. done. Qed.
Next Obligation. done. Qed.
Next Obligation. done. Qed.
Next Obligation. done. Qed.
Next Obligation. done. Qed.
Next Obligation. done. Qed.
Next Obligation. done. Qed.
Next Obligation. done. Qed.

#[export] Instance demo_validate : Validate := {
  validate_asym_encrypt _ _ := Ok tt; validate_asym_decrypt _ _ := Ok tt;
  validate_aead_encrypt _ _ := Ok tt; validate_aead_decrypt _ _ := Ok tt;
  validate_raw_key_agreement _ _ := Ok tt;
}.
#[export] Instance demo_validate_laws : ValidateLaws.
Proof. done. Qed.
#[export] Instance demo_u32 : BincodeU32.
Proof.
  intros z Hz. simpl. rewrite decide_True; [eauto|].
  change (256 ^ Z.of_nat 4)%Z with (2 ^ 32)%Z. done.
Qed.

(** ** The provider, first with no key, then with one *)
Abbreviation world := (state OnDisk library).
Definition mbed_client : KeyInfoManagerClient := {| client_provider_id := MbedCrypto |}.
Definition mbed_self : Provider := {| key_info_store := mbed_client |}.
Definition world0 : world := {| kim := demo_start; crypto := ∅; id_counter := 1 |}.
Definition gen (k : string) : GenerateKeyOp :=
  {| gk_key_name := k; gk_attributes := ecc_attributes |}.
Definition app : ApplicationName := from_name "app".
Definition world1 : world := (psa_generate_key_internal mbed_self app (gen "k") world0).2.
Definition world2 : world := (psa_destroy_key_internal mbed_self app "k" world1).2.

Lemma world0_ok : mbed_ok world0.
Proof.
  split; [done|..].
  - intros t i Hi. unfold view in Hi. simpl in Hi. by rewrite lookup_empty in Hi.
  - intros t1 t2 i1 i2 id Hi. unfold view in Hi. simpl in Hi. by rewrite lookup_empty in Hi.
Qed.

Lemma mbed_create_key_spec_witness :
  view world1 !! triple app "k" =
    Some {| ki_id := to_le_bytes 4 2; ki_attributes := ecc_attributes |} /\
  keys world1 = {[ 2%Z ]}.
Proof.
  destruct (mbed_create_key_spec mbed_self app (gen "k")
    {| ik_key_name := "k"; ik_attributes := ecc_attributes; ik_data := [] |}) as [Hg _].
  specialize (Hg world0 (mo_counter _ world0_ok)).
  assert (Hrun : psa_generate_key_internal mbed_self app (gen "k") world0 = (Ok tt, world1))
    by (vm_compute; reflexivity).
  rewrite Hrun in Hg. destruct Hg as (_ & b & Hb & _ & Hv & Hk & _).
  vm_compute in Hb. injection Hb as <-. split.
  - rewrite Hv. rewrite lookup_insert_eq. vm_compute. reflexivity.
  - rewrite Hk. vm_compute. reflexivity.
Defined.

Lemma mbed_invariant_witness : mbed_ok world1.
Proof.
  apply (mbed_invariant Some 1024 mbed_self app (PsaGenerateKey (gen "k")) world0
    (Ok RPsaGenerateKey) world1); [apply world0_ok|vm_compute; reflexivity].
Defined.

Lemma generate_destroy_roundtrip_witness : view world2 = ∅ /\ keys world2 = ∅.
Proof.
  destruct (generate_destroy_roundtrip mbed_self app (gen "k") world0 world1 world2)
    as (_ & Hv & Hk); [apply world0_ok|vm_compute; reflexivity..|].
  split; [rewrite Hv; reflexivity|rewrite Hk; reflexivity].
Defined.

(** ** Starting over: the library lost the key while the service was down *)
Definition world_lost : world :=
  {| kim := kim world1; crypto := ∅; id_counter := 0 |}.
Definition world_restarted : world := (new mbed_client world_lost).2.

Lemma one_key_view t i :
  view world1 !! t = Some i ->
  t = triple app "k" /\ i = {| ki_id := to_le_bytes 4 2; ki_attributes := ecc_attributes |}.
Proof.
  assert (Hv : view world1 = {[ triple app "k" :=
    {| ki_id := to_le_bytes 4 2; ki_attributes := ecc_attributes |} ]})
    by (vm_compute; reflexivity).
  rewrite Hv. rewrite lookup_singleton_Some. naive_solver.
Qed.

Lemma mbed_new_spec_witness : mbed_ok world_restarted /\ view world_restarted = ∅.
Proof.
  pose proof (mbed_new_spec mbed_client world_lost (Ok mbed_self) world_restarted) as Hs.
  destruct Hs as (_ & Hok & _ & Hview).
  - reflexivity.
  - intros t1 t2 i1 i2 id [-> _]%one_key_view [-> _]%one_key_view. reflexivity.
  - intros t i id [_ ->]%one_key_view _ Hid. vm_compute in Hid. injection Hid as <-.
    vm_compute. discriminate.
  - vm_compute. reflexivity.
  - split; [exact Hok|]. apply map_eq. intros t. rewrite lookup_empty. apply eq_None_not_Some.
    intros [i [Hi Ha]%Hview]. destruct (one_key_view t i Hi) as [-> ->].
    destruct (Ha eq_refl) as (id & _ & Hin). vm_compute in Hin. by destruct id.
Defined.

(** ** The core provider over it *)
Definition mbed_provide : Provide world := provide Some 1024 mbed_self.
Definition core_self : CoreProvider.Provider world :=
  {| CoreProvider.wire_protocol_version_min := 0; CoreProvider.wire_protocol_version_maj := 1;
     CoreProvider.provider_info := []; CoreProvider.provider_opcodes := ∅;
     CoreProvider.authenticator_info := []; CoreProvider.prov_list := [mbed_provide] |}.
Definition running (w : world) : Prop := kim_inv ["map"] (kim w) /\ mbed_ok w.

Lemma mbed_owner : key_owner running view MbedCrypto mbed_provide.
Proof. apply mbed_key_owner; [done|]. apply OnDisk_reliable. Qed.

Lemma world1_running : running world1.
Proof.
  split; [|apply (creates_ok (triple app "k") ecc_attributes
    (psa_generate_key_internal mbed_self app (gen "k")) world0);
    [apply generate_creates|apply world0_ok]].
  apply (kim_step_inv ["map"] demo_start).
  - apply first_start_inv. vm_compute. reflexivity.
  - apply (step_insert _ (triple app "k")
      {| ki_id := to_le_bytes 4 2; ki_attributes := ecc_attributes |} (Ok None)).
    + apply (bool_decide_eq_true_1 (wf_triple (triple app "k"))). vm_compute. reflexivity.
    + eexists. vm_compute. reflexivity.
    + vm_compute. reflexivity.
Qed.

Lemma delete_client_complete_witness :
  exists w, CoreProvider.delete_client core_self "app" world1 = (Ok tt, w) /\ view w = ∅.
Proof.
  destruct (delete_client_complete running view core_self [MbedCrypto] "app" world1)
    as (w & Hrun & Hv).
  - repeat constructor; apply mbed_owner.
  - apply world1_running.
  - exists w. split; [exact Hrun|]. rewrite Hv. apply map_empty. intros t.
    apply map_lookup_filter_None. right. intros i Hi Hn.
    destruct (one_key_view t i Hi) as [-> _]. apply Hn. split; [reflexivity|left].
Defined.

Lemma core_list_clients_spec_witness :
  exists l, CoreProvider.list_clients core_self world1 = (Ok l, world1) /\ "app" ∈ l.
Proof.
  destruct (core_list_clients_spec running view core_self [MbedCrypto] world1)
    as (l & Hrun & _ & _ & Hl).
  - repeat constructor; apply mbed_owner.
  - apply world1_running.
  - exists l. split; [exact Hrun|]. apply Hl. exists MbedCrypto, "k". split; [left|].
    eexists. vm_compute. reflexivity.
Defined.

(** ** The whole service *)
Definition demo_convert : Convert := {|
  body_to_operation b oc :=
    match oc with
    | OpPsaGenerateKey => Ok (PsaGenerateKey (gen (string_of_bytes b)))
    | OpPsaDestroyKey => Ok (PsaDestroyKey (string_of_bytes b))
    | OpDeleteClient => Ok (DeleteClient (string_of_bytes b))
    | OpListClients => Ok ListClients
    | OpPing => Ok Ping
    | _ => Err DeserializingBodyFailed
    end;
  result_to_body _ := Ok [];
|}.

Lemma demo_convert_faithful : converter_faithful demo_convert.
Proof.
  split_and!; [|by intros b []|done]. intros b oc op Hb. by destruct oc; simplify_eq/=.
Qed.

Definition backend_for (p : Provide world) (i : ProviderId) : BackEndHandler world :=
  {| provider := p; converter := demo_convert; provider_id := i; content_type := Protobuf;
     accept_type := Protobuf |}.
Definition demo_dispatcher : Dispatcher world :=
  {| backends := <[Core := backend_for (CoreProvider.provide core_self) Core]>
                   {[ MbedCrypto := backend_for mbed_provide MbedCrypto ]} |}.

Lemma demo_trusted : trusted_backends view demo_dispatcher.
Proof.
  assert (Hm : well_behaved view mbed_provide) by apply mbed_well_behaved.
  intros i b Hb. unfold demo_dispatcher in Hb. simpl in Hb. revert Hb.
  intros [[_ <-]|[_ [_ <-]%lookup_singleton_Some]]%lookup_insert_Some;
    (split; [|apply demo_convert_faithful]); simpl; [|exact Hm].
  apply core_well_behaved. repeat constructor. exact Hm.
Qed.

(** A stream with a request to read and the responses written. *)
Record demo_stream := { to_read : option Request; written : list Response }.
#[export] Instance demo_wire : Wire demo_stream := {
  read_from_stream limit s :=
    match to_read s with
    | Some r => (if (Z.of_nat (length (req_body r)) <=? limit)%Z then Ok r
                 else Err BodySizeExceedsLimit, {| to_read := None; written := written s |})
    | None => (Err InvalidHeader, s)
    end;
  write_to_stream r s := (Ok tt, {| to_read := to_read s; written := written s ++ [r] |});
}.
#[export] Instance demo_wire_laws : WireLaws demo_stream.
Proof.
  split; [|done]. intros n s. simpl. destruct (to_read s); [|done]. simpl. by destruct (_ <=? _)%Z.
Qed.

Definition demo_front : FrontEndHandler world :=
  {| dispatcher := demo_dispatcher;
     authenticators := {[ Direct := DirectAuthenticator.impl
                            (DirectAuthenticator.new [{| admin_name := "root" |}]) ]};
     body_len_limit := 1024 |}.
Definition demo_request (p : ProviderId) (oc : Opcode) (body who : string) : Request :=
  {| req_header := {| rh_provider := p; rh_content_type := Protobuf;
       rh_accept_type := Protobuf; rh_auth_type := Direct; rh_opcode := oc |};
     req_body := as_bytes body; req_auth := as_bytes who |}.
Definition connect (r : Request) (w : world) : result Empty_set unit * (world * demo_stream) :=
  handle_request demo_front None (w, {| to_read := Some r; written := [] |}).

Definition request_eve : Request := demo_request MbedCrypto OpPsaDestroyKey "k" "eve".

Lemma demo_panic_free : panic_free mbed_ok demo_front.
Proof.
  assert (Hm : safe mbed_ok mbed_provide) by apply mbed_safe.
  split.
  - intros i b Hb. simpl in Hb. revert Hb.
    intros [[_ <-]|[_ [_ <-]%lookup_singleton_Some]]%lookup_insert_Some;
      (split; [|apply demo_convert_faithful]); simpl; [|exact Hm].
    apply core_safe. apply Forall_singleton. split; [done|exact Hm].
  - intros i a Ha buf meta. simpl in Ha. apply lookup_singleton_Some in Ha as [_ <-].
    simpl. unfold DirectAuthenticator.authenticate.
    destruct buf; [done|]. by destruct (from_utf8 _).
Qed.

Lemma handle_request_responds_witness :
  exists response w, status response = PsaErrorDoesNotExist /\ mbed_ok w /\
    connect request_eve world1 = (Ok tt, (w, {| to_read := None; written := [response] |})).
Proof.
  destruct (handle_request_responds mbed_ok demo_front None world1
    {| to_read := Some request_eve; written := [] |}) as (response & w & Hw & Hrun & Hresp).
  - apply demo_panic_free.
  - apply world1_running.
  - exists response, w. split; [|split; [exact Hw|exact Hrun]].
    simpl in Hresp. apply (f_equal fst) in Hresp. vm_compute in Hresp.
    injection Hresp as <-. reflexivity.
Defined.

(** Another application cannot destroy the key. *)
Lemma request_isolation_witness :
  view (connect request_eve world1).2.1 !! triple app "k" = view world1 !! triple app "k".
Proof.
  destruct (request_isolation view demo_front None world1
    {| to_read := Some request_eve; written := [] |} (connect request_eve world1).1
    (connect request_eve world1).2.1 (connect request_eve world1).2.2)
    as [->|(request & who & Hread & Hid & Hag)].
  - apply demo_trusted.
  - unfold connect. by destruct (handle_request _ _ _) as [? [? ?]].
  - reflexivity.
  - apply Hag. vm_compute in Hread. injection Hread as <-. vm_compute in Hid.
    injection Hid as <-. simpl. intros [Hc|Hc]; discriminate Hc.
Defined.

(** The owner's request reaches the provider. *)
Definition request_owner : Request := demo_request MbedCrypto OpPsaDestroyKey "k" "app".

Lemma dispatch_mediates_witness :
  exists b name op, admitted demo_dispatcher request_owner (Some (Application_new "app" false))
    b name op /\ name = app.
Proof.
  destruct (dispatch_mediates demo_dispatcher request_owner (Some (Application_new "app" false))
    world1 (demo_response MbedCrypto OpPsaDestroyKey Success) world2)
    as [[Hs _]|(b & name & op & out & Hadm & _ & _)].
  - vm_compute. reflexivity.
  - exfalso. apply (f_equal (fun w => view w !! triple app "k")) in Hs.
    vm_compute in Hs. discriminate Hs.
  - exists b, name, op. split; [exact Hadm|]. exact (adm_name _ _ _ _ _ _ Hadm _ eq_refl).
Defined.

(** An application that is not an administrator cannot delete a client. *)
Lemma dispatch_refusals_witness :
  exists r, dispatch_request demo_dispatcher (demo_request Core OpDeleteClient "app" "eve")
              (Some (Application_new "eve" false)) world1 = (Ok r, world1) /\
    status r = AdminOperation.
Proof.
  pose proof (dispatch_refusals demo_dispatcher (demo_request Core OpDeleteClient "app" "eve")
    (Some (Application_new "eve" false)) world1) as Hr.
  simpl in Hr. destruct Hr as (_ & Hadm & _).
  exact (Hadm eq_refl (Application_new "eve" false) eq_refl eq_refl).
Defined.
