(* ===== verification/MbedThreads.v ===== *)
(** * Threads in the Mbed Crypto provider

    Requests run on a pool of threads.  What is atomic in a request is an access
    of the key info manager (under its lock), an access of the atomic counter and
    a call of the library, and the mutex [key_handle_mutex] is held over some of
    them.  [advance] runs one such block of a request and [work] is the step of
    one thread of the pool; requests arrive and blocks interleave in any order
    ([pool_step]).  A thread that runs alone computes [provider_call], the method
    as [Mbed] has it. *)
From S2P Require Import Prelude RustStd Interface Authenticators KeyInfo.
From S2P Require Import Provide Mbed.
Import MbedProvider.

(** ** The blocks of a request *)

(** Where a request is: before its first block, past the check that the name is
    free, past the limit of identifiers, with an identifier for the new key, with
    the key made (the mutex is held), about to destroy it again (the mutex is
    held), with the identifier of the key found, with its mapping removed, or
    done. *)
Inductive phase :=
  | Start | Checked | Exceeded | HaveId (id : Z) | Made (id key : Z)
  | Undo (key : Z) (e : ResponseStatus) | Found (id : Z) | Removed (id : Z)
  | Done (r : result ResponseStatus NativeResult).

Definition holds_mutex (ph : phase) : bool :=
  match ph with Made _ _ | Undo _ _ => true | _ => false end.
Definition is_done (ph : phase) : bool := match ph with Done _ => true | _ => false end.

(** The key a request is about. *)
Definition key_name_of (op : NativeOperation) : string :=
  match op with
  | PsaGenerateKey o => gk_key_name o
  | PsaImportKey o => ik_key_name o
  | PsaDestroyKey name | PsaExportPublicKey name | PsaExportKey name => name
  | PsaSignHash o => sh_key_name o
  | PsaVerifyHash o => vh_key_name o
  | PsaAsymmetricEncrypt o => ae_key_name o
  | PsaAsymmetricDecrypt o => ad_key_name o
  | PsaAeadEncrypt o => aee_key_name o
  | PsaAeadDecrypt o => aed_key_name o
  | PsaRawKeyAgreement o => ka_private_key_name o
  | _ => ""
  end.
Definition call_triple (c : ApplicationName * NativeOperation) : KeyTriple :=
  triple c.1 (key_name_of c.2).

Section Blocks.
Context {K B : Type} `{ManageKeyInfo K} `{PsaCrypto B} `{Validate} `{Bincode Z}.
Context (uuid : string -> option string) (limit : Z) (self : Provider).
Abbreviation W := (state K B).
Abbreviation M A := (ST W ResponseStatus A).
Abbreviation call := (ApplicationName * NativeOperation)%type.

(** The requests by the blocks they consist of: those that create a key, those
    that destroy one, those that use one (with what they do under the mutex once
    they know its identifier), and those on no key, a single block each. *)
Inductive kind :=
  | Creates (attributes : Attributes) (make : Z -> ST B psa_error Z) (res : NativeResult)
  | Destroys
  | Uses (run : Z -> M NativeResult)
  | OneBlock.

Definition kind_of (op : NativeOperation) : kind :=
  match op with
  | PsaGenerateKey o => Creates (gk_attributes o)
      (fun key_id => psa_generate (gk_attributes o) (Some key_id)) RPsaGenerateKey
  | PsaImportKey o => Creates (ik_attributes o)
      (fun key_id => psa_import (ik_attributes o) (Some key_id) (ik_data o)) RPsaImportKey
  | PsaDestroyKey _ => Destroys
  | PsaExportPublicKey _ => Uses (fun key_id =>
      id ← psa (from_persistent_key_id key_id);
      key_attributes ← psa (attributes_from_key_id id);
      buffer_size ← psa_size (export_public_key_output_size key_attributes);
      r ← with_buffer buffer_size (psa_export_public id);
      mret (RPsaExportPublicKey r))
  | PsaExportKey _ => Uses (fun key_id =>
      id ← psa (from_persistent_key_id key_id);
      key_attributes ← psa (attributes_from_key_id id);
      buffer_size ← psa_size (export_key_output_size key_attributes);
      r ← with_buffer buffer_size (psa_export id);
      mret (RPsaExportKey r))
  | PsaSignHash o => Uses (fun key_id =>
      id ← psa (from_persistent_key_id key_id);
      key_attributes ← psa (attributes_from_key_id id);
      buffer_size ← psa_size (sign_output_size key_attributes (sh_alg o));
      r ← with_buffer buffer_size (psa_sign_hash id (sh_alg o) (sh_hash o));
      mret (RPsaSignHash r))
  | PsaVerifyHash o => Uses (fun key_id =>
      id ← psa (from_persistent_key_id key_id);
      psa (psa_verify_hash id (vh_alg o) (vh_hash o) (vh_signature o)) ;;
      mret RPsaVerifyHash)
  | PsaAsymmetricEncrypt o => Uses (fun key_id =>
      id ← psa (from_persistent_key_id key_id);
      key_attributes ← psa (attributes_from_key_id id);
      lift (validate_asym_encrypt o key_attributes) ;;
      buffer_size ← psa_size (asymmetric_encrypt_output_size key_attributes (ae_alg o));
      r ← with_buffer buffer_size (psa_encrypt id (ae_alg o) (ae_plaintext o) (ae_salt o));
      mret (RPsaAsymmetricEncrypt r))
  | PsaAsymmetricDecrypt o => Uses (fun key_id =>
      id ← psa (from_persistent_key_id key_id);
      key_attributes ← psa (attributes_from_key_id id);
      lift (validate_asym_decrypt o key_attributes) ;;
      buffer_size ← psa_size (asymmetric_decrypt_output_size key_attributes (ad_alg o));
      r ← with_buffer buffer_size (psa_decrypt id (ad_alg o) (ad_ciphertext o) (ad_salt o));
      mret (RPsaAsymmetricDecrypt r))
  | PsaAeadEncrypt o => Uses (fun key_id =>
      id ← psa (from_persistent_key_id key_id);
      key_attributes ← psa (attributes_from_key_id id);
      lift (validate_aead_encrypt o key_attributes) ;;
      buffer_size ← psa_size (aead_encrypt_output_size key_attributes (aee_alg o)
                                (length (aee_plaintext o)));
      r ← with_buffer buffer_size (psa_aead_encrypt id (aee_alg o) (aee_nonce o)
                                     (aee_additional_data o) (aee_plaintext o));
      mret (RPsaAeadEncrypt r))
  | PsaAeadDecrypt o => Uses (fun key_id =>
      id ← psa (from_persistent_key_id key_id);
      key_attributes ← psa (attributes_from_key_id id);
      lift (validate_aead_decrypt o key_attributes) ;;
      buffer_size ← psa_size (aead_decrypt_output_size key_attributes (aed_alg o)
                                (length (aed_ciphertext o)));
      r ← with_buffer buffer_size (psa_aead_decrypt id (aed_alg o) (aed_nonce o)
                                     (aed_additional_data o) (aed_ciphertext o));
      mret (RPsaAeadDecrypt r))
  | PsaRawKeyAgreement o => Uses (fun key_id =>
      id ← psa (from_persistent_key_id key_id);
      key_attributes ← psa (attributes_from_key_id id);
      lift (validate_raw_key_agreement o key_attributes) ;;
      buffer_size ← psa_size (raw_key_agreement_output_size key_attributes (ka_alg_op o));
      r ← with_buffer buffer_size (psa_raw_key_agreement (ka_alg_op o) id (ka_peer_key o));
      mret (RPsaRawKeyAgreement r))
  | _ => OneBlock
  end.

(** Run a block; an error ends the request. *)
Definition block {A} (m : M A) (next : A -> phase) : W -> phase * W := fun s =>
  let '(r, s') := m s in
  (match r with Ok a => next a | Err e => Done (Err e) | Panic => Done Panic end, s').

(** The next block of a request.  [None]: the request has no such phase. *)
Definition advance (c : call) (ph : phase) : option (W -> phase * W) :=
  let t := call_triple c in
  let store := key_info_store self in
  match ph, kind_of c.2 with
  | Start, Creates _ _ _ => Some (block (on_kim (does_not_exist store t)) (fun _ => Checked))
  | Start, (Destroys | Uses _) => Some (block (on_kim (get_key_id Z store t)) Found)
  | Start, OneBlock =>
    Some (block (provider_call (provide uuid limit self) c.1 c.2) (fun r => Done (Ok r)))
  | Checked, Creates _ _ _ => Some (block (fetch_add 1) (fun old =>
      let new_key_id := u32_wrap (old + 1) in
      if (PSA_KEY_ID_USER_MAX <? new_key_id)%Z then Exceeded else HaveId new_key_id))
  | Exceeded, Creates _ _ _ => Some (block (store_counter PSA_KEY_ID_USER_MAX) (fun _ =>
      Done (Err PsaErrorInsufficientMemory)))
  | HaveId id, Creates _ make _ => Some (block (psa (make id)) (Made id))
  | Made id key, Creates attributes _ res =>
    Some (block (attempt (on_kim (insert_key_info store t id attributes))) (fun r =>
      match r with Ok _ => Done (Ok res) | Err e => Undo key e | Panic => Done Panic end))
  | Undo key e, Creates _ _ _ =>
    Some (block (attempt (on_crypto (psa_destroy key))) (fun _ => Done (Err e)))
  | Found id, Destroys => Some (block (on_kim (remove_key_info store t)) (fun _ => Removed id))
  | Found id, Uses run => Some (block (run id) (fun r => Done (Ok r)))
  | Removed id, Destroys =>
    Some (block (id ← psa (from_persistent_key_id id); psa (psa_destroy id)) (fun _ =>
      Done (Ok RPsaDestroyKey)))
  | _, _ => None
  end.

(** The blocks that start by locking the mutex. *)
Definition locks (c : call) (ph : phase) : bool :=
  match ph, c.2 with
  | HaveId _, _ | Removed _, _ => true
  | Found _, PsaDestroyKey _ => false
  | Found _, _ => true
  | _, _ => false
  end.

(** A request that runs alone, for [n] blocks. *)
Fixpoint alone (n : nat) (c : call) (ph : phase) (s : W) : phase * W :=
  match n, advance c ph with
  | S n, Some m => let '(ph', s') := m s in alone n c ph' s'
  | _, _ => (ph, s)
  end.

(** ** The pool *)

(** What the history records: an identifier drawn for a key, a call of the library
    on a key, and a mapping removed. *)
Inductive event :=
  | Drew (id : Z) (t : KeyTriple) | Touched (id : Z) (t : KeyTriple) | Erased (t : KeyTriple).

Definition events (c : call) (ph ph' : phase) : list event :=
  let t := call_triple c in
  match ph, ph' with
  | Checked, HaveId id => [Drew id t]
  | HaveId id, _ | Undo id _, _ | Removed id, _ => [Touched id t]
  | Found _, Removed _ => [Erased t]
  | Found id, _ => match c.2 with PsaDestroyKey _ => [] | _ => [Touched id t] end
  | _, _ => []
  end.

Record pool := { shared : W; mutex : option nat; threads : gmap nat (call * phase);
  history : list event }.

(** Thread [tid] runs its next block.  A block that locks the mutex waits until
    it is free; the mutex is kept if the phase it leads to holds it. *)
Definition work (tid : nat) (x : pool) : option pool :=
  '(c, ph) ← threads x !! tid;
  m ← advance c ph;
  if locks c ph && bool_decide (is_Some (mutex x)) then None
  else
    let '(ph', s') := m (shared x) in
    Some {| shared := s';
            mutex := if holds_mutex ph' then Some tid
                     else if holds_mutex ph then None else mutex x;
            threads := <[tid := (c, ph')]> (threads x);
            history := history x ++ events c ph ph' |}.

Definition idle (s : W) : pool := {| shared := s; mutex := None; threads := ∅; history := [] |}.

(** A thread with nothing to do takes a request. *)
Definition arrive (tid : nat) (c : call) (x : pool) : pool :=
  {| shared := shared x; mutex := mutex x; threads := <[tid := (c, Start)]> (threads x);
     history := history x |}.
Definition free_thread (x : pool) (tid : nat) : Prop :=
  forall c ph, threads x !! tid = Some (c, ph) -> is_done ph = true.

Inductive work_step : pool -> pool -> Prop :=
  | work_step_intro tid x y : work tid x = Some y -> work_step x y.
Inductive pool_step (size : nat) : pool -> pool -> Prop :=
  | pool_work x y : work_step x y -> pool_step size x y
  | pool_arrive tid c x : tid < size -> free_thread x tid -> pool_step size x (arrive tid c x).
End Blocks.
Arguments pool : clear implicits.

(** ** A request that runs alone *)
Section Alone.
Context {K B : Type} `{ManageKeyInfo K} `{PsaCrypto B} `{Validate} `{Bincode Z}.
Context (uuid : string -> option string) (limit : Z) (self : Provider).
Abbreviation W := (state K B).
Abbreviation call := (ApplicationName * NativeOperation)%type.
Implicit Types (s : W) (c : call).

Lemma alone_step n c ph m s :
  advance uuid limit self c ph = Some m ->
  alone uuid limit self (S n) c ph s = let '(ph', s') := m s in alone uuid limit self n c ph' s'.
Proof. intros Hm. simpl. by rewrite Hm. Qed.

Lemma alone_done n c r s : alone uuid limit self n c (Done r) s = (Done r, s).
Proof. by destruct n. Qed.

(** What the method of each kind of request is, block by block. *)
Lemma uses_call a op run s :
  kind_of op = Uses run ->
  provider_call (provide uuid limit self) a op s =
  (key_id ← on_kim (get_key_id Z (key_info_store self) (triple a (key_name_of op))); run key_id) s.
Proof.
  destruct op; intros Hk; try discriminate Hk; injection Hk as <-; cbn [provider_call];
    unfold provide; cbn -[on_kim with_buffer psa psa_size];
    unfold psa_export_public_key_internal, psa_export_key_internal, psa_sign_hash_internal,
      psa_verify_hash_internal, psa_asymmetric_encrypt_internal, psa_asymmetric_decrypt_internal,
      psa_aead_encrypt_internal, psa_aead_decrypt_internal, psa_raw_key_agreement_internal, open_key;
    unfold mbind, ST_bind; repeat (case_match; simplify_eq); reflexivity.
Qed.

Lemma creates_call a op attrs make res s :
  kind_of (K := K) op = Creates attrs make res ->
  provider_call (provide uuid limit self) a op s =
  (on_kim (does_not_exist (key_info_store self) (triple a (key_name_of op))) ;;
   key_id ← create_key_id;
   create_and_store self (triple a (key_name_of op)) attrs key_id (make key_id) ;; mret res) s.
Proof.
  destruct op; intros Hk; try discriminate Hk; injection Hk as <- <- <-; cbn;
    unfold psa_generate_key_internal, psa_import_key_internal;
    unfold mbind, ST_bind; repeat (case_match; simplify_eq); reflexivity.
Qed.

Lemma alone_creates a op attrs make res s :
  kind_of (K := K) op = Creates attrs make res ->
  alone uuid limit self 5 (a, op) Start s =
  let '(r, s') := provider_call (provide uuid limit self) a op s in (Done r, s').
Proof.
  intros Hk. rewrite (creates_call a op attrs make res) by done.
  cbn [alone]. unfold advance, call_triple. cbn [fst snd]. rewrite Hk.
  unfold block, create_key_id, create_and_store, psa, on_err, attempt, mbind, ST_bind.
  destruct (on_kim _ s) as [[u|e|] s1]; [|done|done].
  destruct (fetch_add 1 s1) as [[old|e|] s2]; [|done|done].
  destruct (_ <? _)%Z; cbn; rewrite ?Hk; cbn; [done|].
  destruct (on_crypto (make _) s2) as [[key|e|] s3]; cbn; rewrite ?Hk; cbn; [|done|done].
  destruct (on_kim (insert_key_info _ _ _ _) s3) as [[u'|e|] s4]; cbn; rewrite ?Hk; cbn; [done| |done].
  by destruct (on_crypto (psa_destroy key) s4) as [[u'|e'|] s5].
Qed.

Lemma alone_destroys a name s :
  alone uuid limit self 5 (a, PsaDestroyKey name) Start s =
  let '(r, s') := provider_call (provide uuid limit self) a (PsaDestroyKey name) s in (Done r, s').
Proof.
  cbn. unfold psa_destroy_key_internal, block, call_triple, mbind, ST_bind. cbn [fst snd kind_of key_name_of].
  destruct (on_kim (get_key_id _ _ _) s) as [[id|e|] s1]; [|done|done]. cbn. unfold block, call_triple. cbn.
  destruct (on_kim (remove_key_info _ _) s1) as [[u|e|] s2]; cbn; [|done|done].
  unfold block, mbind, ST_bind. destruct (psa (from_persistent_key_id id) s2) as [[i|e|] s3]; [|done|done].
  by destruct (psa (psa_destroy i) s3) as [[u'|e|] s4].
Qed.

(** The blocks of a request, run without interruption, are the method of the
    provider: five blocks are enough for every operation, and they end in the same
    state with the same outcome. *)
Theorem alone_is_provider_call c s :
  alone uuid limit self 5 c Start s =
  let '(r, s') := provider_call (provide uuid limit self) c.1 c.2 s in (Done r, s').
Proof.
  destruct c as [a op]. cbn [fst snd]. destruct (kind_of (K := K) op) as [attrs make res| |run|] eqn:Hk.
  - by eapply alone_creates.
  - destruct op; try discriminate Hk. apply alone_destroys.
  - rewrite (uses_call a op run) by done. cbn [alone]. unfold advance, call_triple.
    cbn [fst snd]. rewrite Hk. unfold block, mbind, ST_bind.
    destruct (on_kim _ s) as [[id|e|] s1]; [|done|done]. cbn.
    by destruct (run id s1) as [[r|e|] s2].
  - cbn [alone]. unfold advance. cbn [fst snd]. rewrite Hk. unfold block.
    by destruct (provider_call _ _ _ s) as [[r|e|] s'].
Qed.
End Alone.
