(* ===== verification/MbedConcurrency.v ===== *)
(** * Correctness of the threads of the Mbed Crypto provider

    [effect] says what each block of a request does to the mapping, the keys of the
    library and the counter; the invariants of the pool are proved from it.  What
    holds of every interleaving ([threads_no_confusion], [threads_finish]) is
    separate from what holds when no two requests create the same key at once
    ([parallel_calls_safe]), and [parallel_generate_race] shows that the condition
    is needed. *)
From S2P Require Import Prelude RustStd Interface Authenticators KeyInfo OnDisk Concrete.
From S2P Require Import Provide Mbed MbedSpec Scenario MbedThreads.
Import MbedProvider.

(** ** What a block does *)
Section Spec.
Context {K B : Type} `{KimSpec K} `{PsaLaws B} `{ValidateLaws} `{BZ : Bincode Z}.
Context `{!BincodeLaws Z} `{!BincodeU32}.
Context (uuid : string -> option string) (limit : Z) (self : Provider).
Abbreviation W := (state K B).
Abbreviation call := (ApplicationName * NativeOperation)%type.
Implicit Types (s : W) (c : call) (x y : pool K B) (t : KeyTriple) (id : Z).
Abbreviation advance := (advance uuid limit self).
Abbreviation work := (work uuid limit self).
Abbreviation work_step := (work_step uuid limit self).
Abbreviation pool_step := (pool_step uuid limit self).

(** The mapping gives [t] the identifier [id]. *)
Definition stored s id t : Prop :=
  exists i, view s !! t = Some i /\ kt_provider_id t = MbedCrypto /\ key_id_of i = Some id.

(** The phases in which a request can fail with nothing to clean up. *)
Definition may_end (ph : phase) : bool :=
  match ph with Start | HaveId _ | Found _ | Removed _ => true | _ => false end.

(** The blocks of a request for the key [t], by what they do to the mapping, the
    keys of the library and the counter. *)
Inductive effect t : phase -> W -> phase -> W -> Prop :=
  | eff_check s s' : same s' s -> view s !! t = None -> effect t Start s Checked s'
  | eff_find s s' id : same s' s -> stored s id t -> effect t Start s (Found id) s'
  | eff_end ph s s' r : same s' s -> may_end ph = true -> r <> Panic -> effect t ph s (Done r) s'
  | eff_draw s s' :
      view s' = view s -> keys s' = keys s -> id_counter s' = u32_wrap (id_counter s + 1) ->
      effect t Checked s (if (PSA_KEY_ID_USER_MAX <? id_counter s')%Z then Exceeded
                          else HaveId (id_counter s')) s'
  | eff_limit s s' e :
      view s' = view s -> keys s' = keys s -> id_counter s' = PSA_KEY_ID_USER_MAX ->
      effect t Exceeded s (Done (Err e)) s'
  | eff_make s s' id :
      view s' = view s -> (id ∉ keys s) -> keys s' = {[id]} ∪ keys s ->
      id_counter s' = id_counter s -> effect t (HaveId id) s (Made id id) s'
  | eff_insert s s' id key i r :
      key_id_of i = Some id -> view s !! t = None ->
      view s' = <[t := i]> (view s) -> keys s' = keys s -> id_counter s' = id_counter s ->
      effect t (Made id key) s (Done (Ok r)) s'
  | eff_insert_fails s s' id key e :
      same s' s -> effect t (Made id key) s (Undo key e) s'
  | eff_overwrite s s' id key i e :
      key_id_of i = Some id -> is_Some (view s !! t) ->
      view s' = <[t := i]> (view s) -> keys s' = keys s -> id_counter s' = id_counter s ->
      effect t (Made id key) s (Undo key e) s'
  | eff_undo s s' key e :
      view s' = view s -> keys s ∖ {[key]} ⊆ keys s' -> keys s' ⊆ keys s -> id_counter s' = id_counter s ->
      effect t (Undo key e) s (Done (Err e)) s'
  | eff_remove s s' id :
      view s' = delete t (view s) -> keys s' = keys s -> id_counter s' = id_counter s ->
      effect t (Found id) s (Removed id) s'
  | eff_destroy s s' id r :
      view s' = view s -> keys s ∖ {[id]} ⊆ keys s' -> keys s' ⊆ keys s -> id_counter s' = id_counter s ->
      r <> Panic -> effect t (Removed id) s (Done r) s'.

Lemma kim_same {A} (m : ST K ResponseStatus A) s r k :
  m (kim s) = (r, k) -> kim_view k = view s ->
  exists s', on_kim m s = (r, s') /\ same s' s.
Proof. intros Hm Hv. unfold on_kim, zoom. rewrite Hm. eexists. split; [done|]. by split. Qed.

Lemma run_quiet op run id : kind_of op = Uses run -> quiet (K := K) (run id).
Proof.
  destruct op; intros Hk; try discriminate Hk; injection Hk as <-.
  all: apply quiet_bind; [apply quiet_psa, open_reads|intros i].
  all: try (apply quiet_bind; [apply quiet_psa; eauto with parsec|intros attrs]; try apply quiet_ret;
    pose proof (psa_sizes_no_panic attrs); pose proof (validate_no_panic attrs); destruct_and?).
  all: repeat (apply quiet_bind; [first [by apply quiet_size | by apply quiet_lift]|intros ?]).
  all: try (apply quiet_bind; [apply with_buffer_quiet; intros; eauto with parsec|intros; apply quiet_ret]).
Qed.

Lemma makes_of op attrs make res id : kind_of (K := K) op = Creates attrs make res ->
  makes_key psa_keys id (make id).
Proof. destruct op; intros Hk; try discriminate Hk; injection Hk as <- <- <-; eauto with parsec. Qed.

Lemma block_quiet {A} (m : ST W ResponseStatus A) (next : A -> phase) t ph s ph' s' :
  quiet m -> may_end ph = true ->
  (forall a, (m s).1 = Ok a -> effect t ph s (next a) (m s).2) ->
  block m next s = (ph', s') -> effect t ph s ph' s'.
Proof.
  intros Hq Hh Hok. destruct (Hq s) as [Hs Hp]. unfold block.
  destruct (m s) as [[a|e|] s1]; simpl in *; intros [= <- <-]; [by apply Hok|by apply eff_end|done].
Qed.

Lemma start_effect c m s ph' s' :
  advance c Start = Some m -> m s = (ph', s') -> effect (call_triple c) Start s ph' s'.
Proof.
  destruct c as [a op]. unfold MbedThreads.advance. cbn [fst snd].
  destruct (kind_of op) as [attrs make res| |run|] eqn:Hk; intros [= <-]; apply block_quiet; try done.
  - apply does_not_exist_quiet.
  - intros u. unfold on_kim, zoom. rewrite does_not_exist_run. simpl.
    destruct (kim_view (kim s) !! _) eqn:Ht; [done|]. intros _. by apply eff_check.
  - apply get_key_id_quiet.
  - intros id. unfold on_kim, zoom. rewrite get_key_id_run. simpl.
    destruct (kim_view (kim s) !! _) as [i|] eqn:Ht; [|done]. intros Hi.
    apply eff_find; [done|]. exists i. split_and!; [done|done|].
    unfold key_id_of. destruct (bincode_deserialize _); simpl in Hi; congruence.
  - apply get_key_id_quiet.
  - intros id. unfold on_kim, zoom. rewrite get_key_id_run. simpl.
    destruct (kim_view (kim s) !! _) as [i|] eqn:Ht; [|done]. intros Hi.
    apply eff_find; [done|]. exists i. split_and!; [done|done|].
    unfold key_id_of. destruct (bincode_deserialize _); simpl in Hi; congruence.
  - apply reading_quiet. by destruct op.
  - intros r Hr. apply eff_end; [|done|done]. by apply reading_quiet; destruct op.
Qed.

Lemma made_effect c attrs make res id key s ph' s' :
  kind_of (K := K) c.2 = Creates attrs make res ->
  block (attempt (on_kim (insert_key_info (key_info_store self) (call_triple c) id attrs)))
    (fun r => match r with Ok _ => Done (Ok res) | Err e => Undo key e | Panic => Done Panic end) s
    = (ph', s') ->
  effect (call_triple c) (Made id key) s ph' s'.
Proof.
  intros _. unfold block, attempt, on_kim, zoom.
  destruct (bincode_serialize id) as [b|] eqn:Hb.
  - pose proof (bincode_round _ _ Hb) as Hi.
    destruct (insert_key_info_cases (key_info_store self) (call_triple c) id attrs (kim s) b Hb)
      as (k1 & [[-> Hv]|[-> Hv]]).
    + intros [= <- <-]. apply eff_insert_fails. by split.
    + change (kim_view (kim s)) with (view s) in *.
      destruct (view s !! call_triple c) eqn:Ht; intros [= <- <-];
        [eapply eff_overwrite|eapply eff_insert]; try done; by rewrite ?Ht.
  - unfold insert_key_info. run_unfold. rewrite Hb. simpl. intros [= <- <-].
    apply eff_insert_fails. by split.
Qed.

(** Every block of the code has one of the effects. *)
Lemma advance_effect c ph m s ph' s' :
  advance c ph = Some m -> m s = (ph', s') -> effect (call_triple c) ph s ph' s'.
Proof.
  destruct ph as [| | |id|id key|key e|id|id|r]; [by apply start_effect|..];
    unfold MbedThreads.advance; destruct (kind_of (K := K) c.2) as [attrs make res| |run|] eqn:Hk;
    try (intros Hd; discriminate Hd); intros [= <-].
  - unfold block, fetch_add. run_unfold. intros [= <- <-].
    apply (eff_draw _ s {| kim := kim s; crypto := crypto s;
      id_counter := u32_wrap (id_counter s + 1) |}); done.
  - unfold block, store_counter. run_unfold. intros [= <- <-]. by apply eff_limit.
  - pose proof (makes_of c.2 attrs make res id Hk (crypto s)) as Hm.
    unfold block, psa, on_err, on_crypto, zoom. destruct (make id (crypto s)) as [[key|e|] b1];
      simpl; intros [= <- <-]; [| |done].
    + destruct Hm as (-> & Hn & Hk'). by apply eff_make.
    + by apply eff_end.
  - by eapply made_effect.
  - pose proof (psa_destroy_spec key (crypto s)) as Hd. unfold block, attempt, on_crypto, zoom.
    destruct (psa_destroy key (crypto s)) as [[u|e'|] b1]; simpl; intros [= <- <-]; [| |done];
      (apply eff_undo; [done| | |done]); unfold keys; simpl;
      first [rewrite Hd|destruct Hd as [Hd|Hd]; rewrite Hd]; set_solver.
  - destruct (remove_key_info_cases (key_info_store self) (call_triple c) (kim s))
      as (k1 & [[Hr Hv]|[Hr Hv]]); unfold block, on_kim, zoom; rewrite Hr.
    + intros [= <- <-]. apply eff_end; [by split|done|done].
    + change (kim_view (kim s)) with (view s) in *.
      destruct (view s !! call_triple c) eqn:Ht; intros [= <- <-].
      * by apply eff_remove.
      * apply eff_end; [|done|done]. split; [|done]. unfold view at 1. simpl.
        by rewrite Hv, delete_id.
  - intros Hb. eapply block_quiet in Hb; [done|by eapply run_quiet|done|].
    intros r Hr. apply eff_end; [by apply (run_quiet c.2)|done|done].
  - pose proof (psa_open_spec id (crypto s)) as Ho. unfold block, psa, on_err, on_crypto.
    unfold mbind, ST_bind, zoom. destruct (from_persistent_key_id id (crypto s)) as [[i|e|] b1]; simpl.
    + destruct Ho as (-> & _ & Hk1). pose proof (psa_destroy_spec id b1) as Hd.
      destruct (psa_destroy id b1) as [[u|e|] b2]; simpl; intros [= <- <-]; [| |done];
        (apply eff_destroy; [done| | |done|done]); unfold keys; simpl;
        first [rewrite Hd|destruct Hd as [Hd|Hd]; rewrite Hd]; rewrite ?Hk1; set_solver.
    + intros [= <- <-]. apply eff_end; [|done|done]. split; [done|]. split; [|done].
      unfold keys. simpl. destruct e; naive_solver.
    + done.
Qed.

(** ** The invariant of the pool *)

(** The identifiers drawn, with the keys they were drawn for. *)
Definition drawn (h : list event) : list (Z * KeyTriple) :=
  omap (fun e => match e with Drew id t => Some (id, t) | _ => None end) h.
Lemma elem_of_drawn h id t : (id, t) ∈ drawn h <-> Drew id t ∈ h.
Proof.
  unfold drawn. rewrite list_elem_of_omap. split; [|by exists (Drew id t)].
  by intros ([] & Hin & [=]); subst.
Qed.

(** An identifier is that of a key if it was when the pool started, or was drawn
    for it since. *)
Definition belongs (s0 : W) (h : list event) id t : Prop := stored s0 id t \/ Drew id t ∈ h.

Definition phase_id (ph : phase) : option Z :=
  match ph with
  | HaveId id | Made id _ | Undo id _ | Found id | Removed id => Some id
  | _ => None
  end.
Definition is_exceeded (ph : phase) : bool := match ph with Exceeded => true | _ => false end.
Definition exceeded (m : gmap nat (call * phase)) : gset nat :=
  dom (filter (fun p => is_exceeded p.2.2 = true) m).

(** The mutex is held by the thread that is in a phase that holds it. *)
Record lock_inv x : Prop := {
  li_holds tid c ph : threads x !! tid = Some (c, ph) -> holds_mutex ph = true -> mutex x = Some tid;
  li_held tid : mutex x = Some tid ->
    exists c ph, threads x !! tid = Some (c, ph) /\ holds_mutex ph = true;
}.

(** The counter is past the limit by at most the threads that are about to set it
    back. *)
Record count_inv (size' : nat) (s0 : W) x : Prop := {
  ci_threads tid : is_Some (threads x !! tid) -> tid < size';
  ci_range : (id_counter s0 <= id_counter (shared x) <=
    PSA_KEY_ID_USER_MAX + Z.of_nat (size (exceeded (threads x))))%Z;
  ci_exceeded : exceeded (threads x) <> ∅ -> (PSA_KEY_ID_USER_MAX <= id_counter (shared x))%Z;
}.

(** Identifiers are drawn once, and whatever a thread does with one is for the key
    it belongs to. *)
Record name_inv (s0 : W) x : Prop := {
  ni_drew id t : Drew id t ∈ history x ->
    (id_counter s0 < id <= PSA_KEY_ID_USER_MAX)%Z /\ (id <= id_counter (shared x))%Z;
  ni_nodup : NoDup (drawn (history x)).*1;
  ni_stored id t : stored (shared x) id t -> belongs s0 (history x) id t;
  ni_phase tid c ph id : threads x !! tid = Some (c, ph) -> phase_id ph = Some id ->
    belongs s0 (history x) id (call_triple c);
  ni_touched id t : Touched id t ∈ history x -> belongs s0 (history x) id t;
  ni_made tid c id key : threads x !! tid = Some (c, Made id key) -> key = id;
  ni_panic tid c : threads x !! tid <> Some (c, Done Panic);
}.

Lemma elem_of_exceeded (m : gmap nat (call * phase)) tid :
  tid ∈ exceeded m <-> exists c, m !! tid = Some (c, Exceeded).
Proof.
  unfold exceeded. rewrite elem_of_dom. split.
  - intros [[c ph] [Hm He]%map_lookup_filter_Some]. exists c. by destruct ph.
  - intros [c Hc]. exists (c, Exceeded). by apply map_lookup_filter_Some.
Qed.
Lemma exceeded_insert (m : gmap nat (call * phase)) tid c ph :
  exceeded (<[tid := (c, ph)]> m) =
  if is_exceeded ph then {[tid]} ∪ exceeded m else exceeded m ∖ {[tid]}.
Proof.
  apply set_eq. intros t. rewrite elem_of_exceeded. destruct (is_exceeded ph) eqn:He.
  - rewrite elem_of_union, elem_of_singleton, elem_of_exceeded.
    destruct (decide (t = tid)) as [->|Hne].
    + rewrite lookup_insert_eq. destruct ph; try discriminate He. naive_solver.
    + rewrite lookup_insert_ne by done. naive_solver.
  - rewrite elem_of_difference, elem_of_singleton, elem_of_exceeded.
    destruct (decide (t = tid)) as [->|Hne].
    + rewrite lookup_insert_eq. destruct ph; naive_solver.
    + rewrite lookup_insert_ne by done. naive_solver.
Qed.

Lemma size_bounded (st : gset nat) n : (forall tid, tid ∈ st -> tid < n) -> size st <= n.
Proof.
  intros Hst. rewrite <- (size_set_seq (C := gset nat) 0 n). apply subseteq_size.
  intros tid Htid. apply elem_of_set_seq. specialize (Hst tid Htid). lia.
Qed.

(** ** Steps keep the invariant *)
Definition moved (tid : nat) c (ph ph' : phase) s' x : pool K B :=
  {| shared := s';
     mutex := if holds_mutex ph' then Some tid else if holds_mutex ph then None else mutex x;
     threads := <[tid := (c, ph')]> (threads x);
     history := history x ++ events c ph ph' |}.

Definition is_creating c : bool :=
  match c.2 with PsaGenerateKey _ | PsaImportKey _ => true | _ => false end.
Definition creating_phase (ph : phase) : bool :=
  match ph with Checked | Exceeded | HaveId _ | Made _ _ | Undo _ _ => true | _ => false end.

Lemma advance_creating c ph m s ph' s' :
  advance c ph = Some m -> m s = (ph', s') -> creating_phase ph' = true -> is_creating c = true.
Proof.
  destruct c as [a op]. unfold MbedThreads.advance, is_creating. cbn [fst snd].
  destruct (kind_of (K := K) op) as [attrs make res| |run|] eqn:Hk.
  { by destruct op. }
  all: destruct ph; try (intros Hd; discriminate Hd); intros [= <-]; unfold block;
    intros Hm Hc; repeat (case_match; simplify_eq); done.
Qed.

Lemma advance_done c ph m s r s' :
  advance c ph = Some m -> m s = (Done (Ok r), s') -> is_creating c = true ->
  exists id key, ph = Made id key.
Proof.
  destruct c as [a op]. unfold MbedThreads.advance, is_creating. cbn [fst snd].
  intros Ha Hm Hc.
  assert (exists attrs make res, kind_of (K := K) (B := B) op = Creates attrs make res)
    as (attrs & make & res & Hk) by (destruct op; try discriminate Hc; simpl; eauto).
  rewrite Hk in Ha. destruct ph; try discriminate Ha; injection Ha as <-; revert Hm;
    unfold block; intros Hm; repeat (case_match; simplify_eq); eauto.
Qed.

Lemma work_cases tid x y :
  work tid x = Some y ->
  exists c ph ph' s', threads x !! tid = Some (c, ph) /\
    (locks c ph = true -> mutex x = None) /\
    effect (call_triple c) ph (shared x) ph' s' /\
    (creating_phase ph' = true -> is_creating c = true) /\
    (forall r, ph' = Done (Ok r) -> is_creating c = true -> exists id key, ph = Made id key) /\
    y = moved tid c ph ph' s' x.
Proof.
  unfold MbedThreads.work. destruct (threads x !! tid) as [[c ph]|] eqn:Ht; [|done]. simpl.
  destruct (advance c ph) as [m|] eqn:Ha; [|done]. simpl.
  destruct (locks c ph && _) eqn:Hl; [done|]. destruct (m (shared x)) as [ph' s'] eqn:Hm.
  intros [= <-]. exists c, ph, ph', s'.
  split_and!; [done| |by eapply advance_effect|by eapply advance_creating| |done].
  2: { intros r ->. by eapply advance_done. }
  intros Hlk. rewrite Hlk in Hl. simpl in Hl. apply bool_decide_eq_false in Hl.
  by apply eq_None_not_Some.
Qed.

Lemma lock_inv_move tid c ph ph' s' x :
  lock_inv x -> threads x !! tid = Some (c, ph) ->
  (locks c ph = true -> mutex x = None) ->
  effect (call_triple c) ph (shared x) ph' s' -> lock_inv (moved tid c ph ph' s' x).
Proof.
  intros [Hh Hd] Ht Hl He.
  assert (Hph : holds_mutex ph = true -> mutex x = Some tid) by (intros; by eapply Hh).
  assert (Hph' : holds_mutex ph' = true -> holds_mutex ph = true \/ mutex x = None).
  { intros Hp'. inversion He; subst; try discriminate Hp'; auto.
    by destruct (_ <? _)%Z in Hp'. }
  split; simpl.
  - intros t c' p [[<- [= <- <-]]|[Hne Hp]]%lookup_insert_Some Hhold; [by rewrite Hhold|].
    specialize (Hh t c' p Hp Hhold). destruct (holds_mutex ph') eqn:E1.
    + destruct (Hph' eq_refl) as [E2|E2]; [specialize (Hph E2)|]; congruence.
    + destruct (holds_mutex ph) eqn:E2; [specialize (Hph eq_refl); congruence|done].
  - intros t Hm. destruct (holds_mutex ph') eqn:E1.
    + injection Hm as <-. exists c, ph'. by rewrite lookup_insert_eq.
    + destruct (holds_mutex ph) eqn:E2; [done|]. destruct (Hd t Hm) as (c' & p & Hp & Hhold).
      exists c', p. split; [|done]. rewrite lookup_insert_ne; [done|]. intros <-. congruence.
Qed.

Lemma effect_counter t ph s ph' s' :
  effect t ph s ph' s' ->
  (ph = Checked /\ id_counter s' = u32_wrap (id_counter s + 1) /\
     is_exceeded ph' = (PSA_KEY_ID_USER_MAX <? id_counter s')%Z) \/
  (ph = Exceeded /\ id_counter s' = PSA_KEY_ID_USER_MAX /\ is_exceeded ph' = false) \/
  (ph <> Exceeded /\ id_counter s' = id_counter s /\ is_exceeded ph' = false).
Proof.
  assert (Hend : forall ph, may_end ph = true -> ph <> Exceeded) by (by intros []).
  intros [? ? (_ & _ & ?)|? ? ? (_ & _ & ?)|? ? ? ? (_ & _ & ?)| | | | |? ? ? ? ? (_ & _ & ?)| | | |]; auto 10.
  left. by destruct (_ <? _)%Z.
Qed.

Lemma count_inv_nowrap n s0 x :
  counter_ok s0 -> (Z.of_nat n <= 2 ^ 30)%Z -> count_inv n s0 x ->
  u32_wrap (id_counter (shared x) + 1) = (id_counter (shared x) + 1)%Z.
Proof.
  intros Hc0 Hn [Ht Hr _]. pose proof psa_id_bounds as Hb. unfold counter_ok in Hc0.
  assert (Hsz : size (exceeded (threads x)) <= n).
  { apply size_bounded. intros t [c' Hc']%elem_of_exceeded. apply Ht. by eexists. }
  unfold u32_wrap. apply Z.mod_small. lia.
Qed.

Lemma count_inv_move n s0 tid c ph ph' s' x :
  counter_ok s0 -> (Z.of_nat n <= 2 ^ 30)%Z ->
  count_inv n s0 x -> threads x !! tid = Some (c, ph) ->
  effect (call_triple c) ph (shared x) ph' s' -> count_inv n s0 (moved tid c ph ph' s' x).
Proof.
  intros Hc0 Hn Hci Htid He. pose proof (count_inv_nowrap n s0 x Hc0 Hn Hci) as Hw.
  destruct Hci as [Ht Hr Hx]. pose proof psa_id_bounds as Hb. unfold counter_ok in Hc0.
  assert (Hin : tid ∈ exceeded (threads x) <-> ph = Exceeded).
  { rewrite elem_of_exceeded, Htid. naive_solver. }
  assert (Hth : forall u, is_Some (<[tid := (c, ph')]> (threads x) !! u) -> u < n).
  { intros u [p [[<- _]|[_ Hp]]%lookup_insert_Some]; apply Ht; by eexists. }
  destruct (effect_counter _ _ _ _ _ He) as [(-> & Hc & Hex)|[(-> & Hc & Hex)|(Hne & Hc & Hex)]];
    (split; [exact Hth| |]); unfold moved; cbn [shared threads]; rewrite exceeded_insert, Hex.
  - rewrite Hc, Hw in *. destruct (Z.ltb_spec PSA_KEY_ID_USER_MAX (id_counter (shared x) + 1)).
    + rewrite size_union by set_solver. rewrite size_singleton. lia.
    + rewrite difference_disjoint_L by set_solver. lia.
  - rewrite Hc, Hw in *. destruct (Z.ltb_spec PSA_KEY_ID_USER_MAX (id_counter (shared x) + 1)); [lia|].
    rewrite difference_disjoint_L by set_solver. intros Hne. specialize (Hx Hne). lia.
  - rewrite Hc. lia.
  - rewrite Hc. lia.
  - rewrite Hc, difference_disjoint_L by set_solver. lia.
  - rewrite Hc, difference_disjoint_L by set_solver. done.
Qed.

Lemma effect_stored t ph s ph' s' id u :
  effect t ph s ph' s' -> stored s' id u -> stored s id u \/ (phase_id ph = Some id /\ u = t).
Proof.
  assert (Hsame : forall s s', view s' = view s -> stored s' id u -> stored s id u).
  { unfold stored. by intros s1 s2 ->. }
  assert (Hins : forall s s' i id', view s' = <[t := i]> (view s) -> key_id_of i = Some id' ->
    stored s' id u -> stored s id u \/ (Some id' = Some id /\ u = t)).
  { intros s1 s2 i id' Hv Hi (j & Hj & Hp & Hid). rewrite Hv in Hj.
    apply lookup_insert_Some in Hj as [[<- <-]|[_ Hj]]; [right; split; congruence|left; by exists j]. }
  intros He Hst. destruct He; unfold same in *; destruct_and?; eauto.
  destruct Hst as (j & Hj & Hp & Hid). left. exists j. split_and!; [|done|done].
  match goal with Hv : view _ = delete _ _ |- _ => rewrite Hv in Hj end.
  by apply lookup_delete_Some in Hj as [_ Hj].
Qed.

Lemma effect_phase t ph s ph' s' id :
  effect t ph s ph' s' -> (forall i k, ph = Made i k -> k = i) -> phase_id ph' = Some id ->
  phase_id ph = Some id \/ stored s id t \/
  (ph = Checked /\ ph' = HaveId id /\ id = id_counter s' /\ (id <= PSA_KEY_ID_USER_MAX)%Z).
Proof.
  intros He Hm Hid. destruct He; simpl in *; simplify_eq; auto.
  - revert Hid. destruct (Z.ltb_spec PSA_KEY_ID_USER_MAX (id_counter s')); simpl; [done|].
    intros [= <-]. auto 10.
  - left. f_equal. symmetry. by apply Hm.
  - left. f_equal. symmetry. by apply Hm.
Qed.

Lemma effect_draw t s id s' :
  effect t Checked s (HaveId id) s' ->
  id = id_counter s' /\ id_counter s' = u32_wrap (id_counter s + 1) /\
  (id <= PSA_KEY_ID_USER_MAX)%Z.
Proof.
  intros He. inversion He. subst.
  match goal with Heq : (if _ then _ else _) = HaveId id |- _ => revert Heq end. destruct (Z.ltb_spec PSA_KEY_ID_USER_MAX (id_counter s')); [done|].
  by intros [= <-].
Qed.

Lemma events_cases c ph ph' e : e ∈ events c ph ph' ->
  (exists id, e = Touched id (call_triple c) /\ phase_id ph = Some id) \/
  (exists id, e = Drew id (call_triple c) /\ ph = Checked /\ ph' = HaveId id) \/
  e = Erased (call_triple c).
Proof.
  unfold events. destruct ph, ph'; try destruct (c.2); simpl;
    rewrite ?list_elem_of_singleton; intros Hin; try (by apply not_elem_of_nil in Hin); subst; eauto 10.
Qed.

Lemma drawn_events c ph ph' : drawn (events c ph ph') =
  match ph, ph' with Checked, HaveId id => [(id, call_triple c)] | _, _ => [] end.
Proof. unfold events. by destruct ph, ph'; try destruct (c.2). Qed.

Lemma name_inv_move n s0 tid c ph ph' s' x :
  counter_ok s0 -> (Z.of_nat n <= 2 ^ 30)%Z -> count_inv n s0 x ->
  name_inv s0 x -> threads x !! tid = Some (c, ph) ->
  effect (call_triple c) ph (shared x) ph' s' -> name_inv s0 (moved tid c ph ph' s' x).
Proof.
  intros Hc0 Hn Hci [Hd Hnd Hst Hph Htc Hmd Hp] Htid He.
  pose proof (count_inv_move n s0 tid c ph ph' s' x Hc0 Hn Hci Htid He) as Hci'.
  pose proof (ci_range _ _ _ Hci) as Hr. pose proof (ci_range _ _ _ Hci') as Hr'. simpl in Hr'.
  assert (Hsub : forall id t, belongs s0 (history x) id t ->
    belongs s0 (history (moved tid c ph ph' s' x)) id t).
  { intros id t [Hb|Hb]; [by left|right]. simpl. apply elem_of_app. by left. }
  pose proof (count_inv_nowrap n s0 x Hc0 Hn Hci) as Hw.
  assert (Hdraw : forall id, ph = Checked -> ph' = HaveId id ->
    (id_counter (shared x) < id <= PSA_KEY_ID_USER_MAX)%Z /\ id = id_counter s').
  { intros id -> ->. destruct (effect_draw _ _ _ _ He) as (-> & Hc & Hmax). rewrite Hw in Hc. lia. }
  assert (Hmono : forall id t, Drew id t ∈ history x -> (id <= id_counter s')%Z).
  { intros id t Hin. destruct (Hd id t Hin) as [? Hle].
    destruct (effect_counter _ _ _ _ _ He) as [(_ & Hc & _)|[(_ & Hc & _)|(_ & Hc & _)]];
      rewrite ?Hw in Hc; lia. }
  split; simpl.
  - intros id t [Hin|Hin]%elem_of_app; [split; [exact (proj1 (Hd id t Hin))|by eapply Hmono]|].
    destruct (events_cases _ _ _ _ Hin) as [(id' & [= ? ?] & _)|[(id' & [= -> ->] & H1' & H2')|[=]]].
    destruct (Hdraw id' H1' H2') as [? ->]. lia.
  - unfold drawn. rewrite omap_app. fold (drawn (history x)). fold (drawn (events c ph ph')).
    rewrite drawn_events. rewrite fmap_app. destruct ph; try (by rewrite app_nil_r).
    destruct ph'; try (by rewrite app_nil_r). simpl. apply NoDup_app. split_and!; [done| |apply NoDup_singleton].
    intros i [[i' t] [-> Hi]]%list_elem_of_fmap Heq%list_elem_of_singleton. simpl in Heq. subst i'.
    apply elem_of_drawn, Hd in Hi. destruct (Hdraw _ eq_refl eq_refl). lia.
  - intros id t Hs. apply Hsub. destruct (effect_stored _ _ _ _ _ id t He Hs) as [?|[Hi ->]]; [by apply Hst|].
    by eapply Hph.
  - intros u c' p id [[<- [= <- <-]]|[_ Hu]]%lookup_insert_Some Hi; [|by eapply Hsub, Hph].
    destruct (effect_phase _ _ _ _ _ id He) as [?|[?|(-> & -> & _)]]; [intros i k ->; by eapply Hmd|done|..].
    + by eapply Hsub, Hph.
    + by apply Hsub, Hst.
    + right. simpl. apply elem_of_app. right. by left.
  - intros id t [Hin|Hin]%elem_of_app; [by apply Hsub, Htc|].
    destruct (events_cases _ _ _ _ Hin) as [(id' & [= -> ->] & Hi)|[(id' & [=] & _)|[=]]]. by eapply Hsub, Hph.
  - intros u c' id key [[<- [= <- ->]]|[_ Hu]]%lookup_insert_Some; [|by eapply Hmd].
    inversion He; subst; try done. by destruct (_ <? _)%Z.
  - intros u c' [[<- [= <- ->]]|[_ Hu]]%lookup_insert_Some; [|by eapply Hp].
    inversion He; subst; try done. by destruct (_ <? _)%Z.
Qed.

Record pool_inv (n : nat) (s0 : W) x : Prop := {
  pi_lock : lock_inv x;
  pi_count : count_inv n s0 x;
  pi_name : name_inv s0 x;
}.

Lemma pool_inv_arrive n s0 tid c x :
  tid < n -> free_thread x tid -> pool_inv n s0 x -> pool_inv n s0 (arrive tid c x).
Proof.
  intros Htid Hfree [[Hh Hd] [Ht Hr Hx] [Hdr Hnd Hst Hph Htc Hmd Hp]].
  assert (Hex : exceeded (threads (arrive tid c x)) = exceeded (threads x)).
  { simpl. rewrite exceeded_insert. simpl. apply difference_disjoint_L.
    apply disjoint_singleton_r. intros [c' Hc']%elem_of_exceeded. by apply Hfree in Hc'. }
  split; split; rewrite ?Hex; simpl; try done.
  - intros u c' ph [[<- [= <- <-]]|[_ Hu]]%lookup_insert_Some; [done|by eapply Hh].
  - intros u Hu. destruct (Hd u Hu) as (c' & ph & Hc' & Hm). exists c', ph. split; [|done].
    rewrite lookup_insert_ne; [done|]. intros <-. apply Hfree in Hc'. by destruct ph.
  - intros u [p [[<- _]|[_ Hp']]%lookup_insert_Some]; [done|apply Ht; by eexists].
  - intros u c' ph id [[<- [= <- <-]]|[_ Hu]]%lookup_insert_Some; [done|by eapply Hph].
  - intros u c' id key [[<- [=]]|[_ Hu]]%lookup_insert_Some. by eapply Hmd.
  - intros u c' [[<- [=]]|[_ Hu]]%lookup_insert_Some. by eapply Hp.
Qed.

Lemma pool_step_inv n s0 x y :
  counter_ok s0 -> (Z.of_nat n <= 2 ^ 30)%Z ->
  pool_inv n s0 x -> pool_step n x y -> pool_inv n s0 y.
Proof.
  intros Hc0 Hn Hinv Hstep. revert Hinv.
  destruct Hstep as [x' y' [tid x'' y'' Hw]|tid c x' Htid Hfree]; [|by apply pool_inv_arrive].
  intros Hinv.
  destruct (work_cases _ _ _ Hw) as (c & ph & ph' & s' & Ht & Hl & He & _ & _ & ->).
  destruct Hinv as [Hli Hci Hni].
  split; [by apply lock_inv_move|by apply count_inv_move|by eapply name_inv_move].
Qed.

Lemma pool_run_inv n s0 x :
  mbed_ok s0 -> (Z.of_nat n <= 2 ^ 30)%Z -> rtc (pool_step n) (idle s0) x -> pool_inv n s0 x.
Proof.
  intros Hok Hn Hrun. pose proof (mo_counter _ Hok) as Hc0.
  assert (H0' : pool_inv n s0 (idle s0)).
  { unfold counter_ok in Hc0. split; split; simpl; try done.
    - by intros tid [? ?].
    - unfold exceeded. rewrite map_filter_empty, dom_empty_L, size_empty. lia.
    - by intros id t ?%not_elem_of_nil.
    - constructor.
    - by left.
    - by intros id t ?%not_elem_of_nil. }
  remember (idle s0) as x0 eqn:Hx0. clear Hx0.
  induction Hrun as [|x0 x1 x2 Hstep _ IH]; [done|]. eauto using pool_step_inv.
Qed.

Lemma drawn_fun (l : list (Z * KeyTriple)) id t1 t2 :
  NoDup l.*1 -> (id, t1) ∈ l -> (id, t2) ∈ l -> t1 = t2.
Proof.
  induction l as [|[i t] l IH]; simpl; [by intros _ ?%not_elem_of_nil|].
  intros [Hi Hl]%NoDup_cons [[= -> ->]|H1']%elem_of_cons [[= <-]|H2']%elem_of_cons; [done| | |by apply IH].
  - subst. destruct Hi. by apply (list_elem_of_fmap_2 fst) in H2'.
  - subst. destruct Hi. by apply (list_elem_of_fmap_2 fst) in H1'.
Qed.

Lemma belongs_fun s0 x id t1 t2 :
  mbed_ok s0 -> name_inv s0 x ->
  belongs s0 (history x) id t1 -> belongs s0 (history x) id t2 -> t1 = t2.
Proof.
  intros Hok Hni. assert (Hle : forall t, stored s0 id t -> (id <= id_counter s0)%Z).
  { intros t (i & Hi & Hp & Hid). apply (in_use_counter s0); [done|]. by exists t, i. }
  intros [(i1 & Hi1 & Hp1 & Hid1)|H1'] [(i2 & Hi2 & Hp2 & Hid2)|H2'].
  - by apply (mo_distinct s0 Hok t1 t2 i1 i2 id).
  - apply (ni_drew _ _ Hni) in H2' as [? _]. specialize (Hle t1 ltac:(by exists i1)). lia.
  - apply (ni_drew _ _ Hni) in H1' as [? _]. specialize (Hle t2 ltac:(by exists i2)). lia.
  - apply elem_of_drawn in H1', H2'. eapply drawn_fun; [apply Hni|done|done].
Qed.

(** The identifier concerns the key: it was or is stored for it, was drawn for it,
    or the library was called with it on its behalf. *)
Definition concerns (s0 : W) x id t : Prop :=
  stored s0 id t \/ stored (shared x) id t \/ Drew id t ∈ history x \/ Touched id t ∈ history x.

(** C16: However requests are interleaved, and whatever fails: no identifier is
    drawn twice, all are new and within range, an identifier is only ever that of
    one key of one application, in the mapping and in every call of the library,
    and no thread panics.  So no thread ever works on the key of another name or
    of another application, also when requests for one name race. *)
Theorem threads_no_confusion n s0 x :
  mbed_ok s0 -> (Z.of_nat n <= 2 ^ 30)%Z -> rtc (pool_step n) (idle s0) x ->
  NoDup (drawn (history x)).*1 /\
  (forall id t, Drew id t ∈ history x -> (id_counter s0 < id <= PSA_KEY_ID_USER_MAX)%Z) /\
  (forall id t1 t2, concerns s0 x id t1 -> concerns s0 x id t2 -> t1 = t2) /\
  (forall tid c, threads x !! tid <> Some (c, Done Panic)).
Proof.
  intros Hok Hn Hrun. destruct (pool_run_inv n s0 x Hok Hn Hrun) as [_ _ Hni].
  split_and!; [apply Hni|by intros id t [? _]%(ni_drew _ _ Hni)| |apply (ni_panic _ _ Hni)].
  assert (Hc : forall id t, concerns s0 x id t -> belongs s0 (history x) id t).
  { intros id t [?|[?|[?|?]]]; [by left|by apply (ni_stored _ _ Hni)|by right|by apply (ni_touched _ _ Hni)]. }
  intros id t1 t2 H1'%Hc H2'%Hc. by eapply belongs_fun.
Qed.

(** ** Keys of different names in parallel *)

(** No two requests in progress create the same key. *)
Definition no_create_race x : Prop :=
  forall u1 u2 c1 c2 ph1 ph2,
    threads x !! u1 = Some (c1, ph1) -> threads x !! u2 = Some (c2, ph2) ->
    is_creating c1 = true -> is_creating c2 = true ->
    is_done ph1 = false -> is_done ph2 = false -> call_triple c1 = call_triple c2 -> u1 = u2.

(** The identifier of a key that is being created. *)
Definition pending (ph : phase) : option Z :=
  match ph with HaveId id | Made id _ | Undo id _ => Some id | _ => None end.
Definition found (ph : phase) : option Z :=
  match ph with Found id | Removed id => Some id | _ => None end.
Definition past_check (ph : phase) : bool :=
  match ph with Checked | HaveId _ | Made _ _ | Undo _ _ => true | _ => false end.

(** Stored identifiers are of keys in the library; keys being created have names
    that are free and identifiers nobody else knows; keys being destroyed are not
    stored any more. *)
Record key_inv x : Prop := {
  k_creating u c ph : threads x !! u = Some (c, ph) -> creating_phase ph = true -> is_creating c = true;
  k_alive id t : stored (shared x) id t -> id ∈ keys (shared x);
  k_free u c ph : threads x !! u = Some (c, ph) -> past_check ph = true ->
    view (shared x) !! call_triple c = None;
  k_made u c id key : threads x !! u = Some (c, Made id key) -> id ∈ keys (shared x);
  k_unique u1 u2 c1 c2 ph1 ph2 id : threads x !! u1 = Some (c1, ph1) -> threads x !! u2 = Some (c2, ph2) ->
    pending ph1 = Some id -> pending ph2 = Some id -> u1 = u2;
  k_stored u c ph id t : threads x !! u = Some (c, ph) -> pending ph = Some id ->
    ~ stored (shared x) id t;
  k_found u1 u2 c1 c2 ph1 ph2 id : threads x !! u1 = Some (c1, ph1) -> threads x !! u2 = Some (c2, ph2) ->
    pending ph1 = Some id -> found ph2 <> Some id;
  k_removed u c id t : threads x !! u = Some (c, Removed id) -> ~ stored (shared x) id t;
  k_readable t i : view (shared x) !! t = Some i -> kt_provider_id t = MbedCrypto ->
    is_Some (key_id_of i);
  k_done u c r : threads x !! u = Some (c, Done (Ok r)) -> is_creating c = true ->
    is_Some (view (shared x) !! call_triple c) \/ Erased (call_triple c) ∈ history x;
}.

(** A block of thread [tid] from such a state. *)
Record moving n (s0 : W) x tid c ph ph' s' : Prop := {
  mv_start : mbed_ok s0;
  mv_size : (Z.of_nat n <= 2 ^ 30)%Z;
  mv_pool : pool_inv n s0 x;
  mv_key : key_inv x;
  mv_race : no_create_race x;
  mv_thread : threads x !! tid = Some (c, ph);
  mv_locks : locks c ph = true -> mutex x = None;
  mv_effect : effect (call_triple c) ph (shared x) ph' s';
  mv_creating : creating_phase ph' = true -> is_creating c = true;
  mv_done r : ph' = Done (Ok r) -> is_creating c = true -> exists id key, ph = Made id key;
}.

(** Identifiers that belong to a key are at most the counter. *)
Lemma belongs_counter n s0 x id t :
  mbed_ok s0 -> pool_inv n s0 x ->
  belongs s0 (history x) id t -> (id <= id_counter (shared x))%Z.
Proof.
  intros Hok Hp. pose proof (ci_range _ _ _ (pi_count _ _ _ Hp)).
  intros [(i & Hi & Hpr & Hid)|Hd]; [|by apply (ni_drew _ _ (pi_name _ _ _ Hp)) in Hd as [_ ?]].
  assert (id <= id_counter s0)%Z; [|lia].
  apply (in_use_counter s0); [done|]. by exists t, i.
Qed.

Section Moving.
Context n s0 x tid c ph ph' s' (Hm : moving n s0 x tid c ph ph' s').
Let Hk := mv_key _ _ _ _ _ _ _ _ Hm.
Let Hp := mv_pool _ _ _ _ _ _ _ _ Hm.

Lemma move_view :
  view s' = view (shared x) \/
  (exists id key i r, ph = Made id key /\ ph' = Done (Ok r) /\ key_id_of i = Some id /\
     view s' = <[call_triple c := i]> (view (shared x))) \/
  (exists id, ph = Found id /\ ph' = Removed id /\ view s' = delete (call_triple c) (view (shared x))).
Proof.
  pose proof (k_free _ Hk tid c ph (mv_thread _ _ _ _ _ _ _ _ Hm)) as Hf.
  destruct (mv_effect _ _ _ _ _ _ _ _ Hm) as [? ? [? _]|? ? ? [? _]|? ? ? ? [? _]| | | | |? ? ? ? ? [? _]|? ? ? ? ? ? ? [? ?]| | |];
    eauto 10.
  rewrite Hf in *; done.
Qed.

Lemma move_keys :
  keys (shared x) ⊆ keys s' \/
  (exists id, ((exists e, ph = Undo id e) \/ ph = Removed id) /\ view s' = view (shared x) /\
     keys (shared x) ∖ {[id]} ⊆ keys s').
Proof.
  destruct (mv_effect _ _ _ _ _ _ _ _ Hm); unfold same in *; destruct_and?; eauto 10;
    left; set_solver.
Qed.

Lemma move_pending id :
  pending ph' = Some id ->
  pending ph = Some id \/ (ph = Checked /\ forall t, ~ belongs s0 (history x) id t).
Proof.
  intros Hid. pose proof (mv_effect _ _ _ _ _ _ _ _ Hm) as He.
  assert (Hmade : forall i k, ph = Made i k -> k = i).
  { intros i k ->. eapply (ni_made _ _ (pi_name _ _ _ Hp)), Hm. }
  pose proof (fun id t => belongs_counter n s0 x id t (mv_start _ _ _ _ _ _ _ _ Hm) Hp) as Hbc.
  assert (Hw : u32_wrap (id_counter (shared x) + 1) = (id_counter (shared x) + 1)%Z).
  { eapply count_inv_nowrap; [apply mo_counter, Hm|apply Hm|apply Hp]. }
  destruct He as [| | |s1 s2 _ _ Hc|? ? ? ? ?|? ? id' ? ? ?| |? ? id' key ? ?|? ? id' key| | |];
    simpl in *; try discriminate Hid.
  - right. split; [done|]. intros t Hb%Hbc. revert Hid.
    destruct (_ <? _)%Z; intros [= <-]. rewrite Hc, Hw in Hb. lia.
  - by left.
  - left. by rewrite <- Hid, (Hmade _ _ eq_refl).
  - left. by rewrite <- Hid, (Hmade _ _ eq_refl).
Qed.

Lemma move_found id :
  found ph' = Some id -> found ph = Some id \/ exists t, stored (shared x) id t.
Proof.
  pose proof (mv_effect _ _ _ _ _ _ _ _ Hm) as He. destruct He; simpl; try done; intros Hid.
  - right. simplify_eq. by eexists.
  - by destruct (_ <? _)%Z.
  - by left.
Qed.

Lemma move_stored id t :
  stored s' id t -> stored (shared x) id t \/ exists key r, ph = Made id key /\ ph' = Done (Ok r).
Proof.
  intros (i & Hi & Hpr & Hid). unfold stored.
  destruct move_view as [Hv|[(id' & key & j & r & -> & -> & Hj & Hv)|(id' & _ & _ & Hv)]]; rewrite Hv in Hi.
  - left. by exists i.
  - apply lookup_insert_Some in Hi as [[_ <-]|[_ Hi]]; [|left; by exists i].
    right. exists key, r. split; congruence.
  - apply lookup_delete_Some in Hi as [_ Hi]. left. by exists i.
Qed.

Lemma move_past_check :
  past_check ph' = true -> view s' = view (shared x) /\ view (shared x) !! call_triple c = None.
Proof.
  intros Hpc. split.
  - destruct move_view as [Hv|[(? & ? & ? & ? & _ & Hd & _)|(? & _ & Hd & _)]]; [done|..];
      by rewrite Hd in Hpc.
  - pose proof (k_free _ Hk tid c ph (mv_thread _ _ _ _ _ _ _ _ Hm)) as Hf.
    destruct (mv_effect _ _ _ _ _ _ _ _ Hm); try done; by apply Hf.
Qed.

Lemma move_made id key : ph' = Made id key -> id ∈ keys s'.
Proof.
  intros Heq. pose proof (mv_effect _ _ _ _ _ _ _ _ Hm) as He. rewrite Heq in He.
  inversion He; [by destruct (_ <? _)%Z|set_solver].
Qed.

Lemma pending_belongs u c1 ph1 id :
  threads x !! u = Some (c1, ph1) -> pending ph1 = Some id \/ found ph1 = Some id ->
  belongs s0 (history x) id (call_triple c1).
Proof. intros Hu Hid. eapply (ni_phase _ _ (pi_name _ _ _ Hp)); [done|]. by destruct ph1, Hid. Qed.

(** What the other threads keep to themselves. *)
Let Ht := mv_thread _ _ _ _ _ _ _ _ Hm.

Lemma move_unique u1 u2 c1 c2 ph1 ph2 id :
  <[tid := (c, ph')]> (threads x) !! u1 = Some (c1, ph1) ->
  <[tid := (c, ph')]> (threads x) !! u2 = Some (c2, ph2) ->
  pending ph1 = Some id -> pending ph2 = Some id -> u1 = u2.
Proof.
  assert (Hone : forall u c1 ph1, threads x !! u = Some (c1, ph1) -> pending ph' = Some id ->
    pending ph1 = Some id -> tid = u).
  { intros u c' p' Hu [Hi|[_ Hi]]%move_pending Hj; [by eapply (k_unique _ Hk)|].
    destruct (Hi (call_triple c')). by eapply pending_belongs; [|left]. }
  intros [[<- [= <- <-]]|[_ H1']]%lookup_insert_Some [[<- [= <- <-]]|[_ H2']]%lookup_insert_Some Hi Hj;
    [done|by eapply Hone|symmetry; by eapply Hone|by eapply (k_unique _ Hk)].
Qed.

Lemma move_not_stored u c1 ph1 id t :
  <[tid := (c, ph')]> (threads x) !! u = Some (c1, ph1) -> pending ph1 = Some id -> ~ stored s' id t.
Proof.
  intros [[<- [= <- <-]]|[Hne Hu]]%lookup_insert_Some Hi [Hs|(key & r & Hph & Hph')]%move_stored.
  - destruct (move_pending id Hi) as [Hj|[_ Hj]]; [by eapply (k_stored _ Hk)|].
    apply (Hj t). by apply (ni_stored _ _ (pi_name _ _ _ Hp)).
  - by rewrite Hph' in Hi.
  - by eapply (k_stored _ Hk).
  - apply Hne. eapply (k_unique _ Hk); [exact Ht|exact Hu| |exact Hi]. by rewrite Hph.
Qed.

Lemma move_not_found u1 u2 c1 c2 ph1 ph2 id :
  <[tid := (c, ph')]> (threads x) !! u1 = Some (c1, ph1) ->
  <[tid := (c, ph')]> (threads x) !! u2 = Some (c2, ph2) ->
  pending ph1 = Some id -> found ph2 <> Some id.
Proof.
  intros [[<- [= <- <-]]|[_ H1']]%lookup_insert_Some [[<- [= <- <-]]|[_ H2']]%lookup_insert_Some Hi Hj.
  - by destruct ph'.
  - destruct (move_pending id Hi) as [Hi'|[_ Hi']]; [by apply (k_found _ Hk tid u2 c c2 ph ph2 id)|].
    apply (Hi' (call_triple c2)). by eapply pending_belongs; [|right].
  - destruct (move_found id Hj) as [Hj'|[t Hj']];
      [by apply (k_found _ Hk u1 tid c1 c ph1 ph id)|by apply (k_stored _ Hk u1 c1 ph1 id t)].
  - by apply (k_found _ Hk u1 u2 c1 c2 ph1 ph2 id).
Qed.

Lemma move_not_removed u c1 id t :
  <[tid := (c, ph')]> (threads x) !! u = Some (c1, Removed id) -> ~ stored s' id t.
Proof.
  intros [[<- [= <- Hr]]|[Hne Hu]]%lookup_insert_Some Hst.
  - assert (Hph : found ph = Some id /\ view s' = delete (call_triple c) (view (shared x))).
    { pose proof (mv_effect _ _ _ _ _ _ _ _ Hm) as He. rewrite Hr in He.
      inversion He; [by destruct (_ <? _)%Z|done]. }
    destruct Hph as [Hf Hv], Hst as (i & Hi & Hpr & Hid). rewrite Hv in Hi.
    apply lookup_delete_Some in Hi as [Hne Hi]. apply Hne.
    eapply (belongs_fun s0 x id); [apply Hm|apply Hp| |].
    + eapply pending_belongs; [done|by right].
    + apply (ni_stored _ _ (pi_name _ _ _ Hp)). by exists i.
  - apply move_stored in Hst as [Hst|(key & r & Hph & _)]; [by eapply (k_removed _ Hk)|].
    apply (k_found _ Hk tid u c c1 ph (Removed id) id); try done. by rewrite Hph.
Qed.

Lemma move_readable t i :
  view s' !! t = Some i -> kt_provider_id t = MbedCrypto -> is_Some (key_id_of i).
Proof.
  intros Hi. destruct move_view as [Hv|[(id & key & j & r & _ & _ & Hj & Hv)|(id & _ & _ & Hv)]];
    rewrite Hv in Hi; [by apply (k_readable _ Hk)|..].
  - apply lookup_insert_Some in Hi as [[_ <-]|[_ Hi]]; [by rewrite Hj|by eapply (k_readable _ Hk)].
  - apply lookup_delete_Some in Hi as [_ Hi]. by eapply (k_readable _ Hk).
Qed.

Lemma move_done u c1 r :
  <[tid := (c, ph')]> (threads x) !! u = Some (c1, Done (Ok r)) -> is_creating c1 = true ->
  is_Some (view s' !! call_triple c1) \/ Erased (call_triple c1) ∈ history x ++ events c ph ph'.
Proof.
  intros [[<- [= <- Hd]]|[Hne Hu]]%lookup_insert_Some Hc.
  - left. destruct (mv_done _ _ _ _ _ _ _ _ Hm r Hd Hc) as (id & key & Hmade).
    pose proof (mv_effect _ _ _ _ _ _ _ _ Hm) as He. rewrite Hmade, Hd in He.
    inversion He as [| | | | | |s1 s2 id' key' i r' ? ? Hv| | | | |]; [done|].
    rewrite Hv, lookup_insert_eq. by eexists.
  - destruct (k_done _ Hk u c1 r Hu Hc) as [Hs|Hs]; [|right; apply elem_of_app; by left].
    destruct move_view as [Hv|[(id & key & j & r' & _ & _ & _ & Hv)|(id & Hf & Hr & Hv)]];
      rewrite Hv; [by left|left; by apply lookup_insert_is_Some'; right|].
    destruct (decide (call_triple c = call_triple c1)) as [Heq|Hneq].
    + right. rewrite Hf, Hr, <- Heq. apply elem_of_app. right. by left.
    + left. by rewrite lookup_delete_ne.
Qed.
End Moving.

Lemma key_inv_move n s0 x tid c ph ph' s' :
  moving n s0 x tid c ph ph' s' -> key_inv (moved tid c ph ph' s' x).
Proof.
  intros Hm. pose proof Hm as [Hok Hn [Hli Hci Hni] Hk Hrace Htid Hl He Hcr _]. split; simpl.
  - intros u c1 ph1 [[<- [= <- <-]]|[_ Hu]]%lookup_insert_Some; [done|by eapply (k_creating _ Hk)].
  - intros id t Hst. destruct (move_keys _ _ _ _ _ _ _ _ Hm) as [Hsub|(id' & Hid' & Hv & Hsub)].
    + apply Hsub. destruct (move_stored _ _ _ _ _ _ _ _ Hm id t Hst) as [Hs|(key & r & -> & _)];
        [by eapply (k_alive _ Hk)|by eapply (k_made _ Hk)].
    + assert (Hs : stored (shared x) id t) by (unfold stored in *; by rewrite <- Hv).
      apply Hsub, elem_of_difference. split; [by eapply (k_alive _ Hk)|]. intros ->%elem_of_singleton.
      destruct Hid' as [[e ->]| ->]; [by eapply (k_stored _ Hk)|by eapply (k_removed _ Hk)].
  - intros u c1 ph1 [[<- [= <- <-]]|[Hne Hu]]%lookup_insert_Some Hpc.
    { destruct (move_past_check _ _ _ _ _ _ _ _ Hm Hpc) as [-> ?]. done. }
    pose proof (k_free _ Hk u c1 ph1 Hu Hpc) as Hf.
    destruct (move_view _ _ _ _ _ _ _ _ Hm) as [->|[(id & key & i & r & -> & _ & _ & ->)|(id & _ & _ & ->)]];
      [done| |by apply lookup_delete_None; right].
    rewrite lookup_insert_ne; [done|]. intros Heq. apply Hne.
    eapply Hrace; [exact Htid|exact Hu|by eapply (k_creating _ Hk)| |done|by destruct ph1|done].
    eapply (k_creating _ Hk); [exact Hu|by destruct ph1].
  - intros u c1 id key [[<- [= <- ->]]|[Hne Hu]]%lookup_insert_Some; [by eapply move_made|].
    pose proof (k_made _ Hk u c1 id key Hu) as Hin. pose proof (li_holds _ Hli u c1 _ Hu eq_refl) as Hmu.
    destruct (move_keys _ _ _ _ _ _ _ _ Hm) as [Hsub|(id' & [[e ->]| ->] & _ & _)]; [by apply Hsub|..].
    + pose proof (li_holds _ Hli tid c _ Htid eq_refl). congruence.
    + specialize (Hl eq_refl). congruence.
  - by eapply move_unique.
  - by eapply move_not_stored.
  - by eapply move_not_found.
  - by eapply move_not_removed.
  - by eapply move_readable.
  - by eapply move_done.
Qed.

Lemma key_inv_arrive tid c x : free_thread x tid -> key_inv x -> key_inv (arrive tid c x).
Proof.
  intros Hfree [H1' H2' H3' H4' H5' H6' H7' H8' H9' H10']. split; simpl; [|done|..|done|].
  - intros u c1 ph1 [[<- [= <- <-]]|[_ Hu]]%lookup_insert_Some; [done|eauto].
  - intros u c1 ph1 [[<- [= <- <-]]|[_ Hu]]%lookup_insert_Some; [done|eauto].
  - intros u c1 id key [[<- [=]]|[_ Hu]]%lookup_insert_Some. eauto.
  - intros u1 u2 c1 c2 ph1 ph2 id [[<- [= <- <-]]|[_ Hu1]]%lookup_insert_Some; [done|].
    intros [[<- [= <- <-]]|[_ Hu2]]%lookup_insert_Some; [done|eauto].
  - intros u c1 ph1 id t [[<- [= <- <-]]|[_ Hu]]%lookup_insert_Some; [done|eauto].
  - intros u1 u2 c1 c2 ph1 ph2 id [[<- [= <- <-]]|[_ Hu1]]%lookup_insert_Some; [done|].
    intros [[<- [= <- <-]]|[_ Hu2]]%lookup_insert_Some; [done|eauto].
  - intros u c1 id t [[<- [=]]|[_ Hu]]%lookup_insert_Some. eauto.
  - intros u c1 r [[<- [=]]|[_ Hu]]%lookup_insert_Some. eauto.
Qed.

(** A step in a run in which no two requests in progress create the same key. *)
Definition calm_step n x y : Prop := no_create_race x /\ pool_step n x y.

Lemma calm_step_inv n s0 x y :
  mbed_ok s0 -> (Z.of_nat n <= 2 ^ 30)%Z -> pool_inv n s0 x /\ key_inv x -> calm_step n x y ->
  pool_inv n s0 y /\ key_inv y.
Proof.
  intros Hok Hn [Hp Hk] [Hr Hstep]. split; [eapply pool_step_inv; try done; by apply mo_counter|].
  revert Hp Hk Hr. destruct Hstep as [x' y' [tid x'' y'' Hw]|tid c x' Htid Hfree]; intros;
    [|by apply key_inv_arrive].
  destruct (work_cases _ _ _ Hw) as (c & ph & ph' & s' & Ht & Hl & He & Hc & Hd & ->).
  by eapply key_inv_move.
Qed.

(** C17: Requests of any kind can run in parallel, as long as no two of them create
    the same key at the same time.  In every state that they reach each mapping is
    of a key the library holds and no two are of the same; a key whose creation
    succeeded is mapped, unless its mapping was removed; and the provider's
    invariant holds whenever no thread is about to set the counter back. *)
Theorem parallel_calls_safe n s0 x :
  mbed_ok s0 -> (Z.of_nat n <= 2 ^ 30)%Z -> rtc (calm_step n) (idle s0) x ->
  (forall t i, view (shared x) !! t = Some i -> kt_provider_id t = MbedCrypto ->
     exists id, key_id_of i = Some id /\ id ∈ keys (shared x)) /\
  ids_distinct (view (shared x)) /\
  (forall u c r, threads x !! u = Some (c, Done (Ok r)) -> is_creating c = true ->
     is_Some (view (shared x) !! call_triple c) \/ Erased (call_triple c) ∈ history x) /\
  ((forall u c, threads x !! u <> Some (c, Exceeded)) -> mbed_ok (shared x)).
Proof.
  intros Hok Hn Hrun.
  assert (Hinv : pool_inv n s0 x /\ key_inv x).
  { assert (H0' : pool_inv n s0 (idle s0) /\ key_inv (idle s0)).
    { split; [apply pool_run_inv; [done|done|apply rtc_refl]|]. split; try done.
      - intros id t (i & Hi & Hp & Hid). simpl in *.
        destruct (mo_ids s0 Hok t i Hi Hp) as (id' & ? & ? & _). by simplify_eq.
      - intros t i Hi Hp. destruct (mo_ids s0 Hok t i Hi Hp) as (id' & ? & _). by eexists. }
    remember (idle s0) as x0 eqn:Hx0. clear Hx0.
    induction Hrun as [|x0 x1 x2 Hstep _ IH]; [done|]. eauto using calm_step_inv. }
  destruct Hinv as [Hp Hk]. pose proof (pi_name _ _ _ Hp) as Hni.
  assert (Hids : forall t i, view (shared x) !! t = Some i -> kt_provider_id t = MbedCrypto ->
    exists id, key_id_of i = Some id /\ id ∈ keys (shared x) /\ (id <= id_counter (shared x))%Z).
  { intros t i Hi Hpr. destruct (k_readable _ Hk t i Hi Hpr) as [id Hid]. exists id.
    assert (Hst : stored (shared x) id t) by (by exists i).
    split_and!; [done|by eapply (k_alive _ Hk)|].
    eapply belongs_counter; [done|done|by apply (ni_stored _ _ Hni)]. }
  assert (Hdist : ids_distinct (view (shared x))).
  { intros t1 t2 i1 i2 id Hi1 Hi2 Hp1 Hp2 Hd1 Hd2.
    eapply (belongs_fun s0 x id); try done; apply (ni_stored _ _ Hni); [by exists i1|by exists i2]. }
  split_and!; [|done|apply (k_done _ Hk)|].
  - intros t i Hi Hpr. destruct (Hids t i Hi Hpr) as (id & ? & ? & _). by exists id.
  - intros Hex. split; [|done|done]. pose proof (mo_counter _ Hok) as Hc0. unfold counter_ok in *.
    pose proof (ci_range _ _ _ (pi_count _ _ _ Hp)) as Hr.
    assert (Hempty : exceeded (threads x) = ∅).
    { apply set_eq. intros u. rewrite elem_of_exceeded. split; [|set_solver].
      intros [c Hc]. by apply Hex in Hc. }
    rewrite Hempty, size_empty in Hr. lia.
Qed.

(** ** Every request ends *)
Definition blocks_left (ph : phase) : nat :=
  match ph with
  | Start => 5 | Checked => 4 | HaveId _ => 3 | Made _ _ | Found _ => 2
  | Undo _ _ | Exceeded | Removed _ => 1 | Done _ => 0
  end.
Definition work_left (m : gmap nat (call * phase)) : nat :=
  map_fold (fun _ p n => blocks_left p.2 + n) 0 m.

Lemma work_left_delete m tid c ph :
  m !! tid = Some (c, ph) -> work_left m = blocks_left ph + work_left (delete tid m).
Proof.
  intros Hm. unfold work_left. rewrite (map_fold_delete_L _ _ tid (c, ph) m); [done| |done].
  intros. lia.
Qed.

Lemma work_left_bound (m : gmap nat (call * phase)) : work_left m <= 5 * size m.
Proof.
  induction m as [|u [c ph] m Hu IH] using map_ind; [done|].
  rewrite (work_left_delete _ u c ph) by apply lookup_insert_eq.
  rewrite delete_insert_id by done. rewrite map_size_insert_None by done.
  assert (blocks_left ph <= 5) by (destruct ph; simpl; lia). lia.
Qed.

Lemma effect_blocks t ph s ph' s' : effect t ph s ph' s' -> blocks_left ph' < blocks_left ph.
Proof.
  destruct 1 as [| |ph ? ? ? ? Hend| | | | | | | | |]; simpl; try lia; [by destruct ph; simpl; try lia|].
  destruct (_ <? _)%Z; simpl; lia.
Qed.

Lemma work_step_left x y :
  work_step x y -> work_left (threads y) < work_left (threads x) /\ size (threads y) = size (threads x).
Proof.
  intros [tid x' y' Hw]. destruct (work_cases _ _ _ Hw) as (c & ph & ph' & s' & Ht & _ & He & _ & _ & ->).
  simpl. split; [|by rewrite map_size_insert_Some].
  rewrite (work_left_delete _ tid c ph' (lookup_insert_eq _ _ _)), (work_left_delete _ tid c ph Ht).
  rewrite delete_insert_eq. apply effect_blocks in He. lia.
Qed.

(** Every thread that is not done has a next block. *)
Definition fits c ph : Prop := is_done ph = true \/ is_Some (advance c ph).

Lemma advance_fits c ph m s ph' s' :
  advance c ph = Some m -> m s = (ph', s') -> fits c ph'.
Proof.
  unfold fits, MbedThreads.advance.
  destruct ph, (kind_of (K := K) (B := B) c.2); intros Ha; try discriminate Ha; injection Ha as <-;
    unfold block; intros Hm; repeat (case_match; simplify_eq); simpl; eauto.
Qed.

Lemma pool_run_fits n s0 x u c ph :
  rtc (pool_step n) (idle s0) x -> threads x !! u = Some (c, ph) -> fits c ph.
Proof.
  intros Hrun. revert u c ph.
  refine (rtc_ind_r (fun x => forall u c ph, threads x !! u = Some (c, ph) -> fits c ph)
    (idle s0) _ _ x Hrun); [done|]. clear x Hrun. intros x y _ Hstep. revert x y Hstep.
  intros _ _ [_ _ [tid x y Hw]|tid c' x Htid Hfree] IH.
  - unfold MbedThreads.work in Hw. destruct (threads x !! tid) as [[c ph]|] eqn:Ht; [|done].
    simpl in Hw. destruct (advance c ph) as [m|] eqn:Ha; [|done]. simpl in Hw.
    destruct (locks c ph && _); [done|]. destruct (m (shared x)) as [ph' s'] eqn:Hm.
    injection Hw as <-. simpl. intros u c1 ph1 [[<- [= <- <-]]|[_ Hu]]%lookup_insert_Some; [|by eapply IH].
    by eapply advance_fits.
  - simpl. intros u c1 ph1 [[<- [= <- <-]]|[_ Hu]]%lookup_insert_Some; [|by eapply IH].
    right. unfold MbedThreads.advance. destruct (kind_of c'.2); eauto.
Qed.

Lemma work_enabled u c ph x :
  threads x !! u = Some (c, ph) -> is_Some (advance c ph) -> (locks c ph = true -> mutex x = None) ->
  exists y, work_step x y.
Proof.
  intros Hu [m Hm] Hl. destruct (m (shared x)) as [ph' s'] eqn:Hrun.
  eexists. apply (work_step_intro _ _ _ u). unfold MbedThreads.work. rewrite Hu. simpl.
  rewrite Hm. simpl. rewrite Hrun. destruct (locks c ph) eqn:El; simpl; [|done].
  rewrite Hl by done. simpl. done.
Qed.

(** Threads do not wait for each other for ever: as long as a request is not
    done some thread can go on, and the threads together can run at most five
    blocks for each request. *)
Theorem threads_finish n s0 x :
  mbed_ok s0 -> (Z.of_nat n <= 2 ^ 30)%Z -> rtc (pool_step n) (idle s0) x ->
  (forall k y, nsteps work_step k x y -> k <= 5 * size (threads x)) /\
  (forall u c ph, threads x !! u = Some (c, ph) -> is_done ph = false -> exists y, work_step x y).
Proof.
  intros Hok Hn Hrun. split.
  - intros k y Hk. assert (Hle : k + work_left (threads y) <= work_left (threads x)).
    { clear Hrun. induction Hk as [|k x z y Hxz _ IH]; [lia|].
      destruct (work_step_left x z Hxz). lia. }
    pose proof (work_left_bound (threads x)). lia.
  - intros u c ph Hu Hd. pose proof (pi_lock _ _ _ (pool_run_inv n s0 x Hok Hn Hrun)) as Hli.
    assert (Hfits : forall u c ph, threads x !! u = Some (c, ph) -> is_done ph = false ->
      is_Some (advance c ph)).
    { intros v c1 ph1 Hv Hnd. destruct (pool_run_fits n s0 x v c1 ph1 Hrun Hv); [congruence|done]. }
    destruct (mutex x) as [v|] eqn:Hm.
    + destruct (li_held _ Hli v Hm) as (c1 & ph1 & Hv & Hh).
      eapply (work_enabled v c1 ph1); [done|apply (Hfits v); [done|by destruct ph1]|].
      by destruct ph1.
    + by eapply work_enabled; [|apply (Hfits u)|].
Qed.
End Spec.

(** ** Schedules

    A run given by who acts next. *)
Inductive action := Take (tid : nat) (c : ApplicationName * NativeOperation) | Go (tid : nat).

Section Play.
Context {K B : Type} `{ManageKeyInfo K} `{PsaCrypto B} `{Validate} `{Bincode Z}.
Context (uuid : string -> option string) (limit : Z) (self : Provider).
Implicit Types (x y : pool K B).

Definition is_free x (tid : nat) : bool :=
  match threads x !! tid with Some (_, ph) => is_done ph | None => true end.
Definition act (size : nat) (a : action) x : option (pool K B) :=
  match a with
  | Take tid c => if (tid <? size) && is_free x tid then Some (arrive tid c x) else None
  | Go tid => work uuid limit self tid x
  end.
Fixpoint play (size : nat) (l : list action) x : option (pool K B) :=
  match l with [] => Some x | a :: l => y ← act size a x; play size l y end.

(** No two requests in progress create the same key, as a computation. *)
Definition calm x : bool :=
  let l := map_to_list (threads x) in
  let creates (p : nat * (ApplicationName * NativeOperation * phase)) :=
    is_creating p.2.1 && negb (is_done p.2.2) in
  forallb (fun p => forallb (fun q => negb (creates p && creates q &&
    bool_decide (call_triple p.2.1 = call_triple q.2.1)) || (p.1 =? q.1)) l) l.
Fixpoint play_calm (size : nat) (l : list action) x : option (pool K B) :=
  match l with
  | [] => Some x
  | a :: l => if calm x then y ← act size a x; play_calm size l y else None
  end.

Lemma act_step size a x y : act size a x = Some y -> pool_step uuid limit self size x y.
Proof.
  destruct a as [tid c|tid]; simpl.
  - destruct (Nat.ltb_spec tid size); [|done]. simpl. destruct (is_free x tid) eqn:Hf; [|done].
    intros [= <-]. apply pool_arrive; [done|]. intros c' ph Ht. unfold is_free in Hf. by rewrite Ht in Hf.
  - intros Hw. by apply pool_work, (work_step_intro _ _ _ tid).
Qed.

Lemma play_run size l x y : play size l x = Some y -> rtc (pool_step uuid limit self size) x y.
Proof.
  revert x. induction l as [|a l IH]; intros x; simpl; [by intros [= <-]; apply rtc_refl|].
  destruct (act size a x) as [z|] eqn:Ha; simpl; [|done]. intros Hp.
  eapply rtc_l; [by apply (act_step _ a)|by apply IH].
Qed.

Lemma calm_spec x : calm x = true -> no_create_race x.
Proof.
  unfold calm. rewrite forallb_forall. intros Hc u1 u2 c1 c2 ph1 ph2 H1' H2' Hk1 Hk2 Hd1 Hd2 Heq.
  specialize (Hc (u1, (c1, ph1))). rewrite <- list_elem_of_In, elem_of_map_to_list in Hc.
  specialize (Hc H1'). rewrite forallb_forall in Hc. specialize (Hc (u2, (c2, ph2))).
  rewrite <- list_elem_of_In, elem_of_map_to_list in Hc. specialize (Hc H2'). simpl in Hc.
  rewrite Hk1, Hk2, Hd1, Hd2, bool_decide_eq_true_2 in Hc by done. simpl in Hc.
  by apply Nat.eqb_eq.
Qed.

Lemma play_calm_run size l x y :
  play_calm size l x = Some y -> rtc (calm_step uuid limit self size) x y.
Proof.
  revert x. induction l as [|a l IH]; intros x; simpl; [by intros [= <-]; apply rtc_refl|].
  destruct (calm x) eqn:Hc; [|done]. destruct (act size a x) as [z|] eqn:Ha; simpl; [|done]. intros Hp.
  eapply rtc_l; [split; [by apply calm_spec|by apply (act_step _ a)]|by apply IH].
Qed.
End Play.

(** ** Concrete runs *)
Abbreviation demo_pool := (pool OnDisk library).
Definition gen_call (k : string) : ApplicationName * NativeOperation := (app, PsaGenerateKey (gen k)).
Definition destroy_call (k : string) : ApplicationName * NativeOperation := (app, PsaDestroyKey k).
Definition export_call (k : string) : ApplicationName * NativeOperation := (app, PsaExportPublicKey k).

(** Two keys are generated in parallel; one is then exported by thread 2, which is
    overtaken by thread 0 that destroys it and by thread 1 that generates it anew. *)
Definition busy : list action :=
  [Take 0 (gen_call "k"); Take 1 (gen_call "l"); Go 0; Go 1; Go 1; Go 0; Go 0; Go 0; Go 1; Go 1;
   Take 2 (export_call "k"); Go 2; Take 0 (destroy_call "k"); Go 0; Go 0;
   Take 1 (gen_call "k"); Go 1; Go 1; Go 1; Go 1; Go 0; Go 2].
Definition busy_pool : demo_pool :=
  default (idle world0) (play_calm Some 1024 mbed_self 3 busy (idle world0)).

Example busy_ends :
  (fun p => p.2) <$> threads busy_pool =
    {[ 0 := Done (Ok RPsaDestroyKey); 1 := Done (Ok RPsaGenerateKey);
       2 := Done (Err PsaErrorDoesNotExist) ]} /\
  history busy_pool = [Drew 2 (triple app "l"); Drew 3 (triple app "k"); Touched 3 (triple app "k");
    Touched 2 (triple app "l"); Erased (triple app "k"); Drew 4 (triple app "k");
    Touched 4 (triple app "k"); Touched 3 (triple app "k"); Touched 3 (triple app "k")].
Proof. vm_compute. split; reflexivity. Qed.

Lemma busy_run : play_calm Some 1024 mbed_self 3 busy (idle world0) = Some busy_pool.
Proof. vm_compute. reflexivity. Qed.

Lemma busy_steps : rtc (pool_step Some 1024 mbed_self 3) (idle world0) busy_pool.
Proof.
  eapply rtc_subrel; [|apply (play_calm_run Some 1024 mbed_self 3 busy), busy_run]. by intros x y [_ Hstep].
Qed.

Lemma threads_no_confusion_witness :
  concerns world0 busy_pool 3 (triple app "k") /\
  forall t, concerns world0 busy_pool 3 t -> t = triple app "k".
Proof.
  destruct (threads_no_confusion Some 1024 mbed_self 3 world0 busy_pool) as (_ & _ & Hone & _).
  - apply world0_ok.
  - vm_compute. discriminate.
  - apply busy_steps.
  - assert (Hk : concerns world0 busy_pool 3 (triple app "k")).
    { right. right. left. rewrite (proj2 busy_ends). right. left. }
    split; [exact Hk|]. intros t Ht. apply (Hone 3%Z t (triple app "k") Ht Hk).
Defined.

Lemma parallel_calls_safe_witness : mbed_ok (shared busy_pool).
Proof.
  destruct (parallel_calls_safe Some 1024 mbed_self 3 world0 busy_pool) as (_ & _ & _ & Hok).
  - apply world0_ok.
  - vm_compute. discriminate.
  - apply (play_calm_run Some 1024 mbed_self 3 busy), busy_run.
  - apply Hok. intros u c Hu. apply (f_equal (fmap snd)) in Hu. rewrite <- lookup_fmap in Hu.
    change (fmap snd (threads busy_pool)) with ((fun p => p.2) <$> threads busy_pool) in Hu.
    rewrite (proj1 busy_ends) in Hu.
    destruct u as [|[|[|u]]]; [vm_compute in Hu; discriminate Hu..|].
    rewrite !lookup_insert_ne, lookup_singleton_ne in Hu by lia. discriminate Hu.
Defined.

Lemma threads_finish_witness :
  exists y, work_step Some 1024 mbed_self
    (default (idle world0)
       (play Some 1024 mbed_self 2 [Take 0 (gen_call "k"); Go 0] (idle world0))) y.
Proof.
  set (x := default (idle world0)
    (play Some 1024 mbed_self 2 [Take 0 (gen_call "k"); Go 0] (idle world0))).
  destruct (threads_finish Some 1024 mbed_self 2 world0 x) as [_ Hgo].
  - apply world0_ok.
  - vm_compute. discriminate.
  - apply (play_run Some 1024 mbed_self 2 [Take 0 (gen_call "k"); Go 0]). vm_compute. reflexivity.
  - apply (Hgo 0 (gen_call "k") Checked); vm_compute; reflexivity.
Defined.

(** Both requests check, both take an identifier, then both commit. *)
Definition race : list action :=
  [Take 0 (gen_call "k"); Take 1 (gen_call "k"); Go 0; Go 1; Go 0; Go 1; Go 0; Go 0; Go 1; Go 1; Go 1].
Definition race_pool : demo_pool :=
  default (idle world0) (play Some 1024 mbed_self 2 race (idle world0)).

(** C40: two parallel calls that generate the same name can break the invariant.
    Both pass the check that the name is free; the second insertion overwrites
    the mapping of the first and reports that the key already exists, so the
    second key is destroyed: the name is left mapped to a key that is gone,
    though one of the callers was told that it had been created. *)
Theorem parallel_generate_race :
  exists x, rtc (pool_step Some 1024 mbed_self 2) (idle world0) x /\
    threads x = {[ 0 := (gen_call "k", Done (Ok RPsaGenerateKey));
                   1 := (gen_call "k", Done (Err PsaErrorAlreadyExists)) ]} /\
    ~ mbed_ok (shared x) /\
    (open_key mbed_self app "k" (shared x)).1 = Err PsaErrorDoesNotExist /\
    (psa_generate_key_internal mbed_self app (gen "k") (shared x)).1 =
      Err PsaErrorAlreadyExists.
Proof.
  exists race_pool.
  split_and!; [apply (play_run Some 1024 mbed_self 2 race); vm_compute; reflexivity|vm_compute; reflexivity| |
    vm_compute; reflexivity..].
  intros [_ Hids _]. specialize (Hids (triple app "k")).
  destruct (view (shared race_pool) !! triple app "k") as [i|] eqn:Hi;
    [|vm_compute in Hi; discriminate Hi].
  destruct (Hids i eq_refl eq_refl) as (id & Hid & Hin & _). vm_compute in Hi. injection Hi as <-.
  vm_compute in Hid. injection Hid as <-. revert Hin.
  apply (bool_decide_eq_false_1 (3%Z ∈ keys (shared race_pool))). vm_compute. reflexivity.
Qed.
