(* ===== verification/CryptoAuthLib.v ===== *)
(** * The CryptoAuthLib provider ([src/providers/cryptoauthlib])

    The provider keeps keys in the slots of an ATECC chip.  Which slot holds
    which key is the key info manager's; which slots are free is kept in memory
    ([KeySlotStorage]).  The driver [rust_cryptoauthlib] is outside the
    repository: the class [Atecc] over a device state [D]. *)
From S2P Require Import Prelude RustStd Interface Authenticators KeyInfo Provide.

(** ** Types of [rust_cryptoauthlib] *)
Inductive CalKeyType := P256EccKey | CalAes | ShaOrText | CalKeyType_other.
#[export] Instance CalKeyType_eq_dec : EqDecision CalKeyType.
Proof. solve_decision. Defined.
Inductive WriteConfig := WcEncrypt | WcNever | WcAlways | WcPubInvalid | WriteConfig_other.
#[export] Instance WriteConfig_eq_dec : EqDecision WriteConfig.
Proof. solve_decision. Defined.
Record EccKeyAttr := { is_private : bool; ext_sign : bool }.
(** The fields of [SlotConfig] that the provider reads. *)
Record SlotConfig := { write_config : WriteConfig; cfg_key_type : CalKeyType;
  ecc_key_attr : EccKeyAttr; is_secret : bool; no_mac : bool; pub_info : bool }.
Record AtcaSlot := { slot_id : Z; slot_is_locked : bool; slot_config : SlotConfig }.
Inductive AtcaStatus :=
  AtcaSuccess | AtcaInvalidSize | AtcaInvalidId | AtcaBadParam | AtcaStatus_other (n : Z).
#[export] Instance AtcaStatus_eq_dec : EqDecision AtcaStatus.
Proof. solve_decision. Defined.
Inductive AtcaDeviceType :=
  ATECC508A | ATECC608A | ATECC108A | AtcaTestDevSuccess | AtcaTestDevFail
  | AtcaTestDevFailUnimplemented | AtcaDeviceType_other.
Inductive VerifyMode := VerifyInternal (slot : Z) | VerifyExternal (public_key : bytes).

Class Atecc (D : Type) := {
  ATCA_ATECC_SLOTS_COUNT : Z;
  ATCA_ATECC_MIN_SLOT_IDX_FOR_PUB_KEY : Z;
  ATCA_RANDOM_BUFFER_SIZE : Z;
  ATCA_SIG_SIZE : nat;
  ATCA_SHA2_256_DIGEST_SIZE : nat;
  default_config : SlotConfig;
  slot_is_valid : AtcaSlot -> bool;
  is_configuration_locked : D -> bool;
  get_device_type : D -> AtcaDeviceType;
  get_config : D -> (AtcaStatus * list AtcaSlot) * D;
  add_access_key : Z -> bytes -> D -> AtcaStatus * D;
  gen_key : CalKeyType -> Z -> D -> AtcaStatus * D;
  import_key : CalKeyType -> bytes -> Z -> D -> AtcaStatus * D;
  export_key : CalKeyType -> Z -> D -> (AtcaStatus * bytes) * D;
  get_public_key : Z -> D -> (AtcaStatus * bytes) * D;
  dev_sign_hash : bytes -> Z -> bytes -> D -> (AtcaStatus * bytes) * D;
  dev_verify_hash : VerifyMode -> bytes -> bytes -> D -> result AtcaStatus bool * D;
  dev_sha : bytes -> bytes -> D -> (AtcaStatus * bytes) * D;
  dev_random : D -> (AtcaStatus * bytes) * D;
}.

(** Functions of [psa_crypto] and [parsec_interface] on keys and operations. *)
Class KeyApi := {
  is_public_key : KeyType -> bool;
  is_exportable : Attributes -> bool;
  sha256_hash_length : nat;
  validate_sign_hash : SignHashOp -> Attributes -> Result unit;
  validate_verify_hash : VerifyHashOp -> Attributes -> Result unit;
  validate_sign_message : SignMessageOp -> Attributes -> Result unit;
  validate_verify_message : VerifyMessageOp -> Attributes -> Result unit;
}.

(** ** Slots ([key_slot.rs]) *)
Inductive KeySlotStatus := Free | Busy | Locked.
#[export] Instance KeySlotStatus_eq_dec : EqDecision KeySlotStatus.
Proof. solve_decision. Defined.

Record AteccKeySlot := { ref_count : Z; slot_status : KeySlotStatus; config : SlotConfig }.

Module KeySlot.
Section Slot.
Context {D : Type} `{Atecc D}.
Implicit Types (self : AteccKeySlot) (key_attr : Attributes).

Definition default : AteccKeySlot :=
  {| ref_count := 0; slot_status := Free; config := default_config |}.

Definition has_type self (t : CalKeyType) : bool := bool_decide (cfg_key_type (config self) = t).

Definition is_key_type_ok self (slot : Z) key_attr : bool :=
  match key_type key_attr with
  | RawData => has_type self ShaOrText
  | Hmac => negb (no_mac (config self))
  | Aes => has_type self CalAes
  | EccKeyPair SecpR1 =>
    ((bits key_attr =? 0) || (bits key_attr =? 256))%Z && has_type self P256EccKey &&
    is_private (ecc_key_attr (config self)) && is_secret (config self)
  | EccPublicKey SecpR1 =>
    ((bits key_attr =? 0) || (bits key_attr =? 256))%Z && has_type self P256EccKey &&
    (ATCA_ATECC_MIN_SLOT_IDX_FOR_PUB_KEY <=? slot)%Z
  | Derive | DhKeyPair _ | DhPublicKey _ => false
  | _ => false
  end.

(** Whether the public part of a pair in the slot can be read. *)
Definition pub_readable self : bool :=
  if is_private (ecc_key_attr (config self)) then pub_info (config self) else true.

Definition is_usage_flags_ok self key_attr : bool :=
  let flags := usage_flags (policy key_attr) in
  let result := true in
  let result :=
    if export flags || copy flags then
      result && match key_type key_attr with
                | EccKeyPair _ => has_type self P256EccKey && pub_readable self
                | _ => true
                end
    else result in
  if negb result then result else
  let result :=
    if sign_hash flags || sign_message flags then
      result && has_type self P256EccKey && is_private (ecc_key_attr (config self)) &&
      ext_sign (ecc_key_attr (config self)) &&
      match key_type key_attr with EccKeyPair _ => true | _ => false end
    else result in
  if negb result then result else
  if verify_hash flags || verify_message flags then
    result && has_type self P256EccKey &&
    match key_type key_attr with EccKeyPair _ => pub_readable self | _ => true end
  else result.

Definition is_permitted_algorithms_ok self key_attr (op : option Opcode) : bool :=
  match permitted_algorithms (policy key_attr) with
  | Alg_Hash Sha256 => true
  | Alg_Mac (Mac_Truncated (Hmac_mac Sha256) _)
  | Alg_Mac (Mac_FullLength (Hmac_mac Sha256)) =>
    negb (no_mac (config self)) && negb (has_type self P256EccKey) &&
    negb (is_private (ecc_key_attr (config self)))
  | Alg_Mac (Mac_Truncated CbcMac _) | Alg_Mac (Mac_FullLength CbcMac)
  | Alg_Mac (Mac_Truncated Cmac _) | Alg_Mac (Mac_FullLength Cmac) =>
    negb (no_mac (config self)) && has_type self CalAes
  | Alg_Cipher Cipher_CbcPkcs7 | Alg_Cipher Cipher_Ctr | Alg_Cipher Cipher_Cfb
  | Alg_Cipher Cipher_Ofb => has_type self CalAes
  | Alg_Aead (Aead_WithDefaultLengthTag Ccm) | Alg_Aead (Aead_WithDefaultLengthTag Gcm)
  | Alg_Aead (Aead_WithShortenedTag Ccm _) | Alg_Aead (Aead_WithShortenedTag Gcm _) =>
    has_type self CalAes
  | Alg_AsymmetricSignature (Ecdsa (SignHash_Specific Sha256)) =>
    has_type self P256EccKey &&
    match key_type key_attr with
    | EccKeyPair SecpR1 =>
      is_private (ecc_key_attr (config self)) && ext_sign (ecc_key_attr (config self)) &&
      match op with
      | Some OpPsaImportKey => bool_decide (write_config (config self) = WcEncrypt)
      | Some OpPsaGenerateKey =>
        match write_config (config self) with WcEncrypt | WcNever => true | _ => false end
      | Some _ => false
      | None => true
      end
    | EccPublicKey SecpR1 =>
      match write_config (config self) with WcEncrypt | WcNever | WcAlways => true | _ => false end
    | _ => false
    end
  | Alg_AsymmetricSignature (DeterministicEcdsa (SignHash_Specific Sha256)) => false
  | Alg_AsymmetricEncryption _ => false
  | Alg_KeyAgreement (KeyAgreement_Raw Ecdh)
  | Alg_KeyAgreement (KeyAgreement_WithKeyDerivation Ecdh _) => has_type self P256EccKey
  | _ => false
  end.

Definition key_attr_vs_config self (slot : Z) key_attr (op : option Opcode) : Result unit :=
  if negb (is_key_type_ok self slot key_attr) then Err PsaErrorNotSupported
  else if negb (is_usage_flags_ok self key_attr) then Err PsaErrorNotSupported
  else if negb (is_permitted_algorithms_ok self key_attr op) then Err PsaErrorNotSupported
  else Ok tt.

(** The methods with [&mut self] return the outcome and the slot they leave. *)
Definition set_slot_status (st : KeySlotStatus) self : Result unit * AteccKeySlot :=
  if decide (slot_status self = Locked) then (Err PsaErrorNotPermitted, self)
  else match st with
  | Locked => (Err PsaErrorNotPermitted, self)
  | _ => (Ok tt, {| ref_count := ref_count self; slot_status := st; config := config self |})
  end.

Definition reference_check_and_set self : result unit unit * AteccKeySlot :=
  if (0 <? ref_count self)%Z then (Err tt, self)
  else (Ok tt, {| ref_count := 1; slot_status := slot_status self; config := config self |}).

Definition is_free self : bool := bool_decide (slot_status self = Free).
End Slot.
End KeySlot.

(** ** The slots of the chip ([key_slot_storage.rs])

    The array behind the lock; an index out of range panics. *)
Module KeySlotStorage.
Section Storage.
Context {D : Type} `{Atecc D}.
Abbreviation slots := (list AteccKeySlot).

Definition new : slots := replicate (Z.to_nat ATCA_ATECC_SLOTS_COUNT) KeySlot.default.

Definition at_index {E A} (i : Z) (f : AteccKeySlot -> result E A * AteccKeySlot)
    : ST slots E A := fun s =>
  match s !! Z.to_nat i with
  | Some slot => let '(r, slot') := f slot in (r, <[Z.to_nat i := slot']> s)
  | None => (Panic, s)
  end.

Definition key_validate_and_mark_busy (key_id : Z) (key_attr : Attributes)
    : ST slots string (option string) :=
  r ← attempt (at_index key_id (fun slot =>
        (KeySlot.key_attr_vs_config slot key_id key_attr None, slot)));
  match r with
  | Err _ => raise "ATECC slot configuration mismatch"
  | Panic => panic
  | Ok _ =>
    r ← attempt (at_index key_id KeySlot.reference_check_and_set);
    match r with
    | Err _ => mret (Some "Superfluous reference(s) to ATECC slot")
    | Panic => panic
    | Ok _ =>
      r ← attempt (at_index key_id (KeySlot.set_slot_status Busy));
      match r with
      | Ok _ => mret None
      | Err _ => raise "Unable to set hardware slot status"
      | Panic => panic
      end
    end
  end.

Definition set_hw_config (hw_config : list AtcaSlot) : ST slots string unit :=
  for_each hw_config (fun slot =>
    if slot_is_valid slot then
      at_index (slot_id slot) (fun _ =>
        (Ok tt, {| ref_count := 0;
                   slot_status := if slot_is_locked slot then Locked else Free;
                   config := slot_config slot |}))
    else mret tt).

Definition set_slot_status (i : Z) (st : KeySlotStatus) : ST slots ResponseStatus unit :=
  at_index i (KeySlot.set_slot_status st).

(** The loop of [find_suitable_slot] from [slot] on, [n] turns left. *)
Fixpoint find_from (n : nat) (slot : Z) (key_attr : Attributes) (op : option Opcode)
    : ST slots ResponseStatus Z :=
  match n with
  | 0%nat => raise PsaErrorInsufficientStorage
  | S n' =>
    s ← gets id;
    match s !! Z.to_nat slot with
    | None => panic
    | Some key_slot =>
      if negb (KeySlot.is_free key_slot) then find_from n' (slot + 1) key_attr op
      else match KeySlot.key_attr_vs_config key_slot slot key_attr op with
      | Ok _ => set_slot_status slot Busy ;; mret slot
      | Err _ => find_from n' (slot + 1) key_attr op
      | Panic => panic
      end
    end
  end.

Definition find_suitable_slot (key_attr : Attributes) (op : option Opcode)
    : ST slots ResponseStatus Z :=
  find_from (Z.to_nat ATCA_ATECC_SLOTS_COUNT) 0 key_attr op.
End Storage.
End KeySlotStorage.

(** ** The provider ([mod.rs], [key_management.rs], [asym_sign.rs], [hash.rs],
    [generate_random.rs], [access_keys.rs]) *)
(** The interface configuration of [rust_cryptoauthlib] and the opening of a
    device; [AtcaIfaceI2c] has the fields the provider sets. *)
Record AtcaIfaceI2c := { i2c_slave_address : Z; i2c_bus : Z; i2c_baud : Z }.
Class AtcaConfig (C D : Type) := {
  default_iface_cfg : C;
  set_iface_type : string -> C -> C;
  set_devtype : string -> C -> C;
  set_wake_delay : Z -> C -> C;
  set_rx_retries : Z -> C -> C;
  set_iface : AtcaIfaceI2c -> C -> C;
  setup_atecc_device : C -> result AtcaStatus D;
}.

Module CalProvider.
Record state (K D : Type) := { kim : K; device : D; key_slots : list AteccKeySlot }.
Arguments kim {K D}.
Arguments device {K D}.
Arguments key_slots {K D}.

Record Provider := { key_info_store : KeyInfoManagerClient; supported_opcodes : gset Opcode }.

(** [AccessKey]; the access key files, and their TOML decoding. *)
Record AccessKey := { ak_slot : Z; ak_key : bytes }.
Record AccessKeyFiles := {
  read_to_string : string -> option string;
  access_keys_from_str : string -> option (list AccessKey);
}.

(** [raw_key_extract]: Parsec's encoding of a key to the chip's. *)
Definition raw_key_extract (t : KeyType) (key : bytes) : Result bytes :=
  match t with
  | Aes | RawData | EccKeyPair SecpR1 => Ok key
  | EccPublicKey SecpR1 =>
    if decide (length key = 65) then Ok (drop 1 key) else Err PsaErrorInvalidArgument
  | _ => Err PsaErrorNotSupported
  end.

(** [raw_key_wrap]: the chip's encoding to Parsec's. *)
Definition raw_key_wrap (t : KeyType) (key : bytes) : Result bytes :=
  match t with
  | Aes | RawData => Ok key
  | EccPublicKey SecpR1 | EccKeyPair SecpR1 =>
    if decide (length key = 64) then Ok ("004"%char :: key) else Err PsaErrorInvalidArgument
  | _ => Err PsaErrorNotSupported
  end.

Definition get_calib_key_type (attributes : Attributes) : Result CalKeyType :=
  match key_type attributes with
  | RawData => Ok ShaOrText
  | Aes => Ok CalAes
  | EccKeyPair SecpR1 | EccPublicKey SecpR1 =>
    if ((bits attributes =? 256) || (bits attributes =? 0))%Z then Ok P256EccKey
    else Err PsaErrorNotSupported
  | _ => Err PsaErrorNotSupported
  end.

Section Cal.
Context {K D : Type} `{ManageKeyInfo K} `{Atecc D} `{KeyApi} `{Bincode Z}.
Implicit Types (self : Provider) (app_name : ApplicationName).
Abbreviation M A := (ST (state K D) ResponseStatus A).

Definition on_kim {E A} (m : ST K E A) : ST (state K D) E A :=
  zoom kim (fun k s => {| kim := k; device := device s; key_slots := key_slots s |}) m.
Definition on_slots {E A} (m : ST (list AteccKeySlot) E A) : ST (state K D) E A :=
  zoom key_slots (fun l s => {| kim := kim s; device := device s; key_slots := l |}) m.
Definition on_device {E A} (f : D -> A * D) : ST (state K D) E A := fun s =>
  let '(a, d) := f (device s) in
  (Ok a, {| kim := kim s; device := d; key_slots := key_slots s |}).

Definition triple self app_name (key_name : string) : KeyTriple :=
  get_key_triple (key_info_store self) app_name key_name.

(** [set_slot_status(..).ok().ok_or(error)?; Err(error)]: the slot is freed if
    it can be, and [error] is returned either way. *)
Definition release_and_fail (slot : Z) (error : ResponseStatus) : M unit :=
  attempt (F := ResponseStatus) (on_slots (KeySlotStorage.set_slot_status slot Free)) ;;
  raise error.

Definition psa_generate_key_internal self app_name (op : GenerateKeyOp) : M unit :=
  let key_triple := triple self app_name (gk_key_name op) in
  on_kim (does_not_exist (key_info_store self) key_triple) ;;
  if is_public_key (key_type (gk_attributes op)) then raise PsaErrorInvalidArgument else
  let key_attributes := gk_attributes op in
  key_type ← lift (get_calib_key_type key_attributes);
  slot_id ← on_slots (KeySlotStorage.find_suitable_slot key_attributes (Some OpPsaGenerateKey));
  st ← on_device (gen_key key_type slot_id);
  match st with
  | AtcaSuccess =>
    r ← attempt (on_kim (insert_key_info (key_info_store self) key_triple slot_id key_attributes));
    match r with
    | Ok _ => mret tt
    | Err error => release_and_fail slot_id error
    | Panic => panic
    end
  | _ => release_and_fail slot_id PsaErrorInvalidArgument
  end.

Definition psa_destroy_key_internal self app_name (key_name : string) : M unit :=
  let key_triple := triple self app_name key_name in
  key_id ← on_kim (get_key_id Z (key_info_store self) key_triple);
  on_kim (remove_key_info (key_info_store self) key_triple) ;;
  attempt (F := ResponseStatus) (on_slots (KeySlotStorage.set_slot_status key_id Free)) ;;
  mret tt.

Definition psa_import_key_internal self app_name (op : ImportKeyOp) : M unit :=
  let key_triple := triple self app_name (ik_key_name op) in
  on_kim (does_not_exist (key_info_store self) key_triple) ;;
  let key_attributes := ik_attributes op in
  key_type_ ← lift (get_calib_key_type key_attributes);
  slot_id ← on_slots (KeySlotStorage.find_suitable_slot key_attributes (Some OpPsaImportKey));
  key_data ← lift (raw_key_extract (key_type key_attributes) (ik_data op));
  atca_error_status ← on_device (import_key key_type_ key_data slot_id);
  match atca_error_status with
  | AtcaSuccess =>
    r ← attempt (on_kim (insert_key_info (key_info_store self) key_triple slot_id key_attributes));
    match r with
    | Ok _ => mret tt
    | Err _ => release_and_fail slot_id PsaErrorStorageFailure
    | Panic => panic
    end
  | AtcaInvalidSize | AtcaInvalidId | AtcaBadParam =>
    release_and_fail slot_id PsaErrorInvalidArgument
  | AtcaStatus_other _ => release_and_fail slot_id PsaErrorHardwareFailure
  end.

Definition psa_export_public_key_internal self app_name (key_name : string) : M bytes :=
  let key_triple := triple self app_name key_name in
  key_attributes ← on_kim (get_key_attributes (key_info_store self) key_triple);
  match key_type key_attributes with
  | EccPublicKey SecpR1 | EccKeyPair SecpR1 =>
    slot_number ← on_kim (get_key_id Z (key_info_store self) key_triple);
    '(st, raw_public_key) ← on_device (get_public_key slot_number);
    match st with
    | AtcaSuccess => lift (raw_key_wrap (key_type key_attributes) raw_public_key)
    | _ => raise PsaErrorHardwareFailure
    end
  | _ => raise PsaErrorInvalidArgument
  end.

Definition psa_export_key_internal self app_name (key_name : string) : M bytes :=
  let key_triple := triple self app_name key_name in
  key_attributes ← on_kim (get_key_attributes (key_info_store self) key_triple);
  if negb (is_exportable key_attributes) then raise PsaErrorNotPermitted else
  key_type_ ← lift (get_calib_key_type key_attributes);
  match key_type key_attributes with
  | Aes | RawData | EccPublicKey SecpR1 =>
    slot_number ← on_kim (get_key_id Z (key_info_store self) key_triple);
    '(st, raw_key) ← on_device (export_key key_type_ slot_number);
    match st with
    | AtcaSuccess => lift (raw_key_wrap (key_type key_attributes) raw_key)
    | _ => raise PsaErrorInvalidArgument
    end
  | _ => raise PsaErrorInvalidArgument
  end.

(** *** Hashes *)
Definition sha256 (msg : bytes) : M bytes :=
  '(st, hash) ← on_device (dev_sha msg (zeroed ATCA_SHA2_256_DIGEST_SIZE));
  match st with AtcaSuccess => mret hash | _ => raise PsaErrorHardwareFailure end.

Definition psa_hash_compute_internal (op : HashComputeOp) : M bytes :=
  match hc_alg op with Sha256 => sha256 (hc_input op) | _ => raise PsaErrorNotSupported end.

Definition psa_hash_compare_internal (op : HashCompareOp) : M unit :=
  if decide (length (hp_hash op) <> sha256_hash_length) then raise PsaErrorInvalidArgument
  else match hp_alg op with
  | Sha256 =>
    hash ← sha256 (hp_input op);
    if decide (hp_hash op <> hash) then raise PsaErrorInvalidSignature else mret tt
  | _ => raise PsaErrorNotSupported
  end.

(** *** Signatures *)
Definition ecdsa_hash_sign (key_id : Z) (hash : bytes) : M bytes :=
  '(st, signature) ← on_device (dev_sign_hash hash key_id (zeroed ATCA_SIG_SIZE));
  match st with AtcaSuccess => mret signature | _ => raise PsaErrorHardwareFailure end.

Definition ecdsa_verify_mode_get (key_id : Z) (t : KeyType) : M VerifyMode :=
  match t with
  | EccKeyPair SecpR1 =>
    '(st, raw_public_key) ← on_device (get_public_key key_id);
    match st with
    | AtcaSuccess => mret (VerifyExternal raw_public_key)
    | _ => raise PsaErrorHardwareFailure
    end
  | EccPublicKey SecpR1 => mret (VerifyInternal key_id)
  | _ => raise PsaErrorNotSupported
  end.

Definition ecdsa_hash_verify (verify_mode : VerifyMode) (hash signature : bytes) : M unit :=
  r ← on_device (dev_verify_hash verify_mode hash signature);
  match r with
  | Ok true => mret tt
  | Ok false => raise PsaErrorInvalidSignature
  | Err AtcaInvalidSize => raise PsaErrorInvalidSignature
  | Err _ => raise PsaErrorHardwareFailure
  | Panic => panic
  end.

Definition is_ecdsa_sha256 (alg : AsymmetricSignature) : bool :=
  match alg with Ecdsa (SignHash_Specific Sha256) => true | _ => false end.

Definition psa_sign_hash_internal self app_name (op : SignHashOp) : M bytes :=
  let key_triple := KeyTriple_new app_name CryptoAuthLib (sh_key_name op) in
  key_attributes ← on_kim (get_key_attributes (key_info_store self) key_triple);
  lift (validate_sign_hash op key_attributes) ;;
  if decide (length (sh_hash op) <> sha256_hash_length) then raise PsaErrorInvalidArgument
  else if is_ecdsa_sha256 (sh_alg op) then
    key_id ← on_kim (get_key_id Z (key_info_store self) key_triple);
    ecdsa_hash_sign key_id (sh_hash op)
  else raise PsaErrorNotSupported.

Definition psa_verify_hash_internal self app_name (op : VerifyHashOp) : M unit :=
  let key_triple := triple self app_name (vh_key_name op) in
  key_attributes ← on_kim (get_key_attributes (key_info_store self) key_triple);
  lift (validate_verify_hash op key_attributes) ;;
  if decide (length (vh_hash op) <> sha256_hash_length) then raise PsaErrorInvalidArgument
  else if is_ecdsa_sha256 (vh_alg op) then
    key_id ← on_kim (get_key_id Z (key_info_store self) key_triple);
    verify_mode ← ecdsa_verify_mode_get key_id (key_type key_attributes);
    ecdsa_hash_verify verify_mode (vh_hash op) (vh_signature op)
  else raise PsaErrorNotSupported.

Definition psa_sign_message_internal self app_name (op : SignMessageOp) : M bytes :=
  let key_triple := triple self app_name (sm_key_name op) in
  key_attributes ← on_kim (get_key_attributes (key_info_store self) key_triple);
  lift (validate_sign_message op key_attributes) ;;
  if is_ecdsa_sha256 (sm_alg op) then
    key_id ← on_kim (get_key_id Z (key_info_store self) key_triple);
    hash ← sha256 (sm_message op);
    ecdsa_hash_sign key_id hash
  else raise PsaErrorNotSupported.

Definition psa_verify_message_internal self app_name (op : VerifyMessageOp) : M unit :=
  let key_triple := triple self app_name (vm_key_name op) in
  key_attributes ← on_kim (get_key_attributes (key_info_store self) key_triple);
  lift (validate_verify_message op key_attributes) ;;
  if is_ecdsa_sha256 (vm_alg op) then
    key_id ← on_kim (get_key_id Z (key_info_store self) key_triple);
    hash ← sha256 (vm_message op);
    verify_mode ← ecdsa_verify_mode_get key_id (key_type key_attributes);
    ecdsa_hash_verify verify_mode hash (vm_signature op)
  else raise PsaErrorNotSupported.

(** *** Random bytes: [n] calls of the device, appended *)
Fixpoint random_calls (n : nat) (random_bytes : bytes) : M bytes :=
  match n with
  | 0%nat => mret random_bytes
  | S n' =>
    '(err, buffer) ← on_device dev_random;
    match err with
    | AtcaSuccess => random_calls n' (random_bytes ++ buffer)
    | _ => raise PsaErrorGenericError
    end
  end.

(** The sum is a [usize] and wraps in a release build. *)
Definition psa_generate_random_internal (op : GenerateRandomOp) : M bytes :=
  let call_count :=
    (usize_wrap (usize_wrap (gr_size op + ATCA_RANDOM_BUFFER_SIZE) - 1) /
     ATCA_RANDOM_BUFFER_SIZE)%Z in
  random_bytes ← random_calls (Z.to_nat call_count) [];
  mret (take (Z.to_nat (gr_size op)) random_bytes).

(** *** Initialisation *)

(** [set_access_keys]: the access keys are read from a file, when there is one
    that can be read and parsed; the answer is whether it could.  A slot beyond
    the last is skipped, and so is a key the device refuses. *)
Definition set_access_keys (files : AccessKeyFiles) (access_keys_file_name : option string)
    : ST (state K D) unit bool :=
  match access_keys_file_name with
  | None => mret false
  | Some file_name =>
    match read_to_string files file_name with
    | None => mret false
    | Some access_keys_string =>
      match access_keys_from_str files access_keys_string with
      | None => mret false
      | Some access_keys =>
        for_each access_keys (fun access_key =>
          if (ak_slot access_key <? ATCA_ATECC_SLOTS_COUNT)%Z
          then on_device (add_access_key (ak_slot access_key) (ak_key access_key)) ;; mret tt
          else mret tt) ;;
        mret true
      end
    end
  end.

Definition set_opcodes (t : AtcaDeviceType) : gset Opcode :=
  match t with
  | ATECC508A | ATECC608A | ATECC108A =>
    list_to_set [OpPsaGenerateKey; OpPsaDestroyKey; OpPsaHashCompute; OpPsaHashCompare;
      OpPsaGenerateRandom; OpPsaImportKey; OpPsaSignHash; OpPsaVerifyHash; OpPsaSignMessage;
      OpPsaVerifyMessage; OpPsaExportPublicKey; OpPsaExportKey]
  | AtcaTestDevSuccess | AtcaTestDevFail | AtcaTestDevFailUnimplemented =>
    {[ OpPsaGenerateRandom ]}
  | AtcaDeviceType_other => ∅
  end.

(** One turn of the loop over the stored triples. *)
Definition check_stored (c : KeyInfoManagerClient) (to_remove : list KeyTriple)
    (key_triple : KeyTriple) : ST (state K D) unit (list KeyTriple) :=
  let drop := mret (to_remove ++ [key_triple]) in
  r ← attempt (on_kim (does_not_exist c key_triple));
  match r with
  | Err _ => drop
  | Panic => panic
  | Ok _ =>
    r ← attempt (on_kim (get_key_id Z c key_triple));
    match r with
    | Err _ => drop
    | Panic => panic
    | Ok key_info_id =>
      r ← attempt (on_kim (get_key_attributes c key_triple));
      match r with
      | Err _ => drop
      | Panic => panic
      | Ok key_info_attributes =>
        r ← attempt (on_slots (KeySlotStorage.key_validate_and_mark_busy key_info_id
                                 key_info_attributes));
        match r with
        | Ok _ => mret to_remove
        | Err _ => drop
        | Panic => panic
        end
      end
    end
  end.

(** [Provider::new]; [setup] is the outcome of [setup_atecc_device], and an
    error is the [None] of the source. *)
Definition new (c : KeyInfoManagerClient) (setup : result AtcaStatus D) (files : AccessKeyFiles)
    (access_key_file_name : option string) : ST (state K D) unit Provider :=
  dev ← lift (map_err (fun _ => tt) setup);
  if negb (is_configuration_locked dev) then raise tt else
  modify (fun s => {| kim := kim s; device := dev; key_slots := KeySlotStorage.new |}) ;;
  '(err, atecc_config_vec) ← on_device get_config;
  if decide (AtcaSuccess <> err) then raise tt else
  on_err (fun _ => tt) (on_slots (KeySlotStorage.set_hw_config atecc_config_vec)) ;;
  key_triples ← on_err (fun _ => tt) (on_kim (get_all c));
  to_remove ← fold_each key_triples [] (check_stored c);
  for_each to_remove (fun key_triple =>
    on_err (fun _ => tt) (on_kim (remove_key_info c key_triple))) ;;
  opcodes ← gets (fun s => set_opcodes (get_device_type (device s)));
  set_access_keys files access_key_file_name ;;
  mret {| key_info_store := c; supported_opcodes := opcodes |}.

(** *** The builder *)
Record ProviderBuilder := { b_key_info_store : option KeyInfoManagerClient;
  b_device_type : option string; b_iface_type : option string; b_wake_delay : option Z;
  b_rx_retries : option Z; b_slave_address : option Z; b_bus : option Z; b_baud : option Z;
  b_access_key_file_name : option string }.

Definition ProviderBuilder_new : ProviderBuilder :=
  {| b_key_info_store := None; b_device_type := None; b_iface_type := None;
     b_wake_delay := None; b_rx_retries := None; b_slave_address := None; b_bus := None;
     b_baud := None; b_access_key_file_name := None |}.
Definition with_key_info_store (key_info_store : KeyInfoManagerClient) (b : ProviderBuilder)
    : ProviderBuilder :=
  {| b_key_info_store := Some key_info_store; b_device_type := b_device_type b;
     b_iface_type := b_iface_type b; b_wake_delay := b_wake_delay b;
     b_rx_retries := b_rx_retries b; b_slave_address := b_slave_address b; b_bus := b_bus b;
     b_baud := b_baud b; b_access_key_file_name := b_access_key_file_name b |}.
Definition with_device_type (device_type : string) (b : ProviderBuilder) : ProviderBuilder :=
  {| b_key_info_store := b_key_info_store b; b_device_type := Some device_type;
     b_iface_type := b_iface_type b; b_wake_delay := b_wake_delay b;
     b_rx_retries := b_rx_retries b; b_slave_address := b_slave_address b; b_bus := b_bus b;
     b_baud := b_baud b; b_access_key_file_name := b_access_key_file_name b |}.
Definition with_iface_type (iface_type : string) (b : ProviderBuilder) : ProviderBuilder :=
  {| b_key_info_store := b_key_info_store b; b_device_type := b_device_type b;
     b_iface_type := Some iface_type; b_wake_delay := b_wake_delay b;
     b_rx_retries := b_rx_retries b; b_slave_address := b_slave_address b; b_bus := b_bus b;
     b_baud := b_baud b; b_access_key_file_name := b_access_key_file_name b |}.
Definition with_wake_delay (wake_delay : option Z) (b : ProviderBuilder) : ProviderBuilder :=
  {| b_key_info_store := b_key_info_store b; b_device_type := b_device_type b;
     b_iface_type := b_iface_type b; b_wake_delay := wake_delay;
     b_rx_retries := b_rx_retries b; b_slave_address := b_slave_address b; b_bus := b_bus b;
     b_baud := b_baud b; b_access_key_file_name := b_access_key_file_name b |}.
Definition with_rx_retries (rx_retries : option Z) (b : ProviderBuilder) : ProviderBuilder :=
  {| b_key_info_store := b_key_info_store b; b_device_type := b_device_type b;
     b_iface_type := b_iface_type b; b_wake_delay := b_wake_delay b;
     b_rx_retries := rx_retries; b_slave_address := b_slave_address b; b_bus := b_bus b;
     b_baud := b_baud b; b_access_key_file_name := b_access_key_file_name b |}.
Definition with_slave_address (slave_address : option Z) (b : ProviderBuilder) : ProviderBuilder :=
  {| b_key_info_store := b_key_info_store b; b_device_type := b_device_type b;
     b_iface_type := b_iface_type b; b_wake_delay := b_wake_delay b;
     b_rx_retries := b_rx_retries b; b_slave_address := slave_address; b_bus := b_bus b;
     b_baud := b_baud b; b_access_key_file_name := b_access_key_file_name b |}.
Definition with_bus (bus : option Z) (b : ProviderBuilder) : ProviderBuilder :=
  {| b_key_info_store := b_key_info_store b; b_device_type := b_device_type b;
     b_iface_type := b_iface_type b; b_wake_delay := b_wake_delay b;
     b_rx_retries := b_rx_retries b; b_slave_address := b_slave_address b; b_bus := bus;
     b_baud := b_baud b; b_access_key_file_name := b_access_key_file_name b |}.
Definition with_baud (baud : option Z) (b : ProviderBuilder) : ProviderBuilder :=
  {| b_key_info_store := b_key_info_store b; b_device_type := b_device_type b;
     b_iface_type := b_iface_type b; b_wake_delay := b_wake_delay b;
     b_rx_retries := b_rx_retries b; b_slave_address := b_slave_address b; b_bus := b_bus b;
     b_baud := baud; b_access_key_file_name := b_access_key_file_name b |}.
Definition with_access_key_file (access_key_file_name : option string) (b : ProviderBuilder)
    : ProviderBuilder :=
  {| b_key_info_store := b_key_info_store b; b_device_type := b_device_type b;
     b_iface_type := b_iface_type b; b_wake_delay := b_wake_delay b;
     b_rx_retries := b_rx_retries b; b_slave_address := b_slave_address b; b_bus := b_bus b;
     b_baud := b_baud b; b_access_key_file_name := access_key_file_name |}.

(** The interface configuration of [build]. *)
Definition iface_cfg {C} `{AtcaConfig C D} (b : ProviderBuilder) : result string C :=
  match b_iface_type b with
  | Some "i2c"%string =>
    slave_address ← ok_or (b_slave_address b) "missing atecc i2c slave address"%string;
    bus ← ok_or (b_bus b) "missing atecc i2c bus"%string;
    baud ← ok_or (b_baud b) "missing atecc i2c baud rate"%string;
    let atcai2c_iface_cfg := {| i2c_slave_address := slave_address; i2c_bus := bus;
                                i2c_baud := baud |} in
    device_type ← ok_or (b_device_type b) "missing atecc device type"%string;
    wake_delay ← ok_or (b_wake_delay b) "missing atecc wake delay"%string;
    rx_retries ← ok_or (b_rx_retries b) "missing rx retries number for atecc"%string;
    Ok (set_iface atcai2c_iface_cfg (set_rx_retries rx_retries (set_wake_delay wake_delay
         (set_devtype device_type (set_iface_type "i2c" default_iface_cfg)))))
  | Some "test-interface"%string =>
    device_type ← ok_or (b_device_type b) "missing atecc device type"%string;
    Ok (set_devtype device_type (set_iface_type "test-interface" default_iface_cfg))
  | Some _ => Err "Unsupported inteface type"%string
  | None => Err "Missing inteface type"%string
  end.

Definition build {C} `{AtcaConfig C D} (files : AccessKeyFiles) (b : ProviderBuilder)
    : ST (state K D) string Provider :=
  iface_cfg ← lift (iface_cfg b);
  key_info_store ← lift (ok_or (b_key_info_store b) "missing key info store"%string);
  on_err (fun _ => "CryptoAuthLib Provider initialization failed"%string)
    (new key_info_store (setup_atecc_device iface_cfg) files (b_access_key_file_name b)).

(** *** The trait *)
Definition describe (parse_uuid : string -> option string) self
    : Result (ProviderInfo * gset Opcode) :=
  uuid ← ok_or (parse_uuid "b8ba81e2-e9f7-4bdd-b096-a29d0019960c") InvalidEncoding;
  Ok ({| pi_uuid := uuid;
         pi_description := "User space hardware provider, utilizing MicrochipTech CryptoAuthentication Library for ATECCx08 chips";
         pi_vendor := "Arm"; pi_version_maj := 0; pi_version_min := 1; pi_version_rev := 0;
         pi_id := CryptoAuthLib |}, supported_opcodes self).

Definition list_keys self app_name : M (list ListedKey) :=
  on_kim (KeyInfo.list_keys (key_info_store self) app_name).

Definition list_clients self : M (list string) :=
  clients ← on_kim (KeyInfo.list_clients (key_info_store self));
  mret (app_name_string <$> clients).

(** Every method first checks that the chip supports its opcode. *)
Definition guarded {A} self (oc : Opcode) (m : M A) : M A :=
  if decide (oc ∈ supported_opcodes self) then m else raise PsaErrorNotSupported.

Definition psa_generate_key self app_name (op : GenerateKeyOp) : M unit :=
  guarded self OpPsaGenerateKey (psa_generate_key_internal self app_name op).
Definition psa_import_key self app_name (op : ImportKeyOp) : M unit :=
  guarded self OpPsaImportKey (psa_import_key_internal self app_name op).
Definition psa_export_public_key self app_name (op : string) : M bytes :=
  guarded self OpPsaExportPublicKey (psa_export_public_key_internal self app_name op).
Definition psa_export_key self app_name (op : string) : M bytes :=
  guarded self OpPsaExportKey (psa_export_key_internal self app_name op).
Definition psa_destroy_key self app_name (op : string) : M unit :=
  guarded self OpPsaDestroyKey (psa_destroy_key_internal self app_name op).
Definition psa_sign_hash self app_name (op : SignHashOp) : M bytes :=
  guarded self OpPsaSignHash (psa_sign_hash_internal self app_name op).
Definition psa_verify_hash self app_name (op : VerifyHashOp) : M unit :=
  guarded self OpPsaVerifyHash (psa_verify_hash_internal self app_name op).
Definition psa_sign_message self app_name (op : SignMessageOp) : M bytes :=
  guarded self OpPsaSignMessage (psa_sign_message_internal self app_name op).
Definition psa_verify_message self app_name (op : VerifyMessageOp) : M unit :=
  guarded self OpPsaVerifyMessage (psa_verify_message_internal self app_name op).
Definition psa_hash_compute self (op : HashComputeOp) : M bytes :=
  guarded self OpPsaHashCompute (psa_hash_compute_internal op).
Definition psa_hash_compare self (op : HashCompareOp) : M unit :=
  guarded self OpPsaHashCompare (psa_hash_compare_internal op).
Definition psa_generate_random self (op : GenerateRandomOp) : M bytes :=
  guarded self OpPsaGenerateRandom (psa_generate_random_internal op).

Definition provide (parse_uuid : string -> option string) self : Provide (state K D) := {|
  prov_describe := describe parse_uuid self;
  prov_list_providers := DefaultMethods.list_providers;
  prov_list_opcodes := DefaultMethods.list_opcodes;
  prov_list_authenticators := DefaultMethods.list_authenticators;
  prov_list_keys := list_keys self;
  prov_list_clients := list_clients self;
  prov_delete_client := DefaultMethods.delete_client;
  prov_ping := DefaultMethods.ping;
  prov_psa_generate_key := psa_generate_key self;
  prov_psa_import_key := psa_import_key self;
  prov_psa_export_public_key := psa_export_public_key self;
  prov_psa_export_key := psa_export_key self;
  prov_psa_destroy_key := psa_destroy_key self;
  prov_psa_sign_hash := psa_sign_hash self;
  prov_psa_verify_hash := psa_verify_hash self;
  prov_psa_asymmetric_encrypt := DefaultMethods.psa_asymmetric_encrypt;
  prov_psa_asymmetric_decrypt := DefaultMethods.psa_asymmetric_decrypt;
  prov_psa_aead_encrypt := DefaultMethods.psa_aead_encrypt;
  prov_psa_aead_decrypt := DefaultMethods.psa_aead_decrypt;
  prov_psa_hash_compute := psa_hash_compute self;
  prov_psa_hash_compare := psa_hash_compare self;
  prov_psa_raw_key_agreement := DefaultMethods.psa_raw_key_agreement;
  prov_psa_generate_random := psa_generate_random self;
  prov_psa_sign_message := psa_sign_message self;
  prov_psa_verify_message := psa_verify_message self;
|}.
End Cal.
Arguments psa_generate_key {K D _ _ _ _} self app_name op /.
Arguments psa_import_key {K D _ _ _} self app_name op /.
Arguments psa_export_public_key {K D _ _ _} self app_name op /.
Arguments psa_export_key {K D _ _ _ _} self app_name op /.
Arguments psa_destroy_key {K D _ _} self app_name op /.
Arguments psa_sign_hash {K D _ _ _ _} self app_name op /.
Arguments psa_verify_hash {K D _ _ _ _} self app_name op /.
Arguments psa_sign_message {K D _ _ _ _} self app_name op /.
Arguments psa_verify_message {K D _ _ _ _} self app_name op /.
Arguments psa_hash_compute {K D _} self op /.
Arguments psa_hash_compare {K D _ _} self op /.
Arguments psa_generate_random {K D _} self op /.
End CalProvider.
