(* ===== verification/CryptoAuthLibSpec.v ===== *)
(** * Correctness of the CryptoAuthLib provider

    The allocation of slots, the invariant that ties slots and mappings, the
    encodings of keys and the length of random data; and two deviations: an
    import that fails after taking a slot does not give it back, and starting the
    provider drops every stored mapping. *)
From S2P Require Import Prelude RustStd Interface Authenticators KeyInfo OnDisk Concrete.
From S2P Require Import Provide CoreProvider CryptoAuthLib.
Import CalProvider.

Class AteccLaws (D : Type) `{Atecc D} : Prop := {
  slots_count_range : (0 < ATCA_ATECC_SLOTS_COUNT <= 256)%Z;
  random_buffer_size : (0 < ATCA_RANDOM_BUFFER_SIZE < 2 ^ 16)%Z;
  valid_slot_range s : slot_is_valid s = true -> (0 <= slot_id s < ATCA_ATECC_SLOTS_COUNT)%Z;
  verify_no_panic m h g d : (dev_verify_hash m h g d).1 <> Panic;
  random_length d b : (dev_random d).1 = (AtcaSuccess, b) ->
    length b = Z.to_nat ATCA_RANDOM_BUFFER_SIZE;
}.
Class KeyApiLaws `{KeyApi} : Prop := {
  sign_hash_no_panic op a : validate_sign_hash op a <> Panic;
  verify_hash_no_panic op a : validate_verify_hash op a <> Panic;
  sign_message_no_panic op a : validate_sign_message op a <> Panic;
  verify_message_no_panic op a : validate_verify_message op a <> Panic;
}.
(** Slot numbers are [u8] and serialise as such. *)
Class BincodeU8 `{Bincode Z} : Prop :=
  bincode_u8 z : (0 <= z < 256)%Z -> is_Some (bincode_serialize z).

(** ** Slots *)
Section Slots.
Context {D : Type} `{AteccLaws D}.

(** A free slot whose configuration admits the key. *)
Definition suitable (slots : list AteccKeySlot) (i : Z) (attr : Attributes) (op : option Opcode)
    : Prop :=
  exists sl, slots !! Z.to_nat i = Some sl /\ slot_status sl = Free /\
    KeySlot.key_attr_vs_config sl i attr op = Ok tt.

Definition with_status (st : KeySlotStatus) (sl : AteccKeySlot) : AteccKeySlot :=
  {| ref_count := ref_count sl; slot_status := st; config := config sl |}.

Lemma key_attr_vs_config_cases sl i attr op :
  KeySlot.key_attr_vs_config sl i attr op = Ok tt \/
  KeySlot.key_attr_vs_config sl i attr op = Err PsaErrorNotSupported.
Proof. unfold KeySlot.key_attr_vs_config. repeat case_match; auto. Qed.

Lemma alter_insert (f : AteccKeySlot -> AteccKeySlot) i (slots : list AteccKeySlot) sl :
  slots !! i = Some sl -> <[i := f sl]> slots = alter f i slots.
Proof.
  intros Hsl. apply list_eq. intros k. destruct (decide (k = i)) as [->|Hk].
  - rewrite list_lookup_alter_eq, Hsl. simpl. apply list_lookup_insert_eq.
    by eapply lookup_lt_Some.
  - by rewrite list_lookup_alter_ne, list_lookup_insert_ne.
Qed.

(** A slot that is not locked takes any status but [Locked]. *)
Lemma set_slot_status_run st i slots sl :
  slots !! Z.to_nat i = Some sl -> slot_status sl <> Locked -> st <> Locked ->
  KeySlotStorage.set_slot_status i st slots =
  (Ok tt, alter (with_status st) (Z.to_nat i) slots).
Proof.
  intros Hsl Hst Hl. unfold KeySlotStorage.set_slot_status, KeySlotStorage.at_index.
  rewrite Hsl. unfold KeySlot.set_slot_status. rewrite decide_False by done.
  destruct st; [| |done]; by rewrite <- (alter_insert (with_status _) _ _ _ Hsl).
Qed.

Lemma find_from_spec n i attr op slots :
  (0 <= i)%Z -> (Z.to_nat i + n)%nat = length slots ->
  match KeySlotStorage.find_from n i attr op slots with
  | (Ok j, slots') => (i <= j < i + Z.of_nat n)%Z /\ suitable slots j attr op /\
      (forall k, (i <= k < j)%Z -> ~ suitable slots k attr op) /\
      slots' = alter (with_status Busy) (Z.to_nat j) slots
  | (Err e, slots') => e = PsaErrorInsufficientStorage /\ slots' = slots /\
      forall k, (i <= k < i + Z.of_nat n)%Z -> ~ suitable slots k attr op
  | (Panic, _) => False
  end.
Proof.
  revert i. induction n as [|n IH]; intros i Hi Hlen.
  - simpl. split_and!; [done|done|lia].
  - cbn [KeySlotStorage.find_from]. erewrite (bind_run (gets id)) by reflexivity.
    destruct (lookup_lt_is_Some_2 slots (Z.to_nat i)) as [sl Hsl]; [lia|]. unfold id. rewrite Hsl.
    specialize (IH (i + 1)%Z ltac:(lia) ltac:(lia)).
    assert (Hskip : (slot_status sl <> Free \/
        KeySlot.key_attr_vs_config sl i attr op = Err PsaErrorNotSupported) ->
      ~ suitable slots i attr op).
    { intros Hn (sl' & Hsl' & Hf & Hok). naive_solver congruence. }
    assert (Hnext : ~ suitable slots i attr op ->
      match KeySlotStorage.find_from n (i + 1) attr op slots with
      | (Ok j, slots') => (i <= j < i + Z.of_nat (S n))%Z /\ suitable slots j attr op /\
          (forall k, (i <= k < j)%Z -> ~ suitable slots k attr op) /\
          slots' = alter (with_status Busy) (Z.to_nat j) slots
      | (Err e, slots') => e = PsaErrorInsufficientStorage /\ slots' = slots /\
          forall k, (i <= k < i + Z.of_nat (S n))%Z -> ~ suitable slots k attr op
      | (Panic, _) => False
      end).
    { intros Hn. destruct (KeySlotStorage.find_from n (i + 1) attr op slots) as [[j|e|] slots'].
      - destruct IH as (Hj & Hs & Hmin & Hup). split_and!; [lia|lia|done| |done].
        intros k Hk. destruct (decide (k = i)) as [->|]; [done|]. apply Hmin. lia.
      - destruct IH as (-> & -> & Hmin). split_and!; [done|done|].
        intros k Hk. destruct (decide (k = i)) as [->|]; [done|]. apply Hmin. lia.
      - done. }
    unfold KeySlot.is_free. destruct (bool_decide_reflect (slot_status sl = Free)) as [Hf|Hf];
      simpl; [|by apply Hnext, Hskip; left].
    destruct (key_attr_vs_config_cases sl i attr op) as [Hc|Hc]; rewrite Hc;
      [|by apply Hnext, Hskip; right].
    erewrite bind_run by (eapply set_slot_status_run; [exact Hsl|congruence|done]).
    split_and!; [lia|lia|by exists sl|intros k; lia|done].
Qed.

(** A slot that is configured for a private key: a P-256 slot, private, secret, signing
    external messages when the key may sign, and writable only in encrypted form when the
    key is imported; the public part is readable if the key may be exported or verified
    with. *)
Definition holds_key_pair (attr : Attributes) (op : option Opcode) (sl : AteccKeySlot) : Prop :=
  let flags := usage_flags (policy attr) in
  cfg_key_type (config sl) = P256EccKey /\ is_private (ecc_key_attr (config sl)) = true /\
  is_secret (config sl) = true /\ (bits attr = 0 \/ bits attr = 256)%Z /\
  (sign_hash flags || sign_message flags = true ->
     ext_sign (ecc_key_attr (config sl)) = true) /\
  (export flags || copy flags || verify_hash flags || verify_message flags = true ->
     pub_info (config sl) = true) /\
  (permitted_algorithms (policy attr) =
     Alg_AsymmetricSignature (Ecdsa (SignHash_Specific Sha256)) ->
   op = Some OpPsaImportKey -> write_config (config sl) = WcEncrypt).

Lemma key_pair_slot_config sl i attr op :
  key_type attr = EccKeyPair SecpR1 ->
  KeySlot.key_attr_vs_config sl i attr op = Ok tt -> holds_key_pair attr op sl.
Proof.
  intros Ht. unfold holds_key_pair, KeySlot.key_attr_vs_config, KeySlot.is_key_type_ok. rewrite Ht.
  destruct (_ && _) eqn:Hkt; [|done]. simpl.
  apply andb_prop in Hkt as [Hkt Hsec]. apply andb_prop in Hkt as [Hkt Hpriv].
  apply andb_prop in Hkt as [Hbits Hty]. unfold KeySlot.has_type in Hty.
  apply bool_decide_eq_true in Hty. apply orb_prop in Hbits.
  unfold KeySlot.is_usage_flags_ok, KeySlot.pub_readable, KeySlot.has_type.
  rewrite Ht, Hty, Hpriv, bool_decide_true by done.
  destruct (KeySlot.is_permitted_algorithms_ok sl attr op) eqn:Halg;
    [|by destruct (negb _)]. intros Hok. simpl in *. split_and!; try done.
  - destruct Hbits as [?%Z.eqb_eq|?%Z.eqb_eq]; auto.
  - intros Hs. destruct (ext_sign (ecc_key_attr (config sl))); [done|].
    exfalso. destruct (export _), (copy _), (verify_hash _), (verify_message _), (sign_hash _),
      (sign_message _), (pub_info _); simpl in *; try discriminate Hok; discriminate Hs.
  - intros Hs. destruct (pub_info (config sl)); [done|].
    exfalso. destruct (export _), (copy _), (verify_hash _), (verify_message _), (sign_hash _),
      (sign_message _), (ext_sign _); simpl in *; try discriminate Hok; discriminate Hs.
  - intros Ha ->. unfold KeySlot.is_permitted_algorithms_ok in Halg. rewrite Ha, Ht in Halg.
    apply andb_prop in Halg as [_ Halg]. apply andb_prop in Halg as [_ Halg].
    by apply bool_decide_eq_true in Halg.
Qed.
(** C38: A slot is found exactly when a free slot of the chip admits the key; it is the
    lowest such slot, it is marked busy, and no other slot is touched.  A busy or locked
    slot is never given out, and a private key is only ever put in a slot that is
    configured for it: private, secret, for P-256, able to sign when the key may sign,
    with its public part readable when the key may be exported or verified with, and
    writable only in encrypted form when the key is imported. *)
Theorem find_suitable_slot_spec attr op slots :
  length slots = Z.to_nat ATCA_ATECC_SLOTS_COUNT ->
  match KeySlotStorage.find_suitable_slot attr op slots with
  | (Ok i, slots') => (0 <= i < ATCA_ATECC_SLOTS_COUNT)%Z /\ suitable slots i attr op /\
      (forall k, (0 <= k < i)%Z -> ~ suitable slots k attr op) /\
      slots' = alter (with_status Busy) (Z.to_nat i) slots /\
      (key_type attr = EccKeyPair SecpR1 -> exists sl, slots !! Z.to_nat i = Some sl /\
         slot_status sl = Free /\ holds_key_pair attr op sl)
  | (Err e, slots') => e = PsaErrorInsufficientStorage /\ slots' = slots /\
      forall k, (0 <= k < ATCA_ATECC_SLOTS_COUNT)%Z -> ~ suitable slots k attr op
  | (Panic, _) => False
  end.
Proof.
  intros Hlen. pose proof slots_count_range as Hr.
  pose proof (find_from_spec (Z.to_nat ATCA_ATECC_SLOTS_COUNT) 0 attr op slots
    ltac:(lia) ltac:(lia)) as Hf. unfold KeySlotStorage.find_suitable_slot.
  destruct (KeySlotStorage.find_from _ 0 attr op slots) as [[j|e|] slots']; [| |done].
  - destruct Hf as (? & Hs & ? & ?). split_and!; try done; try lia.
    intros Ht. destruct Hs as (sl & Hsl & Hfree & Hok). exists sl. split_and!; [done|done|].
    by eapply key_pair_slot_config.
  - destruct Hf as (? & ? & Hn). split_and!; [done|done|]. intros k Hk. apply Hn. lia.
Qed.
End Slots.

(** ** Encodings of keys *)

(** What the chip returns for a stored key, wrapped and extracted again, is
    the same raw key; and a well-formed uncompressed public point survives
    extraction and wrapping. *)
Theorem raw_key_roundtrip t key :
  (forall wrapped, raw_key_wrap t key = Ok wrapped -> t <> EccKeyPair SecpR1 ->
     raw_key_extract t wrapped = Ok key) /\
  (forall raw, t = EccPublicKey SecpR1 -> raw_key_extract t key = Ok raw ->
     exists c, key = c :: raw /\ raw_key_wrap t raw = Ok ("004"%char :: raw)).
Proof.
  split.
  - intros wrapped Hw Hne. destruct t as [| | | | | |[]|[]| | |]; simplify_eq/=; try done.
    case_decide; simplify_eq. simpl. by rewrite decide_True by (simpl; lia).
  - intros raw -> Hx. simpl in Hx. case_decide as Hl; simplify_eq.
    destruct key as [|c key]; [done|]. exists c. simpl in *. rewrite drop_0.
    injection Hl as Hl. split; [done|]. by rewrite decide_True.
Qed.

(** ** Slots and mappings *)
Section Provider.
Context {K D : Type} `{KimSpec K} `{AteccLaws D} `{KeyApiLaws} `{BZ : Bincode Z}.
Context `{!BincodeLaws Z} `{!BincodeU8}.
Implicit Types (s : state K D) (self : Provider) (t : KeyTriple).

Definition cal_view s : gmap KeyTriple KeyInfo := kim_view (kim s).
Definition slot_of (i : KeyInfo) : option Z := bincode_deserialize (ki_id i).

(** The slot [j] is there and taken. *)
Definition taken (slots : list AteccKeySlot) (j : Z) : Prop :=
  (0 <= j < ATCA_ATECC_SLOTS_COUNT)%Z /\
  exists sl, slots !! Z.to_nat j = Some sl /\ slot_status sl <> Free.

(** Every key of the provider sits in a slot of its own that is not free. *)
Record cal_ok s : Prop := {
  co_length : length (key_slots s) = Z.to_nat ATCA_ATECC_SLOTS_COUNT;
  co_taken t i : cal_view s !! t = Some i -> kt_provider_id t = CryptoAuthLib ->
    exists j, slot_of i = Some j /\ taken (key_slots s) j;
  co_distinct t1 t2 i1 i2 j : cal_view s !! t1 = Some i1 -> cal_view s !! t2 = Some i2 ->
    kt_provider_id t1 = CryptoAuthLib -> kt_provider_id t2 = CryptoAuthLib ->
    slot_of i1 = Some j -> slot_of i2 = Some j -> t1 = t2;
}.

(** Freeing a slot no key sits in, or marking one busy, keeps the invariant. *)
Lemma taken_alter_busy slots i j :
  taken slots j -> taken (alter (with_status Busy) i slots) j.
Proof.
  intros (Hr & sl & Hsl & Hst). split; [done|]. destruct (decide (Z.to_nat j = i)) as [<-|Hne].
  - rewrite list_lookup_alter_eq, Hsl. by eexists.
  - rewrite list_lookup_alter_ne by done. eauto.
Qed.

Lemma taken_alter_ne slots f i j :
  (0 <= i)%Z -> j <> i -> taken slots j -> taken (alter f (Z.to_nat i) slots) j.
Proof.
  intros Hi Hne (Hr & sl & Hsl & Hst). split; [done|].
  rewrite list_lookup_alter_ne by lia. eauto.
Qed.

Lemma cal_ok_slots s s' :
  cal_ok s -> cal_view s' = cal_view s -> length (key_slots s') = length (key_slots s) ->
  (forall t i j, cal_view s !! t = Some i -> kt_provider_id t = CryptoAuthLib ->
     slot_of i = Some j -> taken (key_slots s) j -> taken (key_slots s') j) ->
  cal_ok s'.
Proof.
  intros [Hl Ht Hd] Hv Hlen Hk. split; [congruence| |by rewrite Hv].
  intros t i. rewrite Hv. intros Hi Hp. destruct (Ht t i Hi Hp) as (j & Hj & Htk). eauto 6.
Qed.

(** A key stored in a taken slot in which no other key sits. *)
Lemma cal_ok_store s s' t j b attrs :
  cal_ok s -> bincode_serialize j = Some b ->
  (forall t' i', cal_view s !! t' = Some i' -> kt_provider_id t' = CryptoAuthLib ->
     slot_of i' <> Some j) ->
  cal_view s' = <[t := {| ki_id := b; ki_attributes := attrs |}]> (cal_view s) ->
  length (key_slots s') = length (key_slots s) ->
  (forall j', taken (key_slots s) j' -> taken (key_slots s') j') -> taken (key_slots s') j ->
  cal_ok s'.
Proof.
  intros [Hl Ht Hd] Hb Hfresh Hv Hlen Hk Hj. apply bincode_round in Hb.
  assert (Hnew : slot_of {| ki_id := b; ki_attributes := attrs |} = Some j) by exact Hb. split.
  - congruence.
  - intros t' i'. rewrite Hv. intros [[<- <-]|[Hne Ht']]%lookup_insert_Some Hp; [eauto|].
    destruct (Ht t' i' Ht' Hp) as (j' & ? & ?). eauto.
  - intros t1 t2 i1 i2 j'. rewrite Hv.
    intros [[<- <-]|[Hne1 Ht1]]%lookup_insert_Some [[<- <-]|[Hne2 Ht2]]%lookup_insert_Some Hp1 Hp2 H1' H2';
      [done| | |by eapply Hd]; exfalso; rewrite Hnew in *; simplify_eq.
    + by apply (Hfresh t2 i2).
    + by apply (Hfresh t1 i1).
Qed.

Lemma taken_busy slots j :
  (0 <= j < ATCA_ATECC_SLOTS_COUNT)%Z -> length slots = Z.to_nat ATCA_ATECC_SLOTS_COUNT ->
  taken (alter (with_status Busy) (Z.to_nat j) slots) j.
Proof.
  intros Hj Hl. split; [done|]. rewrite list_lookup_alter_eq.
  destruct (lookup_lt_is_Some_2 slots (Z.to_nat j)) as [sl ->]; [lia|]. by eexists.
Qed.

(** A key of which the mapping is removed. *)
Lemma cal_ok_removed s s' t :
  cal_ok s -> cal_view s' = delete t (cal_view s) ->
  length (key_slots s') = length (key_slots s) ->
  (forall t' i' j', t' <> t -> cal_view s !! t' = Some i' -> kt_provider_id t' = CryptoAuthLib ->
     slot_of i' = Some j' -> taken (key_slots s) j' -> taken (key_slots s') j') ->
  cal_ok s'.
Proof.
  intros Hs Hv Hl Hk. split.
  - rewrite Hl. apply Hs.
  - intros t' i'. rewrite Hv. intros [Hne Ht']%lookup_delete_Some Hp'.
    destruct (co_taken s Hs t' i' Ht' Hp') as (j' & Hj' & Htk). exists j'. split; [done|].
    by eapply Hk.
  - intros t1 t2 i1 i2 j'. rewrite Hv.
    intros [_ Ht1]%lookup_delete_Some [_ Ht2]%lookup_delete_Some. by apply (co_distinct s Hs).
Qed.

(** What a creating operation does: it stores the key in a slot that was
    suitable, or it changes no mapping and takes no slot from another key. *)
Definition cal_creates t (attrs : Attributes) (oc : Opcode)
    (m : ST (state K D) ResponseStatus unit) : Prop :=
  forall s, length (key_slots s) = Z.to_nat ATCA_ATECC_SLOTS_COUNT ->
  match m s with
  | (Ok _, s') => cal_view s !! t = None /\ exists j b, (0 <= j < ATCA_ATECC_SLOTS_COUNT)%Z /\
      suitable (key_slots s) j attrs (Some oc) /\ bincode_serialize j = Some b /\
      cal_view s' = <[t := {| ki_id := b; ki_attributes := attrs |}]> (cal_view s) /\
      key_slots s' = alter (with_status Busy) (Z.to_nat j) (key_slots s)
  | (Err _, s') => cal_view s' = cal_view s /\
      (key_slots s' = key_slots s \/
       exists j, (0 <= j < ATCA_ATECC_SLOTS_COUNT)%Z /\ suitable (key_slots s) j attrs (Some oc) /\
         key_slots s' = alter (with_status Busy) (Z.to_nat j) (key_slots s))
  | (Panic, _) => False
  end.

(** Giving back a slot that was taken a moment ago restores the slots. *)
Lemma alter_free_busy slots j attrs op :
  suitable slots j attrs op ->
  alter (with_status Free) (Z.to_nat j) (alter (with_status Busy) (Z.to_nat j) slots) = slots.
Proof.
  intros (sl & Hsl & Hf & _). apply list_eq. intros k.
  destruct (decide (k = Z.to_nat j)) as [->|Hk].
  - rewrite !list_lookup_alter_eq, Hsl. simpl. destruct sl as [rc st cfg]. simpl in Hf. by subst.
  - by rewrite !list_lookup_alter_ne.
Qed.

Lemma release_run slots j attrs op e s :
  suitable slots j attrs op -> key_slots s = alter (with_status Busy) (Z.to_nat j) slots ->
  release_and_fail j e s =
  (Err e, {| kim := kim s; device := device s; key_slots := slots |}).
Proof.
  intros Hs Hk. unfold release_and_fail, on_slots. run_unfold.
  pose proof Hs as (sl & Hsl & _).
  rewrite (set_slot_status_run Free j (key_slots s) (with_status Busy sl)); try done.
  - simpl. rewrite Hk. by rewrite (alter_free_busy slots j attrs op).
  - rewrite Hk, list_lookup_alter_eq, Hsl. done.
Qed.

(** The end of a creating operation: the key is stored under [t], or the slot is
    given back. *)
Lemma insert_or_release self t j attrs op slots (g : ResponseStatus -> ResponseStatus) s :
  suitable slots j attrs op -> (0 <= j < ATCA_ATECC_SLOTS_COUNT)%Z ->
  key_slots s = alter (with_status Busy) (Z.to_nat j) slots -> cal_view s !! t = None ->
  match (r ← attempt (on_kim (insert_key_info (key_info_store self) t j attrs));
         match r with
         | Ok _ => mret tt
         | Err e => release_and_fail j (g e)
         | Panic => panic
         end) s with
  | (Ok _, s') => exists b, bincode_serialize j = Some b /\
      cal_view s' = <[t := {| ki_id := b; ki_attributes := attrs |}]> (cal_view s) /\
      key_slots s' = key_slots s
  | (Err _, s') => cal_view s' = cal_view s /\ key_slots s' = slots
  | (Panic, _) => False
  end.
Proof.
  intros Hs Hj Hk Ht. pose proof slots_count_range as Hr.
  destruct (bincode_u8 j ltac:(lia)) as [b Hb].
  unfold on_kim. unfold mbind, ST_bind, attempt, zoom.
  destruct (insert_key_info_cases (key_info_store self) t j attrs (kim s) b Hb)
    as (k1 & [[-> Hv]|[-> Hv]]).
  - erewrite release_run by done. simpl. split; [exact Hv|done].
  - change (kim_view (kim s)) with (cal_view s) in *. rewrite Ht. simpl. eauto.
Qed.

(** A device call changes neither mappings nor slots. *)
Lemma on_device_run {E A} (f : D -> A * D) s :
  exists a d, on_device (E := E) f s =
    (Ok a, {| kim := kim s; device := d; key_slots := key_slots s |}).
Proof. unfold on_device. destruct (f (device s)). eauto. Qed.

Lemma does_not_exist_step c t s :
  on_kim (does_not_exist c t) s =
  (match cal_view s !! t with Some _ => Err PsaErrorAlreadyExists | None => Ok tt end, s).
Proof.
  unfold on_kim, zoom. rewrite does_not_exist_run. by destruct s.
Qed.

Lemma find_step attrs op s :
  length (key_slots s) = Z.to_nat ATCA_ATECC_SLOTS_COUNT ->
  (exists j, (0 <= j < ATCA_ATECC_SLOTS_COUNT)%Z /\ suitable (key_slots s) j attrs op /\
    on_slots (KeySlotStorage.find_suitable_slot attrs op) s =
    (Ok j, {| kim := kim s; device := device s;
              key_slots := alter (with_status Busy) (Z.to_nat j) (key_slots s) |})) \/
  on_slots (KeySlotStorage.find_suitable_slot attrs op) s = (Err PsaErrorInsufficientStorage, s).
Proof.
  intros Hl. pose proof (find_from_spec (Z.to_nat ATCA_ATECC_SLOTS_COUNT) 0 attrs op
    (key_slots s) ltac:(lia) ltac:(lia)) as Hf.
  unfold on_slots, zoom, KeySlotStorage.find_suitable_slot. pose proof slots_count_range.
  destruct (KeySlotStorage.find_from _ 0 attrs op (key_slots s)) as [[j|e|] l]; [| |done].
  - destruct Hf as (Hj & Hs & _ & ->). left. exists j. split_and!; [lia|lia|done|done].
  - destruct Hf as (-> & -> & _). right. by destruct s.
Qed.

Lemma calib_key_type_no_panic attrs : get_calib_key_type attrs <> Panic.
Proof. unfold get_calib_key_type. by repeat case_match. Qed.

Lemma raw_key_extract_no_panic ty key : raw_key_extract ty key <> Panic.
Proof. unfold raw_key_extract. by repeat case_match. Qed.

(** One step of a run: the first call of the goal's program has a known outcome. *)
Ltac step_ok H := rewrite (bind_run _ _ _ _ _ H); cbv beta.
Ltac step_err H := rewrite (bind_Err _ _ _ _ _ H).

Lemma generate_cal_creates self a op :
  cal_creates (triple self a (gk_key_name op)) (gk_attributes op) OpPsaGenerateKey
    (psa_generate_key_internal self a op).
Proof.
  intros s Hl. unfold psa_generate_key_internal.
  pose proof (does_not_exist_step (key_info_store self) (triple self a (gk_key_name op)) s) as H1'.
  destruct (cal_view s !! _) eqn:Ht; [step_err H1'; by auto|step_ok H1'].
  destruct (is_public_key _); [simpl; by auto|].
  pose proof (calib_key_type_no_panic (gk_attributes op)) as Hp.
  destruct (get_calib_key_type (gk_attributes op)) as [ty|e|];
    [erewrite (bind_run (lift (Ok ty))) by reflexivity|
     erewrite (bind_Err (lift (Err e))) by reflexivity; by auto|done].
  destruct (find_step (gk_attributes op) (Some OpPsaGenerateKey) s Hl)
    as [(j & Hj & Hs & H2')|H2']; [step_ok H2'|step_err H2'; by auto].
  destruct (on_device_run (E := ResponseStatus) (gen_key ty j)
    {| kim := kim s; device := device s;
       key_slots := alter (with_status Busy) (Z.to_nat j) (key_slots s) |})
    as (st & d & H3'). step_ok H3'. simpl kim. simpl key_slots.
  set (s1 := {| kim := kim s; device := d;
                key_slots := alter (with_status Busy) (Z.to_nat j) (key_slots s) |}).
  destruct st; try (erewrite (release_run (key_slots s) j) by done; simpl; by auto).
  pose proof (insert_or_release self _ j (gk_attributes op) _ (key_slots s) (fun e => e)
    s1 Hs Hj eq_refl Ht) as Hi.
  cbv beta in Hi. match type of Hi with match ?x with _ => _ end =>
    destruct x as [[u|e|] s2] end; [| |done].
  - destruct Hi as (b & Hb & Hv & Hk). split; [done|]. by exists j, b.
  - destruct Hi as [Hv Hk]. split; [exact Hv|by left].
Qed.

Lemma import_cal_creates self a op :
  cal_creates (triple self a (ik_key_name op)) (ik_attributes op) OpPsaImportKey
    (psa_import_key_internal self a op).
Proof.
  intros s Hl. unfold psa_import_key_internal.
  pose proof (does_not_exist_step (key_info_store self) (triple self a (ik_key_name op)) s) as H1'.
  destruct (cal_view s !! _) eqn:Ht; [step_err H1'; by auto|step_ok H1'].
  pose proof (calib_key_type_no_panic (ik_attributes op)) as Hp.
  destruct (get_calib_key_type (ik_attributes op)) as [ty|e|];
    [erewrite (bind_run (lift (Ok ty))) by reflexivity|
     erewrite (bind_Err (lift (Err e))) by reflexivity; by auto|done].
  destruct (find_step (ik_attributes op) (Some OpPsaImportKey) s Hl)
    as [(j & Hj & Hs & H2')|H2']; [step_ok H2'|step_err H2'; by auto].
  pose proof (raw_key_extract_no_panic (key_type (ik_attributes op)) (ik_data op)) as Hx.
  destruct (raw_key_extract _ _) as [data|e|];
    [erewrite (bind_run (lift (Ok data))) by reflexivity|
     erewrite (bind_Err (lift (Err e))) by reflexivity; by eauto 10|done].
  destruct (on_device_run (E := ResponseStatus) (import_key ty data j)
    {| kim := kim s; device := device s;
       key_slots := alter (with_status Busy) (Z.to_nat j) (key_slots s) |})
    as (st & d & H3'). step_ok H3'. simpl kim. simpl key_slots.
  set (s1 := {| kim := kim s; device := d;
                key_slots := alter (with_status Busy) (Z.to_nat j) (key_slots s) |}).
  destruct st; try (erewrite (release_run (key_slots s) j) by done; simpl; by auto).
  pose proof (insert_or_release self _ j (ik_attributes op) _ (key_slots s)
    (fun _ => PsaErrorStorageFailure) s1 Hs Hj eq_refl Ht) as Hi.
  cbv beta in Hi. match type of Hi with match ?x with _ => _ end =>
    destruct x as [[u|e|] s2] end; [| |done].
  - destruct Hi as (b & Hb & Hv & Hk). split; [done|]. by exists j, b.
  - destruct Hi as [Hv Hk]. split; [exact Hv|by left].
Qed.

(** *** Operations that change neither mappings nor slots *)
Definition still {A} (m : ST (state K D) ResponseStatus A) : Prop :=
  forall s, cal_view (m s).2 = cal_view s /\ key_slots (m s).2 = key_slots s /\
    (m s).1 <> Panic.

Lemma still_bind {A C} (m : ST (state K D) ResponseStatus A) (k : A -> ST _ ResponseStatus C) :
  still m -> (forall a, still (k a)) -> still (x ← m; k x).
Proof.
  intros Hm Hk s. destruct (Hm s) as (Hv & Hs & Hp). run_unfold.
  destruct (m s) as [[a| |] s1]; simpl in *; [|done|done].
  destruct (Hk a s1) as (Hv' & Hs' & Hp'). split_and!; congruence.
Qed.

Lemma still_ret {A} (a : A) : still (mret a).
Proof. by intros s. Qed.
Lemma still_raise {A} e : still (A := A) (raise e).
Proof. by intros s. Qed.
Lemma still_lift {A} (r : Result A) : r <> Panic -> still (lift r).
Proof. by intros Hr s. Qed.
Lemma still_device {A} (f : D -> A * D) : still (on_device f).
Proof. intros s. unfold on_device. by destruct (f (device s)). Qed.

Lemma still_kim {A} (m : ST K ResponseStatus A) :
  (forall k, kim_view (m k).2 = kim_view k /\ (m k).1 <> Panic) -> still (on_kim m).
Proof.
  intros Hm s. destruct (Hm (kim s)) as [Hv Hp]. unfold on_kim. run_unfold.
  by destruct (m (kim s)) as [r k].
Qed.

Lemma still_get_key_id c t : still (on_kim (get_key_id Z c t)).
Proof.
  apply still_kim. intros k. rewrite get_key_id_run. split; [done|]. simpl.
  destruct (kim_view k !! t); [|done]. by destruct (bincode_deserialize _).
Qed.

Lemma still_get_key_attributes c t : still (on_kim (get_key_attributes c t)).
Proof.
  apply still_kim. intros k. rewrite get_key_attributes_run. split; [done|]. simpl.
  by destruct (kim_view k !! t).
Qed.

Lemma raw_key_wrap_no_panic ty key : raw_key_wrap ty key <> Panic.
Proof. unfold raw_key_wrap. by repeat case_match. Qed.

Lemma still_random n acc : still (random_calls n acc).
Proof.
  revert acc. induction n as [|n IH]; intros acc; [apply still_ret|]. cbn [random_calls].
  apply still_bind; [apply still_device|]. intros [[] buf]; try apply still_raise. apply IH.
Qed.

Lemma still_verify mode h g : still (ecdsa_hash_verify mode h g).
Proof.
  intros s. unfold ecdsa_hash_verify, on_device. run_unfold.
  pose proof (verify_no_panic mode h g (device s)) as Hp.
  by destruct (dev_verify_hash mode h g (device s)) as [[[]|[]|] d].
Qed.

(** Take the next step of a program that is still. *)
Ltac still_step :=
  lazymatch goal with
  | |- still (raise _) => apply still_raise
  | |- still (mret _) => apply still_ret
  | |- still (lift (raw_key_wrap _ _)) => apply still_lift, raw_key_wrap_no_panic
  | |- still (lift (get_calib_key_type _)) => apply still_lift, calib_key_type_no_panic
  | |- still (lift _) => apply still_lift;
      auto using sign_hash_no_panic, verify_hash_no_panic, sign_message_no_panic,
        verify_message_no_panic
  | |- still (on_device _) => apply still_device
  | |- still (on_kim (get_key_id _ _ _)) => apply still_get_key_id
  | |- still (on_kim (get_key_attributes _ _)) => apply still_get_key_attributes
  | |- still (ecdsa_hash_verify _ _ _) => apply still_verify
  | |- still (random_calls _ _) => apply still_random
  | |- still (mbind _ _) => apply still_bind; [|intros ?]
  | |- still (match ?x with _ => _ end) => destruct x
  end.

(** The operations that neither create nor destroy a key. *)
Definition cal_reading (op : NativeOperation) : bool :=
  match op with
  | PsaGenerateKey _ | PsaImportKey _ | PsaDestroyKey _ => false
  | _ => true
  end.

Lemma reading_still uuid self a op :
  cal_reading op = true -> still (provider_call (provide uuid self) a op).
Proof.
  destruct op; intros Hr; try discriminate Hr; simpl;
    (apply still_bind; [|intros; apply still_ret]); try apply still_raise.
  1: { apply still_kim. intros k.
       destruct (list_keys_run (key_info_store self) a k) as (l & Hl & _). by rewrite Hl. }
  1: { apply still_bind; [|intros; apply still_ret]. apply still_kim. intros k.
       destruct (list_clients_run (key_info_store self) k) as (l & Hl & _). by rewrite Hl. }
  all: unfold guarded; case_decide; [|apply still_raise].
  all: unfold psa_export_public_key_internal, psa_export_key_internal, psa_sign_hash_internal,
    psa_verify_hash_internal, psa_sign_message_internal, psa_verify_message_internal,
    psa_hash_compute_internal, psa_hash_compare_internal, psa_generate_random_internal,
    ecdsa_hash_sign, ecdsa_verify_mode_get, sha256.
  all: repeat still_step.
Qed.

(** *** The invariant *)
Lemma suitable_not_taken slots j attrs op : suitable slots j attrs op -> ~ taken slots j.
Proof. intros (sl & Hsl & Hf & _) (_ & sl' & Hsl' & Hn). congruence. Qed.

Lemma cal_creates_ok t attrs oc m s :
  cal_creates t attrs oc m -> cal_ok s -> cal_ok (m s).2 /\ (m s).1 <> Panic.
Proof.
  intros Hm Hs. specialize (Hm s (co_length s Hs)).
  destruct (m s) as [[u|e|] s']; simpl; [| |done]; (split; [|done]).
  - destruct Hm as (_ & j & b & Hj & Hsuit & Hb & Hv & Hk).
    eapply (cal_ok_store s); try done.
    + intros t' i' Ht' Hp Hid. destruct (co_taken s Hs t' i' Ht' Hp) as (j' & Hj' & Htk).
      simplify_eq. by apply suitable_not_taken in Hsuit.
    + by rewrite Hk, length_alter.
    + rewrite Hk. intros j'. apply taken_alter_busy.
    + rewrite Hk. apply taken_busy; [done|apply Hs].
  - destruct Hm as (Hv & [Hk|(j & Hj & _ & Hk)]);
      apply (cal_ok_slots s); rewrite ?Hk, ?length_alter; auto.
    intros t' i' j' _ _ _. apply taken_alter_busy.
Qed.

Lemma cal_destroy_ok self a k s :
  client_provider_id (key_info_store self) = CryptoAuthLib -> cal_ok s ->
  cal_ok (psa_destroy_key_internal self a k s).2 /\
  (psa_destroy_key_internal self a k s).1 <> Panic.
Proof.
  intros Hid Hs. unfold psa_destroy_key_internal, on_kim, on_slots. run_unfold.
  set (t := triple self a k). assert (Hp : kt_provider_id t = CryptoAuthLib) by exact Hid.
  rewrite get_key_id_run. change (kim_view (kim s)) with (cal_view s).
  destruct (cal_view s !! t) as [i|] eqn:Ht; [|simpl; by destruct s].
  destruct (co_taken s Hs t i Ht Hp) as (j & Hj & (Hr & sl & Hsl & Hst)).
  unfold slot_of in Hj. rewrite Hj. simpl.
  destruct (remove_key_info_cases (key_info_store self) t (kim s)) as (k1 & [[-> Hv]|[-> Hv]]);
    change (kim_view (kim s)) with (cal_view s) in Hv.
  { simpl. split; [|done]. by apply (cal_ok_slots s). }
  change (kim_view (kim s)) with (cal_view s). rewrite Ht. simpl.
  assert (Hdel : forall slots, length slots = length (key_slots s) ->
    (forall j', j' <> j -> taken (key_slots s) j' -> taken slots j') ->
    cal_ok {| kim := k1; device := device s; key_slots := slots |}).
  { intros slots Hl Hk. apply (cal_ok_removed s _ t); [done|exact Hv|done|].
    intros t' i' j' Hne Ht' Hp' Hj'. apply Hk. intros ->.
    by apply Hne, (co_distinct s Hs t' t i' i j). }
  destruct (decide (slot_status sl = Locked)) as [Hlk|Hlk].
  - unfold KeySlotStorage.set_slot_status, KeySlotStorage.at_index. rewrite Hsl.
    unfold KeySlot.set_slot_status. rewrite decide_True by done. simpl.
    split; [|done]. apply Hdel; [by rewrite length_insert|].
    intros j' Hne Htk. by rewrite list_insert_id.
  - rewrite (set_slot_status_run Free j _ sl) by done. simpl. split; [|done].
    apply Hdel; [by rewrite length_alter|]. intros j' Hne Htk. apply taken_alter_ne; [lia|done|done].
Qed.

(** Creating a key on the chip, by generation or import.  On success the
    name was free and the key sits in a slot that was free and configured for it,
    now busy; on failure no mapping changes and no slot of another key is
    touched. *)
Theorem cal_create_key_spec self a gop iop :
  cal_creates (triple self a (gk_key_name gop)) (gk_attributes gop) OpPsaGenerateKey
    (psa_generate_key_internal self a gop) /\
  cal_creates (triple self a (ik_key_name iop)) (ik_attributes iop) OpPsaImportKey
    (psa_import_key_internal self a iop).
Proof. split; [apply generate_cal_creates|apply import_cal_creates]. Qed.

Lemma cal_safe uuid self :
  client_provider_id (key_info_store self) = CryptoAuthLib -> safe cal_ok (provide uuid self).
Proof.
  intros Hid a op. destruct (cal_reading op) eqn:Hr.
  - intros s Hs. destruct (reading_still uuid self a op Hr s) as (Hv & Hk & Hp).
    split; [|done]. apply (cal_ok_slots s); rewrite ?Hk; auto.
  - destruct op; try discriminate Hr; simpl; apply safe_bind_ret; intros s Hs;
      unfold guarded; (case_decide; [|done]).
    + eapply cal_creates_ok; [apply generate_cal_creates|done].
    + eapply cal_creates_ok; [apply import_cal_creates|done].
    + by apply cal_destroy_ok.
Qed.

(** C11: whatever an application asks for and whatever fails underneath, the
    provider does not panic and keeps its invariant: every stored key names a
    slot of the chip that is not free, and no two keys the same slot. *)
Theorem cal_invariant uuid self a op s r s' :
  client_provider_id (key_info_store self) = CryptoAuthLib -> cal_ok s ->
  provider_call (provide uuid self) a op s = (r, s') -> cal_ok s' /\ r <> Panic.
Proof. intros Hid Hs Hcall. pose proof (cal_safe uuid self Hid a op s Hs) as Hr. by rewrite Hcall in Hr. Qed.

(** An import whose key data cannot be decoded takes a slot and does not
    give it back: the call fails, no mapping is made, and the slot that was found
    for the key is left busy, out of reach of every later request. *)
Theorem import_leaks_slot self a op s e ty :
  length (key_slots s) = Z.to_nat ATCA_ATECC_SLOTS_COUNT ->
  cal_view s !! triple self a (ik_key_name op) = None ->
  get_calib_key_type (ik_attributes op) = Ok ty ->
  raw_key_extract (key_type (ik_attributes op)) (ik_data op) = Err e ->
  (exists j, (0 <= j < ATCA_ATECC_SLOTS_COUNT)%Z /\
     suitable (key_slots s) j (ik_attributes op) (Some OpPsaImportKey)) ->
  exists j s', psa_import_key_internal self a op s = (Err e, s') /\
    cal_view s' = cal_view s /\
    suitable (key_slots s) j (ik_attributes op) (Some OpPsaImportKey) /\
    key_slots s' = alter (with_status Busy) (Z.to_nat j) (key_slots s).
Proof.
  intros Hl Ht Hty Hx (j0 & Hj0 & Hs0). unfold psa_import_key_internal.
  pose proof (does_not_exist_step (key_info_store self) (triple self a (ik_key_name op)) s) as H1'.
  rewrite Ht in H1'. step_ok H1'. rewrite Hty, Hx.
  erewrite (bind_run (lift (Ok ty))) by reflexivity.
  pose proof (find_from_spec (Z.to_nat ATCA_ATECC_SLOTS_COUNT) 0 (ik_attributes op)
    (Some OpPsaImportKey) (key_slots s) ltac:(lia) ltac:(lia)) as Hf.
  destruct (find_step (ik_attributes op) (Some OpPsaImportKey) s Hl)
    as [(j & Hj & Hs & H2')|H2'].
  - step_ok H2'. exists j. eexists. split_and!; [reflexivity|done|done|done].
  - exfalso. unfold on_slots, zoom, KeySlotStorage.find_suitable_slot in H2'.
    destruct (KeySlotStorage.find_from _ 0 _ _ (key_slots s)) as [[j|e'|] l]; try done.
    destruct Hf as (_ & _ & Hn). apply (Hn j0); [lia|done].
Qed.

(** *** Initialisation *)
Lemma check_stored_drops c acc t s :
  is_Some (cal_view s !! t) -> check_stored c acc t s = (Ok (acc ++ [t]), s).
Proof.
  intros [i Hi]. unfold check_stored. unfold mbind, ST_bind, attempt.
  rewrite does_not_exist_step, Hi. done.
Qed.

Lemma check_all_drops c ts acc s :
  (forall t, t ∈ ts -> is_Some (cal_view s !! t)) ->
  fold_each ts acc (check_stored c) s = (Ok (acc ++ ts), s).
Proof.
  revert acc. induction ts as [|t ts IH]; intros acc Hts; cbn [fold_each].
  - by rewrite app_nil_r.
  - rewrite (bind_run _ _ _ _ _ (check_stored_drops c acc t s (Hts t ltac:(left)))).
    rewrite IH by (intros t' Ht'; apply Hts; by right). by rewrite <- app_assoc.
Qed.

Lemma remove_all_cal c ts s s' u :
  for_each ts (fun t => on_err (fun _ => tt) (on_kim (remove_key_info c t))) s = (Ok u, s') ->
  forall t, cal_view s' !! t = if decide (t ∈ ts) then None else cal_view s !! t.
Proof.
  revert s. induction ts as [|t0 ts IH]; intros s Hrun t; cbn [for_each] in Hrun.
  - injection Hrun as _ <-. case_decide as Hd; [by apply not_elem_of_nil in Hd|done].
  - apply bind_Ok in Hrun as ([] & s1 & Hone & Hrest). rewrite (IH _ Hrest t).
    assert (Hv : cal_view s1 = delete t0 (cal_view s)).
    { unfold on_err, on_kim, zoom in Hone.
      destruct (remove_key_info_cases c t0 (kim s)) as (k' & [[Hr Hv]|[Hr Hv]]);
        rewrite Hr in Hone; [done|].
      destruct (kim_view (kim s) !! t0); [|done]. injection Hone as <-. exact Hv. }
    rewrite Hv. destruct (decide (t0 = t)) as [->|Hne].
    + rewrite lookup_delete_eq, (decide_True (P := t ∈ t :: ts)) by left. by case_decide.
    + rewrite lookup_delete_ne by done. repeat case_decide; set_solver.
Qed.

Lemma set_access_keys_view files name s :
  cal_view (set_access_keys files name s).2 = cal_view s.
Proof.
  unfold set_access_keys. destruct name as [name|]; [|done].
  destruct (read_to_string files name) as [text|]; [|done].
  destruct (access_keys_from_str files text) as [keys|]; [|done]. rewrite bind_ret_state.
  apply (for_each_preserves keys _ (fun s' => cal_view s' = cal_view s)); [|done].
  intros [slot key] s1 _ Hs1. simpl. case_match; [|done]. rewrite bind_ret_state.
  unfold on_device. by destruct (add_access_key slot key (device s1)).
Qed.

Lemma set_access_keys_slots files name s :
  key_slots (set_access_keys files name s).2 = key_slots s.
Proof.
  unfold set_access_keys. destruct name as [name|]; [|done].
  destruct (read_to_string files name) as [text|]; [|done].
  destruct (access_keys_from_str files text) as [keys|]; [|done]. rewrite bind_ret_state.
  apply (for_each_preserves keys _ (fun s' => key_slots s' = key_slots s)); [|done].
  intros [slot key] s1 _ Hs1. simpl. case_match; [|done]. rewrite bind_ret_state.
  unfold on_device. by destruct (add_access_key slot key (device s1)).
Qed.

Lemma set_hw_config_length cfg slots :
  length (KeySlotStorage.set_hw_config cfg slots).2 = length slots.
Proof.
  apply (for_each_preserves cfg _ (fun l => length l = length slots)); [|done].
  intros slot l _ Hl. destruct (slot_is_valid slot); [|done]. unfold KeySlotStorage.at_index.
  destruct (l !! _); simpl; [by rewrite length_insert|done].
Qed.

Lemma remove_all_slots c ts s :
  key_slots (for_each ts (fun t => on_err (fun _ => tt) (on_kim (remove_key_info c t))) s).2 =
  key_slots s.
Proof.
  apply (for_each_preserves ts _ (fun s' => key_slots s' = key_slots s)); [|done].
  intros t s1 _ Hs1. unfold on_err, on_kim, zoom. by destruct (remove_key_info c t (kim s1)).
Qed.

(** What a start that succeeds leaves. *)
Lemma cal_new_run c setup files name s self s' :
  client_provider_id c = CryptoAuthLib ->
  new c setup files name s = (Ok self, s') ->
  length (key_slots s') = Z.to_nat ATCA_ATECC_SLOTS_COUNT /\
  forall t, cal_view s' !! t = if decide (kt_provider_id t = CryptoAuthLib) then None
                               else cal_view s !! t.
Proof.
  intros Hc Hnew. unfold new in Hnew.
  apply bind_Ok in Hnew as (dev & s0 & Hdev & Hnew). injection Hdev as _ <-.
  destruct (negb _); [done|].
  apply bind_Ok in Hnew as ([] & s1 & Hm & Hnew). injection Hm as <-.
  apply bind_Ok in Hnew as ([err cfg] & s2 & Hcfg & Hnew).
  case_decide; [done|]. apply bind_Ok in Hnew as ([] & s3 & Hhw & Hnew).
  apply bind_Ok in Hnew as (ts & s4 & Hall & Hnew).
  apply bind_Ok in Hnew as (rm & s5 & Hchk & Hnew).
  apply bind_Ok in Hnew as ([] & s6 & Hrem & Hnew).
  apply bind_Ok in Hnew as (ops & s7 & Hops & Hnew). injection Hops as _ <-.
  apply bind_Ok in Hnew as (b & s8 & Hkeys & Hnew). injection Hnew as _ <-.
  pose proof (set_access_keys_view files name s6) as Hv. rewrite Hkeys in Hv. simpl in Hv.
  pose proof (set_access_keys_slots files name s6) as Hsl. rewrite Hkeys in Hsl. simpl in Hsl.
  unfold on_err, on_kim, zoom, get_all in Hall.
  destruct (kim_get_all_spec (client_provider_id c) (kim s3)) as (l & Hl & _ & Hin).
  unfold on_err in Hall. rewrite Hl in Hall. simpl in Hall. injection Hall as <- <-.
  rewrite check_all_drops in Hchk by (intros t' Ht'; by apply Hin in Ht' as [? _]).
  injection Hchk as <- <-.
  pose proof (remove_all_slots c l {| kim := kim s3; device := device s3; key_slots := key_slots s3 |}) as Hsl6.
  rewrite Hrem in Hsl6. simpl in Hsl6.
  unfold on_device in Hcfg. destruct (get_config _) as [[err' cfg'] d]. injection Hcfg as -> -> <-.
  unfold on_err, on_slots, zoom in Hhw. simpl in Hhw.
  pose proof (set_hw_config_length cfg KeySlotStorage.new) as Hlen.
  destruct (KeySlotStorage.set_hw_config cfg _) as [[[]| |] slots]; [|done|done]. injection Hhw as <-.
  simpl in *. split; [rewrite Hsl, Hsl6, Hlen; apply length_replicate|].
  intros t. rewrite Hv, (remove_all_cal _ _ _ _ _ Hrem t).
  repeat case_decide; try done; [|].
  - exfalso. match goal with Ht : t ∈ l |- _ => apply Hin in Ht as [_ Ht] end. congruence.
  - apply eq_None_not_Some. intros Hsome. match goal with Ht : t ∉ l |- _ => apply Ht, Hin end.
    split; [exact Hsome|congruence].
Qed.

Lemma cal_new_established c setup files name s self s' :
  client_provider_id c = CryptoAuthLib ->
  new c setup files name s = (Ok self, s') ->
  cal_ok s' /\ forall t, kt_provider_id t <> CryptoAuthLib -> cal_view s' !! t = cal_view s !! t.
Proof.
  intros Hc Hnew. destruct (cal_new_run _ _ _ _ _ _ _ Hc Hnew) as [Hlen Hv]. split.
  - split; [done|..].
    + intros t i. rewrite Hv. by case_decide.
    + intros t1 t2 i1 i2 j. rewrite Hv. by case_decide.
  - intros t Ht. rewrite Hv. by case_decide.
Qed.

(** C39: starting the provider forgets every key it had.  The check of a stored
    mapping asks whether the triple does not exist, which fails for each triple
    that does, so a successful start leaves no mapping of this provider. *)
Theorem cal_new_forgets_keys c setup files name s self s' :
  client_provider_id c = CryptoAuthLib ->
  new c setup files name s = (Ok self, s') ->
  forall t, kt_provider_id t = CryptoAuthLib -> cal_view s' !! t = None.
Proof.
  intros Hc Hnew t Hp. destruct (cal_new_run _ _ _ _ _ _ _ Hc Hnew) as [_ Hv].
  rewrite Hv. by case_decide.
Qed.

(** *** Random bytes *)
Lemma random_calls_length n acc s b s' :
  random_calls n acc s = (Ok b, s') ->
  length b = length acc + n * Z.to_nat ATCA_RANDOM_BUFFER_SIZE.
Proof.
  revert acc s. induction n as [|n IH]; intros acc s Hrun; cbn [random_calls] in Hrun.
  - injection Hrun as <- _. lia.
  - apply bind_Ok in Hrun as ([err buf] & s1 & Hdev & Hrun).
    unfold on_device in Hdev. destruct (dev_random (device s)) as [[err' buf'] d] eqn:Hr.
    injection Hdev as <- <- <-. destruct err'; try done.
    rewrite (IH _ _ Hrun), length_app. erewrite (random_length (device s) buf');
      [lia|by rewrite Hr].
Qed.

(** A random request that succeeds returns as many bytes as were asked for,
    provided the size is not within a buffer of the largest [usize]; beyond that
    the number of device calls wraps around and the answer is too short. *)
Theorem generate_random_length op s b s' :
  (0 <= gr_size op < 2 ^ 64)%Z ->
  psa_generate_random_internal op s = (Ok b, s') ->
  ((gr_size op + ATCA_RANDOM_BUFFER_SIZE < 2 ^ 64)%Z -> length b = Z.to_nat (gr_size op)) /\
  ((2 ^ 64 <= gr_size op + ATCA_RANDOM_BUFFER_SIZE - 1)%Z -> length b < Z.to_nat (gr_size op)).
Proof.
  intros Hsz Hrun. pose proof random_buffer_size as HB. unfold psa_generate_random_internal in Hrun.
  set (B := ATCA_RANDOM_BUFFER_SIZE) in *. set (n := gr_size op) in *.
  apply bind_Ok in Hrun as (rb & s1 & Hcalls & Hrun). injection Hrun as <- _.
  apply random_calls_length in Hcalls. simpl in Hcalls. fold B in Hcalls.
  rewrite length_take, Hcalls. unfold usize_wrap. split; intros Hb.
  - rewrite (Z.mod_small (n + B)), (Z.mod_small (n + B - 1)) by lia.
    assert (n <= (n + B - 1) / B * B)%Z.
    { pose proof (Z.div_mod (n + B - 1) B ltac:(lia)).
      pose proof (Z.mod_pos_bound (n + B - 1) B ltac:(lia)). nia. }
    assert (0 <= (n + B - 1) / B)%Z by (apply Z.div_pos; lia). nia.
  - assert (Hw : (Z.modulo (Z.modulo (n + B) (2 ^ 64) - 1) (2 ^ 64) = n + B - 1 - 2 ^ 64)%Z).
    { rewrite Zminus_mod_idemp_l. symmetry. apply (Z.mod_unique_pos _ _ 1); lia. }
    rewrite Hw. assert (HB' : ((n + B - 1 - 2 ^ 64) / B * B <= n + B - 1 - 2 ^ 64)%Z).
    { pose proof (Z.div_mod (n + B - 1 - 2 ^ 64) B ltac:(lia)).
      pose proof (Z.mod_pos_bound (n + B - 1 - 2 ^ 64) B ltac:(lia)). nia. }
    assert (0 <= (n + B - 1 - 2 ^ 64) / B)%Z by (apply Z.div_pos; lia). nia.
Qed.

(** *** Key ownership *)
Lemma keeps_still {A} P (m : ST (state K D) ResponseStatus A) s :
  still m -> keeps cal_view P (m s).2 s.
Proof. intros Hm. destruct (Hm s) as (Hv & _). unfold keeps. by rewrite Hv. Qed.

Lemma keeps_slots {E A} P (m : ST (list AteccKeySlot) E A) s :
  keeps cal_view P (on_slots m s).2 s.
Proof. unfold keeps, on_slots, zoom, cal_view. by destruct (m (key_slots s)). Qed.

Lemma keeps_cal_attempt {E F A} P (m : ST (state K D) E A) s :
  keeps cal_view P (m s).2 s -> keeps cal_view P (attempt (F := F) m s).2 s.
Proof. intros Hm. unfold attempt. by destruct (m s) as [[| |] ?]. Qed.

Lemma keeps_release P j e s : keeps cal_view P (release_and_fail j e s).2 s.
Proof.
  apply bind_state; [apply _|apply keeps_cal_attempt, keeps_slots|done].
Qed.

Lemma keeps_cal_insert (P : KeyTriple -> Prop) c t (j : Z) attrs s :
  P t -> keeps cal_view P (on_kim (insert_key_info c t j attrs) s).2 s.
Proof.
  intros Ht. unfold keeps, on_kim, zoom, cal_view.
  destruct (bincode_serialize j) as [b|] eqn:Hb.
  - destruct (insert_key_info_cases c t j attrs (kim s) b Hb) as (k' & [[-> Hv]|[-> Hv]]);
      simpl; rewrite Hv; [done|by apply agree_off_insert].
  - unfold insert_key_info. run_unfold. by rewrite Hb.
Qed.

Lemma keeps_cal_remove (P : KeyTriple -> Prop) c t s :
  P t -> keeps cal_view P (on_kim (remove_key_info c t) s).2 s.
Proof.
  intros Ht. unfold keeps, on_kim, zoom, cal_view.
  destruct (remove_key_info_cases c t (kim s)) as (k' & [[-> Hv]|[-> Hv]]);
    simpl; rewrite Hv; [done|by apply agree_off_delete].
Qed.

Lemma still_does_not_exist c t : still (on_kim (does_not_exist c t)).
Proof.
  apply still_kim. intros k. rewrite does_not_exist_run. split; [done|]. simpl.
  by destruct (kim_view k !! t).
Qed.

(** One step of a program that keeps the mappings outside [P]. *)
Ltac keeps_step :=
  lazymatch goal with
  | |- keeps _ _ (mbind _ _ _).2 _ => apply bind_state; [apply _| |intros ? ? _]
  | |- keeps _ _ (on_kim (does_not_exist _ _) _).2 _ => apply keeps_still, still_does_not_exist
  | |- keeps _ _ (on_kim (get_key_id _ _ _) _).2 _ => apply keeps_still, still_get_key_id
  | |- keeps _ _ (on_kim (remove_key_info _ _) _).2 _ => by apply keeps_cal_remove
  | |- keeps _ _ (on_kim (insert_key_info _ _ _ _) _).2 _ => by apply keeps_cal_insert
  | |- keeps _ _ (attempt _ _).2 _ => apply keeps_cal_attempt
  | |- keeps _ _ (on_slots _ _).2 _ => apply keeps_slots
  | |- keeps _ _ (on_device _ _).2 _ => apply keeps_still, still_device
  | |- keeps _ _ (release_and_fail _ _ _).2 _ => apply keeps_release
  | |- keeps _ _ (lift _ _).2 _ => done
  | |- keeps _ _ (mret _ _).2 _ => done
  | |- keeps _ _ (raise _ _).2 _ => done
  | |- keeps _ _ (panic _).2 _ => done
  | |- keeps _ _ ((match ?x with _ => _ end) _).2 _ => destruct x
  end.

Lemma cal_keeps_to uuid self :
  keeps_to cal_view (client_provider_id (key_info_store self)) (provide uuid self).
Proof.
  intros a op s. set (p := client_provider_id _).
  change (keeps cal_view (own p (touches a op)) (provider_call (provide uuid self) a op s).2 s).
  destruct (cal_reading op) eqn:Hr; [by apply keeps_still, reading_still|].
  destruct op; try discriminate Hr; simpl; rewrite bind_ret_state; unfold guarded;
    (case_decide; [|done]);
    unfold psa_generate_key_internal, psa_import_key_internal, psa_destroy_key_internal;
    repeat keeps_step.
Qed.
Lemma cal_well_behaved uuid self : well_behaved cal_view (provide uuid self).
Proof. eapply keeps_to_well_behaved, cal_keeps_to. Qed.
End Provider.

(** ** A concrete chip *)
Definition chip_config : SlotConfig :=
  {| write_config := WcEncrypt; cfg_key_type := P256EccKey;
     ecc_key_attr := {| is_private := true; ext_sign := true |}; is_secret := true;
     no_mac := true; pub_info := true |}.
Definition chip_slots : list AtcaSlot :=
  (fun n => {| slot_id := Z.of_nat n; slot_is_locked := bool_decide (n = 0);
               slot_config := chip_config |}) <$> seq 0 16.

#[export] Instance demo_chip : Atecc unit := {
  ATCA_ATECC_SLOTS_COUNT := 16;
  ATCA_ATECC_MIN_SLOT_IDX_FOR_PUB_KEY := 8;
  ATCA_RANDOM_BUFFER_SIZE := 32;
  ATCA_SIG_SIZE := 64;
  ATCA_SHA2_256_DIGEST_SIZE := 32;
  default_config := chip_config;
  slot_is_valid s := ((0 <=? slot_id s) && (slot_id s <? 16))%Z;
  is_configuration_locked _ := true;
  get_device_type _ := ATECC608A;
  get_config d := ((AtcaSuccess, chip_slots), d);
  add_access_key _ _ d := (AtcaSuccess, d);
  gen_key _ _ d := (AtcaSuccess, d);
  import_key _ _ _ d := (AtcaSuccess, d);
  export_key _ _ d := ((AtcaSuccess, zeroed 64), d);
  get_public_key _ d := ((AtcaSuccess, zeroed 64), d);
  dev_sign_hash _ _ b d := ((AtcaSuccess, b), d);
  dev_verify_hash _ _ _ d := (Ok true, d);
  dev_sha _ b d := ((AtcaSuccess, b), d);
  dev_random d := ((AtcaSuccess, zeroed 32), d);
}.
#[export] Instance demo_chip_laws : AteccLaws unit.
Proof.
  split; try done.
  - intros s [Hlo%Z.leb_le Hhi%Z.ltb_lt]%andb_prop. done.
  - intros d b [= <-]. done.
Qed.
#[export] Instance demo_key_api : KeyApi := {
  is_public_key t := match t with RsaPublicKey | EccPublicKey _ | DhPublicKey _ => true
                                | _ => false end;
  is_exportable a := export (usage_flags (policy a));
  sha256_hash_length := 32;
  validate_sign_hash _ _ := Ok tt; validate_verify_hash _ _ := Ok tt;
  validate_sign_message _ _ := Ok tt; validate_verify_message _ _ := Ok tt;
}.
#[export] Instance demo_key_api_laws : KeyApiLaws.
Proof. done. Qed.
#[export] Instance demo_u8 : BincodeU8.
Proof.
  intros z Hz. simpl. rewrite decide_True; [eauto|].
  change (256 ^ Z.of_nat 4)%Z with (2 ^ 32)%Z. lia.
Qed.

Definition cal_client : KeyInfoManagerClient := {| client_provider_id := CryptoAuthLib |}.
Definition cal_blank : state OnDisk unit :=
  {| kim := {| od_manager := {| key_store := ∅; mappings_dir_path := ["map"] |};
               od_disk := {| Fs.nodes := {[ ["map"] := Fs.Dir ]}; Fs.faults := [] |} |};
     device := tt; key_slots := [] |}.

(** The provider started on an empty disk, then with one key in slot 1 (slot 0
    is locked). *)
Definition no_files : AccessKeyFiles :=
  {| read_to_string _ := None; access_keys_from_str _ := None |}.
Definition cal_self : Provider :=
  {| key_info_store := cal_client; supported_opcodes := set_opcodes ATECC608A |}.
Definition cal0 : state OnDisk unit := (new cal_client (Ok tt) no_files None cal_blank).2.
Definition cal_gen : GenerateKeyOp := {| gk_key_name := "k"; gk_attributes := ecc_attributes |}.
Definition cal_app : ApplicationName := from_name "app".
Definition cal1 : state OnDisk unit :=
  (psa_generate_key_internal cal_self cal_app cal_gen cal0).2.

Lemma cal0_ok : cal_ok cal0.
Proof.
  assert (Hv : cal_view cal0 = ∅) by (vm_compute; reflexivity).
  split; [vm_compute; reflexivity|..]; rewrite Hv.
  - intros t i Hi. by rewrite lookup_empty in Hi.
  - intros t1 t2 i1 i2 j Hi. by rewrite lookup_empty in Hi.
Qed.

Lemma find_suitable_slot_spec_witness :
  exists slots', KeySlotStorage.find_suitable_slot ecc_attributes (Some OpPsaGenerateKey)
    (key_slots cal0) = (Ok 1%Z, slots') /\
    slots' = alter (with_status Busy) 1 (key_slots cal0).
Proof.
  pose proof (find_suitable_slot_spec ecc_attributes (Some OpPsaGenerateKey) (key_slots cal0)
    (co_length _ cal0_ok)) as Hs.
  destruct (KeySlotStorage.find_suitable_slot ecc_attributes (Some OpPsaGenerateKey)
    (key_slots cal0)) as [r slots'] eqn:Hrun.
  assert (r = Ok 1%Z) as -> by (vm_compute in Hrun; congruence).
  exists slots'. split; [reflexivity|]. destruct Hs as (_ & _ & _ & Hs & _). exact Hs.
Defined.

Lemma key_pair_slot_config_witness : is_secret chip_config = true.
Proof.
  refine (proj1 (proj2 (proj2 (key_pair_slot_config
    {| ref_count := 0; slot_status := Free; config := chip_config |} 1 ecc_attributes
    (Some OpPsaGenerateKey) eq_refl _)))). vm_compute. reflexivity.
Defined.

Lemma raw_key_roundtrip_witness :
  raw_key_extract (EccPublicKey SecpR1) ("004"%char :: zeroed 64) = Ok (zeroed 64).
Proof.
  refine (proj1 (raw_key_roundtrip (EccPublicKey SecpR1) (zeroed 64)) _ _ _);
    [vm_compute; reflexivity|discriminate].
Defined.

Lemma cal_create_key_spec_witness :
  exists j, suitable (key_slots cal0) j ecc_attributes (Some OpPsaGenerateKey) /\
    key_slots cal1 = alter (with_status Busy) (Z.to_nat j) (key_slots cal0).
Proof.
  pose proof (proj1 (cal_create_key_spec cal_self cal_app cal_gen
    {| ik_key_name := "k"; ik_attributes := ecc_attributes; ik_data := [] |})
    cal0 (co_length _ cal0_ok)) as Hs.
  assert (Hrun : psa_generate_key_internal cal_self cal_app cal_gen cal0 = (Ok tt, cal1))
    by (vm_compute; reflexivity).
  rewrite Hrun in Hs. destruct Hs as (_ & j & b & _ & Hsuit & _ & _ & Hk).
  exists j. split; [exact Hsuit|exact Hk].
Defined.

Lemma cal_invariant_witness : cal_ok cal1.
Proof.
  apply (cal_invariant Some cal_self cal_app (PsaGenerateKey cal_gen) cal0
    (Ok RPsaGenerateKey) cal1); [reflexivity|apply cal0_ok|vm_compute; reflexivity].
Defined.

(** A public key of 3 bytes, offered to a chip with a suitable slot. *)
Definition bad_import : ImportKeyOp :=
  {| ik_key_name := "p";
     ik_attributes :=
       {| lifetime := Persistent; key_type := EccPublicKey SecpR1; bits := 256;
          policy := {| usage_flags := {| export := true; copy := false; cache := false;
                         encrypt := false; decrypt := false; sign_message := false;
                         verify_message := true; sign_hash := false; verify_hash := true;
                         derive := false |};
                       permitted_algorithms :=
                         Alg_AsymmetricSignature (Ecdsa (SignHash_Specific Sha256)) |} |};
     ik_data := as_bytes "abc" |}.

Lemma import_leaks_slot_witness :
  exists j, key_slots (psa_import_key_internal cal_self cal_app bad_import cal0).2 =
    alter (with_status Busy) (Z.to_nat j) (key_slots cal0).
Proof.
  destruct (import_leaks_slot cal_self cal_app bad_import cal0 PsaErrorInvalidArgument P256EccKey)
    as (j & s' & Hrun & _ & _ & Hk).
  - apply (co_length _ cal0_ok).
  - vm_compute. reflexivity.
  - reflexivity.
  - reflexivity.
  - exists 8%Z. split; [vm_compute; split; [discriminate|reflexivity]|].
    eexists. split_and!; [vm_compute; reflexivity..].
  - exists j. rewrite Hrun. exact Hk.
Defined.

Lemma cal_new_forgets_keys_witness :
  is_Some (cal_view cal1 !! triple cal_self cal_app "k") /\
  cal_view (new cal_client (Ok tt) no_files None cal1).2 !! triple cal_self cal_app "k" = None.
Proof.
  split; [eexists; vm_compute; reflexivity|].
  apply (cal_new_forgets_keys cal_client (Ok tt) no_files None cal1 cal_self); [reflexivity| |reflexivity].
  vm_compute. reflexivity.
Defined.

Lemma generate_random_length_witness :
  exists b, (psa_generate_random_internal {| gr_size := 40 |} cal0).1 = Ok b /\ length b = 40.
Proof.
  destruct (psa_generate_random_internal {| gr_size := 40 |} cal0) as [[b|e|] s'] eqn:Hrun;
    [|vm_compute in Hrun; discriminate Hrun|vm_compute in Hrun; discriminate Hrun].
  exists b. split; [reflexivity|].
  refine (proj1 (generate_random_length {| gr_size := 40 |} cal0 b s' _ Hrun) _); simpl; lia.
Defined.

(** A request for all but one of the bytes a [usize] can count gets none. *)
Example generate_random_wraps :
  (psa_generate_random_internal {| gr_size := 2 ^ 64 - 1 |} cal0).1 = Ok [].
Proof.
  unfold psa_generate_random_internal. cbn [gr_size].
  assert (Hc : (usize_wrap (usize_wrap (2 ^ 64 - 1 + ATCA_RANDOM_BUFFER_SIZE) - 1) /
    ATCA_RANDOM_BUFFER_SIZE)%Z = 0%Z) by reflexivity.
  rewrite Hc. generalize (Z.to_nat (2 ^ 64 - 1)). intros n.
  erewrite bind_run by reflexivity. unfold mret, ST_ret. by rewrite take_nil.
Qed.
