(* ===== verification/Threads.v ===== *)
(** * Threads as interruptible programs

    A program of a thread is a tree of atomic steps on the state it shares with
    others ([prog]); what the thread owns is passed along ([TH]).  [run] executes it
    alone, [pool_step] interleaves the steps of many.  [rg] is what a thread
    guarantees when the others keep to a relation: [rg_run] uses it for a thread that
    runs alone, [pool_rg] for threads that run together.  The clients of the
    end-to-end tests are such threads. *)
From S2P Require Import Prelude.

(** A step at the state [w] makes it [f w]; the program goes on as [k w]. *)
Inductive prog (W A : Type) :=
  | Ret (a : A)
  | Step (f : W -> W) (k : W -> prog W A).
Arguments Ret {W A}.
Arguments Step {W A}.

Section Programs.
Context {W : Type}.

Fixpoint prog_bind {A B} (p : prog W A) (q : A -> prog W B) : prog W B :=
  match p with
  | Ret a => q a
  | Step f k => Step f (fun w => prog_bind (k w) q)
  end.

(** One atomic call. *)
Definition atomic {A} (m : W -> A * W) : prog W A :=
  Step (fun w => (m w).2) (fun w => Ret (m w).1).

(** The thread runs alone. *)
Fixpoint run {A} (p : prog W A) (w : W) : A * W :=
  match p with
  | Ret a => (a, w)
  | Step f k => run (k w) (f w)
  end.

Lemma run_bind {A B} (p : prog W A) (q : A -> prog W B) w :
  run (prog_bind p q) w = let '(a, w') := run p w in run (q a) w'.
Proof. revert w. induction p as [a|f k IH]; intros w; simpl; [done|apply IH]. Qed.
End Programs.

(** A thread with a state [S] of its own, that can fail or panic. *)
Definition TH (W S E A : Type) : Type := S -> prog W (result E A * S).

Section Threads.
Context {W S : Type}.

#[export] Instance TH_ret {E} : MRet (TH W S E) := fun A a s => Ret (Ok a, s).
#[export] Instance TH_bind {E} : MBind (TH W S E) := fun A B k m s =>
  prog_bind (m s) (fun '(r, s') =>
    match r with
    | Ok a => k a s'
    | Err e => Ret (Err e, s')
    | Panic => Ret (Panic, s')
    end).

(** A computation on the thread's own state takes no step. *)
Definition own {E A} (m : ST S E A) : TH W S E A := fun s => Ret (m s).

(** The outcome as a value; a panic goes on. *)
Definition caught {E F A} (m : TH W S E A) : TH W S F (result E A) := fun s =>
  prog_bind (m s) (fun '(r, s') =>
    Ret (match r with Ok a => Ok (Ok a) | Err e => Ok (Err e) | Panic => Panic end, s')).

(** [Result::expect] and [Result::expect_err] panic. *)
Definition expect {E F A} (m : TH W S E A) : TH W S F A :=
  r ← caught m; own (lift (match r with Ok a => Ok a | _ => Panic end)).
Definition expect_err {E F A} (m : TH W S E A) : TH W S F E :=
  r ← caught m; own (lift (match r with Err e => Ok e | _ => Panic end)).

Fixpoint each {E A} (l : list A) (body : A -> TH W S E unit) : TH W S E unit :=
  match l with
  | [] => mret tt
  | x :: l' => body x ;; each l' body
  end.
Fixpoint times {E} (n : nat) (body : TH W S E unit) : TH W S E unit :=
  match n with
  | O => mret tt
  | Datatypes.S n' => body ;; times n' body
  end.
End Threads.

(** ** Rely and guarantee *)
Section RelyGuarantee.
Context {W : Type} (R G : W -> W -> Prop) `{!PreOrder R}.

(** When the others' steps are in [R], those of [p] are in [G] and its result and
    the state it ends in satisfy [Q]. *)
Fixpoint rg {A} (Q : A -> W -> Prop) (p : prog W A) (w : W) : Prop :=
  match p with
  | Ret a => forall w', R w w' -> Q a w'
  | Step f k => forall w', R w w' -> G w' (f w') /\ rg Q (k w') (f w')
  end.

Lemma rg_others {A} (Q : A -> W -> Prop) p w w' : rg Q p w -> R w w' -> rg Q p w'.
Proof. intros Hp Hw. destruct p; simpl in *; intros w2 Hw2; apply Hp; by trans w'. Qed.

Lemma rg_now {A} (Q : A -> W -> Prop) a w : rg Q (Ret a) w -> Q a w.
Proof. intros Hq. by apply Hq. Qed.

Lemma rg_mono {A} (Q Q' : A -> W -> Prop) p w :
  rg Q p w -> (forall a w', Q a w' -> Q' a w') -> rg Q' p w.
Proof.
  intros Hp Hq. revert w Hp. induction p as [a|f k IH]; intros w Hp; simpl in *.
  - intros w' Hw. by apply Hq, Hp.
  - intros w' Hw. destruct (Hp w' Hw) as [Hg Hk]. split; [done|]. by apply IH.
Qed.

Lemma rg_bind {A B} (Q : B -> W -> Prop) (p : prog W A) q w :
  rg (fun a w' => rg Q (q a) w') p w -> rg Q (prog_bind p q) w.
Proof.
  revert w. induction p as [a|f k IH]; intros w Hp; simpl in *.
  - by apply Hp.
  - intros w' Hw. destruct (Hp w' Hw) as [Hg Hk]. split; [done|]. by apply IH.
Qed.

Lemma rg_atomic {A} (Q : A -> W -> Prop) (m : W -> A * W) w :
  (forall w', R w w' -> G w' (m w').2 /\ forall w2, R (m w').2 w2 -> Q (m w').1 w2) ->
  rg Q (atomic m) w.
Proof. done. Qed.

(** A thread that runs alone. *)
Lemma rg_run {A} (Q : A -> W -> Prop) p w : rg Q p w -> Q (run p w).1 (run p w).2.
Proof.
  revert w. induction p as [a|f k IH]; intros w Hp; simpl in *.
  - by apply Hp.
  - apply IH. by apply Hp.
Qed.
End RelyGuarantee.

(** ** The pool *)
Inductive pool_step {W A} : list (prog W A) * W -> list (prog W A) * W -> Prop :=
  | pool_step_intro ps i f k w : ps !! i = Some (Step f k) ->
      pool_step (ps, w) (<[i := k w]> ps, f w).

Section Pool.
Context {W A : Type} (R G : nat -> W -> W -> Prop) (Q : nat -> A -> W -> Prop).
Context `{!forall i, PreOrder (R i)}.
(** What a thread guarantees, the others can rely on. *)
Context (HGR : forall i j w w', i <> j -> G i w w' -> R j w w').

Definition all_rg (ps : list (prog W A)) (w : W) : Prop :=
  forall i p, ps !! i = Some p -> rg (R i) (G i) (Q i) p w.

Lemma all_rg_step ps w ps' w' : all_rg ps w -> pool_step (ps, w) (ps', w') -> all_rg ps' w'.
Proof.
  intros Hall Hstep. inversion Hstep as [? i f k ? Hi]; subst.
  destruct (Hall i _ Hi w) as [Hg Hk]; [done|].
  intros j p [(<- & <- & _)|(Hne & Hj)]%list_lookup_insert_Some; [done|].
  apply (rg_others (R j) (G j) _ p w); [by apply Hall|]. by apply (HGR i j).
Qed.

(** Threads that guarantee what the others rely on: however they are interleaved,
    each one that has ended has done what it does alone. *)
Lemma pool_rg ps w ps' w' :
  all_rg ps w -> rtc pool_step (ps, w) (ps', w') ->
  all_rg ps' w' /\ forall i a, ps' !! i = Some (Ret a) -> Q i a w'.
Proof.
  intros Hall Hsteps.
  assert (Hall' : all_rg ps' w').
  { remember (ps, w) as c eqn:Hc. remember (ps', w') as c' eqn:Hc'.
    revert ps w Hc Hall. induction Hsteps as [c|c [ps1 w1] c' Hs _ IH]; intros ps w -> Hall.
    - by injection Hc' as -> ->.
    - apply (IH Hc' ps1 w1 eq_refl). by eapply all_rg_step. }
  split; [done|]. intros i a Hi. apply (rg_now (R i) (G i)). by apply Hall'.
Qed.
End Pool.
