(* ===== verification/Claims.v ===== *)
(** * Claims of threads

    A program of a thread that can fail ([PR]) and the pool on which requests run
    such programs ([crew]): requests arrive on free threads at any time and the steps
    of all of them interleave.  [claims] is a program logic for them: a request has an
    intent, fixed when it arrives, and holds something of the shared state, which each
    step may exchange for something else as long as what the others hold is left
    alone.  [crew_claims] puts the requests together: when no two requests in progress
    have intents that clash, the invariant of the shared state holds all along. *)
From S2P Require Import Prelude Threads.

(** ** Programs that can fail *)
Definition PR (W E A : Type) : Type := prog W (result E A).

Section Programs.
Context {W : Type}.

#[export] Instance PR_ret {E} : MRet (PR W E) := fun A a => Ret (Ok a).
#[export] Instance PR_bind {E} : MBind (PR W E) := fun A B k m =>
  prog_bind m (fun r =>
    match r with
    | Ok a => k a
    | Err e => Ret (Err e)
    | Panic => Ret Panic
    end).

(** What is done at once, under one lock; what needs no access at all; and the
    outcome as a value. *)
Definition once {E A} (m : ST W E A) : PR W E A := atomic m.
Definition local {E A} (r : result E A) : PR W E A := Ret r.
Definition tried {E F A} (m : PR W E A) : PR W F (result E A) :=
  prog_bind m (fun r => Ret (match r with Panic => Panic | r => Ok r end)).

(** The program, run alone, is the computation. *)
Definition alike {E A} (p : PR W E A) (m : ST W E A) : Prop := forall w, run p w = m w.

Lemma alike_ret {E A} (a : A) : alike (E := E) (mret a) (mret a).
Proof. done. Qed.
Lemma alike_once {E A} (m : ST W E A) : alike (once m) m.
Proof. intros w. unfold once. simpl. by destruct (m w). Qed.
Lemma alike_local {E A} (r : result E A) : alike (local r) (lift r).
Proof. done. Qed.
Lemma alike_bind {E A B} (p : PR W E A) (m : ST W E A) (q : A -> PR W E B) k :
  alike p m -> (forall a, alike (q a) (k a)) -> alike (x ← p; q x) (x ← m; k x).
Proof.
  intros Hp Hq w. unfold mbind, PR_bind, ST_bind. rewrite run_bind, Hp.
  destruct (m w) as [[a|e|] w']; [apply Hq|done|done].
Qed.
Lemma alike_tried {E F A} (p : PR W E A) (m : ST W E A) :
  alike p m -> alike (tried (F := F) p) (attempt m).
Proof.
  intros Hp w. unfold tried, attempt. rewrite run_bind, Hp. by destruct (m w) as [[a|e|] w'].
Qed.
End Programs.

(** Follow a program and the computation it should be, side by side. *)
Ltac alike_step :=
  lazymatch goal with
  | |- alike (mbind _ _) (mbind _ _) => apply alike_bind; [|intros ?]
  | |- alike (once _) _ => apply alike_once
  | |- alike (tried _) _ => apply alike_tried
  | |- alike (mret _) _ => apply alike_ret
  | |- alike (local _) _ => apply alike_local
  | |- alike (match ?x with _ => _ end) _ => destruct x
  end.

(** ** The pool *)
Section Crew.
Context {W R Call : Type} (code : Call -> prog W R).

Record crew := { shared : W; threads : gmap nat (Call * prog W R) }.

Definition finished (p : prog W R) : bool := match p with Ret _ => true | _ => false end.

(** Thread [tid] takes its next step; one that has finished has none. *)
Definition go (tid : nat) (x : crew) : option crew :=
  '(c, p) ← threads x !! tid;
  match p with
  | Ret _ => None
  | Step f k => Some {| shared := f (shared x);
                        threads := <[tid := (c, k (shared x))]> (threads x) |}
  end.

(** A free thread takes a request. *)
Definition take_on (tid : nat) (c : Call) (x : crew) : crew :=
  {| shared := shared x; threads := <[tid := (c, code c)]> (threads x) |}.
Definition spare (x : crew) (tid : nat) : bool :=
  match threads x !! tid with Some (_, p) => finished p | None => true end.

Definition open (w : W) : crew := {| shared := w; threads := ∅ |}.

Inductive crew_step : crew -> crew -> Prop :=
  | crew_go tid x y : go tid x = Some y -> crew_step x y
  | crew_take tid c x : spare x tid = true -> crew_step x (take_on tid c x).

(** A sequence of such steps, to be run. *)
Inductive turn := Arrives (tid : nat) (c : Call) | Goes (tid : nat).
Definition take_turn (a : turn) (x : crew) : option crew :=
  match a with
  | Arrives tid c => if spare x tid then Some (take_on tid c x) else None
  | Goes tid => go tid x
  end.
Fixpoint take_turns (l : list turn) (x : crew) : option crew :=
  match l with
  | [] => Some x
  | a :: l' => y ← take_turn a x; take_turns l' y
  end.

Lemma take_turn_step a x y : take_turn a x = Some y -> crew_step x y.
Proof.
  destruct a as [tid c|tid]; simpl; intros Ha; [|by apply (crew_go tid)].
  destruct (spare x tid) eqn:Hs; simplify_eq. by apply crew_take.
Qed.
Lemma take_turns_run l x y : take_turns l x = Some y -> rtc crew_step x y.
Proof.
  revert x. induction l as [|a l IH]; intros x Hl; simplify_eq/=; [done|].
  apply bind_Some in Hl as (z & Ha & Hl). eapply rtc_l; [by eapply take_turn_step|by apply IH].
Qed.
End Crew.
Arguments crew : clear implicits.
Arguments turn : clear implicits.

(** ** Claims *)
Section Claims.
(** Some things that can be held count, and the invariant may depend on how many of
    them are held. *)
Context {W I H : Type} (Inv : nat -> W -> Prop) (counts : H -> bool).
(** What a request with an intent says of the state when it holds something; what two
    requests can hold at once; and nothing. *)
Context (holds : I -> H -> W -> Prop) (apart : H -> H -> Prop) (none : H).
(** Intents that cannot be pursued at once, and how many requests there are at most. *)
Context (clash : I -> I -> bool) (cap : nat).
Context (apart_sym : forall h g, apart h g -> apart g h) (apart_none : forall g, apart none g).
Context (holds_none : forall i n w, Inv n w -> holds i none w) (none_counts : counts none = false).

Definition weight (h : H) : nat := if counts h then 1 else 0.

(** A step of a request with intent [i], which held [h] and then holds [h'], while the
    others hold [n] things that count. *)
Record exchange (i : I) (n : nat) (h : H) (w : W) (h' : H) (w' : W) : Prop := {
  ex_inv : Inv (weight h' + n) w';
  ex_own : holds i h' w';
  ex_others j g : clash i j = false -> apart h g -> holds j g w -> apart h' g /\ holds j g w';
}.

(** The program keeps to its claims and ends with a result in [Q]. *)
Fixpoint claims {A} (i : I) (Q : A -> H -> Prop) (p : prog W A) (h : H) : Prop :=
  match p with
  | Ret a => Q a h
  | Step f k => forall n w, n < cap -> Inv (weight h + n) w -> holds i h w ->
      exists h', exchange i n h w h' (f w) /\ claims i Q (k w) h'
  end.

Lemma claims_mono {A} i (Q Q' : A -> H -> Prop) p h :
  claims i Q p h -> (forall a g, Q a g -> Q' a g) -> claims i Q' p h.
Proof.
  intros Hp HQ. revert h Hp. induction p as [a|f k IH]; intros h Hp; simpl in *; [by apply HQ|].
  intros n w Hn Hw Hh. destruct (Hp n w Hn Hw Hh) as (h' & He & Hk). eauto.
Qed.

Lemma claims_prog_bind {A B} i (Q : B -> H -> Prop) (p : prog W A) q h :
  claims i (fun a g => claims i Q (q a) g) p h -> claims i Q (prog_bind p q) h.
Proof.
  revert h. induction p as [a|f k IH]; intros h Hp; simpl in *; [done|].
  intros n w Hn Hw Hh. destruct (Hp n w Hn Hw Hh) as (h' & He & Hk). eauto.
Qed.

Lemma claims_atomic {A} i (Q : A -> H -> Prop) (m : W -> A * W) h :
  (forall n w, n < cap -> Inv (weight h + n) w -> holds i h w ->
     exists h', exchange i n h w h' (m w).2 /\ Q (m w).1 h') ->
  claims i Q (atomic m) h.
Proof. done. Qed.

Lemma claims_on_err {E F A} i (f : E -> F) (Q : result F A -> H -> Prop) (m : ST W E A) h :
  claims i (fun r => Q (map_err f r)) (once m) h -> claims i Q (once (on_err f m)) h.
Proof.
  intros Hm. apply claims_atomic. intros n w Hn Hw Hh. destruct (Hm n w Hn Hw Hh) as (h' & He & HQ).
  exists h'. unfold on_err. by destruct (m w).
Qed.

(** Nothing that counts is held any more; and there was no panic either. *)
Definition settles {E A} (r : result E A) (h : H) : Prop := counts h = false.
Definition ends {E A} (r : result E A) (h : H) : Prop := r <> Panic /\ counts h = false.

Lemma claims_bind {E A B} i (Q : result E B -> H -> Prop) (p : PR W E A) (q : A -> PR W E B) h :
  claims i (fun r g =>
    match r with
    | Ok a => claims i Q (q a) g
    | Err e => Q (Err e) g
    | Panic => Q Panic g
    end) p h -> claims i Q (x ← p; q x) h.
Proof.
  intros Hp. apply claims_prog_bind. eapply claims_mono; [exact Hp|]. by intros [a|e|] g.
Qed.

Lemma claims_map {E A B} i (p : PR W E A) (f : A -> B) h :
  claims i ends p h -> claims i ends (x ← p; mret (f x)) h.
Proof.
  intros Hp. apply claims_bind. eapply claims_mono; [exact Hp|]. by intros [a|e|] g [Hr Hg].
Qed.

Lemma claims_map_settles {E A B} i (p : PR W E A) (f : A -> B) h :
  claims i settles p h -> claims i settles (x ← p; mret (f x)) h.
Proof. intros Hp. apply claims_bind. eapply claims_mono; [exact Hp|]. by intros [a|e|] g Hg. Qed.

(** *** The requests together *)
Section Together.
Context {E A Call : Type} (code : Call -> PR W E A) (intent : Call -> I).
(** What is known of a result. *)
Context (fin : result E A -> H -> Prop) (fin_none : forall r h, fin r h -> fin r none).
Context (fin_counts : forall r h, fin r h -> counts h = false).
Context (code_claims : forall c, claims (intent c) fin (code c) none).
Abbreviation crew := (crew W (result E A) Call).
Implicit Types (x y : crew) (c : Call).

(** No request in progress clashes with another. *)
Definition calm x : Prop :=
  forall u v c d p q, u <> v -> threads x !! u = Some (c, p) -> threads x !! v = Some (d, q) ->
    finished p = false -> finished q = false -> clash (intent c) (intent d) = false.
Definition calm_step x y : Prop := calm x /\ crew_step code x y.

(** The same, to be run. *)
Definition is_calm x : bool :=
  forallb (fun '(u, (c, p)) => forallb (fun '(v, (d, q)) =>
    bool_decide (u = v) || finished p || finished q || negb (clash (intent c) (intent d)))
    (map_to_list (threads x))) (map_to_list (threads x)).
Fixpoint take_calm_turns (l : list (turn Call)) x : option crew :=
  match l with
  | [] => Some x
  | a :: l' => if is_calm x then y ← take_turn code a x; take_calm_turns l' y else None
  end.

Lemma is_calm_spec x : is_calm x = true -> calm x.
Proof.
  intros Hx u v c d p q Huv Hu Hv Hp Hq. unfold is_calm in Hx.
  rewrite forallb_forall in Hx. specialize (Hx (u, (c, p))). rewrite <- list_elem_of_In in Hx.
  specialize (Hx (proj2 (elem_of_map_to_list _ _ _) Hu)). simpl in Hx.
  rewrite forallb_forall in Hx. specialize (Hx (v, (d, q))). rewrite <- list_elem_of_In in Hx.
  specialize (Hx (proj2 (elem_of_map_to_list _ _ _) Hv)). simpl in Hx.
  rewrite Hp, Hq, bool_decide_false in Hx by done. simpl in Hx. by apply negb_true_iff in Hx.
Qed.
Lemma take_calm_turns_run l x y : take_calm_turns l x = Some y -> rtc calm_step x y.
Proof.
  revert x. induction l as [|a l IH]; intros x Hl; simplify_eq/=; [done|].
  destruct (is_calm x) eqn:Hc; [|done]. apply bind_Some in Hl as (z & Ha & Hl).
  eapply rtc_l; [|by apply IH].
  split; [by apply is_calm_spec|by eapply take_turn_step].
Qed.

(** Some assignment of what the requests hold explains the state. *)
Definition explained (own : nat -> H) x : Prop :=
  forall u c p, threads x !! u = Some (c, p) ->
    claims (intent c) fin p (own u) /\ holds (intent c) (own u) (shared x) /\
    (finished p = true -> own u = none) /\
    forall v d q, u <> v -> threads x !! v = Some (d, q) -> apart (own u) (own v).

(** How many things that count are held. *)
Definition total {V} (own : nat -> H) (m : gmap nat V) : nat :=
  map_fold (fun u _ n => weight (own u) + n) 0 m.

Lemma total_insert {V} own (m : gmap nat V) u v :
  m !! u = None -> total own (<[u := v]> m) = weight (own u) + total own m.
Proof. intros Hu. unfold total. rewrite map_fold_insert_L; [done| |done]. intros. lia. Qed.
Lemma total_delete {V} own (m : gmap nat V) u v :
  m !! u = Some v -> total own m = weight (own u) + total own (delete u m).
Proof.
  intros Hu. rewrite <- (insert_delete_id m u v) at 1 by done. apply total_insert, lookup_delete_eq.
Qed.
Lemma total_ext {V} own own' (m : gmap nat V) :
  (forall u v, m !! u = Some v -> own u = own' u) -> total own m = total own' m.
Proof.
  induction m as [|u v m Hu IH] using map_ind; intros Heq; [done|].
  rewrite !total_insert by done. rewrite (Heq u v) by apply lookup_insert_eq. f_equal.
  apply IH. intros u' v' Hu'. apply (Heq u' v'). rewrite lookup_insert_ne; [done|]. congruence.
Qed.
Lemma total_size {V} own (m : gmap nat V) : total own m <= size m.
Proof.
  induction m as [|u v m Hu IH] using map_ind; [done|].
  rewrite total_insert, map_size_insert_None by done. unfold weight.
  destruct (counts (own u)); lia.
Qed.
Lemma total_none {V} own (m : gmap nat V) :
  (forall u v, m !! u = Some v -> own u = none) -> total own m = 0.
Proof.
  intros Hown. rewrite (total_ext _ (fun _ => none)) by done.
  induction m as [|u v m Hu IH] using map_ind; [done|].
  rewrite total_insert by done. unfold weight. rewrite none_counts. apply IH.
  intros u' v' Hu'. apply (Hown u' v'). rewrite lookup_insert_ne; [done|]. congruence.
Qed.
(** Thread [tid] holds something else now. *)
Lemma total_update {V} own (m : gmap nat V) tid v h :
  total (fun u => if decide (u = tid) then h else own u) (<[tid := v]> m) =
  weight h + total own (delete tid m).
Proof.
  rewrite (total_delete _ _ tid v) by apply lookup_insert_eq.
  rewrite decide_True, delete_insert_eq by done. f_equal. apply total_ext.
  intros u v' Hu. rewrite decide_False; [done|]. intros ->. by rewrite lookup_delete_eq in Hu.
Qed.

Definition in_order x : Prop :=
  exists own, Inv (total own (threads x)) (shared x) /\ explained own x.

Lemma in_order_go tid x y :
  size (threads x) <= cap -> calm x -> in_order x -> go tid x = Some y -> in_order y.
Proof.
  intros Hcap Hcalm (own & Hw & Hown) Hgo. apply bind_Some in Hgo as ([c p] & Ht & Hgo).
  destruct p as [a|f k]; simplify_eq/=. destruct (Hown tid c _ Ht) as (Hp & Hh & _ & Hap).
  rewrite (total_delete _ _ _ _ Ht) in Hw. set (n := total own (delete tid (threads x))) in *.
  assert (Hn : n < cap).
  { pose proof (total_size own (delete tid (threads x))) as Hle.
    rewrite map_size_delete_Some in Hle by done.
    assert (size (threads x) <> 0) by (intros Hz%map_size_empty_iff; by rewrite Hz in Ht).
    subst n. lia. }
  destruct (Hp n _ Hn Hw Hh) as (h' & [Hinv Hh' Hoth] & Hk).
  set (h1 := if finished (k (shared x)) then none else h').
  assert (Hh1 : holds (intent c) h1 (f (shared x)) /\ claims (intent c) fin (k (shared x)) h1 /\
    Inv (weight h1 + n) (f (shared x))).
  { subst h1. destruct (k (shared x)) as [r|]; simpl in *; [|done]. unfold weight in *.
    rewrite (fin_counts _ _ Hk) in Hinv. rewrite none_counts.
    split_and!; [by eapply holds_none|by eapply fin_none|done]. }
  assert (Hoth1 : forall v d q, v <> tid -> threads x !! v = Some (d, q) ->
    apart h1 (own v) /\ holds (intent d) (own v) (f (shared x))).
  { intros v d q Hv Hq. destruct (Hown v d q Hq) as (_ & Hhv & Hfin & _).
    destruct (finished q) eqn:Hfq.
    { rewrite (Hfin eq_refl). split; [apply apart_sym, apart_none|by eapply holds_none]. }
    destruct (Hoth (intent d) (own v)) as [Ha Hhd]; [|by eapply Hap|done|].
    - eapply (Hcalm tid v); eauto.
    - split; [|done]. subst h1. destruct (finished _); [apply apart_none|done]. }
  destruct Hh1 as (Hh1 & Hc1 & Hi1).
  exists (fun u => if decide (u = tid) then h1 else own u). split; [simpl; by rewrite total_update|].
  intros u d q Hu. simpl in Hu. apply lookup_insert_Some in Hu as [[<- [= <- <-]]|[Hne Hu]].
  - rewrite decide_True by done. split_and!; [done|done| |].
    + intros Hfin. subst h1. by rewrite Hfin.
    + intros v d q Hv Hq. rewrite decide_False by done. simpl in Hq.
      rewrite lookup_insert_ne in Hq by done. by eapply Hoth1.
  - rewrite decide_False by done. destruct (Hown u d q Hu) as (Hq & _ & Hfin & Hapu).
    split_and!; [done|by eapply Hoth1|done|].
    intros v e q' Hv Hq'. simpl in Hq'. apply lookup_insert_Some in Hq' as [[<- _]|[Hne' Hq']].
    + rewrite decide_True by done. apply apart_sym. by eapply Hoth1.
    + rewrite decide_False by done. by eapply Hapu.
Qed.

Lemma in_order_take tid c x : spare x tid = true -> in_order x -> in_order (take_on code tid c x).
Proof.
  intros Hs (own & Hw & Hown). exists (fun u => if decide (u = tid) then none else own u).
  split.
  { simpl. rewrite total_update. unfold weight. rewrite none_counts. simpl.
    destruct (threads x !! tid) as [[c' p]|] eqn:Ht; [|by rewrite delete_id].
    rewrite (total_delete _ _ _ _ Ht) in Hw. unfold spare in Hs. rewrite Ht in Hs.
    destruct (Hown tid c' p Ht) as (_ & _ & Hfin & _).
    rewrite (Hfin Hs) in Hw. unfold weight in Hw at 1. by rewrite none_counts in Hw. }
  intros u d q Hu. simpl in Hu. apply lookup_insert_Some in Hu as [[<- [= <- <-]]|[Hne Hu]].
  - rewrite decide_True by done. split_and!; [apply code_claims|by eapply holds_none|done|].
    intros. apply apart_none.
  - rewrite decide_False by done. destruct (Hown u d q Hu) as (Hq & Hh & Hfin & Hap).
    split_and!; [done|done|done|]. intros v e q' Hv Hq'. case_decide; [apply apart_sym, apart_none|].
    simpl in Hq'. rewrite lookup_insert_ne in Hq' by done. by eapply Hap.
Qed.

(** Threads are not given back. *)
Lemma crew_grows x y : rtc calm_step x y -> size (threads x) <= size (threads y).
Proof.
  induction 1 as [|x y z [_ Hstep] _ IH]; [done|]. transitivity (size (threads y)); [|done].
  destruct Hstep as [tid x y Hgo|tid c x _].
  - apply bind_Some in Hgo as ([c p] & Ht & Hgo). destruct p; simplify_eq/=.
    by rewrite map_size_insert_Some by eauto.
  - simpl. rewrite map_size_insert. destruct (threads x !! tid); simpl; lia.
Qed.

Lemma crew_in_order w x :
  Inv 0 w -> rtc calm_step (open w) x -> size (threads x) <= cap -> in_order x.
Proof.
  intros Hw Hrun. assert (H0 : in_order (open w)) by (by exists (fun _ => none)).
  remember (open w) as x0 eqn:Hx0. clear Hx0.
  induction Hrun as [|x0 x1 x2 [Hcalm Hstep] Hrun IH]; intros Hcap; [done|]. apply IH; [|done].
  assert (Hx0 : size (threads x0) <= cap).
  { apply crew_grows in Hrun. assert (size (threads x0) <= size (threads x1)); [|lia].
    by apply crew_grows, rtc_once. }
  destruct Hstep as [tid x y Hgo|tid c x Hs]; [by eapply in_order_go|by apply in_order_take].
Qed.

(** As long as no two requests in progress clash, the invariant holds and the results
    are as they should be, however the requests are interleaved; when all have finished
    nothing is held. *)
Lemma crew_claims w x :
  Inv 0 w -> rtc calm_step (open w) x -> size (threads x) <= cap ->
  (exists n, Inv n (shared x) /\
     ((forall u c p, threads x !! u = Some (c, p) -> finished p = true) -> n = 0)) /\
  forall u c r, threads x !! u = Some (c, Ret r) -> exists h, fin r h.
Proof.
  intros Hw Hrun Hcap. destruct (crew_in_order w x Hw Hrun Hcap) as (own & Hi & Hown). split.
  - eexists. split; [exact Hi|]. intros Hfin. apply total_none. intros u [c p] Hu.
    by apply (Hown u c p Hu), (Hfin u c p).
  - intros u c r Hu. destruct (Hown u c _ Hu) as [Hp _]. by exists (own u).
Qed.
End Together.
End Claims.
