(* ===== verification/CalThreads.v ===== *)
(** * Threads in the CryptoAuthLib provider

    The requests to the CryptoAuthLib provider as programs whose steps interleave
    with those of other requests: each access of the key info manager and of the array
    of slots is under a lock of its own, and each call of the device is one step.  The
    programs are the methods of [CalProvider] with the accesses told apart;
    [cal_run_alone] says that one that is not interrupted is the method. *)
From S2P Require Import Prelude RustStd Interface Authenticators KeyInfo Provide.
From S2P Require Import CryptoAuthLib Threads Claims.
Import CalProvider.

Module CalThread.
Section Cal.
Context {K D : Type} `{ManageKeyInfo K} `{Atecc D} `{KeyApi} `{Bincode Z}.
Implicit Types (self : Provider) (app_name : ApplicationName).
Abbreviation P A := (PR (state K D) ResponseStatus A).

(** *** Keys *)
Definition release_and_fail (slot : Z) (error : ResponseStatus) : P unit :=
  tried (F := ResponseStatus) (once (on_slots (KeySlotStorage.set_slot_status slot Free))) ;;
  local (Err error).

Definition psa_generate_key_internal self app_name (op : GenerateKeyOp) : P unit :=
  let key_triple := triple self app_name (gk_key_name op) in
  once (on_kim (does_not_exist (key_info_store self) key_triple)) ;;
  if is_public_key (key_type (gk_attributes op)) then local (Err PsaErrorInvalidArgument) else
  let key_attributes := gk_attributes op in
  key_type ← local (get_calib_key_type key_attributes);
  slot_id ← once (on_slots (KeySlotStorage.find_suitable_slot key_attributes
                              (Some OpPsaGenerateKey)));
  st ← once (on_device (gen_key key_type slot_id));
  match st with
  | AtcaSuccess =>
    r ← tried (once (on_kim (insert_key_info (key_info_store self) key_triple slot_id
                               key_attributes)));
    match r with
    | Ok _ => mret tt
    | Err error => release_and_fail slot_id error
    | Panic => local Panic
    end
  | _ => release_and_fail slot_id PsaErrorInvalidArgument
  end.

Definition psa_destroy_key_internal self app_name (key_name : string) : P unit :=
  let key_triple := triple self app_name key_name in
  key_id ← once (on_kim (get_key_id Z (key_info_store self) key_triple));
  once (on_kim (remove_key_info (key_info_store self) key_triple)) ;;
  tried (F := ResponseStatus) (once (on_slots (KeySlotStorage.set_slot_status key_id Free))) ;;
  mret tt.

Definition psa_import_key_internal self app_name (op : ImportKeyOp) : P unit :=
  let key_triple := triple self app_name (ik_key_name op) in
  once (on_kim (does_not_exist (key_info_store self) key_triple)) ;;
  let key_attributes := ik_attributes op in
  key_type_ ← local (get_calib_key_type key_attributes);
  slot_id ← once (on_slots (KeySlotStorage.find_suitable_slot key_attributes
                              (Some OpPsaImportKey)));
  key_data ← local (raw_key_extract (key_type key_attributes) (ik_data op));
  atca_error_status ← once (on_device (import_key key_type_ key_data slot_id));
  match atca_error_status with
  | AtcaSuccess =>
    r ← tried (once (on_kim (insert_key_info (key_info_store self) key_triple slot_id
                               key_attributes)));
    match r with
    | Ok _ => mret tt
    | Err _ => release_and_fail slot_id PsaErrorStorageFailure
    | Panic => local Panic
    end
  | AtcaInvalidSize | AtcaInvalidId | AtcaBadParam =>
    release_and_fail slot_id PsaErrorInvalidArgument
  | AtcaStatus_other _ => release_and_fail slot_id PsaErrorHardwareFailure
  end.

Definition psa_export_public_key_internal self app_name (key_name : string) : P bytes :=
  let key_triple := triple self app_name key_name in
  key_attributes ← once (on_kim (get_key_attributes (key_info_store self) key_triple));
  match key_type key_attributes with
  | EccPublicKey SecpR1 | EccKeyPair SecpR1 =>
    slot_number ← once (on_kim (get_key_id Z (key_info_store self) key_triple));
    '(st, raw_public_key) ← once (on_device (get_public_key slot_number));
    match st with
    | AtcaSuccess => local (raw_key_wrap (key_type key_attributes) raw_public_key)
    | _ => local (Err PsaErrorHardwareFailure)
    end
  | _ => local (Err PsaErrorInvalidArgument)
  end.

Definition psa_export_key_internal self app_name (key_name : string) : P bytes :=
  let key_triple := triple self app_name key_name in
  key_attributes ← once (on_kim (get_key_attributes (key_info_store self) key_triple));
  if negb (is_exportable key_attributes) then local (Err PsaErrorNotPermitted) else
  key_type_ ← local (get_calib_key_type key_attributes);
  match key_type key_attributes with
  | Aes | RawData | EccPublicKey SecpR1 =>
    slot_number ← once (on_kim (get_key_id Z (key_info_store self) key_triple));
    '(st, raw_key) ← once (on_device (export_key key_type_ slot_number));
    match st with
    | AtcaSuccess => local (raw_key_wrap (key_type key_attributes) raw_key)
    | _ => local (Err PsaErrorInvalidArgument)
    end
  | _ => local (Err PsaErrorInvalidArgument)
  end.

(** *** Hashes *)
Definition sha256 (msg : bytes) : P bytes :=
  '(st, hash) ← once (on_device (dev_sha msg (zeroed ATCA_SHA2_256_DIGEST_SIZE)));
  match st with AtcaSuccess => mret hash | _ => local (Err PsaErrorHardwareFailure) end.

Definition psa_hash_compute_internal (op : HashComputeOp) : P bytes :=
  match hc_alg op with
  | Sha256 => sha256 (hc_input op)
  | _ => local (Err PsaErrorNotSupported)
  end.

Definition psa_hash_compare_internal (op : HashCompareOp) : P unit :=
  if decide (length (hp_hash op) <> sha256_hash_length) then local (Err PsaErrorInvalidArgument)
  else match hp_alg op with
  | Sha256 =>
    hash ← sha256 (hp_input op);
    if decide (hp_hash op <> hash) then local (Err PsaErrorInvalidSignature) else mret tt
  | _ => local (Err PsaErrorNotSupported)
  end.

(** *** Signatures *)
Definition ecdsa_hash_sign (key_id : Z) (hash : bytes) : P bytes :=
  '(st, signature) ← once (on_device (dev_sign_hash hash key_id (zeroed ATCA_SIG_SIZE)));
  match st with AtcaSuccess => mret signature | _ => local (Err PsaErrorHardwareFailure) end.

Definition ecdsa_verify_mode_get (key_id : Z) (t : KeyType) : P VerifyMode :=
  match t with
  | EccKeyPair SecpR1 =>
    '(st, raw_public_key) ← once (on_device (get_public_key key_id));
    match st with
    | AtcaSuccess => mret (VerifyExternal raw_public_key)
    | _ => local (Err PsaErrorHardwareFailure)
    end
  | EccPublicKey SecpR1 => mret (VerifyInternal key_id)
  | _ => local (Err PsaErrorNotSupported)
  end.

Definition ecdsa_hash_verify (verify_mode : VerifyMode) (hash signature : bytes) : P unit :=
  r ← once (on_device (dev_verify_hash verify_mode hash signature));
  match r with
  | Ok true => mret tt
  | Ok false => local (Err PsaErrorInvalidSignature)
  | Err AtcaInvalidSize => local (Err PsaErrorInvalidSignature)
  | Err _ => local (Err PsaErrorHardwareFailure)
  | Panic => local Panic
  end.

Definition psa_sign_hash_internal self app_name (op : SignHashOp) : P bytes :=
  let key_triple := KeyTriple_new app_name CryptoAuthLib (sh_key_name op) in
  key_attributes ← once (on_kim (get_key_attributes (key_info_store self) key_triple));
  local (validate_sign_hash op key_attributes) ;;
  if decide (length (sh_hash op) <> sha256_hash_length) then local (Err PsaErrorInvalidArgument)
  else if is_ecdsa_sha256 (sh_alg op) then
    key_id ← once (on_kim (get_key_id Z (key_info_store self) key_triple));
    ecdsa_hash_sign key_id (sh_hash op)
  else local (Err PsaErrorNotSupported).

Definition psa_verify_hash_internal self app_name (op : VerifyHashOp) : P unit :=
  let key_triple := triple self app_name (vh_key_name op) in
  key_attributes ← once (on_kim (get_key_attributes (key_info_store self) key_triple));
  local (validate_verify_hash op key_attributes) ;;
  if decide (length (vh_hash op) <> sha256_hash_length) then local (Err PsaErrorInvalidArgument)
  else if is_ecdsa_sha256 (vh_alg op) then
    key_id ← once (on_kim (get_key_id Z (key_info_store self) key_triple));
    verify_mode ← ecdsa_verify_mode_get key_id (key_type key_attributes);
    ecdsa_hash_verify verify_mode (vh_hash op) (vh_signature op)
  else local (Err PsaErrorNotSupported).

Definition psa_sign_message_internal self app_name (op : SignMessageOp) : P bytes :=
  let key_triple := triple self app_name (sm_key_name op) in
  key_attributes ← once (on_kim (get_key_attributes (key_info_store self) key_triple));
  local (validate_sign_message op key_attributes) ;;
  if is_ecdsa_sha256 (sm_alg op) then
    key_id ← once (on_kim (get_key_id Z (key_info_store self) key_triple));
    hash ← sha256 (sm_message op);
    ecdsa_hash_sign key_id hash
  else local (Err PsaErrorNotSupported).

Definition psa_verify_message_internal self app_name (op : VerifyMessageOp) : P unit :=
  let key_triple := triple self app_name (vm_key_name op) in
  key_attributes ← once (on_kim (get_key_attributes (key_info_store self) key_triple));
  local (validate_verify_message op key_attributes) ;;
  if is_ecdsa_sha256 (vm_alg op) then
    key_id ← once (on_kim (get_key_id Z (key_info_store self) key_triple));
    hash ← sha256 (vm_message op);
    verify_mode ← ecdsa_verify_mode_get key_id (key_type key_attributes);
    ecdsa_hash_verify verify_mode hash (vm_signature op)
  else local (Err PsaErrorNotSupported).

(** *** Random bytes *)
Fixpoint random_calls (n : nat) (random_bytes : bytes) : P bytes :=
  match n with
  | 0%nat => mret random_bytes
  | S n' =>
    '(err, buffer) ← once (on_device dev_random);
    match err with
    | AtcaSuccess => random_calls n' (random_bytes ++ buffer)
    | _ => local (Err PsaErrorGenericError)
    end
  end.

Definition psa_generate_random_internal (op : GenerateRandomOp) : P bytes :=
  let call_count :=
    (usize_wrap (usize_wrap (gr_size op + ATCA_RANDOM_BUFFER_SIZE) - 1) /
     ATCA_RANDOM_BUFFER_SIZE)%Z in
  random_bytes ← random_calls (Z.to_nat call_count) [];
  mret (take (Z.to_nat (gr_size op)) random_bytes).

(** *** The trait *)
Definition list_keys self app_name : P (list ListedKey) :=
  once (on_kim (KeyInfo.list_keys (key_info_store self) app_name)).

Definition list_clients self : P (list string) :=
  clients ← once (on_kim (KeyInfo.list_clients (key_info_store self)));
  mret (app_name_string <$> clients).

Definition guarded {A} self (oc : Opcode) (m : P A) : P A :=
  if decide (oc ∈ supported_opcodes self) then m else local (Err PsaErrorNotSupported).

(** The program of a request. *)
Definition code self (c : ApplicationName * NativeOperation) : P NativeResult :=
  let app := c.1 in
  match c.2 with
  | ListKeys => r ← list_keys self app; mret (RListKeys r)
  | ListClients => r ← list_clients self; mret (RListClients r)
  | PsaGenerateKey o =>
    guarded self OpPsaGenerateKey (psa_generate_key_internal self app o) ;; mret RPsaGenerateKey
  | PsaImportKey o =>
    guarded self OpPsaImportKey (psa_import_key_internal self app o) ;; mret RPsaImportKey
  | PsaExportPublicKey o =>
    r ← guarded self OpPsaExportPublicKey (psa_export_public_key_internal self app o);
    mret (RPsaExportPublicKey r)
  | PsaExportKey o =>
    r ← guarded self OpPsaExportKey (psa_export_key_internal self app o); mret (RPsaExportKey r)
  | PsaDestroyKey o =>
    guarded self OpPsaDestroyKey (psa_destroy_key_internal self app o) ;; mret RPsaDestroyKey
  | PsaSignHash o =>
    r ← guarded self OpPsaSignHash (psa_sign_hash_internal self app o); mret (RPsaSignHash r)
  | PsaVerifyHash o =>
    guarded self OpPsaVerifyHash (psa_verify_hash_internal self app o) ;; mret RPsaVerifyHash
  | PsaSignMessage o =>
    r ← guarded self OpPsaSignMessage (psa_sign_message_internal self app o);
    mret (RPsaSignMessage r)
  | PsaVerifyMessage o =>
    guarded self OpPsaVerifyMessage (psa_verify_message_internal self app o) ;;
    mret RPsaVerifyMessage
  | PsaHashCompute o =>
    r ← guarded self OpPsaHashCompute (psa_hash_compute_internal o); mret (RPsaHashCompute r)
  | PsaHashCompare o =>
    guarded self OpPsaHashCompare (psa_hash_compare_internal o) ;; mret RPsaHashCompare
  | PsaGenerateRandom o =>
    r ← guarded self OpPsaGenerateRandom (psa_generate_random_internal o);
    mret (RPsaGenerateRandom r)
  | _ => local (Err PsaErrorNotSupported)
  end.
End Cal.
End CalThread.

(** ** A request that is not interrupted *)
Section Alone.
Context {K D : Type} `{ManageKeyInfo K} `{Atecc D} `{KeyApi} `{Bincode Z}.

Lemma alike_random_calls n b :
  alike (CalThread.random_calls (K := K) n b) (random_calls n b).
Proof.
  revert b. induction n as [|n IH]; intros b; cbn [CalThread.random_calls random_calls];
    repeat alike_step. apply IH.
Qed.

(** The programs of [CalThread], by name. *)
Ltac cal_programs :=
  unfold CalThread.list_keys, CalThread.list_clients, CalThread.psa_generate_key_internal,
    CalThread.psa_import_key_internal, CalThread.psa_destroy_key_internal,
    CalThread.psa_export_public_key_internal, CalThread.psa_export_key_internal,
    CalThread.psa_sign_hash_internal, CalThread.psa_verify_hash_internal,
    CalThread.psa_sign_message_internal, CalThread.psa_verify_message_internal,
    CalThread.psa_hash_compute_internal, CalThread.psa_hash_compare_internal,
    CalThread.psa_generate_random_internal, CalThread.sha256, CalThread.ecdsa_hash_sign,
    CalThread.ecdsa_verify_mode_get, CalThread.ecdsa_hash_verify, CalThread.release_and_fail.
Ltac cal_methods :=
  unfold list_keys, list_clients, psa_generate_key_internal, psa_import_key_internal,
    psa_destroy_key_internal, psa_export_public_key_internal, psa_export_key_internal,
    psa_sign_hash_internal, psa_verify_hash_internal, psa_sign_message_internal,
    psa_verify_message_internal, psa_hash_compute_internal, psa_hash_compare_internal,
    psa_generate_random_internal, sha256, ecdsa_hash_sign, ecdsa_verify_mode_get,
    ecdsa_hash_verify, release_and_fail.

(** A request to the CryptoAuthLib provider that is not interrupted does what the
    method of the provider does. *)
Theorem cal_run_alone uuid self app op (s : state K D) :
  run (CalThread.code self (app, op)) s = provider_call (provide uuid self) app op s.
Proof.
  revert s. change (alike (CalThread.code self (app, op))
    (provider_call (provide uuid self) app op)).
  unfold CalThread.code, provider_call, CalThread.guarded. cbn [fst snd].
  destruct op; try (intros s; reflexivity); (apply alike_bind; [|intros ?; apply alike_ret]);
    unfold provide;
    cbn [prov_list_keys prov_list_clients prov_psa_generate_key prov_psa_import_key
      prov_psa_destroy_key prov_psa_export_public_key prov_psa_export_key prov_psa_sign_hash
      prov_psa_verify_hash prov_psa_sign_message prov_psa_verify_message prov_psa_hash_compute
      prov_psa_hash_compare prov_psa_generate_random];
    unfold psa_generate_key, psa_import_key, psa_destroy_key, psa_export_public_key,
      psa_export_key, psa_sign_hash, psa_verify_hash, psa_sign_message, psa_verify_message,
      psa_hash_compute, psa_hash_compare, psa_generate_random, guarded;
    cal_programs; cal_methods; repeat (apply alike_random_calls || alike_step).
Qed.
End Alone.
