(* ===== verification/CalConcurrency.v ===== *)
(** * Correctness of the threads of the CryptoAuthLib provider

    However requests are interleaved, the invariant between slots and mappings is
    kept as long as no two requests in progress create the same key and no two
    destroy the same key ([cal_parallel_safe]).  Both conditions are needed: two
    requests that destroy a key at the same time can free the slot of a key of another
    application ([cal_destroy_race]). *)
From S2P Require Import Prelude RustStd Interface Authenticators KeyInfo OnDisk Concrete.
From S2P Require Import Provide CryptoAuthLib CryptoAuthLibSpec Threads Claims CalThreads.
Import CalProvider.

(** What a request is about to do to the mappings. *)
Inductive intent := Creating (t : KeyTriple) | Destroying (t : KeyTriple) | Using.

Definition clash (i j : intent) : bool :=
  match i, j with
  | Creating t, Creating u | Destroying t, Destroying u => bool_decide (t = u)
  | _, _ => false
  end.

Definition intent_of (self : Provider) (c : ApplicationName * NativeOperation) : intent :=
  match c.2 with
  | PsaGenerateKey o => Creating (triple self c.1 (gk_key_name o))
  | PsaImportKey o => Creating (triple self c.1 (ik_key_name o))
  | PsaDestroyKey k => Destroying (triple self c.1 k)
  | _ => Using
  end.

(** What a request in progress knows: nothing; that its name is free; that it is and
    the slot [j] is its own; that the slot [j] is its own; that its key sits in [j]. *)
Inductive holding := Nothing | NameFree | NewSlot (j : Z) | OldSlot (j : Z) | Sits (j : Z).

Definition own_slot (h : holding) : option Z :=
  match h with NewSlot j | OldSlot j => Some j | _ => None end.
(** How many threads hold something does not matter here. *)
Definition counts (_ : holding) : bool := false.
Definition apart (h g : holding) : Prop := forall j, own_slot h = Some j -> own_slot g <> Some j.

Lemma apart_sym h g : apart h g -> apart g h.
Proof. intros Ha j Hg Hh. by apply (Ha j). Qed.
Lemma apart_nothing g : apart Nothing g.
Proof. done. Qed.

Section Spec.
Context {K D : Type} `{KimSpec K} `{AteccLaws D} `{KeyApiLaws} `{BZ : Bincode Z}.
Context `{!BincodeLaws Z} `{!BincodeU8}.
Context (self : Provider) (Hself : client_provider_id (key_info_store self) = CryptoAuthLib).
Implicit Types (s w : state K D) (t : KeyTriple) (j : Z) (i : intent) (h g : holding).

(** No key of the provider sits in [j], which is taken. *)
Definition unused s j : Prop :=
  taken (key_slots s) j /\
  forall t info, cal_view s !! t = Some info -> kt_provider_id t = CryptoAuthLib ->
    slot_of info <> Some j.
Definition name_free i s : Prop :=
  match i with Creating t => cal_view s !! t = None | _ => False end.
Definition sits i j s : Prop :=
  match i with
  | Destroying t => exists info, cal_view s !! t = Some info /\ slot_of info = Some j
  | _ => False
  end.

Definition holds i h s : Prop :=
  match h with
  | Nothing => True
  | NameFree => name_free i s
  | NewSlot j => name_free i s /\ unused s j
  | OldSlot j => unused s j
  | Sits j => sits i j s
  end.

Section Steps.
Context (cap : nat).
Abbreviation exchange := (exchange (fun _ => cal_ok) counts holds apart clash).
Abbreviation claims := (claims (fun _ => cal_ok) counts holds apart clash cap).
Abbreviation ends := (ends counts).

(** The claims depend on the mappings and the slots only. *)
Lemma holds_same i h s s' :
  cal_view s' = cal_view s -> key_slots s' = key_slots s -> holds i h s -> holds i h s'.
Proof.
  intros Hv Hk. unfold holds, name_free, sits, unused. rewrite Hv, Hk. by destruct h, i.
Qed.

Lemma still_exchange i n h h' s s' :
  cal_ok s -> cal_view s' = cal_view s -> key_slots s' = key_slots s ->
  holds i h' s -> own_slot h' = None \/ own_slot h' = own_slot h -> exchange i n h s h' s'.
Proof.
  intros Hok Hv Hk Hh Ho. split.
  - apply (cal_ok_slots s); rewrite ?Hk; auto.
  - by apply (holds_same _ _ s).
  - intros k g _ Ha Hg. split; [|by apply (holds_same _ _ s)].
    intros j Hj. apply Ha. destruct Ho as [Ho|Ho]; congruence.
Qed.

(** A step that only looks. *)
Lemma look {A} i (Q : Result A -> holding -> Prop) (m : ST (state K D) ResponseStatus A) h :
  still m -> (forall r, r <> Panic -> Q r h) -> claims i Q (once m) h.
Proof.
  intros Hm HQ. apply claims_atomic. intros n s _ Hok Hh. destruct (Hm s) as (Hv & Hk & Hp).
  exists h. split; [|by apply HQ]. by apply still_exchange; auto.
Qed.

(** *** Programs that only look *)
Definition looks {A} (p : PR (state K D) ResponseStatus A) : Prop :=
  forall i h, claims i ends p h.

Lemma looks_once {A} (m : ST (state K D) ResponseStatus A) : still m -> looks (once m).
Proof. intros Hm i h. by apply look. Qed.
Lemma looks_local {A} (r : Result A) : r <> Panic -> looks (local r).
Proof. by intros Hr i h. Qed.
Lemma looks_ret {A} (a : A) : looks (mret a).
Proof. by intros i h. Qed.
Lemma looks_bind {A B} (p : PR (state K D) ResponseStatus A) (q : A -> PR _ ResponseStatus B) :
  looks p -> (forall a, looks (q a)) -> looks (x ← p; q x).
Proof.
  intros Hp Hq i h. apply claims_bind. eapply claims_mono; [apply Hp|].
  intros [a|e|] g [Hr Hg]; [apply Hq|done|done].
Qed.
Lemma looks_random n b : looks (CalThread.random_calls n b).
Proof.
  revert b. induction n as [|n IH]; intros b; cbn [CalThread.random_calls]; [apply looks_ret|].
  apply looks_bind; [apply looks_once, still_device|].
  intros [[] buf]; try by apply looks_local. apply IH.
Qed.
Lemma looks_verify mode hash sig : looks (CalThread.ecdsa_hash_verify mode hash sig).
Proof.
  intros i h. apply claims_bind, claims_atomic. intros n s _ Hok Hh. exists h.
  destruct (still_device (dev_verify_hash mode hash sig) s) as (Hv & Hk & _).
  split; [by apply still_exchange; auto|].
  pose proof (verify_no_panic mode hash sig (device s)) as Hp. unfold on_device.
  by destruct (dev_verify_hash mode hash sig (device s)) as [[[]|[]|] d].
Qed.

Ltac looks_step :=
  lazymatch goal with
  | |- looks (mret _) => apply looks_ret
  | |- looks (local (raw_key_wrap _ _)) => apply looks_local, raw_key_wrap_no_panic
  | |- looks (local (get_calib_key_type _)) => apply looks_local, calib_key_type_no_panic
  | |- looks (local _) => apply looks_local;
      auto using sign_hash_no_panic, verify_hash_no_panic, sign_message_no_panic,
        verify_message_no_panic
  | |- looks (once (on_device _)) => apply looks_once, still_device
  | |- looks (once (on_kim (get_key_id _ _ _))) => apply looks_once, still_get_key_id
  | |- looks (once (on_kim (get_key_attributes _ _))) => apply looks_once, still_get_key_attributes
  | |- looks (CalThread.ecdsa_hash_verify _ _ _) => apply looks_verify
  | |- looks (CalThread.random_calls _ _) => apply looks_random
  | |- looks (mbind _ _) => apply looks_bind; [|intros ?]
  | |- looks (match ?x with _ => _ end) => destruct x
  end.

Lemma code_looks a op : cal_reading op = true -> looks (CalThread.code self (a, op)).
Proof.
  unfold CalThread.code. cbn [fst snd].
  destruct op; intros Hr; try discriminate Hr; try (by apply looks_local);
    (apply looks_bind; [|intros; apply looks_ret]).
  1: { apply looks_once, still_kim. intros k.
       destruct (list_keys_run (key_info_store self) a k) as (l & Hl & _). by rewrite Hl. }
  1: { apply looks_bind; [|intros; apply looks_ret]. apply looks_once, still_kim. intros k.
       destruct (list_clients_run (key_info_store self) k) as (l & Hl & _). by rewrite Hl. }
  all: unfold CalThread.guarded; case_decide; [|by apply looks_local].
  all: unfold CalThread.psa_export_public_key_internal, CalThread.psa_export_key_internal,
    CalThread.psa_sign_hash_internal, CalThread.psa_verify_hash_internal,
    CalThread.psa_sign_message_internal, CalThread.psa_verify_message_internal,
    CalThread.psa_hash_compute_internal, CalThread.psa_hash_compare_internal,
    CalThread.psa_generate_random_internal, CalThread.ecdsa_hash_sign,
    CalThread.ecdsa_verify_mode_get, CalThread.sha256.
  all: repeat looks_step.
Qed.

(** *** The steps that change something *)
Lemma check_claims t (Q : Result unit -> holding -> Prop) :
  Q (Ok tt) NameFree -> (forall e, Q (Err e) Nothing) ->
  claims (Creating t) Q (once (on_kim (does_not_exist (key_info_store self) t))) Nothing.
Proof.
  intros HOk HErr. apply claims_atomic. intros n s _ Hok _. rewrite does_not_exist_step. simpl.
  destruct (cal_view s !! t) eqn:Ht.
  - exists Nothing. split; [by apply still_exchange; auto|done].
  - exists NameFree. split; [by apply still_exchange; auto|done].
Qed.

(** The slot found was free, so nobody held it. *)
Lemma find_claims t attrs op (Q : Result Z -> holding -> Prop) :
  (forall j, (0 <= j < ATCA_ATECC_SLOTS_COUNT)%Z -> Q (Ok j) (NewSlot j)) ->
  (forall e, Q (Err e) NameFree) ->
  claims (Creating t) Q (once (on_slots (KeySlotStorage.find_suitable_slot attrs op))) NameFree.
Proof.
  intros HOk HErr. apply claims_atomic. intros n s _ Hok Hfree.
  destruct (find_step attrs op s (co_length s Hok)) as [(j & Hj & Hsuit & ->)| ->]; simpl.
  2: { exists NameFree. split; [by apply still_exchange; auto|done]. }
  exists (NewSlot j). split; [|by apply HOk]. pose proof (suitable_not_taken _ _ _ _ Hsuit) as Hnt.
  split.
  - apply (cal_ok_slots s); simpl; [done|done|by rewrite length_alter|].
    intros t' i' j' _ _ _. apply taken_alter_busy.
  - split; [done|]. split; [apply taken_busy; [done|apply Hok]|]. intros t' info Ht' Hp Hid.
    destruct (co_taken s Hok t' info Ht' Hp) as (j' & Hj' & Htk). congruence.
  - intros k g _ _ Hg. assert (Hun : forall j', unused s j' -> j' <> j /\
      unused {| kim := kim s; device := device s;
                key_slots := alter (with_status Busy) (Z.to_nat j) (key_slots s) |} j').
    { intros j' [Htk Hfr]. split; [by intros ->|]. split; [by apply taken_alter_busy|done]. }
    split.
    + intros j' [= <-] Hg'. destruct g; simplify_eq/=; [destruct Hg as [_ Hg]|];
        by destruct (Hun _ Hg).
    + destruct g; simpl in *; try done; [destruct Hg as [Hn Hg]; split; [done|]|];
        by apply Hun.
Qed.

Lemma insert_claims t j attrs (Q : Result unit -> holding -> Prop) :
  (0 <= j < ATCA_ATECC_SLOTS_COUNT)%Z ->
  Q (Ok tt) Nothing -> (forall e, Q (Err e) (NewSlot j)) ->
  claims (Creating t) Q (once (on_kim (insert_key_info (key_info_store self) t j attrs))) (NewSlot j).
Proof.
  intros Hj HOk HErr. apply claims_atomic. intros n s _ Hok [Hfree [Htk Hun]]. simpl in Hfree.
  pose proof slots_count_range as Hr. destruct (bincode_u8 j ltac:(lia)) as [b Hb].
  unfold on_kim, zoom.
  destruct (insert_key_info_cases (key_info_store self) t j attrs (kim s) b Hb)
    as (k1 & [[-> Hv]|[-> Hv]]).
  { simpl. exists (NewSlot j). split; [|by apply HErr]. by apply still_exchange; auto. }
  change (kim_view (kim s)) with (cal_view s) in *. rewrite Hfree. simpl.
  exists Nothing. split; [|done].
  set (s' := {| kim := k1; device := device s; key_slots := key_slots s |}).
  change (kim_view k1) with (cal_view s') in Hv.
  assert (Hslot : slot_of {| ki_id := b; ki_attributes := attrs |} = Some j)
    by (by apply bincode_round).
  split; [by apply (cal_ok_store s s' t j b attrs)|done|].
  intros k g Hc Ha Hg. split; [done|].
  assert (Hname : name_free k s -> name_free k s').
  { destruct k as [u|u|]; simpl in *; try done. intros Hu. rewrite Hv, lookup_insert_ne; [done|].
    by apply bool_decide_eq_false in Hc. }
  assert (Hother : forall j', j' <> j -> unused s j' -> unused s' j').
  { intros j' Hne [Htk' Hun']. split; [done|]. intros u info. rewrite Hv.
    intros [[<- <-]|[_ Hu]]%lookup_insert_Some Hp; [congruence|by eapply Hun']. }
  destruct g as [| |j'|j'|j']; simpl in *; try done.
  - by auto.
  - destruct Hg as [Hn Hg]. split; [by auto|]. apply Hother; [|done]. intros ->. by apply (Ha j).
  - apply Hother; [|done]. intros ->. by apply (Ha j).
  - destruct k as [u|u|]; simpl in *; try done. destruct Hg as (info & Hu & Hid). exists info.
    split; [|done]. rewrite Hv, lookup_insert_ne; [done|]. congruence.
Qed.

(** A slot that its holder gives back. *)
Lemma free_claims i h j (Q : Result unit -> holding -> Prop) :
  h = NewSlot j \/ h = OldSlot j -> (forall r, r <> Panic -> Q r Nothing) ->
  claims i Q (once (on_slots (KeySlotStorage.set_slot_status j Free))) h.
Proof.
  intros Hh HQ. apply claims_atomic. intros n s _ Hok Hs.
  assert (Hun : unused s j) by (destruct Hh as [-> | ->]; [apply Hs|exact Hs]).
  exists Nothing. destruct Hun as [(Hj & sl & Hsl & Hst) Hno].
  unfold on_slots, zoom. destruct (decide (slot_status sl = Locked)) as [Hlk|Hlk].
  { unfold KeySlotStorage.set_slot_status, KeySlotStorage.at_index. rewrite Hsl.
    unfold KeySlot.set_slot_status. rewrite decide_True by done. simpl.
    split; [|by apply HQ]. rewrite list_insert_id by done. by apply still_exchange; auto. }
  rewrite (set_slot_status_run Free j _ sl) by done. simpl. split; [|by apply HQ].
  set (s' := {| kim := kim s; device := device s;
                key_slots := alter (with_status Free) (Z.to_nat j) (key_slots s) |}).
  assert (Htk : forall j', j' <> j -> taken (key_slots s) j' -> taken (key_slots s') j').
  { intros j' Hne Htk. apply taken_alter_ne; [lia|done|done]. }
  split; [|done|].
  - apply (cal_ok_slots s); [done|done|simpl; by rewrite length_alter|].
    intros u info j' Hu Hp Hj'. apply Htk. intros ->. by apply (Hno u info).
  - intros k g _ Ha Hg. split; [done|].
    assert (Hown : own_slot h = Some j) by (by destruct Hh as [-> | ->]).
    destruct g as [| |j'|j'|j']; try done.
    + destruct Hg as [Hn [Htk' Hno']]. split; [done|]. split; [|done]. apply Htk; [|done].
      intros ->. by apply (Ha j).
    + destruct Hg as [Htk' Hno']. split; [|done]. apply Htk; [|done]. intros ->. by apply (Ha j).
Qed.

Lemma found_claims t (Q : Result Z -> holding -> Prop) :
  (forall j, Q (Ok j) (Sits j)) -> (forall e, Q (Err e) Nothing) ->
  claims (Destroying t) Q (once (on_kim (get_key_id Z (key_info_store self) t))) Nothing.
Proof.
  intros HOk HErr. apply claims_atomic. intros n s _ Hok _. unfold on_kim, zoom.
  rewrite get_key_id_run. simpl. change (kim_view (kim s)) with (cal_view s).
  destruct (cal_view s !! t) as [info|] eqn:Ht.
  - destruct (bincode_deserialize (ki_id info)) as [j|] eqn:Hj.
    + exists (Sits j). split; [|by apply HOk]. apply still_exchange; auto. by exists info.
    + exists Nothing. split; [|by apply HErr]. by apply still_exchange; auto.
  - exists Nothing. split; [|by apply HErr]. by apply still_exchange; auto.
Qed.

Lemma remove_claims t j (Q : Result unit -> holding -> Prop) :
  kt_provider_id t = CryptoAuthLib ->
  Q (Ok tt) (OldSlot j) -> (forall e, Q (Err e) Nothing) ->
  claims (Destroying t) Q (once (on_kim (remove_key_info (key_info_store self) t))) (Sits j).
Proof.
  intros Hp HOk HErr. apply claims_atomic. intros n s _ Hok (info & Ht & Hj). unfold on_kim, zoom.
  destruct (remove_key_info_cases (key_info_store self) t (kim s)) as (k1 & [[-> Hv]|[-> Hv]]);
    change (kim_view (kim s)) with (cal_view s) in *.
  { simpl. exists Nothing. split; [|by apply HErr]. by apply still_exchange; auto. }
  rewrite Ht. simpl. exists (OldSlot j). split; [|done].
  set (s' := {| kim := k1; device := device s; key_slots := key_slots s |}).
  change (kim_view k1) with (cal_view s') in Hv.
  destruct (co_taken s Hok t info Ht Hp) as (j1 & Hj1 & Htk). assert (j1 = j) as -> by congruence.
  assert (Hless : forall j', unused s j' -> unused s' j').
  { intros j' [Htk' Hun']. split; [done|]. intros u i'. rewrite Hv.
    intros [_ Hu]%lookup_delete_Some. by apply Hun'. }
  split.
  - by apply (cal_ok_removed s s' t).
  - split; [done|]. intros u i'. rewrite Hv. intros [Hne Hu]%lookup_delete_Some Hpu Hid.
    by apply Hne, (co_distinct s Hok t u info i' j).
  - intros k g Hc Ha Hg.
    assert (Hname : name_free k s -> name_free k s').
    { destruct k as [u|u|]; simpl; try done. intros Hu. rewrite Hv, lookup_delete_None. by right. }
    split.
    + intros j' [= <-] Hg'. destruct g; simplify_eq/=; [destruct Hg as [_ Hg]|];
        by apply (proj2 Hg t info).
    + destruct g as [| |j'|j'|j']; simpl in *; try done; auto.
      * destruct Hg as [Hn Hg]. by auto.
      * destruct k as [u|u|]; simpl in *; try done. destruct Hg as (i' & Hu & Hid). exists i'.
        split; [|done]. rewrite Hv, lookup_delete_ne; [done|]. by apply bool_decide_eq_false in Hc.
Qed.

(** *** The programs *)
Lemma release_claims i h j e :
  h = NewSlot j \/ h = OldSlot j -> claims i ends (CalThread.release_and_fail j e) h.
Proof.
  intros Hh. apply claims_bind, claims_prog_bind, free_claims; [done|]. by intros [[]|e'|] Hr.
Qed.

Lemma store_claims t j attrs (f : ResponseStatus -> ResponseStatus) :
  (0 <= j < ATCA_ATECC_SLOTS_COUNT)%Z ->
  claims (Creating t) ends
    (r ← tried (once (on_kim (insert_key_info (key_info_store self) t j attrs)));
     match r with
     | Ok _ => mret tt
     | Err error => CalThread.release_and_fail j (f error)
     | Panic => local Panic
     end) (NewSlot j).
Proof.
  intros Hj. apply claims_bind, claims_prog_bind, insert_claims; [done|done|].
  intros e. apply release_claims. by left.
Qed.

Lemma device_claims {A} i (Q : Result A -> holding -> Prop) (f : D -> A * D) h :
  (forall a, Q (Ok a) h) -> claims i Q (once (on_device f)) h.
Proof.
  intros HQ. apply claims_atomic. intros n s _ Hok Hh. exists h.
  destruct (on_device_run (E := ResponseStatus) f s) as (a & d & ->).
  split; [|by apply HQ]. by apply still_exchange; auto.
Qed.

Lemma generate_claims a op :
  claims (Creating (triple self a (gk_key_name op))) ends
    (CalThread.psa_generate_key_internal self a op) Nothing.
Proof.
  apply claims_bind, check_claims; [|done]. destruct (is_public_key _); [done|].
  apply claims_bind. pose proof (calib_key_type_no_panic (gk_attributes op)) as Hp.
  destruct (get_calib_key_type _) as [ty|e|]; [|done|done].
  apply claims_bind, find_claims; [|done]. intros j Hj.
  apply claims_bind, device_claims. intros st.
  destruct st; try (apply release_claims; by left).
  by apply (store_claims _ j (gk_attributes op) (fun e => e)).
Qed.

Lemma import_claims a op :
  claims (Creating (triple self a (ik_key_name op))) ends
    (CalThread.psa_import_key_internal self a op) Nothing.
Proof.
  apply claims_bind, check_claims; [|done].
  apply claims_bind. pose proof (calib_key_type_no_panic (ik_attributes op)) as Hp.
  destruct (get_calib_key_type _) as [ty|e|]; [|done|done].
  apply claims_bind, find_claims; [|done]. intros j Hj.
  apply claims_bind. pose proof (raw_key_extract_no_panic (key_type (ik_attributes op)) (ik_data op)).
  destruct (raw_key_extract _ _) as [data|e|]; [|done|done].
  apply claims_bind, device_claims. intros st.
  destruct st; try (apply release_claims; by left).
  by apply (store_claims _ j (ik_attributes op) (fun _ => PsaErrorStorageFailure)).
Qed.

Lemma destroy_claims a k :
  claims (Destroying (triple self a k)) ends (CalThread.psa_destroy_key_internal self a k) Nothing.
Proof.
  apply claims_bind, found_claims; [|done]. intros j.
  apply claims_bind, remove_claims; [exact Hself| |done].
  apply claims_bind, claims_prog_bind, free_claims; [by right|]. by intros [[]|e'|] Hr.
Qed.

Lemma code_claims c : claims (intent_of self c) ends (CalThread.code self c) Nothing.
Proof.
  destruct c as [a op]. destruct (cal_reading op) eqn:Hr; [by apply code_looks|].
  unfold intent_of, CalThread.code, CalThread.guarded. cbn [fst snd].
  destruct op; try discriminate Hr; apply claims_map; (case_decide; [|done]).
  - apply generate_claims.
  - apply import_claims.
  - apply destroy_claims.
Qed.
End Steps.

(** C18: requests of any kind to the CryptoAuthLib provider can run in parallel, as
    long as no two in progress create the same key and no two destroy the same key.
    Whatever fails underneath and however their accesses are interleaved, every stored
    key names a slot that is not free and no two keys the same slot, and no request
    panics. *)
Theorem cal_parallel_safe s0 x :
  cal_ok s0 ->
  rtc (calm_step clash (CalThread.code self) (intent_of self)) (open s0) x ->
  cal_ok (shared x) /\ (forall u c, threads x !! u <> Some (c, Ret Panic)).
Proof.
  intros Hok Hrun.
  destruct (crew_claims (fun _ => cal_ok) counts holds apart Nothing clash (size (threads x))
    apart_sym apart_nothing (fun _ _ _ _ => I) eq_refl (CalThread.code self) (intent_of self)
    (ends counts) (fun _ _ Hr => Hr) (fun _ _ Hr => proj2 Hr) (code_claims (size (threads x))) s0 x)
    as [(n & Hx & _) Hp]; [done..|].
  split; [done|]. intros u c Hu. by destruct (Hp u c _ Hu) as (h & Hr & _).
Qed.
End Spec.

(** ** Concrete runs *)
Definition other_app : ApplicationName := from_name "other".
Definition cal_generate (a : ApplicationName) (k : string) : ApplicationName * NativeOperation :=
  (a, PsaGenerateKey {| gk_key_name := k; gk_attributes := ecc_attributes |}).
Definition cal_destroy (a : ApplicationName) (k : string) : ApplicationName * NativeOperation :=
  (a, PsaDestroyKey k).
Abbreviation cal_crew :=
  (crew (state OnDisk unit) (Result NativeResult) (ApplicationName * NativeOperation)).
Abbreviation cal_turn := (turn (ApplicationName * NativeOperation)).

(** A request that arrives on [tid] and runs [n] steps. *)
Definition alone (tid : nat) (c : ApplicationName * NativeOperation) (n : nat) : list cal_turn :=
  Arrives tid c :: replicate n (Goes tid).

(** Two applications create keys, and one of them destroys its own, step by step. *)
Definition cal_busy : list cal_turn :=
  [Arrives 0 (cal_generate cal_app "k"); Arrives 1 (cal_generate other_app "k");
   Goes 0; Goes 1; Goes 0; Goes 1; Goes 1; Goes 0; Goes 0;
   Arrives 0 (cal_destroy cal_app "k"); Goes 0; Goes 1; Goes 0;
   Arrives 1 (cal_generate cal_app "k"); Goes 1; Goes 1; Goes 0; Goes 1; Goes 1].
Definition cal_busy_crew : cal_crew :=
  default (open cal0)
    (take_calm_turns clash (CalThread.code cal_self) (intent_of cal_self) cal_busy (open cal0)).

Lemma cal_busy_run :
  take_calm_turns clash (CalThread.code cal_self) (intent_of cal_self) cal_busy (open cal0) =
  Some cal_busy_crew.
Proof.
  unfold cal_busy_crew.
  assert (Hs : bool_decide (is_Some (take_calm_turns clash (CalThread.code cal_self)
    (intent_of cal_self) cal_busy (open cal0))) = true) by (vm_compute; reflexivity).
  apply bool_decide_eq_true in Hs as [y Hy]. by rewrite Hy.
Qed.

Definition slot_at (s : state OnDisk unit) (a : ApplicationName) (k : string) : option Z :=
  cal_view s !! triple cal_self a k ≫= slot_of.

Lemma cal_parallel_safe_witness :
  slot_at (shared cal_busy_crew) cal_app "k" = Some 3%Z /\
  slot_at (shared cal_busy_crew) other_app "k" = Some 2%Z /\ cal_ok (shared cal_busy_crew).
Proof.
  split; [vm_compute; reflexivity|]. split; [vm_compute; reflexivity|].
  apply (cal_parallel_safe cal_self eq_refl cal0 cal_busy_crew); [exact cal0_ok|].
  exact (take_calm_turns_run clash (CalThread.code cal_self) (intent_of cal_self) cal_busy
    (open cal0) cal_busy_crew cal_busy_run).
Defined.

(** A key of an application is created; two requests to destroy it both read its slot,
    and the first goes on to its end.  Another application creates a key, which gets the
    slot; the first application creates its key again; then the second request goes on. *)
Definition cal_race : list cal_turn :=
  alone 0 (cal_generate cal_app "k") 4 ++
  alone 1 (cal_destroy cal_app "k") 1 ++ alone 2 (cal_destroy cal_app "k") 1 ++
  [Goes 1; Goes 1] ++
  alone 3 (cal_generate other_app "b") 4 ++
  alone 4 (cal_generate cal_app "k") 4 ++
  [Goes 2; Goes 2].
(** Then one more key is created. *)
Definition cal_after_race : list cal_turn := alone 5 (cal_generate cal_app "m") 4.

Definition cal_race_crew : cal_crew :=
  default (open cal0) (take_turns (CalThread.code cal_self) cal_race (open cal0)).
Definition cal_after_crew : cal_crew :=
  default (open cal0) (take_turns (CalThread.code cal_self) cal_after_race cal_race_crew).

Lemma cal_default_run (l : list cal_turn) (x : cal_crew) :
  bool_decide (is_Some (take_turns (CalThread.code cal_self) l x)) = true ->
  take_turns (CalThread.code cal_self) l x =
  Some (default (open cal0) (take_turns (CalThread.code cal_self) l x)).
Proof. intros [y Hy]%bool_decide_eq_true. by rewrite Hy. Qed.

(** The requests one after the other, each to its end. *)
Definition in_turn (calls : list (ApplicationName * NativeOperation)) (s : state OnDisk unit)
    : state OnDisk unit :=
  foldl (fun s c => (provider_call (provide Some cal_self) c.1 c.2 s).2) s calls.
Lemma in_turn_ok calls : forall s, cal_ok s -> cal_ok (in_turn calls s).
Proof.
  induction calls as [|c calls IH]; intros s Hs; [done|]. apply IH.
  by apply (cal_safe Some cal_self eq_refl c.1 c.2 s).
Qed.

Definition slot_free (s : state OnDisk unit) (j : nat) : bool :=
  bool_decide (slot_status <$> key_slots s !! j = Some Free).

(** C21: two requests of an application that destroy the same key at once can break the
    keys of another.  In the run [cal_race] all five requests succeed, and then the key
    "b" of the other application is in slot 1 while the slot is marked as free: the
    second request freed the slot it had read at its beginning.  It also removed the
    key "k" that was created after the first one had destroyed it.  The next key that is
    created, "m", is put into slot 1 too, with success, so that two keys of two
    applications are one slot of the chip.  It is the interleaving that does it: no
    requests that run one after the other, these or others, in any order, end in such a
    state. *)
Theorem cal_destroy_race :
  exists x y,
    take_turns (CalThread.code cal_self) cal_race (open cal0) = Some x /\
    threads x = {[ 0 := (cal_generate cal_app "k", Ret (Ok RPsaGenerateKey));
                   1 := (cal_destroy cal_app "k", Ret (Ok RPsaDestroyKey));
                   2 := (cal_destroy cal_app "k", Ret (Ok RPsaDestroyKey));
                   3 := (cal_generate other_app "b", Ret (Ok RPsaGenerateKey));
                   4 := (cal_generate cal_app "k", Ret (Ok RPsaGenerateKey)) ]} /\
    slot_at (shared x) other_app "b" = Some 1%Z /\ slot_free (shared x) 1 = true /\
    slot_at (shared x) cal_app "k" = None /\
    take_turns (CalThread.code cal_self) cal_after_race x = Some y /\
    threads y !! 5 = Some (cal_generate cal_app "m", Ret (Ok RPsaGenerateKey)) /\
    slot_at (shared y) other_app "b" = Some 1%Z /\ slot_at (shared y) cal_app "m" = Some 1%Z /\
    ~ cal_ok (shared y) /\
    (forall calls, cal_ok (in_turn calls cal0)).
Proof.
  exists cal_race_crew, cal_after_crew.
  assert (Hb : slot_at (shared cal_after_crew) other_app "b" = Some 1%Z) by (vm_compute; reflexivity).
  assert (Hm : slot_at (shared cal_after_crew) cal_app "m" = Some 1%Z) by (vm_compute; reflexivity).
  split_and!; [apply cal_default_run; vm_compute; reflexivity|vm_compute; reflexivity..|
    apply cal_default_run; vm_compute; reflexivity|vm_compute; reflexivity|done|done| |].
  - intros Hok. apply bind_Some in Hb as (i1 & Hi1 & Hj1). apply bind_Some in Hm as (i2 & Hi2 & Hj2).
    pose proof (co_distinct _ Hok _ _ i1 i2 1 Hi1 Hi2 eq_refl eq_refl Hj1 Hj2) as Heq.
    discriminate Heq.
  - intros calls. apply in_turn_ok, cal0_ok.
Qed.
