(* ===== verification/Config.v ===== *)
(** * The configuration ([src/utils/config.rs], [src/utils/global_config.rs])

    The configuration file as the service builder sees it, after [toml] has
    decoded it, and the process-wide [GLOBAL_CONFIG], which is part of the state
    of the service. *)
From S2P Require Import Prelude RustStd Interface Authenticators.

(** [log::LevelFilter] *)
Inductive LevelFilter := LfOff | LfError | LfWarn | LfInfo | LfDebug | LfTrace.

Record CoreSettings := {
  thread_pool_size : option Z;
  idle_listener_sleep_duration : option Z;
  log_level : option LevelFilter;
  log_timestamp : option bool;
  cs_body_len_limit : option Z;
  cs_log_error_details : option bool;
  allow_root : option bool;
  cs_buffer_size_limit : option Z;
}.

Inductive ListenerType := DomainSocket.
Record ListenerConfig := {
  listener_type : ListenerType;
  listener_timeout : Z;
  socket_path : option string;
}.

Inductive AuthenticatorConfig :=
  | DirectConfig (admins : option (list Admin))
  | UnixPeerCredentialsConfig (admins : option (list Admin))
  | JwtSvidConfig (workload_endpoint : string) (admins : option (list Admin)).

Inductive KeyInfoManagerType := OnDiskManagerType.
Record KeyInfoManagerConfig := {
  manager_name : string;
  manager_type : KeyInfoManagerType;
  store_path : option string;
}.

Inductive ProviderConfig :=
  | MbedCryptoConfig (key_info_manager : string)
  | Pkcs11Config (key_info_manager library_path : string) (slot_number : Z)
      (user_pin : option string) (software_public_operations allow_export : option bool)
  | TpmConfig (key_info_manager tcti owner_hierarchy_auth : string)
      (skip_if_no_tpm : option bool)
  | CryptoAuthLibConfig (key_info_manager device_type iface_type : string)
      (wake_delay rx_retries slave_address bus baud : option Z)
      (access_key_file_name : option string)
  | TrustedServiceConfig (key_info_manager : string).

(** [ProviderConfig::key_info_manager] *)
Definition key_info_manager (self : ProviderConfig) : string :=
  match self with
  | MbedCryptoConfig key_info_manager => key_info_manager
  | Pkcs11Config key_info_manager _ _ _ _ _ => key_info_manager
  | TpmConfig key_info_manager _ _ _ => key_info_manager
  | CryptoAuthLibConfig key_info_manager _ _ _ _ _ _ _ _ => key_info_manager
  | TrustedServiceConfig key_info_manager => key_info_manager
  end.

(** [ProviderConfig::provider_id] *)
Definition config_provider_id (self : ProviderConfig) : ProviderId :=
  match self with
  | MbedCryptoConfig _ => MbedCrypto
  | Pkcs11Config _ _ _ _ _ _ => Pkcs11
  | TpmConfig _ _ _ _ => Tpm
  | CryptoAuthLibConfig _ _ _ _ _ _ _ _ _ => CryptoAuthLib
  | TrustedServiceConfig _ => TrustedService
  end.

Record ServiceConfig := {
  core_settings : CoreSettings;
  listener : ListenerConfig;
  authenticator : AuthenticatorConfig;
  key_manager : option (list KeyInfoManagerConfig);
  provider_configs : option (list ProviderConfig);
}.

(** ** [GlobalConfig] *)
Definition DEFAULT_BUFFER_SIZE_LIMIT : Z := Z.shiftl 1 20.
Definition DEFAULT_BODY_LEN_LIMIT : Z := Z.shiftl 1 20.

Record GlobalConfig := { log_error_details : bool; buffer_size_limit : Z }.
Definition GlobalConfig_new : GlobalConfig :=
  {| log_error_details := false; buffer_size_limit := DEFAULT_BUFFER_SIZE_LIMIT |}.

Record GlobalConfigBuilder := {
  gb_log_error_details : bool;
  gb_buffer_size_limit : option Z;
}.
Definition GlobalConfigBuilder_new : GlobalConfigBuilder :=
  {| gb_log_error_details := false; gb_buffer_size_limit := None |}.
Definition with_log_error_details (v : bool) (b : GlobalConfigBuilder) : GlobalConfigBuilder :=
  {| gb_log_error_details := v; gb_buffer_size_limit := gb_buffer_size_limit b |}.
Definition with_buffer_size_limit (v : Z) (b : GlobalConfigBuilder) : GlobalConfigBuilder :=
  {| gb_log_error_details := gb_log_error_details b; gb_buffer_size_limit := Some v |}.

(** [GlobalConfigBuilder::build] stores both values in the static. *)
Definition GlobalConfigBuilder_build {E} (b : GlobalConfigBuilder) : ST GlobalConfig E unit :=
  modify (fun _ => {| log_error_details := gb_log_error_details b;
    buffer_size_limit := default DEFAULT_BUFFER_SIZE_LIMIT (gb_buffer_size_limit b) |}).
