(* ===== verification/ServiceBuilder.v ===== *)
(** * The service builder ([src/utils/service_builder.rs])

    [build_service] turns a configuration into a front end handler.  The state
    it works on has the file system, the key info managers (one per configured
    name, shared by the providers that name it, as [Arc<RwLock<..>>] shares it),
    the global configuration, and whatever the providers' libraries keep.  What a
    provider's own builder does is an argument ([ProviderBuilders]); the ones
    modelled in this library are put in its place in [FullService].  Which
    providers and authenticators are compiled in is an argument too. *)
From S2P Require Import Prelude RustStd Interface Authenticators Fs KeyInfo OnDisk Provide.
From S2P Require Import Backend FrontEnd CoreProvider Config.

(** ** The state of the service *)
Record World (R : Type) := {
  w_disk : fs;
  w_managers : list OnDiskKeyInfoManager;
  w_global : GlobalConfig;
  w_rest : R;
}.
Arguments w_disk {R}.
Arguments w_managers {R}.
Arguments w_global {R}.
Arguments w_rest {R}.

Section Lenses.
Context {R : Type}.

Definition set_w_disk (d : fs) (w : World R) : World R :=
  {| w_disk := d; w_managers := w_managers w; w_global := w_global w; w_rest := w_rest w |}.
Definition set_w_managers (l : list OnDiskKeyInfoManager) (w : World R) : World R :=
  {| w_disk := w_disk w; w_managers := l; w_global := w_global w; w_rest := w_rest w |}.
Definition set_w_global (g : GlobalConfig) (w : World R) : World R :=
  {| w_disk := w_disk w; w_managers := w_managers w; w_global := g; w_rest := w_rest w |}.
Definition set_w_rest (r : R) (w : World R) : World R :=
  {| w_disk := w_disk w; w_managers := w_managers w; w_global := w_global w; w_rest := r |}.
End Lenses.

(** ** Key info managers *)
(** [PathBuf::from] on a path of normal components; the service's working
    directory is the root. *)
Fixpoint split_path (current : string) (s : string) : list string :=
  match s with
  | EmptyString => [current]
  | String "/" s' => current :: split_path "" s'
  | String a s' => split_path (String.append current (String a EmptyString)) s'
  end.
Definition PathBuf_from (s : string) : path :=
  filter (fun c => c <> "" /\ c <> ".") (split_path "" s).

Definition DEFAULT_MAPPINGS_PATH : string := "/var/lib/parsec/mappings".

Record OnDiskKeyInfoManagerBuilder := { ob_mappings_dir_path : option path }.
Definition OnDiskKeyInfoManagerBuilder_new : OnDiskKeyInfoManagerBuilder :=
  {| ob_mappings_dir_path := None |}.
Definition with_mappings_dir_path (p : path) (b : OnDiskKeyInfoManagerBuilder)
    : OnDiskKeyInfoManagerBuilder := {| ob_mappings_dir_path := Some p |}.

Section Managers.
Context {R : Type} `{ParsecInterface} `{Base64} `{Bincode KeyInfo}.
Abbreviation W := (World R).

Definition OnDiskKeyInfoManagerBuilder_build (b : OnDiskKeyInfoManagerBuilder)
    : ST fs io_error OnDiskKeyInfoManager :=
  Manager.new (default (PathBuf_from DEFAULT_MAPPINGS_PATH) (ob_mappings_dir_path b)).

(** The factory holds the shared manager: its place in [w_managers]. *)
Record KeyInfoManagerFactory := { key_info_manager_impl : nat }.

Definition Factory_new (config : KeyInfoManagerConfig) : ST W string KeyInfoManagerFactory :=
  manager ← (match manager_type config with
             | OnDiskManagerType =>
               let builder := OnDiskKeyInfoManagerBuilder_new in
               let builder := match store_path config with
                              | Some store_path =>
                                with_mappings_dir_path (PathBuf_from store_path) builder
                              | None => builder
                              end in
               zoom w_disk set_w_disk (OnDiskKeyInfoManagerBuilder_build builder)
             end);
  h ← gets (fun w => length (w_managers w));
  modify (fun w => set_w_managers (w_managers w ++ [manager]) w) ;;
  mret {| key_info_manager_impl := h |}.

(** [build_client]: the shared manager and the provider it is used for. *)
Definition build_client (self : KeyInfoManagerFactory) (provider : ProviderId)
    : nat * KeyInfoManagerClient :=
  (key_info_manager_impl self, {| client_provider_id := provider |}).

Definition gey_key_info_manager_builders (configs : list KeyInfoManagerConfig)
    : ST W string (gmap string KeyInfoManagerFactory) :=
  fold_each configs ∅ (fun map config =>
    factory ← Factory_new config;
    mret (<[manager_name config := factory]> map)).
End Managers.
Arguments KeyInfoManagerFactory : clear implicits.

(** ** What the providers' builders do

    One function per provider, from the client of its key info manager and the
    fields of its configuration, and the checks of the configuration that other
    crates make. *)
Record ProviderBuilders (W : Type) := {
  build_mbed_crypto : nat * KeyInfoManagerClient -> ST W string (Provide W);
  build_pkcs11 : nat * KeyInfoManagerClient -> string -> Z -> option string -> option bool ->
    option bool -> ST W string (Provide W);
  (** [TctiNameConf::from_str] succeeds; [TctiContext::initialize] *)
  tcti_name_conf : string -> bool;
  tcti_initialize : string -> ST W string unit;
  build_tpm : nat * KeyInfoManagerClient -> string -> string -> ST W string (Provide W);
  build_cryptoauthlib : nat * KeyInfoManagerClient -> string -> string -> option Z ->
    option Z -> option Z -> option Z -> option Z -> option string -> ST W string (Provide W);
  build_trusted_service : nat * KeyInfoManagerClient -> ST W string (Provide W);
}.
Arguments build_mbed_crypto {W}.
Arguments build_pkcs11 {W}.
Arguments tcti_name_conf {W}.
Arguments tcti_initialize {W}.
Arguments build_tpm {W}.
Arguments build_cryptoauthlib {W}.
Arguments build_trusted_service {W}.

Definition WIRE_PROTOCOL_VERSION_MINOR : Z := 0.
Definition WIRE_PROTOCOL_VERSION_MAJOR : Z := 1.

Section ServiceBuilder.
Context {R : Type} `{ParsecInterface} `{Base64} `{Bincode KeyInfo}.
Abbreviation W := (World R).
(** The providers' builders, the cargo features, the SPIFFE connection, the
    marshalling of bodies, the version of the crate and the UUID parser. *)
Context (builders : ProviderBuilders W) (features : gset ProviderId) (auth_features : gset AuthType).
Context (spiffe_connect : string -> option JwtSvidAuthenticator.WorkloadApiClient).
Context (ProtobufConverter : Convert).
Context (crate_version : option (Z * Z * Z)) (parse_uuid : string -> option string).

(** [get_provider]; an absent provider is one skipped by configuration.  The
    conversion of the slot number from [usize] to [u64] cannot fail. *)
Definition get_provider (config : ProviderConfig) (kim_factory : KeyInfoManagerFactory)
    : ST W string (option (Provide W)) :=
  if decide (config_provider_id config ∈ features) then
    match config with
    | MbedCryptoConfig _ =>
      p ← build_mbed_crypto builders (build_client kim_factory MbedCrypto);
      mret (Some p)
    | Pkcs11Config _ library_path slot_number user_pin software_public_operations allow_export =>
      p ← build_pkcs11 builders (build_client kim_factory Pkcs11) library_path slot_number
            user_pin software_public_operations allow_export;
      mret (Some p)
    | TpmConfig _ tcti owner_hierarchy_auth skip_if_no_tpm =>
      (if tcti_name_conf builders tcti then mret tt
       else raise "Invalid TCTI configuration string") ;;
      skipped ← (if decide (skip_if_no_tpm = Some true) then
                   r ← attempt (tcti_initialize builders tcti);
                   match r with
                   | Ok _ => mret false
                   | Err _ => mret true
                   | Panic => panic
                   end
                 else mret false);
      if skipped : bool then mret None
      else
        p ← build_tpm builders (build_client kim_factory Tpm) tcti owner_hierarchy_auth;
        mret (Some p)
    | CryptoAuthLibConfig _ device_type iface_type wake_delay rx_retries slave_address bus baud
        access_key_file_name =>
      p ← build_cryptoauthlib builders (build_client kim_factory CryptoAuthLib) device_type
            iface_type wake_delay rx_retries slave_address bus baud access_key_file_name;
      mret (Some p)
    | TrustedServiceConfig _ =>
      p ← build_trusted_service builders (build_client kim_factory TrustedService);
      mret (Some p)
    end
  else raise "provider not compiled".

(** One turn of the loop of [build_providers]. *)
Definition add_provider (kim_factorys : gmap string KeyInfoManagerFactory)
    (providers : list (ProviderId * Provide W)) (config : ProviderConfig)
    : ST W string (list (ProviderId * Provide W)) :=
  let provider_id := config_provider_id config in
  if existsb (fun '(id, _) => bool_decide (id = provider_id)) providers then
    raise "only one provider per type is supported"
  else
    kim_factory ← lift (ok_or (kim_factorys !! key_info_manager config)
                          "key info manager builder not found");
    r ← attempt (get_provider config kim_factory);
    match r with
    | Ok None => mret providers
    | Ok (Some provider) => mret (providers ++ [(provider_id, provider)])
    | Err _ => raise "failed to create provider"
    | Panic => panic
    end.

Definition build_providers (configs : list ProviderConfig)
    (kim_factorys : gmap string KeyInfoManagerFactory)
    : ST W string (list (ProviderId * Provide W)) :=
  fold_each configs [] (add_provider kim_factorys).

Definition build_authenticators (config : AuthenticatorConfig)
    : result string (list (AuthType * Authenticate)) :=
  let compiled (t : AuthType) (a : Authenticate) : result string (list (AuthType * Authenticate)) :=
    if decide (t ∈ auth_features) then Ok [(t, a)] else Err "authenticator not compiled" in
  match config with
  | DirectConfig admins =>
    compiled Direct (DirectAuthenticator.impl (DirectAuthenticator.new (default [] admins)))
  | UnixPeerCredentialsConfig admins =>
    compiled UnixPeerCredentials (UnixPeerCredentialsAuthenticator.impl
      (UnixPeerCredentialsAuthenticator.new (default [] admins)))
  | JwtSvidConfig workload_endpoint admins =>
    if decide (JwtSvid ∈ auth_features) then
      match JwtSvidAuthenticator.new spiffe_connect workload_endpoint (default [] admins) with
      | Some authenticator => Ok [(JwtSvid, JwtSvidAuthenticator.impl authenticator)]
      | None => Err "can not create a SPIFFE Workload API client"
      end
    else Err "authenticator not compiled"
  end.

(** The chain of builder calls that wraps one provider. *)
Definition backend_for_provider (provider_id : ProviderId) (provider : Provide W)
    : result string (BackEndHandler W) :=
  BackEndHandlerBuilder_build
    (with_accept_type Protobuf (with_content_type Protobuf (with_provider_id provider_id
      (with_converter ProtobufConverter (Backend.with_provider provider
        BackEndHandlerBuilder_new))))).

(** The two loops of [build_backend_handlers]. *)
Fixpoint describe_authenticators (b : CoreProvider.ProviderBuilder W)
    (authenticators : list (AuthType * Authenticate))
    : result string (CoreProvider.ProviderBuilder W) :=
  match authenticators with
  | [] => Ok b
  | (_, authenticator) :: rest =>
    info ← map_err (fun _ => "Failed to describe authenticator") (trait_describe authenticator);
    describe_authenticators (CoreProvider.with_authenticator_info info b) rest
  end.

Fixpoint wrap_providers (b : CoreProvider.ProviderBuilder W)
    (map : gmap ProviderId (BackEndHandler W)) (providers : list (ProviderId * Provide W))
    : result string (CoreProvider.ProviderBuilder W * gmap ProviderId (BackEndHandler W)) :=
  match providers with
  | [] => Ok (b, map)
  | (provider_id, provider) :: rest =>
    backend_handler ← backend_for_provider provider_id provider;
    wrap_providers (CoreProvider.with_provider provider b)
      (<[provider_id := backend_handler]> map) rest
  end.

Definition build_backend_handlers (providers : list (ProviderId * Provide W))
    (authenticators : list (AuthType * Authenticate))
    : result string (gmap ProviderId (BackEndHandler W)) :=
  b ← describe_authenticators
        (CoreProvider.with_wire_protocol_version WIRE_PROTOCOL_VERSION_MINOR
           WIRE_PROTOCOL_VERSION_MAJOR CoreProvider.ProviderBuilder_new) authenticators;
  '(b, map) ← wrap_providers b ∅ providers;
  core ← CoreProvider.build crate_version parse_uuid b;
  core_provider_backend ← backend_for_provider Core (CoreProvider.provide core);
  Ok (<[Core := core_provider_backend]> map).

(** [ServiceBuilder::build_service]; indexing an empty list of authenticators
    panics. *)
Definition build_service (config : ServiceConfig) : ST W string (FrontEndHandler W) :=
  let settings := core_settings config in
  zoom w_global set_w_global (GlobalConfigBuilder_build
    (with_buffer_size_limit (default DEFAULT_BUFFER_SIZE_LIMIT (cs_buffer_size_limit settings))
      (with_log_error_details (default false (cs_log_error_details settings))
        GlobalConfigBuilder_new))) ;;
  key_info_manager_builders ← gey_key_info_manager_builders (default [] (key_manager config));
  providers ← build_providers (default [] (provider_configs config)) key_info_manager_builders;
  (match providers with [] => raise "need one provider" | _ => mret tt end) ;;
  authenticators ← lift (build_authenticators (authenticator config));
  _ ← lift (unwrap (authenticators !! 0));
  backend_handlers ← lift (build_backend_handlers providers authenticators);
  dispatcher ← lift (DispatcherBuilder_build (with_backends backend_handlers DispatcherBuilder_new));
  let front_end_handler_builder :=
    foldl (fun b '(auth_type, authenticator) => with_authenticator auth_type authenticator b)
      FrontEndHandlerBuilder_new authenticators in
  lift (FrontEndHandlerBuilder_build
    (with_body_len_limit (default DEFAULT_BODY_LEN_LIMIT (cs_body_len_limit settings))
      (with_dispatcher dispatcher front_end_handler_builder))).
End ServiceBuilder.
