(* ===== verification/ServiceSpec.v ===== *)
(** * What the service builder builds

    A service that was built is wired as its configuration says; every
    connection it serves gets one response, whatever came before; and whose keys
    a connection can change depends only on the authenticated name and the list
    of administrators in the configuration. *)
From S2P Require Import Prelude RustStd Interface Authenticators Fs KeyInfo OnDisk Provide.
From S2P Require Import Backend FrontEnd CoreProvider Config ServiceBuilder.

(** The administrators an authenticator is configured with. *)
Definition config_admins (c : AuthenticatorConfig) : AdminList :=
  match c with
  | DirectConfig admins | UnixPeerCredentialsConfig admins | JwtSvidConfig _ admins =>
    default [] admins
  end.
Definition config_auth_type (c : AuthenticatorConfig) : AuthType :=
  match c with
  | DirectConfig _ => Direct
  | UnixPeerCredentialsConfig _ => UnixPeerCredentials
  | JwtSvidConfig _ _ => JwtSvid
  end.

Section Spec.
Context {R : Type} `{ParsecInterface} `{Base64} `{Bincode KeyInfo}.
Abbreviation W := (World R).
Context (builders : ProviderBuilders W) (features : gset ProviderId) (auth_features : gset AuthType).
Context (spiffe_connect : string -> option JwtSvidAuthenticator.WorkloadApiClient).
Context (ProtobufConverter : Convert).
Context (crate_version : option (Z * Z * Z)) (parse_uuid : string -> option string).
Implicit Types (config : ServiceConfig) (w : W) (fe : FrontEndHandler W).

Abbreviation build_service :=
  (build_service builders features auth_features spiffe_connect ProtobufConverter crate_version
     parse_uuid).
Abbreviation build_providers := (build_providers builders features).
Abbreviation add_provider := (add_provider builders features).
Abbreviation build_authenticators := (build_authenticators auth_features spiffe_connect).

(** The handler of a provider. *)
Definition handler (id : ProviderId) (p : Provide W) : BackEndHandler W :=
  {| provider := p; converter := ProtobufConverter; provider_id := id;
     content_type := Protobuf; accept_type := Protobuf |}.

Lemma backend_for_provider_run id p :
  backend_for_provider ProtobufConverter id p = Ok (handler id p).
Proof. done. Qed.

(** ** Providers *)
Lemma add_provider_Ok kims l c w l' w' :
  add_provider kims l c w = (Ok l', w') ->
  is_Some (kims !! key_info_manager c) /\ (config_provider_id c ∉ l.*1) /\
  (l' = l \/ exists p, l' = l ++ [(config_provider_id c, p)]).
Proof.
  unfold add_provider. destruct (existsb _ l) eqn:Hdup; [done|].
  assert (Hnew : config_provider_id c ∉ l.*1).
  { intros ([id q] & Heq & Hin)%list_elem_of_fmap. simpl in Heq.
    apply not_true_iff_false in Hdup. apply Hdup, existsb_exists. exists (id, q).
    split; [by apply list_elem_of_In|by apply bool_decide_eq_true]. }
  run_unfold. destruct (kims !! key_info_manager c) as [f|] eqn:Hf; [|done]. simpl.
  destruct (get_provider _ _ _ _ w) as [[[p|]| |] w1]; simpl; try done; intros [= <- <-];
    (split; [by eexists|split; [done|by eauto]]).
Qed.

Lemma build_providers_from kims l configs w l' w' :
  NoDup (l.*1) -> (Core ∉ l.*1) ->
  fold_each configs l (add_provider kims) w = (Ok l', w') ->
  exists ext, l' = l ++ ext /\ NoDup (l'.*1) /\ (Core ∉ l'.*1) /\
    sublist (ext.*1) (config_provider_id <$> configs) /\
    Forall (fun c => is_Some (kims !! key_info_manager c)) configs.
Proof.
  revert l w. induction configs as [|c configs IH]; intros l w HN HC Hrun.
  - injection Hrun as <- <-. exists []. rewrite app_nil_r. by split_and!.
  - simpl in Hrun. apply bind_Ok in Hrun as (l1 & w1 & (Hk & Hid & Hl)%add_provider_Ok & Hrun).
    destruct Hl as [->|[p ->]].
    + destruct (IH l w1 HN HC Hrun) as (ext & -> & ? & ? & ? & ?).
      exists ext. split_and!; auto. by apply sublist_cons.
    + destruct (IH (l ++ [(config_provider_id c, p)]) w1) as (ext & -> & ? & ? & ? & ?); [| |done|].
      * rewrite fmap_app. apply NoDup_app. split_and!; [done| |apply NoDup_singleton]. set_solver.
      * rewrite fmap_app. intros [?|Hc%list_elem_of_singleton]%elem_of_app; [done|].
        by destruct c.
      * exists ((config_provider_id c, p) :: ext). rewrite <- app_assoc in *.
        split_and!; auto. by apply sublist_skip.
Qed.

(** The configuration of the providers is checked as it is read.  A list of
    providers is built only if every one of them names a key info manager that
    exists; no two have the same identifier, none is the core provider's, and
    they are in the order of the configuration. *)
Theorem build_providers_spec kims configs w l w' :
  build_providers configs kims w = (Ok l, w') ->
  NoDup (l.*1) /\ (Core ∉ l.*1) /\ sublist (l.*1) (config_provider_id <$> configs) /\
  Forall (fun c => is_Some (kims !! key_info_manager c)) configs.
Proof.
  intros (ext & -> & ? & ? & ? & ?)%build_providers_from; [done|apply NoDup_nil_2|set_solver].
Qed.

(** The builder of a provider, with what its configuration says. *)
Definition builder_of (c : ProviderConfig) : nat * KeyInfoManagerClient -> ST W string (Provide W) :=
  match c with
  | MbedCryptoConfig _ => build_mbed_crypto builders
  | Pkcs11Config _ path slot pin sw allow => fun client =>
      build_pkcs11 builders client path slot pin sw allow
  | TpmConfig _ tcti auth _ => fun client => build_tpm builders client tcti auth
  | CryptoAuthLibConfig _ device iface wake retries address bus baud file => fun client =>
      build_cryptoauthlib builders client device iface wake retries address bus baud file
  | TrustedServiceConfig _ => build_trusted_service builders
  end.
(** The device that has to be there for a provider not to be skipped. *)
Definition probed_device (c : ProviderConfig) : option string :=
  match c with
  | TpmConfig _ tcti _ (Some true) => Some tcti
  | _ => None
  end.

(** What the loop over the configured providers builds: each is built from its own
    configuration, on the manager its configuration names and with a client for its
    own identifier, and none is left out but one whose device is optional and does
    not answer. *)
Inductive provided (kims : gmap string KeyInfoManagerFactory)
  : list ProviderConfig -> W -> list (ProviderId * Provide W) -> W -> Prop :=
  | provided_none w : provided kims [] w [] w
  | provided_built c configs f p l w w1 w2 w3 :
      kims !! key_info_manager c = Some f ->
      match probed_device c with
      | Some tcti => exists u, tcti_initialize builders tcti w = (Ok u, w1)
      | None => w1 = w
      end ->
      builder_of c (key_info_manager_impl f, {| client_provider_id := config_provider_id c |}) w1 =
        (Ok p, w2) ->
      provided kims configs w2 l w3 ->
      provided kims (c :: configs) w ((config_provider_id c, p) :: l) w3
  | provided_skipped c configs f tcti e l w w1 w2 :
      kims !! key_info_manager c = Some f -> probed_device c = Some tcti ->
      tcti_initialize builders tcti w = (Err e, w1) ->
      provided kims configs w1 l w2 -> provided kims (c :: configs) w l w2.

Lemma get_provider_Ok c f w r w' :
  get_provider builders features c f w = (Ok r, w') ->
  match r with
  | Some p => exists w1,
      match probed_device c with
      | Some tcti => exists u, tcti_initialize builders tcti w = (Ok u, w1)
      | None => w1 = w
      end /\
      builder_of c (key_info_manager_impl f, {| client_provider_id := config_provider_id c |}) w1 =
        (Ok p, w')
  | None => exists tcti e, probed_device c = Some tcti /\
      tcti_initialize builders tcti w = (Err e, w')
  end.
Proof.
  unfold get_provider. case_decide; [|done].
  destruct c as [n|n path slot pin sw allow|n tcti auth skip|n d i wake re ad bus baud file|n];
    cbn [probed_device builder_of config_provider_id build_client]; intros Hrun.
  3: { apply bind_Ok in Hrun as ([] & w1 & Hc & Hrun).
    assert (w1 = w) as -> by (destruct (tcti_name_conf builders tcti); [by injection Hc|done]).
    apply bind_Ok in Hrun as ([] & w2 & Hs & Hrun).
    - injection Hrun as <- <-. case_decide as Hskip; [subst skip|by injection Hs].
      revert Hs. run_unfold. destruct (tcti_initialize builders tcti w) as [[u|e|] w3] eqn:Hi;
        intros [= <-]. eauto.
    - apply bind_Ok in Hrun as (p & w3 & Hb & Hrun). injection Hrun as <- <-. exists w2.
      case_decide as Hskip; [subst skip|].
      + revert Hs. run_unfold. destruct (tcti_initialize builders tcti w) as [[u|e|] w4];
          intros [= <-]. eauto.
      + injection Hs as <-. by destruct skip as [[]|]. }
  all: apply bind_Ok in Hrun as (p & w1 & Hb & Hrun); injection Hrun as <- <-; by exists w.
Qed.

Lemma providers_provided kims configs : forall l w l' w',
  fold_each configs l (add_provider kims) w = (Ok l', w') ->
  exists ext, l' = l ++ ext /\ provided kims configs w ext w'.
Proof.
  induction configs as [|c configs IH]; intros l w l' w' Hrun; simpl in Hrun.
  - injection Hrun as <- <-. exists []. rewrite app_nil_r. split; [done|constructor].
  - apply bind_Ok in Hrun as (l1 & w1 & Hl & Hrun). destruct (IH _ _ _ _ Hrun) as (ext & -> & Hext).
    unfold add_provider in Hl. destruct (existsb _ l); [done|]. revert Hl. run_unfold.
    destruct (kims !! key_info_manager c) as [f|] eqn:Hf; [|done]. simpl.
    destruct (get_provider _ _ c f w) as [[[p|]| |] w2] eqn:Hg; simpl; try done; intros [= <- <-];
      apply get_provider_Ok in Hg.
    + destruct Hg as (w3 & Hp & Hb). rewrite <- app_assoc. eexists. split; [done|].
      by eapply provided_built.
    + destruct Hg as (tcti & e & Hp & Hi). eexists. split; [done|]. by eapply provided_skipped.
Qed.

(** The providers that are there are those of the configuration but for an absent
    optional one. *)
Lemma provided_complete kims configs w l w' c :
  provided kims configs w l w' -> c ∈ configs -> probed_device c = None ->
  config_provider_id c ∈ l.*1.
Proof.
  intros Hl Hc Hp. induction Hl as [w|c' configs f p l w w1 w2 w3 _ _ _ _ IH
    |c' configs f tcti e l w w1 w2 _ Hpr _ _ IH]; [set_solver|..];
    apply elem_of_cons in Hc as [->|Hc]; simpl; [left|right; by apply IH|congruence|by apply IH].
Qed.

(** ** Managers *)
(** Where the manager of an entry of the configuration keeps its mappings. *)
Definition manager_path (kc : KeyInfoManagerConfig) : path :=
  PathBuf_from (default DEFAULT_MAPPINGS_PATH (store_path kc)).

(** The managers of a configuration: one for each entry, in order, read from the
    directory the entry names; a name leads to the last entry that has it. *)
Record managers_of (configs : list KeyInfoManagerConfig) w w1
    (kims : gmap string KeyInfoManagerFactory) : Prop := {
  mg_read : exists ms, w_managers w1 = w_managers w ++ ms /\
    Forall2 (fun kc m => exists disk disk', Manager.new (manager_path kc) disk = (Ok m, disk'))
      configs ms;
  mg_named name f : kims !! name = Some f <-> exists i kc, configs !! i = Some kc /\
    manager_name kc = name /\
    (forall j kc', i < j -> configs !! j = Some kc' -> manager_name kc' <> name) /\
    key_info_manager_impl f = length (w_managers w) + i;
  mg_global : w_global w1 = w_global w;
  mg_rest : w_rest w1 = w_rest w;
}.

Lemma Factory_new_Ok kc w f w' :
  Factory_new kc w = (Ok f, w') ->
  key_info_manager_impl f = length (w_managers w) /\
  exists m disk, Manager.new (manager_path kc) (w_disk w) = (Ok m, disk) /\
    w' = {| w_disk := disk; w_managers := w_managers w ++ [m]; w_global := w_global w;
            w_rest := w_rest w |}.
Proof.
  unfold Factory_new. intros Hrun. apply bind_Ok in Hrun as (m & w1 & Hm & Hrun).
  assert (Hnew : exists disk, Manager.new (manager_path kc) (w_disk w) = (Ok m, disk) /\
    w1 = set_w_disk disk w).
  { revert Hm. destruct (manager_type kc). unfold zoom, OnDiskKeyInfoManagerBuilder_build.
    unfold manager_path. destruct (store_path kc); simpl;
      destruct (Manager.new _ (w_disk w)) as [r disk]; intros [= -> <-]; eauto. }
  destruct Hnew as (disk & Hnew & ->). revert Hrun. run_unfold. intros [= <- <-].
  split; [done|]. by exists m, disk.
Qed.

Lemma managers_of_start w : managers_of [] w w ∅.
Proof.
  split; [by exists []; rewrite app_nil_r| |done|done]. intros name f. rewrite lookup_empty.
  split; [done|]. by intros (i & kc & Hi & _).
Qed.

Lemma managers_of_step configs w w1 kims kc f w2 :
  managers_of configs w w1 kims -> Factory_new kc w1 = (Ok f, w2) ->
  managers_of (configs ++ [kc]) w w2 (<[manager_name kc := f]> kims).
Proof.
  intros [(ms & Hms & Hread) Hn Hg Hr] (Hf & m & disk & Hnew & ->)%Factory_new_Ok.
  pose proof (Forall2_length _ _ _ Hread) as Hlen. split; simpl; [|intros name g|done|done].
  - exists (ms ++ [m]). rewrite Hms, app_assoc. split; [done|]. apply Forall2_app; [done|].
    constructor; [eauto|constructor].
  - rewrite lookup_insert_Some, Hn. split.
    + intros [[<- <-]|[Hne (i & kc' & Hi & Hname & Hlast & Himpl)]].
      * exists (length configs), kc. rewrite lookup_app_r, Nat.sub_diag by done.
        split_and!; [done|done| |by rewrite Hf, Hms, length_app, Hlen].
        intros j kc' Hj Hl%lookup_lt_Some. rewrite length_app in Hl. simpl in Hl. lia.
      * exists i, kc'. split_and!; [by apply lookup_app_l_Some|done| |done].
        intros j kc2 Hj [Hl|[_ Hl]]%lookup_app_Some; [by eapply Hlast|].
        by apply list_lookup_singleton_Some in Hl as [_ <-].
    + intros (i & kc' & [Hi|[Hge Hi]]%lookup_app_Some & Hname & Hlast & Himpl).
      * right. split; [|exists i, kc'; split_and!; try done].
        -- apply (Hlast (length configs)); [by eapply lookup_lt_Some|].
           by rewrite lookup_app_r, Nat.sub_diag.
        -- intros j kc2 Hj Hl. apply (Hlast j); [done|]. by apply lookup_app_l_Some.
      * apply list_lookup_singleton_Some in Hi as [Hi ->]. left. split; [done|].
        destruct f as [a], g as [b]. simpl in *. f_equal. rewrite Hf, Hms, length_app. lia.
Qed.

Lemma managers_built_from (configs : list KeyInfoManagerConfig) : forall before w map w0 kims w1,
  managers_of before w w0 map ->
  fold_each configs map (fun map kc => factory ← Factory_new kc;
    mret (<[manager_name kc := factory]> map)) w0 = (Ok kims, w1) ->
  managers_of (before ++ configs) w w1 kims.
Proof.
  induction configs as [|kc configs IH]; intros before w map w0 kims w1 Hm Hrun; simpl in Hrun.
  - injection Hrun as <- <-. by rewrite app_nil_r.
  - apply bind_Ok in Hrun as (map1 & w2 & H1' & Hrun).
    apply bind_Ok in H1' as (f & w3 & Hf & H1'). injection H1' as <- <-.
    rewrite cons_middle, app_assoc. refine (IH _ _ _ _ _ _ _ Hrun). by eapply managers_of_step.
Qed.
Lemma managers_built configs w kims w1 :
  gey_key_info_manager_builders configs w = (Ok kims, w1) -> managers_of configs w w1 kims.
Proof. apply (managers_built_from configs []), managers_of_start. Qed.

(** ** Authenticators *)
Lemma build_authenticators_Ok c l :
  build_authenticators c = Ok l ->
  exists a, l = [(config_auth_type c, a)] /\ authenticator_honours (config_admins c) a /\
    trait_describe a <> Panic.
Proof.
  unfold build_authenticators. destruct c as [adm|adm|endpoint adm]; case_decide; try done.
  - intros [= <-]. eexists. split_and!; [done| |done].
    apply (direct_honours (DirectAuthenticator.new _)).
  - intros [= <-]. eexists. split_and!; [done| |done].
    apply (unix_honours (UnixPeerCredentialsAuthenticator.new _)).
  - unfold JwtSvidAuthenticator.new. destruct (spiffe_connect endpoint) as [client|]; [|done].
    intros [= <-]. eexists. split_and!; [done| |done].
    apply (jwt_honours {| JwtSvidAuthenticator.client := client;
                          JwtSvidAuthenticator.admins := default [] adm |}).
Qed.

(** ** Handlers *)
Lemma describe_authenticators_list b l b' :
  describe_authenticators (R := R) b l = Ok b' ->
  CoreProvider.b_prov_list b' = CoreProvider.b_prov_list b /\
  CoreProvider.version_maj b' = CoreProvider.version_maj b /\
  CoreProvider.version_min b' = CoreProvider.version_min b.
Proof.
  revert b. induction l as [|[ty a] l IH]; intros b Hrun; simpl in Hrun; [by simplify_eq|].
  run_unfold. destruct (trait_describe a); [|done|done]. by apply IH in Hrun.
Qed.

Lemma wrap_providers_Ok b m l b' m' :
  wrap_providers ProtobufConverter b m l = Ok (b', m') -> NoDup (l.*1) ->
  CoreProvider.b_prov_list b' = CoreProvider.b_prov_list b ++ l.*2 /\
  CoreProvider.version_maj b' = CoreProvider.version_maj b /\
  CoreProvider.version_min b' = CoreProvider.version_min b /\
  (forall id p, (id, p) ∈ l -> m' !! id = Some (handler id p)) /\
  (forall id, (id ∉ l.*1) -> m' !! id = m !! id).
Proof.
  revert b m. induction l as [|[id p] l IH]; intros b m Hrun HN; simpl in *.
  - injection Hrun as <- <-. rewrite app_nil_r. split_and!; try done. set_solver.
  - apply NoDup_cons in HN as [Hid HN].
    destruct (IH _ _ Hrun HN) as (Hl & Hmaj & Hmin & Hin & Hout).
    split_and!; [|done|done| |].
    + rewrite Hl. simpl. by rewrite <- app_assoc.
    + intros id' p' [[= -> ->]|Hp]%elem_of_cons; [|by apply Hin].
      rewrite Hout by done. by rewrite lookup_insert_eq.
    + intros id' Hid'. rewrite Hout by set_solver. rewrite lookup_insert_ne; set_solver.
Qed.

(** How a service is wired to the providers that were built. *)
Record wired config fe (providers : list (ProviderId * Provide W)) : Prop := {
  wired_some : providers <> [];
  wired_ids : NoDup (providers.*1);
  wired_order : sublist (providers.*1)
    (config_provider_id <$> default [] (provider_configs config));
  wired_provider id p : (id, p) ∈ providers ->
    backends (dispatcher fe) !! id = Some (handler id p);
  wired_core : exists core,
    backends (dispatcher fe) !! Core = Some (handler Core (CoreProvider.provide core)) /\
    CoreProvider.prov_list core = providers.*2 /\
    CoreProvider.wire_protocol_version_maj core = 1%Z /\
    CoreProvider.wire_protocol_version_min core = 0%Z /\
    Forall (fun p => prov_describe p <> Panic) (providers.*2);
  wired_nothing_else id : id <> Core -> (id ∉ providers.*1) ->
    backends (dispatcher fe) !! id = None;
  wired_authenticator : exists a,
    authenticators fe = {[ config_auth_type (authenticator config) := a ]} /\
    build_authenticators (authenticator config) =
      Ok [(config_auth_type (authenticator config), a)] /\
    authenticator_honours (config_admins (authenticator config)) a;
  wired_limit : body_len_limit fe =
    default DEFAULT_BODY_LEN_LIMIT (cs_body_len_limit (core_settings config));
}.

Lemma core_build_list b core :
  CoreProvider.build crate_version parse_uuid b = Ok core ->
  CoreProvider.prov_list core = CoreProvider.b_prov_list (W := W) b /\
  Some (CoreProvider.wire_protocol_version_maj core) = CoreProvider.version_maj b /\
  Some (CoreProvider.wire_protocol_version_min core) = CoreProvider.version_min b /\
  Forall (fun p => prov_describe p <> Panic) (CoreProvider.b_prov_list b).
Proof.
  unfold CoreProvider.build. intros Hb.
  destruct (CoreProvider.describe_all _ _) as [[ops infos]| |] eqn:Hd; try done.
  destruct (describe_all_run _ _ _ _ Hd) as (ds & Hall & _).
  destruct crate_version as [[[maj min] patch]|], (parse_uuid _), (CoreProvider.version_maj b),
    (CoreProvider.version_min b); try done.
  run_unfold. injection Hb as <-. split_and!; try done.
  clear Hd. induction Hall as [|p d l k Hp]; constructor; [by rewrite Hp|done].
Qed.

Lemma build_backend_handlers_Ok providers auths m :
  build_backend_handlers ProtobufConverter crate_version parse_uuid providers auths = Ok m ->
  NoDup (providers.*1) -> (Core ∉ providers.*1) ->
  (forall id p, (id, p) ∈ providers -> m !! id = Some (handler id p)) /\
  (exists core, m !! Core = Some (handler Core (CoreProvider.provide core)) /\
    CoreProvider.prov_list core = providers.*2 /\
    CoreProvider.wire_protocol_version_maj core = 1%Z /\
    CoreProvider.wire_protocol_version_min core = 0%Z /\
    Forall (fun p => prov_describe p <> Panic) (providers.*2)) /\
  (forall id, id <> Core -> (id ∉ providers.*1) -> m !! id = None).
Proof.
  unfold build_backend_handlers, WIRE_PROTOCOL_VERSION_MAJOR, WIRE_PROTOCOL_VERSION_MINOR.
  intros Hrun HN HC. run_unfold.
  destruct (describe_authenticators _ auths) as [b1| |] eqn:Hd; try done.
  apply describe_authenticators_list in Hd as (Hl1 & Hmaj1 & Hmin1).
  destruct (wrap_providers _ _ _ providers) as [[b2 m2]| |] eqn:Hw; try done.
  destruct (wrap_providers_Ok _ _ _ _ _ Hw HN) as (Hl2 & Hmaj2 & Hmin2 & Hin & Hout).
  destruct (CoreProvider.build _ _ b2) as [core| |] eqn:Hc; try done. simpl in Hrun.
  injection Hrun as <-. apply core_build_list in Hc as (Hl3 & Hmaj3 & Hmin3 & Hdesc).
  rewrite Hl1 in Hl2. simpl in *. split_and!.
  - intros id p Hp. rewrite lookup_insert_ne; [by apply Hin|].
    intros <-. apply HC. apply list_elem_of_fmap. by exists (Core, p).
  - exists core. rewrite lookup_insert_eq. split_and!; [done|congruence|congruence|congruence|].
    by rewrite <- Hl2.
  - intros id Hne Hid. rewrite lookup_insert_ne by done. by rewrite Hout.
Qed.

(** The global configuration that goes with a configuration. *)
Definition global_of config : GlobalConfig :=
  {| log_error_details := default false (cs_log_error_details (core_settings config));
     buffer_size_limit :=
       default DEFAULT_BUFFER_SIZE_LIMIT (cs_buffer_size_limit (core_settings config)) |}.

(** A service that was built, the managers and the providers it was built from. *)
Lemma build_service_global config w fe w' :
  build_service config w = (Ok fe, w') ->
  exists kims w1 providers w2,
    gey_key_info_manager_builders (default [] (key_manager config))
      (set_w_global (global_of config) w) = (Ok kims, w1) /\
    build_providers (default [] (provider_configs config)) kims w1 = (Ok providers, w2) /\
    wired config fe providers /\ w' = w2.
Proof.
  intros Hrun. unfold ServiceBuilder.build_service in Hrun.
  apply bind_Ok in Hrun as (u & w0 & Hg & Hrun). injection Hg as <- <-.
  apply bind_Ok in Hrun as (kims & w1 & Hkims & Hrun).
  apply bind_Ok in Hrun as (providers & w2 & Hp & Hrun).
  exists kims, w1, providers, w2. split; [exact Hkims|]. split; [exact Hp|].
  apply build_providers_from in Hp as (ext & -> & HN & HC & Hsub & _);
    [|apply NoDup_nil_2|set_solver].
  rewrite app_nil_l in *.
  apply bind_Ok in Hrun as (u' & w3 & Hsome & Hrun).
  assert (w3 = w2) as -> by (destruct ext; [done|by injection Hsome as _ <-]).
  apply bind_Ok in Hrun as (auths & w4 & Ha & Hrun). unfold lift in Ha. injection Ha as Ha <-.
  destruct (build_authenticators_Ok _ _ Ha) as (a & -> & Hhon & _).
  apply bind_Ok in Hrun as (? & w5 & Hz & Hrun). injection Hz as <- <-.
  apply bind_Ok in Hrun as (m & w6 & Hm & Hrun). unfold lift in Hm. injection Hm as Hm <-.
  destruct (build_backend_handlers_Ok _ _ _ Hm HN HC) as (Hin & Hcore & Hout).
  cbn in Hrun. injection Hrun as <- <-. split; [|done]. split; simpl; try done.
  - by destruct ext.
  - intros id p Hp. rewrite map_union_empty. by apply Hin.
  - by rewrite map_union_empty.
  - intros id Hne Hid. rewrite map_union_empty. by apply Hout.
  - by exists a.
Qed.

Lemma build_service_parts config w fe w' :
  build_service config w = (Ok fe, w') ->
  exists g kims w1 providers w2,
    gey_key_info_manager_builders (default [] (key_manager config)) (set_w_global g w) =
      (Ok kims, w1) /\
    build_providers (default [] (provider_configs config)) kims w1 = (Ok providers, w2) /\
    wired config fe providers /\ w' = w2.
Proof. intros (kims & Hw)%build_service_global. by exists (global_of config), kims. Qed.

Lemma build_service_wired config w fe w' :
  build_service config w = (Ok fe, w') -> exists providers, wired config fe providers.
Proof.
  intros (g & kims & w1 & providers & w2 & _ & _ & Hw & _)%build_service_parts. by exists providers.
Qed.

(** The handler in front of a provider takes the protobuf requests for it. *)
Lemma wired_capable config fe providers request :
  wired config fe providers -> let header := req_header request in
  rh_provider header ∈ Core :: providers.*1 ->
  rh_content_type header = Protobuf -> rh_accept_type header = Protobuf ->
  is_core (rh_opcode header) = bool_decide (rh_provider header = Core) ->
  exists b, backends (dispatcher fe) !! rh_provider header = Some b /\ is_capable b request = Ok tt.
Proof.
  intros Hw header Hin Hct Hat Hcore.
  assert (exists p, backends (dispatcher fe) !! rh_provider header =
    Some (handler (rh_provider header) p)) as [p Hb].
  { apply elem_of_cons in Hin as [->|([id p] & -> & Hp)%list_elem_of_fmap].
    - destruct (wired_core _ _ _ Hw) as (core & Hb & _). eauto.
    - exists p. by apply (wired_provider _ _ _ Hw). }
  eexists. split; [exact Hb|]. unfold is_capable. simpl. fold header.
  rewrite Hcore, Hct, Hat, eqb_reflx. simpl. by rewrite !decide_False by (by intros []).
Qed.

(** C28: A service that was built is wired as its configuration says.  The global
    configuration is set first, then every key info manager is read from the directory
    its entry names, then the providers are built in the order of the configuration:
    each by its own builder with the fields of its own entry, on the manager its entry
    names and with a client for its own identifier.  Every configured provider is
    there, except a TPM that is marked as optional and does not answer.  Each is behind
    a handler that answers for its own identifier in protobuf; the core provider
    gathers from exactly these and speaks version 1.0 of the wire protocol; nothing
    else is registered; the one authenticator is the configured one with the configured
    administrators; and the limit on bodies is the configured one or one mebibyte.  So
    every protobuf request for one of the providers, with an opcode of the right class,
    is accepted by the handler it is dispatched to. *)
Theorem build_service_wiring config w fe w' :
  build_service config w = (Ok fe, w') ->
  exists kims w1 providers,
    managers_of (default [] (key_manager config)) (set_w_global (global_of config) w) w1 kims /\
    provided kims (default [] (provider_configs config)) w1 providers w' /\
    (forall c, c ∈ default [] (provider_configs config) -> probed_device c = None ->
       config_provider_id c ∈ providers.*1) /\
    wired config fe providers /\
    forall request, let header := req_header request in
      rh_provider header ∈ Core :: providers.*1 ->
      rh_content_type header = Protobuf -> rh_accept_type header = Protobuf ->
      is_core (rh_opcode header) = bool_decide (rh_provider header = Core) ->
      exists b, backends (dispatcher fe) !! rh_provider header = Some b /\
        is_capable b request = Ok tt.
Proof.
  intros (kims & w1 & providers & w2 & Hk & Hp & Hw & ->)%build_service_global.
  apply providers_provided in Hp as (ext & -> & Hp). rewrite app_nil_l in *.
  exists kims, w1, ext. split_and!; [by apply managers_built|done| |done|].
  - intros c. by eapply provided_complete.
  - intros request. by eapply wired_capable.
Qed.

(** ** The service at work *)
Lemma wired_lookup config fe providers id b :
  wired config fe providers -> id <> Core -> backends (dispatcher fe) !! id = Some b ->
  exists p, (id, p) ∈ providers /\ b = handler id p.
Proof.
  intros Hw Hne Hb. destruct (decide (id ∈ providers.*1)) as [Hin|Hout].
  - apply list_elem_of_fmap in Hin as ([i p] & -> & Hp). simpl in *.
    rewrite (wired_provider _ _ _ Hw _ _ Hp) in Hb. injection Hb as <-. eauto.
  - by rewrite (wired_nothing_else _ _ _ Hw _ Hne Hout) in Hb.
Qed.

(** A property of the providers behind the dispatcher, of each provider but the
    core, holds of the list the core provider gathers from. *)
Lemma wired_all config fe providers (P : Provide W -> Prop) :
  wired config fe providers -> (Core ∉ providers.*1) ->
  (forall id b, id <> Core -> backends (dispatcher fe) !! id = Some b -> P (provider b)) ->
  Forall P (providers.*2).
Proof.
  intros Hw HC HP. apply Forall_forall. intros p ([id q] & -> & Hp)%list_elem_of_fmap.
  apply (HP id (handler id q)); [|by apply (wired_provider _ _ _ Hw)].
  intros ->. apply HC, list_elem_of_fmap. by exists (Core, q).
Qed.

Lemma wired_no_core config fe providers : wired config fe providers -> Core ∉ providers.*1.
Proof.
  intros Hw HC. pose proof (wired_order _ _ _ Hw) as Hs.
  apply (sublist_subseteq _ _ Hs), list_elem_of_fmap in HC as (c & Hc & _). by destruct c.
Qed.

Section Connections.
Context {Str : Type} `{Wire Str} `{!WireLaws Str} `{!ParsecInterfaceLaws}.
Context (Hconv : converter_faithful ProtobufConverter).

(** From the configuration: a connection to a service that was built
    changes no mapping but those of the application that the configured
    authenticator recognised, unless the name of that application is in the
    configured list of administrators.  Only the cryptographic providers are
    assumed to keep to the keys they are called for. *)
Lemma built_service_isolation (view : W -> gmap KeyTriple KeyInfo) config w0 fe w1
    metadata w str :
  build_service config w0 = (Ok fe, w1) ->
  (forall id b, id <> Core -> backends (dispatcher fe) !! id = Some b ->
     well_behaved view (provider b)) ->
  agree_off (fun t => exists request app,
      (read_from_stream (body_len_limit fe) str).1 = Ok request /\
      identify fe metadata request = Ok (Some app) /\
      (kt_app_name t = get_name app \/
       exists adm, adm ∈ config_admins (authenticator config) /\
         admin_name adm = app_name_string (get_name app)))
    (view (handle_request fe metadata (w, str)).2.1) (view w).
Proof.
  intros (providers & Hw)%build_service_wired Hwell.
  pose proof (wired_no_core _ _ _ Hw) as HC.
  pose proof (wired_all _ _ _ _ Hw HC Hwell) as Hall.
  assert (Ht : trusted_backends view (dispatcher fe)).
  { intros id b Hb. destruct (decide (id = Core)) as [->|Hne].
    - destruct (wired_core _ _ _ Hw) as (core & Hcb & Hl & _).
      rewrite Hcb in Hb. injection Hb as <-. split; [|done].
      apply core_well_behaved. by rewrite Hl.
    - split; [by apply (Hwell id)|].
      by destruct (wired_lookup _ _ _ _ _ Hw Hne Hb) as (p & _ & ->). }
  intros t Hn. apply (handle_isolation view fe metadata w str Ht).
  intros (request & app & Hr & Hi & a & -> & Ha). apply Hn. exists request, a.
  split_and!; [done|done|]. destruct Ha as [Ha|Ha]; [by left|right].
  destruct (wired_authenticator _ _ _ Hw) as (au & Hau & _ & Hhon).
  unfold identify in Hi. case_decide; [done|]. rewrite Hau in Hi.
  destruct (decide (config_auth_type (authenticator config) = rh_auth_type (req_header request)))
    as [Heq|Hne]; [|by rewrite lookup_singleton_ne in Hi].
  rewrite Heq, lookup_singleton_eq in Hi. run_unfold.
  destruct (trait_authenticate au _ _) as [app'| |] eqn:Hauth; simplify_eq.
  by apply (honours_admins _ _ Hhon _ _ _ Hauth).
Qed.

(** The connections the main loop accepts, served one after the other: the
    streams as they are left. *)
Fixpoint serve_connections fe (conns : list (option ConnectionMetadata * Str))
    : ST W Empty_set (list Str) :=
  match conns with
  | [] => mret []
  | (metadata, str) :: rest => fun w =>
    match handle_request fe metadata (w, str) with
    | (Ok _, (w', str')) => (strs ← serve_connections fe rest; mret (str' :: strs)) w'
    | (_, (w', _)) => (Panic, w')
    end
  end.

(** Nothing in a service that was built panics, if its cryptographic providers do
    not. *)
Lemma built_panic_free (Inv : W -> Prop) config w0 fe w1 :
  build_service config w0 = (Ok fe, w1) ->
  (forall id b, id <> Core -> backends (dispatcher fe) !! id = Some b ->
     safe Inv (provider b)) ->
  panic_free Inv fe.
Proof.
  intros (providers & Hw)%build_service_wired Hsafe.
  pose proof (wired_no_core _ _ _ Hw) as HC.
  pose proof (wired_all _ _ _ _ Hw HC Hsafe) as Hall.
  destruct (wired_core _ _ _ Hw) as (core & Hcb & Hl & _ & _ & Hdesc). split.
  - intros id b Hb. destruct (decide (id = Core)) as [->|Hne].
    + rewrite Hcb in Hb. injection Hb as <-. split; [|done].
      apply core_safe. rewrite Hl. apply Forall_and. done.
    + split; [by apply (Hsafe id)|].
      by destruct (wired_lookup _ _ _ _ _ Hw Hne Hb) as (p & _ & ->).
  - destruct (wired_authenticator _ _ _ Hw) as (au & -> & _ & Hhon).
    intros ty a [_ <-]%lookup_singleton_Some. apply Hhon.
Qed.

(** The service never stops answering: if no cryptographic provider can panic in
    the states of [Inv], then from such a state every connection of every
    sequence gets exactly one response, and the service is still in [Inv]. *)
Lemma built_service_responds (Inv : W -> Prop) config w0 fe w1 conns w :
  build_service config w0 = (Ok fe, w1) ->
  (forall id b, id <> Core -> backends (dispatcher fe) !! id = Some b ->
     safe Inv (provider b)) ->
  Inv w ->
  exists strs w', serve_connections fe conns w = (Ok strs, w') /\ Inv w' /\
    Forall2 (fun c str' => exists response,
      str' = (write_to_stream response (read_from_stream (body_len_limit fe) c.2).2).2) conns strs.
Proof.
  intros Hrun0 Hsafe. pose proof (built_panic_free _ _ _ _ _ Hrun0 Hsafe) as Hfree. revert w.
  induction conns as [|[metadata str] conns IH]; intros w HI; [by exists [], w|].
  destruct (handle_run_total Inv fe metadata w str Hfree HI) as (response & w2 & HI2 & Hrun).
  destruct (IH w2 HI2) as (strs & w' & Hrest & HI' & HF).
  eexists (_ :: strs), w'. simpl. rewrite Hrun. run_unfold. rewrite Hrest.
  split_and!; [done|done|]. constructor; [by eexists|done].
Qed.
End Connections.
End Spec.
