(* ===== verification/Listener.v ===== *)
(** * The domain socket listener ([src/front/domain_socket.rs])

    The calls of the operating system (sockets, the files of their paths, the
    descriptors that systemd hands over) are the class [SocketOs] over a state
    [O]; a listening socket is a number, a connected one a stream.  [SocketLaws] is
    what their manuals say of them. *)
From S2P Require Import Prelude RustStd Interface Authenticators Fs Config.

(** ** The operating system *)
Inductive accept_error := WouldBlock | AcceptFailed (n : nat).
(** [libc::ucred] *)
Record ucred := { cred_pid : Z; cred_uid : Z; cred_gid : Z }.

Class SocketOs (O Str : Type) := {
  (** [sd_notify::listen_fds] and [SD_LISTEN_FDS_START] *)
  listen_fds : ST O io_error Z;
  SD_LISTEN_FDS_START : Z;
  path_exists : string -> O -> bool * O;
  (** [fs::metadata(..)?.file_type().is_socket()] *)
  metadata_is_socket : string -> ST O io_error bool;
  remove_socket_file : string -> ST O io_error unit;
  bind : string -> ST O io_error Z;
  set_listener_nonblocking : Z -> bool -> ST O io_error unit;
  set_mode : string -> Z -> ST O io_error unit;
  socket_accept : Z -> ST O accept_error Str;
  (** the stream as it is left *)
  set_read_timeout : Z -> Str -> ST O io_error Str;
  set_write_timeout : Z -> Str -> ST O io_error Str;
  set_stream_nonblocking : bool -> Str -> ST O io_error Str;
  (** [getsockopt(.., SO_PEERCRED, ..)]: the return value, and the credentials and
      the size as written through the pointers *)
  getsockopt_peercred : Str -> ucred -> Z -> O -> (Z * ucred * Z) * O;
  last_os_error : O -> io_error;
}.

(** [Connection] *)
Record Connection (Str : Type) := { stream : Str; metadata : option ConnectionMetadata }.
Arguments stream {Str}.
Arguments metadata {Str}.

Module DomainSocket.
Definition DEFAULT_SOCKET_PATH : string := "/run/parsec/parsec.sock".

(** The timeout is in milliseconds. *)
Record DomainSocketListener := { listener : Z; timeout : Z }.

(** [peer_credentials::UCred] *)
Record UCred := { uid : Z; gid : Z; pid : option Z }.

Section Listener.
Context {O Str : Type} `{SocketOs O Str}.
Implicit Types (self : DomainSocketListener).

(** A socket left at the path is removed; another file is only reported. *)
Definition remove_existing (socket_path : string) : ST O io_error unit :=
  here ← (fun o => let '(b, o') := path_exists socket_path o in (Ok b, o'));
  if here : bool then
    is_socket ← metadata_is_socket socket_path;
    if is_socket : bool then remove_socket_file socket_path else mret tt
  else mret tt.

Definition new (timeout : Z) (socket_path : string) : ST O io_error DomainSocketListener :=
  n ← listen_fds;
  listener ← (
    match n with
    | 0%Z =>
      remove_existing socket_path ;;
      listener ← bind socket_path;
      set_listener_nonblocking listener true ;;
      set_mode socket_path 438 ;;
      mret listener
    | 1%Z => mret SD_LISTEN_FDS_START
    | _ => raise "too many file descriptors received"
    end);
  mret {| listener := listener; timeout := timeout |}.

(** [impl_linux::peer_cred]; a [ucred] has three 32-bit fields. *)
Definition size_of_ucred : Z := 12.
Definition peer_cred (socket : Str) : ST O io_error UCred := fun o =>
  let '((ret, c, size), o') := getsockopt_peercred socket
    {| cred_pid := 1; cred_uid := 1; cred_gid := 1 |} size_of_ucred o in
  if ((ret =? 0) && (size =? size_of_ucred))%Z then
    (Ok {| uid := cred_uid c; gid := cred_gid c; pid := Some (cred_pid c) |}, o')
  else (Err (last_os_error o'), o').

(** [impl_bsd::peer_cred]; [getpeereid] gives the return value and the identifiers as
    written through the pointers. *)
Definition bsd_peer_cred (getpeereid : Str -> Z * Z -> O -> (Z * (Z * Z)) * O) (socket : Str)
    : ST O io_error UCred := fun o =>
  let cred := {| uid := 1; gid := 1; pid := None |} in
  let '((ret, (u, g)), o') := getpeereid socket (uid cred, gid cred) o in
  if (ret =? 0)%Z then (Ok {| uid := u; gid := g; pid := pid cred |}, o')
  else (Err (last_os_error o'), o').

(** [set_timeout] of the trait [Listen]. *)
Definition set_timeout (duration : Z) self : DomainSocketListener :=
  {| listener := listener self; timeout := duration |}.

(** [accept]: [None] when there is no connection or it could not be set up. *)
Definition accept self : ST O Empty_set (option (Connection Str)) :=
  r ← attempt (socket_accept (listener self));
  match r with
  | Panic => panic
  | Err _ => mret None
  | Ok stream =>
    r ← attempt (stream ← set_read_timeout (timeout self) stream;
                 stream ← set_write_timeout (timeout self) stream;
                 stream ← set_stream_nonblocking false stream;
                 c ← peer_cred stream;
                 mret (stream, c));
    match r with
    | Panic => panic
    | Err _ => mret None
    | Ok (stream, c) =>
      mret (Some {| stream := stream;
                    metadata := Some (UnixPeerCredentialsMeta (uid c) (gid c) (pid c)) |})
    end
  end.

(** ** The builder *)
Record DomainSocketListenerBuilder := { b_timeout : option Z; b_socket_path : option string }.
Definition DomainSocketListenerBuilder_new : DomainSocketListenerBuilder :=
  {| b_timeout := None; b_socket_path := None |}.
Definition with_timeout (timeout : Z) (b : DomainSocketListenerBuilder)
    : DomainSocketListenerBuilder :=
  {| b_timeout := Some timeout; b_socket_path := b_socket_path b |}.
Definition with_socket_path (socket_path : option string) (b : DomainSocketListenerBuilder)
    : DomainSocketListenerBuilder :=
  {| b_timeout := b_timeout b; b_socket_path := socket_path |}.
Definition build (b : DomainSocketListenerBuilder) : ST O io_error DomainSocketListener :=
  timeout ← lift (ok_or (b_timeout b) "listener timeout missing");
  new timeout (default DEFAULT_SOCKET_PATH (b_socket_path b)).

(** [ServiceBuilder::start_listener] *)
Definition start_listener (config : ListenerConfig) : ST O io_error DomainSocketListener :=
  match listener_type config with
  | Config.DomainSocket =>
    build (with_socket_path (socket_path config)
      (with_timeout (listener_timeout config) DomainSocketListenerBuilder_new))
  end.
End Listener.
End DomainSocket.

(** ** What the calls promise *)
Inductive file_kind := SocketFile | OtherFile.
#[export] Instance file_kind_eq_dec : EqDecision file_kind.
Proof. solve_decision. Defined.

Class SocketLaws (O Str : Type) `{SocketOs O Str} := {
  (** the files the paths lead to, with their mode, as the process sees them *)
  socket_files : O -> gmap string (file_kind * Z);
  (** the streams' options *)
  read_timeout : Str -> option Z;
  write_timeout : Str -> option Z;
  is_blocking : Str -> bool;
  (** the process at the other end, as the kernel recorded it at [connect] *)
  peer_of : Str -> ucred;
  fds_pure o : (listen_fds o).1 <> Panic /\ socket_files (listen_fds o).2 = socket_files o;
  exists_spec p o : path_exists p o = (bool_decide (is_Some (socket_files o !! p)), o);
  metadata_spec p o :
    match metadata_is_socket p o with
    | (Ok b, o') => o' = o /\ exists k m, socket_files o !! p = Some (k, m) /\
        b = bool_decide (k = SocketFile)
    | (Err _, o') => o' = o
    | (Panic, _) => False
    end;
  remove_spec p o :
    match remove_socket_file p o with
    | (Ok _, o') => socket_files o' = delete p (socket_files o)
    | (Err _, o') => socket_files o' = socket_files o
    | (Panic, _) => False
    end;
  (** binding to a path that exists fails *)
  bind_spec p o :
    match bind p o with
    | (Ok _, o') => socket_files o !! p = None /\
        exists m, socket_files o' = <[p := (SocketFile, m)]> (socket_files o)
    | (Err _, o') => socket_files o' = socket_files o
    | (Panic, _) => False
    end;
  nonblocking_spec l b o : (set_listener_nonblocking l b o).1 <> Panic /\
    socket_files (set_listener_nonblocking l b o).2 = socket_files o;
  mode_spec p m o :
    match set_mode p m o with
    | (Ok _, o') => exists k m', socket_files o !! p = Some (k, m') /\
        socket_files o' = <[p := (k, m)]> (socket_files o)
    | (Err _, o') => socket_files o' = socket_files o
    | (Panic, _) => False
    end;
  accept_returns l o : (socket_accept l o).1 <> Panic;
  (** a timeout of zero is an error *)
  read_timeout_spec d s o :
    match set_read_timeout d s o with
    | (Ok s', _) => d <> 0%Z /\ read_timeout s' = Some d /\ write_timeout s' = write_timeout s /\
        peer_of s' = peer_of s
    | (Err _, _) => True
    | (Panic, _) => False
    end;
  write_timeout_spec d s o :
    match set_write_timeout d s o with
    | (Ok s', _) => write_timeout s' = Some d /\ read_timeout s' = read_timeout s /\
        peer_of s' = peer_of s
    | (Err _, _) => True
    | (Panic, _) => False
    end;
  stream_blocking_spec b s o :
    match set_stream_nonblocking b s o with
    | (Ok s', _) => is_blocking s' = negb b /\ read_timeout s' = read_timeout s /\
        write_timeout s' = write_timeout s /\ peer_of s' = peer_of s
    | (Err _, _) => True
    | (Panic, _) => False
    end;
  peercred_spec s c size o :
    let '((ret, c', size'), _) := getsockopt_peercred s c size o in
    ret = 0%Z -> size' = size -> c' = peer_of s;
}.

Section Spec.
Context {O Str : Type} `{SocketLaws O Str}.
Import DomainSocket.
Implicit Types (o : O) (self : DomainSocketListener).

Lemma peer_cred_spec s o :
  match peer_cred (O := O) s o with
  | (Ok c, _) => uid c = cred_uid (peer_of s) /\ gid c = cred_gid (peer_of s) /\
      pid c = Some (cred_pid (peer_of s))
  | (Err _, _) => True
  | (Panic, _) => False
  end.
Proof.
  unfold peer_cred. pose proof (peercred_spec s {| cred_pid := 1; cred_uid := 1; cred_gid := 1 |}
    size_of_ucred o) as Hp.
  destruct (getsockopt_peercred _ _ _ o) as [[[ret c] size] o1].
  destruct (Z.eqb_spec ret 0) as [Hr|]; [|done].
  destruct (Z.eqb_spec size size_of_ucred) as [Hs|]; [|done]. simpl. by rewrite (Hp Hr Hs).
Qed.

(** On the BSDs the user and the group are those of the peer too; the process is not
    known. *)
Lemma bsd_peer_cred_spec getpeereid s o :
  (forall c, let '((ret, c'), _) := getpeereid s c o in
     ret = 0%Z -> c' = (cred_uid (peer_of s), cred_gid (peer_of s))) ->
  match bsd_peer_cred (O := O) getpeereid s o with
  | (Ok c, _) => uid c = cred_uid (peer_of s) /\ gid c = cred_gid (peer_of s) /\ pid c = None
  | (Err _, _) => True
  | (Panic, _) => False
  end.
Proof.
  intros Hp. unfold bsd_peer_cred. specialize (Hp (1, 1)%Z). simpl.
  destruct (getpeereid s (1, 1)%Z o) as [[ret [u g]] o1].
  destruct (Z.eqb_spec ret 0) as [Hr|]; [|done]. simpl. by injection (Hp Hr) as -> ->.
Qed.

(** C30: A connection handed to the service carries the credentials of the process at
    the other end, as the kernel has them, and its stream blocks no longer than
    the configured timeout, for reading and for writing.  Accepting never panics.
    With a timeout of zero no connection is ever handed over. *)
Theorem listener_accept_spec self o :
  match accept self o with
  | (Ok (Some c), _) =>
      let p := peer_of (stream c) in
      metadata c = Some (UnixPeerCredentialsMeta (cred_uid p) (cred_gid p) (Some (cred_pid p))) /\
      read_timeout (stream c) = Some (timeout self) /\
      write_timeout (stream c) = Some (timeout self) /\
      is_blocking (stream c) = true /\ timeout self <> 0%Z
  | (Ok None, _) => True
  | _ => False
  end.
Proof.
  unfold accept. run_unfold. pose proof (accept_returns (listener self) o) as Ha.
  destruct (socket_accept (listener self) o) as [[s0|e|] o1]; [|done|done].
  pose proof (read_timeout_spec (timeout self) s0 o1) as Hr.
  destruct (set_read_timeout _ s0 o1) as [[s1|e|] o2]; [|done|done].
  destruct Hr as (Hz & Hr1 & _ & Hp1). pose proof (write_timeout_spec (timeout self) s1 o2) as Hw.
  destruct (set_write_timeout _ s1 o2) as [[s2|e|] o3]; [|done|done].
  destruct Hw as (Hw2 & Hr2 & Hp2). pose proof (stream_blocking_spec false s2 o3) as Hb.
  destruct (set_stream_nonblocking _ s2 o3) as [[s3|e|] o4]; [|done|done].
  destruct Hb as (Hb3 & Hr3 & Hw3 & Hp3). pose proof (peer_cred_spec s3 o4) as Hc.
  destruct (peer_cred s3 o4) as [[c|e|] o5]; [|done|done]. simpl in *.
  destruct Hc as (-> & -> & ->). split_and!; [done|congruence|congruence|done|done].
Qed.

(** Only the file at [p] may change, and only if it is a socket or absent. *)
Definition tame (p : string) (f f' : gmap string (file_kind * Z)) : Prop :=
  (forall q, q <> p -> f' !! q = f !! q) /\
  (forall m, f !! p = Some (OtherFile, m) -> f' !! p = Some (OtherFile, m)).

Lemma remove_existing_spec p o :
  (remove_existing p o).1 <> Panic /\
  tame p (socket_files o) (socket_files (remove_existing p o).2).
Proof.
  unfold remove_existing. run_unfold. rewrite exists_spec. simpl. case_bool_decide as He; [|done].
  pose proof (metadata_spec p o) as Hm. destruct (metadata_is_socket p o) as [[b|e|] o1].
  - destruct Hm as (-> & k & m & Hk & ->). case_bool_decide; [|done]. subst k.
    pose proof (remove_spec p o) as Hr. destruct (remove_socket_file p o) as [[u|e|] o2];
      simpl; [|by rewrite Hr|done]. rewrite Hr. split; [done|]. split; [intros q Hq; by rewrite lookup_delete_ne|].
    intros m'. congruence.
  - by subst.
  - done.
Qed.

(** Binding to the path and opening it to everyone. *)
Lemma bind_path_spec p o :
  match (listener ← bind p; set_listener_nonblocking listener true ;; set_mode p 438 ;;
         mret listener) o with
  | (Ok _, o') => tame p (socket_files o) (socket_files o') /\ socket_files o !! p = None /\
      socket_files o' !! p = Some (SocketFile, 438%Z)
  | (Err _, o') => tame p (socket_files o) (socket_files o')
  | (Panic, _) => False
  end.
Proof.
  run_unfold. pose proof (bind_spec p o) as Hb.
  destruct (bind p o) as [[l|e|] o1]; [|by rewrite Hb|done]. destruct Hb as (Hno & m & Hf1).
  assert (Ht : forall x, tame p (socket_files o) (<[p := x]> (socket_files o))).
  { intros x. split; [intros q Hq; by rewrite lookup_insert_ne|]. intros m' Hm'. congruence. }
  destruct (nonblocking_spec l true o1) as [Hp Hf2].
  destruct (set_listener_nonblocking l true o1) as [[u|e|] o2]; simpl in *; [|by rewrite Hf2, Hf1|done].
  pose proof (mode_spec p 438 o2) as Hm. rewrite Hf2, Hf1 in Hm.
  destruct (set_mode p 438 o2) as [[u'|e|] o3]; [|by rewrite Hm|done].
  destruct Hm as (k & m' & Hk & ->). rewrite lookup_insert_eq in Hk. injection Hk as <- <-.
  rewrite insert_insert_eq, lookup_insert_eq. by split_and!.
Qed.

(** Starting the listener, on success and on failure.  No file is touched but the
    one at the socket's path, and that one only if it is a socket: a file of
    another kind is never removed, and makes the start fail.  On success, when
    systemd passes no socket, the path leads to a socket that everyone may use
    (mode 666, whatever was there before); with more than one descriptor the start
    fails. *)
Theorem start_listener_spec config o r o' n :
  (listen_fds o).1 = Ok n -> start_listener config o = (r, o') ->
  let path := default DEFAULT_SOCKET_PATH (socket_path config) in
  (forall p, p <> path -> socket_files o' !! p = socket_files o !! p) /\
  (forall m, socket_files o !! path = Some (OtherFile, m) ->
     socket_files o' !! path = Some (OtherFile, m) /\ (n = 0%Z -> is_ok r = false)) /\
  match r with
  | Ok l => timeout l = listener_timeout config /\
      (n = 0%Z /\ socket_files o' !! path = Some (SocketFile, 438%Z) \/
       n = 1%Z /\ listener l = SD_LISTEN_FDS_START /\ socket_files o' = socket_files o)
  | Err _ => True
  | Panic => False
  end.
Proof.
  intros Hn Hrun path. unfold start_listener in Hrun. destruct (listener_type config).
  change (new (listener_timeout config) path o = (r, o')) in Hrun. unfold new in Hrun.
  unfold mbind at 1, ST_bind at 1 in Hrun. destruct (fds_pure o) as [_ Hf].
  destruct (listen_fds o) as [x o1]. simpl in Hn, Hf. subst x.
  destruct n as [|[|[]|]|]; try (injection Hrun as <- <-; simpl; rewrite Hf; naive_solver).
  destruct (remove_existing_spec path o1) as [Hp1 [Hq1 Ho1]]. rewrite Hf in Hq1, Ho1.
  unfold mbind at 1, ST_bind at 1 in Hrun. unfold mbind at 1, ST_bind at 1 in Hrun.
  destruct (remove_existing path o1) as [[u|e|] o2]; simpl in Hp1, Hq1, Ho1; [| |done].
  2: { injection Hrun as <- <-. naive_solver. }
  pose proof (bind_path_spec path o2) as Hb.
  destruct ((listener ← bind path; _) o2) as [[l|e|] o3]; [| |done].
  - injection Hrun as <- <-. destruct Hb as ([Hq2 Ho2] & Hno & Hsock). split_and!.
    + intros p Hp. by rewrite Hq2, Hq1.
    + intros m Hm. apply Ho1 in Hm. congruence.
    + done.
    + by left.
  - injection Hrun as <- <-. destruct Hb as [Hq2 Ho2]. split_and!; [|by auto|done].
    intros p Hp. by rewrite Hq2, Hq1.
Qed.
End Spec.
