(* ===== verification/Main.v ===== *)
(** * The main program ([src/bin/main.rs])

    [start] is what [main] does before its loop, [reload] what the loop does on
    SIGHUP.  The loop runs beside the threads of the pool and the signals, so it is
    a step relation: [work_step] has a rule for each branch of the loop and one for a
    thread that takes a job from the pool, [signal_step] one for each signal.  A job
    runs in one step. *)
From S2P Require Import Prelude RustStd Interface Authenticators Fs KeyInfo OnDisk Provide.
From S2P Require Import Backend FrontEnd CoreProvider Config ServiceBuilder ServiceSpec Listener.

(** ** What [main] is written against *)
Inductive NotifyState := NotifyReady | NotifyReloading | NotifyStopping.
(** What [log_setup] gives to the logger. *)
Record LogSettings := { level : option LevelFilter; timestamp_millis : bool }.

Class ProcessOs (O : Type) := {
  (** [signal_hook::flag::register] for SIGTERM, SIGINT and SIGHUP *)
  register_signals : ST O io_error unit;
  read_config_file : string -> ST O io_error string;
  toml_from_str : string -> option ServiceConfig;
  get_current_uid : O -> Z;
  init_logger : LogSettings -> O -> O;
  sd_notify : NotifyState -> O -> O;
  thread_sleep : Z -> O -> O;
  (** dropping a listener closes its socket *)
  close_listener : Z -> O -> O;
}.

Definition MAIN_LOOP_DEFAULT_SLEEP : Z := 10.

(** [Opts], as [structopt] fills it. *)
Record Opts := { config_path : string }.

(** [log_setup] *)
Definition log_setup (config : ServiceConfig) : LogSettings :=
  {| level := log_level (core_settings config);
     timestamp_millis := bool_decide (log_timestamp (core_settings config) = Some true) |}.

(** [ServiceBuilder::build_threadpool]: the [threadpool] crate refuses to make a
    pool of no threads; without a size it has one thread per processor. *)
Definition build_threadpool {S E} (num_threads : option Z) : ST S E unit :=
  match num_threads with
  | Some 0%Z => panic
  | _ => mret tt
  end.

(** What [main] holds while it runs. *)
Record Service (W : Type) := {
  sv_config : ServiceConfig;
  sv_front_end : FrontEndHandler W;
  sv_listener : DomainSocket.DomainSocketListener;
}.
Arguments sv_config {W}.
Arguments sv_front_end {W}.
Arguments sv_listener {W}.

Section Main.
Context {R O Str : Type} `{ParsecInterface} `{Base64} `{Bincode KeyInfo} `{Wire Str}.
Context `{SocketOs O Str} `{ProcessOs O}.
Abbreviation W := (World R).
Context (builders : ProviderBuilders W) (features : gset ProviderId) (auth_features : gset AuthType).
Context (spiffe_connect : string -> option JwtSvidAuthenticator.WorkloadApiClient).
Context (ProtobufConverter : Convert).
Context (crate_version : option (Z * Z * Z)) (parse_uuid : string -> option string).
(** What dropping a handler, and with it the providers, does to their libraries. *)
Context (drop_front_end : FrontEndHandler W -> W -> W).
Context (opts : Opts).
Abbreviation M A := (ST (W * O) string A).

Definition build_service (config : ServiceConfig) : M (FrontEndHandler W) :=
  zoom fst (fun w s => (w, s.2)) (ServiceBuilder.build_service builders features auth_features
    spiffe_connect ProtobufConverter crate_version parse_uuid config).
Definition os {A} (m : ST O string A) : M A := zoom snd (fun o s => (s.1, o)) m.
Definition os_do (f : O -> O) : M unit := os (modify f).

Definition load_config : M ServiceConfig :=
  config_file ← os (read_config_file (config_path opts));
  lift (ok_or (toml_from_str config_file) "Failed to parse service configuration").

(** The handler, the listener and the pool of a configuration, and the word to
    systemd. *)
Definition set_up (config : ServiceConfig) : M (Service W) :=
  front_end_handler ← build_service config;
  listener ← os (DomainSocket.start_listener (listener config));
  build_threadpool (thread_pool_size (core_settings config)) ;;
  os_do (sd_notify NotifyReady) ;;
  mret {| sv_config := config; sv_front_end := front_end_handler; sv_listener := listener |}.

(** [main] up to its loop. *)
Definition start : M (Service W) :=
  os register_signals ;;
  config ← load_config;
  let allow_root := default false (allow_root (core_settings config)) in
  uid ← gets (fun s => get_current_uid s.2);
  if negb allow_root && (uid =? 0)%Z then raise "Insecure configuration"
  else
    os_do (init_logger (log_setup config)) ;;
    set_up config.

(** The body of the [if] on the reload signal, after the threads have finished. *)
Definition reload (service : Service W) : M (Service W) :=
  modify (fun s => (drop_front_end (sv_front_end service) s.1, s.2)) ;;
  os_do (close_listener (DomainSocket.listener (sv_listener service))) ;;
  config ← load_config;
  set_up config.

(** ** The loop *)
Inductive pc :=
  | Top
  (** [threadpool.join()] before the reload *)
  | ReloadJoin
  (** the [if let] on the next connection *)
  | Accepting
  (** [threadpool.join()] at the end *)
  | StopJoin
  | Exited (r : result string unit).

(** What became of a connection: the outcome of its thread and its stream. *)
Record Finished := { fin_front_end : FrontEndHandler W; fin_connection : Connection Str;
  fin_outcome : result Empty_set unit; fin_stream : Str }.

Record LoopState := {
  cf_world : W;
  cf_os : O;
  kill_signal : bool;
  reload_signal : bool;
  cf_pc : pc;
  cf_service : Service W;
  (** the jobs of the pool, each with the handler it was given *)
  cf_jobs : list (FrontEndHandler W * Connection Str);
  (** history: connections in the order they were accepted and finished *)
  cf_accepted : list (Connection Str);
  cf_finished : list Finished;
}.

Definition running (x : LoopState) : Prop := forall r, cf_pc x <> Exited r.

(** The configuration with another place in the loop. *)
Definition goto (p : pc) (o : O) (x : LoopState) : LoopState :=
  {| cf_world := cf_world x; cf_os := o; kill_signal := kill_signal x;
     reload_signal := reload_signal x; cf_pc := p; cf_service := cf_service x;
     cf_jobs := cf_jobs x; cf_accepted := cf_accepted x; cf_finished := cf_finished x |}.
Definition signalled (kill rel : bool) (x : LoopState) : LoopState :=
  {| cf_world := cf_world x; cf_os := cf_os x; kill_signal := kill; reload_signal := rel;
     cf_pc := cf_pc x; cf_service := cf_service x; cf_jobs := cf_jobs x;
     cf_accepted := cf_accepted x; cf_finished := cf_finished x |}.

(** A signal arrives. *)
Inductive signal_step : LoopState -> LoopState -> Prop :=
  | step_sigterm x : running x -> signal_step x (signalled true (reload_signal x) x)
  | step_sighup x : running x -> signal_step x (signalled (kill_signal x) true x).

(** The main thread or a thread of the pool goes on. *)
Inductive work_step : LoopState -> LoopState -> Prop :=
  (** a thread of the pool takes a job *)
  | step_worker x l1 fe c l2 out w' str' :
      running x -> cf_jobs x = l1 ++ (fe, c) :: l2 ->
      handle_request fe (metadata c) (cf_world x, stream c) = (out, (w', str')) ->
      work_step x {| cf_world := w'; cf_os := cf_os x; kill_signal := kill_signal x;
        reload_signal := reload_signal x; cf_pc := cf_pc x; cf_service := cf_service x;
        cf_jobs := l1 ++ l2; cf_accepted := cf_accepted x;
        cf_finished := cf_finished x ++ [{| fin_front_end := fe; fin_connection := c;
          fin_outcome := out; fin_stream := str' |}] |}
  | step_kill x : cf_pc x = Top -> kill_signal x = true ->
      work_step x (goto StopJoin (sd_notify NotifyStopping (cf_os x)) x)
  | step_no_reload x : cf_pc x = Top -> kill_signal x = false -> reload_signal x = false ->
      work_step x (goto Accepting (cf_os x) x)
  | step_reload x : cf_pc x = Top -> kill_signal x = false -> reload_signal x = true ->
      work_step x (signalled (kill_signal x) false
        (goto ReloadJoin (sd_notify NotifyReloading (cf_os x)) x))
  | step_reloaded x service w' o' : cf_pc x = ReloadJoin -> cf_jobs x = [] ->
      reload (cf_service x) (cf_world x, cf_os x) = (Ok service, (w', o')) ->
      work_step x {| cf_world := w'; cf_os := o'; kill_signal := kill_signal x;
        reload_signal := reload_signal x; cf_pc := Accepting; cf_service := service;
        cf_jobs := []; cf_accepted := cf_accepted x; cf_finished := cf_finished x |}
  | step_reload_fails x r w' o' : cf_pc x = ReloadJoin -> cf_jobs x = [] ->
      reload (cf_service x) (cf_world x, cf_os x) = (r, (w', o')) -> is_ok r = false ->
      work_step x {| cf_world := w'; cf_os := o'; kill_signal := kill_signal x;
        reload_signal := reload_signal x;
        cf_pc := Exited (match r with Err e => Err e | _ => Panic end);
        cf_service := cf_service x; cf_jobs := []; cf_accepted := cf_accepted x;
        cf_finished := cf_finished x |}
  | step_accept x c o' : cf_pc x = Accepting ->
      DomainSocket.accept (sv_listener (cf_service x)) (cf_os x) = (Ok (Some c), o') ->
      work_step x {| cf_world := cf_world x; cf_os := o'; kill_signal := kill_signal x;
        reload_signal := reload_signal x; cf_pc := Top; cf_service := cf_service x;
        cf_jobs := cf_jobs x ++ [(sv_front_end (cf_service x), c)];
        cf_accepted := cf_accepted x ++ [c]; cf_finished := cf_finished x |}
  | step_idle x o' : cf_pc x = Accepting ->
      DomainSocket.accept (sv_listener (cf_service x)) (cf_os x) = (Ok None, o') ->
      work_step x (goto Top (thread_sleep (default MAIN_LOOP_DEFAULT_SLEEP
        (idle_listener_sleep_duration (core_settings (sv_config (cf_service x))))) o') x)
  | step_accept_panics x o' : cf_pc x = Accepting ->
      DomainSocket.accept (sv_listener (cf_service x)) (cf_os x) = (Panic, o') ->
      work_step x (goto (Exited Panic) o' x)
  | step_stop x : cf_pc x = StopJoin -> cf_jobs x = [] ->
      work_step x (goto (Exited (Ok tt)) (cf_os x) x).

Definition main_step (x y : LoopState) : Prop := work_step x y \/ signal_step x y.

(** The loop begins with what [start] returned. *)
Definition loop_start (service : Service W) (w : W) (o : O) : LoopState :=
  {| cf_world := w; cf_os := o; kill_signal := false; reload_signal := false; cf_pc := Top;
     cf_service := service; cf_jobs := []; cf_accepted := []; cf_finished := [] |}.

(** ** What holds at every point of a run *)
Context `{!WireLaws Str} `{!SocketLaws O Str}.
Implicit Types (x y : LoopState).

(** The handler of [config], built at some time. *)
Definition built_from (config : ServiceConfig) (fe : FrontEndHandler W) : Prop :=
  exists w w', ServiceBuilder.build_service builders features auth_features spiffe_connect
    ProtobufConverter crate_version parse_uuid config w = (Ok fe, w').

Record main_ok x : Prop := {
  (** no connection is lost or served twice *)
  mo_conserved : cf_accepted x ≡ₚ (cf_jobs x).*2 ++ (fin_connection <$> cf_finished x);
  (** no job has the handler of an earlier configuration *)
  mo_current : Forall (fun j => j.1 = sv_front_end (cf_service x)) (cf_jobs x);
  mo_built : built_from (sv_config (cf_service x)) (sv_front_end (cf_service x));
  mo_exited r : cf_pc x = Exited r -> cf_jobs x = [];
}.

(** The handler of a service is that of its configuration; what comes before and after
    the building does not touch the state of the service. *)
Lemma set_up_builds config s service s' :
  set_up config s = (Ok service, s') -> sv_config service = config /\
  ServiceBuilder.build_service builders features auth_features spiffe_connect ProtobufConverter
    crate_version parse_uuid (sv_config service) s.1 = (Ok (sv_front_end service), s'.1).
Proof.
  unfold set_up, build_service. intros Hrun. apply bind_Ok in Hrun as (fe & s1 & Hb & Hrun).
  apply bind_Ok in Hrun as (l & s2 & Hl & Hrun). apply bind_Ok in Hrun as (u & s3 & Ht & Hrun).
  apply bind_Ok in Hrun as (u' & s4 & Hn & Hrun). injection Hrun as <- <-.
  assert (s4.1 = s1.1) as ->.
  { unfold os_do, os, zoom in Hn. injection Hn as _ <-. cbn.
    assert (s3 = s2) as -> by (unfold build_threadpool in Ht;
      destruct (thread_pool_size _) as [[]|]; by injection Ht).
    unfold os, zoom in Hl. destruct (DomainSocket.start_listener _ _). by injection Hl as _ <-. }
  unfold zoom in Hb. cbn.
  destruct (ServiceBuilder.build_service _ _ _ _ _ _ _ config s.1) as [r w'] eqn:Hw.
  by injection Hb as -> <-.
Qed.

Lemma load_config_world s config s' : load_config s = (Ok config, s') -> s'.1 = s.1.
Proof.
  unfold load_config, os. run_unfold. destruct (read_config_file _ _) as [[f|e|] o]; [|done|done].
  simpl. destruct (toml_from_str f); simpl; [|done]. by intros [= _ <-].
Qed.

Lemma start_builds s service s' :
  start s = (Ok service, s') ->
  ServiceBuilder.build_service builders features auth_features spiffe_connect ProtobufConverter
    crate_version parse_uuid (sv_config service) s.1 = (Ok (sv_front_end service), s'.1).
Proof.
  unfold start. intros Hrun. apply bind_Ok in Hrun as (u & s1 & Hr & Hrun).
  assert (s1.1 = s.1) as Hs1 by (revert Hr; unfold os, zoom; destruct (register_signals _);
    by intros [= _ <-]).
  apply bind_Ok in Hrun as (config & s2 & Hl%load_config_world & Hrun).
  apply bind_Ok in Hrun as (uid & s3 & Hg & Hrun). injection Hg as _ <-.
  destruct (negb _ && _); [done|]. apply bind_Ok in Hrun as (u' & s4 & Hi & Hrun).
  injection Hi as _ <-. apply set_up_builds in Hrun as [_ Hb]. simpl in Hb.
  by rewrite Hl, Hs1 in Hb.
Qed.

Lemma reload_builds old s service s' :
  reload old s = (Ok service, s') ->
  ServiceBuilder.build_service builders features auth_features spiffe_connect ProtobufConverter
    crate_version parse_uuid (sv_config service) (drop_front_end (sv_front_end old) s.1) =
    (Ok (sv_front_end service), s'.1).
Proof.
  unfold reload. intros Hrun. apply bind_Ok in Hrun as (u & s1 & Hd & Hrun). injection Hd as _ <-.
  apply bind_Ok in Hrun as (u' & s2 & Hc & Hrun). injection Hc as _ <-.
  apply bind_Ok in Hrun as (config & s3 & Hl%load_config_world & Hrun).
  apply set_up_builds in Hrun as [_ Hb]. by rewrite Hl in Hb.
Qed.

Lemma work_step_ok x y : main_ok x -> work_step x y -> main_ok y.
Proof.
  intros [Hc Hcur Hb He] Hstep.
  destruct Hstep as [x l1 fe c l2 out w' str' Hrun Hj Hh|x Hp Hk|x Hp Hk Hr|x Hp Hk Hr
    |x sv w' o' Hp Hj Hr|x r w' o' Hp Hj Hr Hne|x c o' Hp Hacc|x o' Hp Hacc|x o' Hp Hacc|x Hp Hj];
    split; simpl; try done; try congruence.
  - rewrite Hc, Hj, !fmap_app, fmap_cons. simpl. solve_Permutation.
  - rewrite Hj in Hcur. apply Forall_app in Hcur as [? [_ ?]%Forall_cons]. by apply Forall_app.
  - by rewrite Hc, Hj.
  - apply reload_builds in Hr. by eexists _, _.
  - by rewrite Hc, Hj.
  - rewrite Hc, fmap_app. simpl. solve_Permutation.
  - apply Forall_app. split; [done|]. by constructor.
  - pose proof (listener_accept_spec (sv_listener (cf_service x)) (cf_os x)) as Hs.
    by rewrite Hacc in Hs.
Qed.

Lemma main_step_ok x y : main_ok x -> main_step x y -> main_ok y.
Proof.
  intros Hx [Hs|Hs]; [by eapply work_step_ok|]. destruct Hx as [Hc Hcur Hb He].
  by destruct Hs; split.
Qed.

Lemma main_run_ok x y : main_ok x -> rtc main_step x y -> main_ok y.
Proof. intros Hx Hrun. revert Hx. induction Hrun; eauto using main_step_ok. Qed.

Lemma main_start_ok s0 service w o :
  start s0 = (Ok service, (w, o)) -> main_ok (loop_start service w o).
Proof. intros Hstart. split; try done. apply start_builds in Hstart. by eexists _, _. Qed.

(** ** Every connection is answered *)
(** The thread returned, and one response was written to the stream as the read left
    it: the read error, or the answer of the front end in some state of the service. *)
Definition answered (f : Finished) : Prop :=
  let fe := fin_front_end f in let c := fin_connection f in
  fin_outcome f = Ok tt /\ exists response w w',
    fin_stream f = (write_to_stream response
      (read_from_stream (body_len_limit fe) (stream c)).2).2 /\
    match (read_from_stream (body_len_limit fe) (stream c)).1 with
    | Ok request => answer fe (metadata c) request w = (Ok response, w')
    | Err status => response = from_status status
    | Panic => False
    end.

(** Nothing the service calls can panic, until [main] has returned. *)
Definition serving x : Prop :=
  running x -> exists Inv, panic_free Inv (sv_front_end (cf_service x)) /\ Inv (cf_world x).
(** A service built from [config] at [w] does not panic. *)
Definition safely_builds (config : ServiceConfig) (w : W) : Prop := forall fe w',
  ServiceBuilder.build_service builders features auth_features spiffe_connect ProtobufConverter
    crate_version parse_uuid config w = (Ok fe, w') ->
  exists Inv, panic_free Inv fe /\ Inv w'.
(** A reload that succeeds happens at a configuration and a state with [P]. *)
Definition reloads_at (P : ServiceConfig -> W -> Prop) x y : Prop :=
  cf_pc x = ReloadJoin -> cf_pc y = Accepting ->
  P (sv_config (cf_service y)) (drop_front_end (sv_front_end (cf_service x)) (cf_world x)).

Lemma worker_answers Inv fe c w out w' str' :
  panic_free Inv fe -> Inv w ->
  handle_request fe (metadata c) (w, stream c) = (out, (w', str')) ->
  Inv w' /\
  answered {| fin_front_end := fe; fin_connection := c; fin_outcome := out; fin_stream := str' |}.
Proof.
  intros Hfree Hw. rewrite handle_request_run by done. unfold answered. cbn.
  pose proof (read_no_panic (body_len_limit fe) (stream c)) as Hr.
  destruct (read_from_stream _ _) as [[request|st|] str1]; cbn in *; [| |done].
  - destruct (answer_total Inv fe (metadata c) request w Hfree Hw) as (response & w1 & Ha & Hw1).
    rewrite Ha. intros [= <- <- <-]. eauto 10.
  - intros [= <- <- <-]. eauto 10.
Qed.

Lemma work_step_running x y : work_step x y -> running x.
Proof. intros Hstep r. by destruct Hstep; first [done|congruence]. Qed.

Lemma serving_step x y :
  main_ok x -> serving x -> Forall answered (cf_finished x) ->
  main_step x y -> reloads_at safely_builds x y -> serving y /\ Forall answered (cf_finished y).
Proof.
  intros Hok Hserv Hans [Hstep|Hstep] Hre; [|by destruct Hstep].
  destruct (Hserv (work_step_running x y Hstep)) as (Inv & Hfree & Hw).
  destruct Hstep as [x l1 fe c l2 out w' str' Hrun Hj Hh|x Hp Hk|x Hp Hk Hr|x Hp Hk Hr
    |x sv w' o' Hp Hj Hr|x r w' o' Hp Hj Hr Hne|x c o' Hp Hacc|x o' Hp Hacc|x o' Hp Hacc|x Hp Hj];
    try (split; [by exists Inv|done]).
  - assert (fe = sv_front_end (cf_service x)) as ->.
    { pose proof (mo_current _ Hok) as Hcur. rewrite Hj in Hcur.
      by apply Forall_app in Hcur as [_ [? _]%Forall_cons]. }
    destruct (worker_answers _ _ _ _ _ _ _ Hfree Hw Hh) as [Hw' Ha]. split; [by exists Inv|].
    apply Forall_app. split; [done|]. by constructor.
  - split; [|done]. apply reload_builds in Hr. destruct (Hre Hp eq_refl _ _ Hr) as (Inv' & ? & ?).
    by exists Inv'.
  - split; [|done]. intros Hrun. by destruct (Hrun (match r with Err e => Err e | _ => Panic end)).
Qed.

(** When neither the start nor a reload builds a service that can panic. *)
Lemma main_answers s0 service w o x :
  start s0 = (Ok service, (w, o)) -> safely_builds (sv_config service) s0.1 ->
  rtc (fun y z => main_step y z /\ reloads_at safely_builds y z) (loop_start service w o) x ->
  Forall answered (cf_finished x).
Proof.
  intros Hstart Hsafe Hrun.
  assert (Hini : serving (loop_start service w o))
    by (intros _; apply start_builds in Hstart; by apply Hsafe in Hstart).
  assert (Hans : Forall answered (cf_finished (loop_start service w o))) by done.
  pose proof (main_start_ok _ _ _ _ Hstart) as Hok. clear Hstart.
  induction Hrun as [y|y z x [Hyz Hre] _ IH]; [done|].
  destruct (serving_step y z Hok Hini Hans Hyz Hre). eauto using main_step_ok.
Qed.

(** ** Shutting down *)
(** How far the loop is from its end once the kill signal is set. *)
Definition distance x : nat :=
  length (cf_jobs x) +
  match cf_pc x with
  | Exited _ => 0 | StopJoin => 1 | Top => 2 | Accepting => 4 | ReloadJoin => 5
  end.

Lemma work_step_distance x y :
  kill_signal x = true -> work_step x y -> kill_signal y = true /\ distance y < distance x.
Proof.
  intros Hkill Hstep. unfold distance.
  destruct Hstep as [x l1 fe c l2 out w' str' Hrun Hj Hh|x Hp Hk|x Hp Hk Hr|x Hp Hk Hr
    |x sv w' o' Hp Hj Hr|x r w' o' Hp Hj Hr Hne|x c o' Hp Hacc|x o' Hp Hacc|x o' Hp Hacc|x Hp Hj];
    simpl; try congruence; (split; [done|]); rewrite ?Hp, ?Hj, ?length_app; simpl; try lia.
Qed.

Lemma work_step_progress x : running x -> exists y, work_step x y \/
  (cf_pc x = Top /\ kill_signal x = false).
Proof.
  intros Hrun. destruct (cf_jobs x) as [|[fe c] l] eqn:Hj.
  2: { destruct (handle_request fe (metadata c) (cf_world x, stream c)) as [out [w' str']] eqn:Hh.
       eexists. left. by eapply (step_worker x [] fe c l). }
  destruct (cf_pc x) eqn:Hp.
  - destruct (kill_signal x) eqn:Hk; [|by exists x; right]. eexists. left. by apply step_kill.
  - destruct (reload (cf_service x) (cf_world x, cf_os x)) as [[sv|e|] [w' o']] eqn:Hr;
      eexists; left; [by eapply step_reloaded|by eapply step_reload_fails..].
  - destruct (DomainSocket.accept (sv_listener (cf_service x)) (cf_os x)) as [[[c|]|[]|] o'] eqn:Ha;
      eexists; left; [by eapply step_accept|by eapply step_idle|by eapply step_accept_panics].
  - eexists. left. by apply step_stop.
  - by destruct (Hrun r).
Qed.

(** C7: After a SIGTERM or SIGINT the program ends: no run of the main thread and the
    threads of the pool is longer than the number of waiting jobs plus five, and as
    long as [main] has not returned some thread can go on.  So every run that does
    not stop half-way reaches the end. *)
Theorem main_terminates x :
  kill_signal x = true ->
  (forall n y, nsteps work_step n x y -> n <= length (cf_jobs x) + 5 /\ kill_signal y = true) /\
  (running x -> exists y, work_step x y).
Proof.
  intros Hkill. split.
  - intros n y Hn. assert (Hd : n + distance y <= distance x /\ kill_signal y = true).
    { induction Hn as [x|n x z y Hxz Hzy IH]; [done|].
      destruct (work_step_distance x z Hkill Hxz) as [Hz Hlt]. destruct (IH Hz). split; [lia|done]. }
    unfold distance in Hd. destruct (cf_pc x); destruct Hd; (split; [lia|done]).
  - intros Hrun. destruct (work_step_progress x Hrun) as [y [Hy|[_ Hk]]]; [by exists y|congruence].
Qed.

(** ** Start-up *)
(** The service is not built by root unless the configuration allows it: nothing
    but the configuration file has been read when [main] gives up. *)
Theorem main_refuses_root s s1 s2 config :
  os register_signals s = (Ok tt, s1) -> load_config s1 = (Ok config, s2) ->
  allow_root (core_settings config) <> Some true -> get_current_uid s2.2 = 0%Z ->
  start s = (Err "Insecure configuration", s2) /\ s2.1 = s.1.
Proof.
  intros Hs Hl Hroot Huid. split.
  - unfold start. unfold mbind, ST_bind. rewrite Hs, Hl. unfold gets. rewrite Huid.
    destruct (allow_root (core_settings config)) as [[|]|]; done.
  - unfold os, zoom in Hs. destruct (register_signals s.2) as [r o1]. injection Hs as -> <-.
    unfold load_config, os in Hl. run_unfold. simpl in Hl.
    destruct (read_config_file _ o1) as [[f|e|] o2]; [|done|done].
    destruct (toml_from_str f); simpl in Hl; [|done]. by injection Hl as _ <-.
Qed.
End Main.
