(* ===== verification/Residence.v ===== *)
(** * Providers inside the service

    A provider is modelled over its own state: a key info manager with the disk,
    and what its libraries keep.  In the service the manager is one of the shared
    ones, the disk is everyone's and the libraries are a part of the service's
    state.  [resident] is the provider as the service sees it; what is proved of
    it alone carries over ([resident_keeps_to], [residents_safe]), also when several
    providers share a manager. *)
From S2P Require Import Prelude RustStd Interface Authenticators Fs KeyInfo OnDisk Provide.
From S2P Require Import CoreProvider Config ServiceBuilder.

(** A provider over a component [S] of the state [W]; it may read the rest of the
    state when a call starts. *)
Definition zoom_provide {W S} (get : W -> S) (put : S -> W -> W)
    (describe : Result (ProviderInfo * gset Opcode)) (p : W -> Provide S) : Provide W :=
  let z {A} (m : Provide S -> ST S ResponseStatus A) : ST W ResponseStatus A :=
    fun w => zoom get put (m (p w)) w in {|
  prov_describe := describe;
  prov_list_providers := z prov_list_providers;
  prov_list_opcodes id := z (fun p => prov_list_opcodes p id);
  prov_list_authenticators := z prov_list_authenticators;
  prov_list_keys a := z (fun p => prov_list_keys p a);
  prov_list_clients := z prov_list_clients;
  prov_delete_client c := z (fun p => prov_delete_client p c);
  prov_ping := z prov_ping;
  prov_psa_generate_key a op := z (fun p => prov_psa_generate_key p a op);
  prov_psa_import_key a op := z (fun p => prov_psa_import_key p a op);
  prov_psa_export_public_key a op := z (fun p => prov_psa_export_public_key p a op);
  prov_psa_export_key a op := z (fun p => prov_psa_export_key p a op);
  prov_psa_destroy_key a op := z (fun p => prov_psa_destroy_key p a op);
  prov_psa_sign_hash a op := z (fun p => prov_psa_sign_hash p a op);
  prov_psa_verify_hash a op := z (fun p => prov_psa_verify_hash p a op);
  prov_psa_asymmetric_encrypt a op := z (fun p => prov_psa_asymmetric_encrypt p a op);
  prov_psa_asymmetric_decrypt a op := z (fun p => prov_psa_asymmetric_decrypt p a op);
  prov_psa_aead_encrypt a op := z (fun p => prov_psa_aead_encrypt p a op);
  prov_psa_aead_decrypt a op := z (fun p => prov_psa_aead_decrypt p a op);
  prov_psa_hash_compute op := z (fun p => prov_psa_hash_compute p op);
  prov_psa_hash_compare op := z (fun p => prov_psa_hash_compare p op);
  prov_psa_raw_key_agreement a op := z (fun p => prov_psa_raw_key_agreement p a op);
  prov_psa_generate_random op := z (fun p => prov_psa_generate_random p op);
  prov_psa_sign_message a op := z (fun p => prov_psa_sign_message p a op);
  prov_psa_verify_message a op := z (fun p => prov_psa_verify_message p a op);
|}.

Lemma zoom_provide_call {W S} (get : W -> S) put d p a op w :
  provider_call (zoom_provide get put d p) a op w = zoom get put (provider_call (p w) a op) w.
Proof.
  destruct op; simpl; unfold zoom; run_unfold;
    match goal with |- context [let '(_, _) := ?m in _] => by destruct m as [[| |] ?] end.
Qed.

(** ** Where a provider lives *)
Definition no_manager : OnDiskKeyInfoManager := {| key_store := ∅; mappings_dir_path := [] |}.

(** The mappings of the manager [h]. *)
Definition manager_view {L} (h : nat) (w : World L) : gmap KeyTriple KeyInfo :=
  key_store (default no_manager (w_managers w !! h)).

(** A provider's state [S] is made of a manager with the disk and of the part [Q]
    of the libraries [L]. *)
Record residence (L S Q : Type) := {
  lib_get : L -> Q;
  lib_put : Q -> L -> L;
  make : OnDisk -> Q -> S;
  kim_of : S -> OnDisk;
  lib_of : S -> Q;
}.
Arguments lib_get {L S Q}.
Arguments lib_put {L S Q}.
Arguments make {L S Q}.
Arguments kim_of {L S Q}.
Arguments lib_of {L S Q}.

Class ResidenceLaws {L S Q} (r : residence L S Q) : Prop := {
  lib_get_put q l : lib_get r (lib_put r q l) = q;
  make_of s : make r (kim_of r s) (lib_of r s) = s;
  kim_of_make k q : kim_of r (make r k q) = k;
  lib_of_make k q : lib_of r (make r k q) = q;
}.

Section Residence.
Context {L S Q : Type} (r : residence L S Q).
Implicit Types (w : World L) (s : S) (h : nat).

Definition res_get h w : S :=
  make r {| od_manager := default no_manager (w_managers w !! h); od_disk := w_disk w |}
    (lib_get r (w_rest w)).
Definition res_put h s w : World L :=
  {| w_disk := od_disk (kim_of r s); w_managers := <[h := od_manager (kim_of r s)]> (w_managers w);
     w_global := w_global w; w_rest := lib_put r (lib_of r s) (w_rest w) |}.

(** The mappings of the provider's state. *)
Definition res_view s : gmap KeyTriple KeyInfo := key_store (od_manager (kim_of r s)).

Definition resident h (describe : Result (ProviderInfo * gset Opcode))
    (p : World L -> Provide S) : Provide (World L) :=
  zoom_provide (res_get h) (res_put h) describe p.

Context `{!ResidenceLaws r}.

Lemma res_get_put h s w : h < length (w_managers w) -> res_get h (res_put h s w) = s.
Proof.
  intros Hlen. unfold res_get, res_put. simpl. rewrite list_lookup_insert_eq by done. simpl.
  rewrite lib_get_put. transitivity (make r (kim_of r s) (lib_of r s)); [|apply make_of].
  by destruct (kim_of r s).
Qed.

Lemma res_view_get h w : res_view (res_get h w) = manager_view h w.
Proof. unfold res_view, res_get. by rewrite kim_of_make. Qed.

(** Writing back changes the mappings of no manager but outside those where the
    provider's own did not change. *)
Lemma manager_view_put P h h' s w :
  agree_off P (res_view s) (res_view (res_get h w)) ->
  agree_off P (manager_view h' (res_put h s w)) (manager_view h' w).
Proof.
  rewrite res_view_get. unfold manager_view, res_put. simpl. intros Hag.
  destruct (decide (h = h')) as [<-|Hne]; [|by rewrite list_lookup_insert_ne].
  destruct (decide (h < length (w_managers w))) as [Hlt|Hge].
  - by rewrite list_lookup_insert_eq.
  - by rewrite list_insert_ge by lia.
Qed.

Lemma resident_keeps_to id h h' d p :
  (forall w, keeps_to res_view id (p w)) -> keeps_to (manager_view h') id (resident h d p).
Proof.
  intros Hp a op w. unfold resident. rewrite zoom_provide_call. unfold zoom.
  specialize (Hp w a op (res_get h w)). destruct (provider_call _ a op (res_get h w)) as [x s'].
  simpl in *. by apply manager_view_put.
Qed.
End Residence.

(** ** Providers side by side *)

(** A kind of provider: where it lives, its identifier and its invariant. *)
Record member (L : Type) := {
  mb_id : ProviderId;
  mb_state : Type;
  mb_lib : Type;
  mb_res : residence L mb_state mb_lib;
  mb_inv : mb_state -> Prop;
}.
Arguments mb_id {L}.
Arguments mb_state {L}.
Arguments mb_lib {L}.
Arguments mb_res {L}.
Arguments mb_inv {L}.

(** The invariant speaks of the provider's own mappings and libraries only. *)
Record member_laws {L} (m : member L) : Prop := {
  ml_res :: ResidenceLaws (mb_res m);
  ml_local s s' : mb_inv m s ->
    (forall t, kt_provider_id t = mb_id m ->
       res_view (mb_res m) s' !! t = res_view (mb_res m) s !! t) ->
    lib_of (mb_res m) s' = lib_of (mb_res m) s -> mb_inv m s';
}.

(** Writing the libraries of [m2] leaves those of [m1] alone. *)
Definition apart {L} (m1 m2 : member L) : Prop :=
  forall q l, lib_get (mb_res m1) (lib_put (mb_res m2) q l) = lib_get (mb_res m1) l.

Section Residents.
Context {L : Type}.
Implicit Types (ms : list (member L * nat)) (w : World L).

(** Each member is on a manager that exists and its invariant holds there. *)
Definition residents_ok ms w : Prop := forall m h, (m, h) ∈ ms ->
  h < length (w_managers w) /\ mb_inv m (res_get (mb_res m) h w).

(** Writing back a state of [m] where its invariant holds and only mappings of its
    own have changed keeps what holds of the members. *)
Lemma resident_put m h s' w m' h' :
  member_laws m -> member_laws m' -> h < length (w_managers w) -> mb_inv m s' ->
  agree_off (fun t => kt_provider_id t = mb_id m) (res_view (mb_res m) s') (manager_view h w) ->
  m' = m /\ h' = h \/ mb_id m' <> mb_id m /\ apart m' m /\ h' < length (w_managers w) /\
    mb_inv m' (res_get (mb_res m') h' w) ->
  h' < length (w_managers (res_put (mb_res m) h s' w)) /\
    mb_inv m' (res_get (mb_res m') h' (res_put (mb_res m) h s' w)).
Proof.
  intros Hm Hm' Hlen Hinv Hag Hcase. pose proof (ml_res m Hm) as Hres.
  destruct Hcase as [[-> ->]|(Hne & Hapart & Hlen' & Hi')]; simpl; rewrite length_insert.
  - by rewrite res_get_put.
  - split; [done|]. pose proof (ml_res m' Hm') as Hres'. apply (ml_local m' Hm' _ _ Hi').
    + intros t Ht. rewrite !(res_view_get (mb_res m')).
      apply (manager_view_put (mb_res m) (fun t => kt_provider_id t = mb_id m)); [|congruence].
      by rewrite res_view_get.
    + unfold res_get at 1 2. rewrite !lib_of_make. simpl. apply Hapart.
Qed.

(** A provider that is safe alone and keeps to its own mappings is safe among
    others, whether they share a manager with it or not. *)
Lemma residents_safe ms m h d p :
  (m, h) ∈ ms ->
  (forall m' h', (m', h') ∈ ms -> member_laws m' /\
     (m' = m /\ h' = h \/ mb_id m' <> mb_id m /\ apart m' m)) ->
  (forall w, safe (mb_inv m) (p w)) -> (forall w, keeps_to (res_view (mb_res m)) (mb_id m) (p w)) ->
  safe (residents_ok ms) (resident (mb_res m) h d p).
Proof.
  intros Hin Hms Hsafe Hkeeps a op w Hok. unfold resident. rewrite zoom_provide_call. unfold zoom.
  destruct (Hok m h Hin) as [Hlen Hinv]. destruct (Hms m h Hin) as [Hm _].
  pose proof (ml_res m Hm) as Hres. specialize (Hsafe w a op (res_get (mb_res m) h w) Hinv).
  specialize (Hkeeps w a op (res_get (mb_res m) h w)).
  destruct (provider_call (p w) a op (res_get (mb_res m) h w)) as [x s']. simpl in *.
  destruct Hsafe as [Hinv' Hp]. split; [|done]. intros m' h' Hin'.
  destruct (Hok m' h' Hin') as [Hlen' Hi']. destruct (Hms m' h' Hin') as [Hm' Hcase].
  apply resident_put; try done.
  - rewrite <- (res_view_get (mb_res m)). intros t Ht. apply Hkeeps. by intros [? _].
  - destruct Hcase as [?|[? ?]]; [by left|by right].
Qed.
End Residents.
