(* ===== verification/ProviderState.v ===== *)
(** * What the hardware-backed providers share

    The state of such a provider is its key info manager and everything else (a
    device, a session, counters).  [steps] bounds how a computation changes the
    state and is proved by following the structure of the code ([steps_auto]);
    because only the manager holds mappings, it gives the isolation of a provider
    without any assumption on its device.  [mapped] is the shared invariant of
    mappings: every key of the provider has a readable identifier that is live,
    and no two keys have the same one. *)
From S2P Require Import Prelude RustStd Interface Authenticators KeyInfo Provide CoreProvider.

Record pstate (K D : Type) := { kim : K; dev : D }.
Arguments kim {K D}.
Arguments dev {K D}.

Definition on_kim {K D E A} (m : ST K E A) : ST (pstate K D) E A :=
  zoom kim (fun k s => {| kim := k; dev := dev s |}) m.
Definition on_dev {K D E A} (m : ST D E A) : ST (pstate K D) E A :=
  zoom dev (fun d s => {| kim := kim s; dev := d |}) m.

Lemma pstate_eta {K D} (s : pstate K D) : {| kim := kim s; dev := dev s |} = s.
Proof. by destruct s. Qed.

(** ** Bounding the change of the state *)
Definition steps {S E A} (R : S -> S -> Prop) (m : ST S E A) : Prop := forall s, R (m s).2 s.

Section Steps.
Context {S E : Type} (R : S -> S -> Prop) `{!PreOrder R}.

Lemma steps_ret {A} (a : A) : steps (E := E) R (mret a).
Proof. by intros s. Qed.
Lemma steps_raise {A} (e : E) : steps (A := A) R (raise e).
Proof. by intros s. Qed.
Lemma steps_panic {A} : steps (E := E) (A := A) R panic.
Proof. by intros s. Qed.
Lemma steps_lift {A} (r : result E A) : steps R (lift r).
Proof. by intros s. Qed.
Lemma steps_gets {A} (f : S -> A) : steps (E := E) R (gets f).
Proof. by intros s. Qed.
Lemma steps_bind {A B} (m : ST S E A) (k : A -> ST S E B) :
  steps R m -> (forall a, steps R (k a)) -> steps R (x ← m; k x).
Proof. intros Hm Hk s. apply bind_state; [done|apply Hm|intros a s1 _; apply Hk]. Qed.
Lemma steps_attempt {F A} (m : ST S E A) : steps R m -> steps (E := F) R (attempt m).
Proof. intros Hm s. specialize (Hm s). unfold attempt. by destruct (m s) as [[| |] ?]. Qed.
Lemma steps_on_err {F A} (f : E -> F) (m : ST S E A) : steps R m -> steps R (on_err f m).
Proof. intros Hm s. specialize (Hm s). unfold on_err. by destruct (m s). Qed.
Lemma steps_for_each {A} (l : list A) (body : A -> ST S E unit) :
  (forall x, steps R (body x)) -> steps R (for_each l body).
Proof.
  intros Hb s. apply (for_each_preserves l body (fun s' => R s' s)); [|done].
  intros x s' _ Hs'. etrans; [apply Hb|done].
Qed.
Lemma steps_fold_each {A B} (l : list A) (acc : B) (body : B -> A -> ST S E B) :
  (forall acc x, steps R (body acc x)) -> steps R (fold_each l acc body).
Proof.
  intros Hb s. apply (fold_each_preserves l acc body (fun s' => R s' s)); [|done].
  intros b x s' _ Hs'. etrans; [apply Hb|done].
Qed.
End Steps.

(** ** Mappings *)
Section Mappings.
Context {K D : Type} `{KimSpec K}.
Implicit Types (s : pstate K D) (t : KeyTriple) (c : KeyInfoManagerClient).

Definition mappings s : gmap KeyTriple KeyInfo := kim_view (kim s).

Lemma steps_dev {E A} P (m : ST D E A) : steps (keeps mappings P) (on_dev (K := K) m).
Proof. intros s. unfold on_dev, zoom. by destruct (m (dev s)). Qed.

Lemma steps_kim_read {E A} P (m : ST K E A) :
  (forall k, (m k).2 = k) -> steps (keeps mappings P) (on_kim (D := D) m).
Proof.
  intros Hm s. unfold on_kim, zoom, keeps, mappings. specialize (Hm (kim s)).
  destruct (m (kim s)) as [r k]. simpl in *. by subst.
Qed.

Lemma get_key_id_state T `{Bincode T} c t (k : K) : (get_key_id T c t k).2 = k.
Proof. by rewrite get_key_id_run. Qed.
Lemma get_key_attributes_state c t (k : K) : (get_key_attributes c t k).2 = k.
Proof. by rewrite get_key_attributes_run. Qed.
Lemma does_not_exist_state c t (k : K) : (does_not_exist c t k).2 = k.
Proof. by rewrite does_not_exist_run. Qed.
Lemma list_keys_state c a (k : K) : (KeyInfo.list_keys c a k).2 = k.
Proof. by destruct (list_keys_run c a k) as (l & -> & _). Qed.
Lemma list_clients_state c (k : K) : (KeyInfo.list_clients c k).2 = k.
Proof. by destruct (list_clients_run c k) as (l & -> & _). Qed.
Lemma get_all_run c (k : K) : exists l, get_all c k = (Ok l, k) /\ NoDup l /\
  forall t, t ∈ l <-> is_Some (kim_view k !! t) /\ kt_provider_id t = client_provider_id c.
Proof.
  destruct (kim_get_all_spec (client_provider_id c) k) as (l & Hl & Hin). exists l.
  unfold get_all. run_unfold. by rewrite Hl.
Qed.
Lemma get_all_state c (k : K) : (get_all c k).2 = k.
Proof. by destruct (get_all_run c k) as (l & -> & _). Qed.

Lemma steps_insert {T} `{Bincode T} (P : KeyTriple -> Prop) c t (id : T) attrs :
  P t -> steps (keeps mappings P) (on_kim (D := D) (insert_key_info c t id attrs)).
Proof.
  intros Ht s. unfold keeps, on_kim, zoom, mappings.
  destruct (bincode_serialize id) as [b|] eqn:Hb.
  - destruct (insert_key_info_cases c t id attrs (kim s) b Hb) as (k' & [[-> Hv]|[-> Hv]]);
      simpl; rewrite Hv; [done|by apply agree_off_insert].
  - unfold insert_key_info. run_unfold. by rewrite Hb.
Qed.

Lemma steps_remove (P : KeyTriple -> Prop) c t :
  P t -> steps (keeps mappings P) (on_kim (D := D) (remove_key_info c t)).
Proof.
  intros Ht s. unfold keeps, on_kim, zoom, mappings.
  destruct (remove_key_info_cases c t (kim s)) as (k' & [[-> Hv]|[-> Hv]]);
    simpl; rewrite Hv; [done|by apply agree_off_delete].
Qed.

(** The loop at the end of the providers' start-up. *)
Lemma remove_loop_spec {E} (f : ResponseStatus -> E) c rm : forall s,
  match for_each rm (fun t => on_err f (on_kim (remove_key_info c t))) s with
  | (Ok _, s') => dev s' = dev s /\ forall t, mappings s' !! t =
      if decide (t ∈ rm) then None else mappings s !! t
  | (Err _, s') => dev s' = dev s
  | (Panic, _) => False
  end.
Proof.
  induction rm as [|t rm IH]; intros s; cbn [for_each].
  - split; [done|]. intros t. case_decide as Ht; [by apply not_elem_of_nil in Ht|done].
  - unfold mbind at 1, ST_bind at 1. unfold on_kim at 1. run_unfold.
    destruct (remove_key_info_cases c t (kim s)) as (k1 & [[-> _]|[-> Hv1]]); [done|].
    destruct (kim_view (kim s) !! t); [|done]. simpl.
    specialize (IH {| kim := k1; dev := dev s |}). simpl in IH.
    destruct (for_each _ _ _) as [[u'|e|] s2]; [|done|done]. destruct IH as [Hd Hv].
    split; [done|]. intros t'. rewrite Hv. unfold mappings at 1. simpl. rewrite Hv1.
    destruct (decide (t = t')) as [->|Hne].
    + rewrite lookup_delete_eq, (decide_True (P := t' ∈ t' :: rm)) by left. by case_decide.
    + rewrite lookup_delete_ne by done. repeat case_decide; set_solver.
Qed.
End Mappings.

#[export] Hint Resolve get_key_id_state get_key_attributes_state does_not_exist_state
  list_keys_state list_clients_state get_all_state : parsec.

(** Follow the code down to the accesses of the state.  What is left are the
    calls of local definitions and the writes to the manager. *)
Ltac steps_auto :=
  repeat match goal with
  | |- forall _, _ => intros ?
  | |- steps _ (mret _) => apply steps_ret; apply _
  | |- steps _ (raise _) => apply steps_raise; apply _
  | |- steps _ panic => apply steps_panic; apply _
  | |- steps _ (lift _) => apply steps_lift; apply _
  | |- steps _ (gets _) => apply steps_gets; apply _
  | |- steps _ (mbind _ _) => apply steps_bind; [apply _| |]
  | |- steps _ (attempt _) => apply steps_attempt
  | |- steps _ (on_err _ _) => apply steps_on_err
  | |- steps _ (for_each _ _) => apply steps_for_each; [apply _|]
  | |- steps _ (fold_each _ _ _) => apply steps_fold_each; [apply _|]
  | |- steps _ (on_dev _) => apply steps_dev
  | |- steps _ (on_kim (insert_key_info _ _ _ _)) => apply steps_insert; try done
  | |- steps _ (on_kim (remove_key_info _ _)) => apply steps_remove; try done
  | |- steps _ (on_kim _) => apply steps_kim_read; by auto with parsec
  | |- steps _ (match ?x with _ => _ end) => destruct x
  | |- steps _ _ => solve [auto with parsec]
  end.

(** ** Computations that also do not panic *)
Definition calm {S E A} (R : S -> S -> Prop) (m : ST S E A) : Prop :=
  forall s, R (m s).2 s /\ (m s).1 <> Panic.

Section Calm.
Context {S E : Type} (R : S -> S -> Prop) `{!PreOrder R}.

Lemma calm_steps {A} (m : ST S E A) : calm R m -> steps R m.
Proof. intros Hm s. apply Hm. Qed.
Lemma calm_ret {A} (a : A) : calm (E := E) R (mret a).
Proof. by intros s. Qed.
Lemma calm_raise {A} (e : E) : calm (A := A) R (raise e).
Proof. by intros s. Qed.
Lemma calm_lift {A} (r : result E A) : r <> Panic -> calm R (lift r).
Proof. by intros Hr s. Qed.
Lemma calm_bind {A B} (m : ST S E A) (k : A -> ST S E B) :
  calm R m -> (forall a, calm R (k a)) -> calm R (x ← m; k x).
Proof.
  intros Hm Hk s. destruct (Hm s) as [Hs Hp]. run_unfold.
  destruct (m s) as [[a| |] s1]; simpl in *; [|done|done].
  destruct (Hk a s1). split; [by etrans|done].
Qed.
Lemma calm_try {F A B} (m : ST S F A) (k : result F A -> ST S E B) :
  calm R m -> (forall a, calm R (k (Ok a))) -> (forall e, calm R (k (Err e))) ->
  calm R (r ← attempt m; k r).
Proof.
  intros Hm Hk He s. destruct (Hm s) as [Hs Hp]. run_unfold.
  destruct (m s) as [[a|e|] s1]; simpl in *; [| |done].
  - destruct (Hk a s1). split; [by etrans|done].
  - destruct (He e s1). split; [by etrans|done].
Qed.
Lemma calm_on_err {F A} (f : E -> F) (m : ST S E A) : calm R m -> calm R (on_err f m).
Proof.
  intros Hm s. destruct (Hm s) as [Hs Hp]. unfold on_err. by destruct (m s) as [[| |] ?].
Qed.
Lemma calm_safe {A} (I : S -> Prop) (m : ST S E A) :
  (forall s s', I s -> R s' s -> I s') -> calm R m -> safe_in I m.
Proof. intros HI Hm s Hs. destruct (Hm s). split; [by eapply HI|done]. Qed.
End Calm.

(** Reading the manager. *)
Section CalmKim.
Context {K D : Type} `{KimSpec K} (R : pstate K D -> pstate K D -> Prop) `{!PreOrder R}.

Lemma calm_kim {E A} (m : ST K E A) :
  (forall k, (m k).2 = k /\ (m k).1 <> Panic) -> calm R (on_kim m).
Proof.
  intros Hm s. destruct (Hm (kim s)) as [Hk Hp]. unfold on_kim, zoom.
  destruct (m (kim s)) as [r k]. simpl in *. subst. by rewrite pstate_eta.
Qed.
Lemma calm_get_key_id T `{Bincode T} c t : calm R (on_kim (get_key_id T c t)).
Proof.
  apply calm_kim. intros k. rewrite get_key_id_run. split; [done|]. simpl.
  destruct (kim_view k !! t); [|done]. by destruct (bincode_deserialize _).
Qed.
Lemma calm_get_key_attributes c t : calm R (on_kim (get_key_attributes c t)).
Proof.
  apply calm_kim. intros k. rewrite get_key_attributes_run. split; [done|]. simpl.
  by destruct (kim_view k !! t).
Qed.
Lemma calm_does_not_exist c t : calm R (on_kim (does_not_exist c t)).
Proof.
  apply calm_kim. intros k. rewrite does_not_exist_run. split; [done|]. simpl.
  by destruct (kim_view k !! t).
Qed.
Lemma calm_list_keys c a : calm R (on_kim (KeyInfo.list_keys c a)).
Proof. apply calm_kim. intros k. by destruct (list_keys_run c a k) as (l & -> & _). Qed.
Lemma calm_list_clients c : calm R (on_kim (KeyInfo.list_clients c)).
Proof. apply calm_kim. intros k. by destruct (list_clients_run c k) as (l & -> & _). Qed.
End CalmKim.
#[export] Hint Resolve calm_get_key_id calm_get_key_attributes calm_does_not_exist
  calm_list_keys calm_list_clients : parsec.

(** Follow the code; what is left are the calls of the device and the results of
    pure code. *)
Ltac calm_auto :=
  repeat match goal with
  | |- forall _, _ => intros ?
  | |- calm _ (mret _) => apply calm_ret; apply _
  | |- calm _ (raise _) => apply calm_raise; apply _
  | |- calm _ (lift _) => apply calm_lift; [apply _|]
  | |- calm _ (mbind _ (attempt _)) => apply calm_try; [apply _| | |]
  | |- calm _ (mbind _ _) => apply calm_bind; [apply _| |]
  | |- calm _ (on_err _ _) => apply calm_on_err
  | |- calm _ (on_kim _) => solve [auto with parsec typeclass_instances]
  | |- calm _ (match ?x with _ => _ end) => destruct x
  | |- calm _ _ => solve [auto with parsec]
  end.

(** ** The invariant of mappings *)
Section Mapped.
Context {T : Type} `{Bincode T} `{!BincodeLaws T}.
Implicit Types (m : gmap KeyTriple KeyInfo) (p : ProviderId) (live : T -> Prop).

Definition id_of (i : KeyInfo) : option T := bincode_deserialize (ki_id i).

Record mapped p live m : Prop := {
  mp_ids t i : m !! t = Some i -> kt_provider_id t = p -> exists id, id_of i = Some id /\ live id;
  mp_distinct t1 t2 i1 i2 id : m !! t1 = Some i1 -> m !! t2 = Some i2 ->
    kt_provider_id t1 = p -> kt_provider_id t2 = p ->
    id_of i1 = Some id -> id_of i2 = Some id -> t1 = t2;
}.

(** An identifier that some key of the provider has. *)
Definition used p m (id : T) : Prop :=
  exists t i, m !! t = Some i /\ kt_provider_id t = p /\ id_of i = Some id.

Lemma used_live p live m id : mapped p live m -> used p m id -> live id.
Proof.
  intros Hm (t & i & Ht & Hp & Hi). destruct (mp_ids _ _ _ Hm t i Ht Hp) as (id' & ? & ?).
  by simplify_eq.
Qed.

Lemma mapped_mono p live live' m :
  mapped p live m -> (forall id, used p m id -> live id -> live' id) -> mapped p live' m.
Proof.
  intros [Hi Hd] Hl. split; [|done]. intros t i Ht Hp. destruct (Hi t i Ht Hp) as (id & ? & ?).
  exists id. split; [done|]. apply Hl; [by exists t, i|done].
Qed.

Lemma mapped_insert p live m t id b attrs :
  mapped p live m -> bincode_serialize id = Some b -> ~ used p m id -> live id ->
  mapped p live (<[t := {| ki_id := b; ki_attributes := attrs |}]> m).
Proof.
  intros [Hi Hd] Hb Hfresh Hl. apply bincode_round in Hb.
  assert (Hnew : id_of {| ki_id := b; ki_attributes := attrs |} = Some id) by exact Hb.
  split.
  - intros t' i' [[<- <-]|[_ Ht']]%lookup_insert_Some Hp; [by exists id|by eapply Hi].
  - intros t1 t2 i1 i2 id' [[<- <-]|[Hne1 Ht1]]%lookup_insert_Some
      [[<- <-]|[Hne2 Ht2]]%lookup_insert_Some Hp1 Hp2 H1' H2'; [done| | |by eapply Hd].
    + exfalso. apply Hfresh. exists t2, i2. rewrite Hnew in H1'. simplify_eq. done.
    + exfalso. apply Hfresh. exists t1, i1. rewrite Hnew in H2'. simplify_eq. done.
Qed.

Lemma mapped_delete p live m t : mapped p live m -> mapped p live (delete t m).
Proof.
  intros [Hi Hd]. split.
  - intros t' i' [_ Ht']%lookup_delete_Some. by apply Hi.
  - intros t1 t2 i1 i2 id [_ Ht1]%lookup_delete_Some [_ Ht2]%lookup_delete_Some. by apply Hd.
Qed.

(** With its mapping gone, an identifier is not used any more. *)
Lemma delete_unused p live m t i id :
  mapped p live m -> m !! t = Some i -> kt_provider_id t = p -> id_of i = Some id ->
  ~ used p (delete t m) id.
Proof.
  intros Hm Ht Hp Hid (t' & i' & [Hne Ht']%lookup_delete_Some & Hp' & Hid').
  apply Hne. by apply (mp_distinct _ _ _ Hm t t' i i' id).
Qed.

(** Mappings of other providers do not matter. *)
Lemma mapped_sub p live m m' :
  mapped p live m ->
  (forall t i, m' !! t = Some i -> kt_provider_id t = p -> m !! t = Some i) -> mapped p live m'.
Proof.
  intros [Hi Hd] Hsub. split; [intros t i Ht Hp; apply (Hi t i); auto|].
  intros t1 t2 i1 i2 id Ht1 Ht2 Hp1 Hp2. apply Hd; auto.
Qed.
End Mapped.
