(* ===== verification/TrustedService.v ===== *)
(** * The Trusted Service provider ([src/providers/trusted_service])

    The provider talks to a crypto service in the secure world over an RPC layer.
    The C functions of the layer are the class [RpcCaller] over its state [R]; a
    pointer is an [option], [None] being null.  The Protobuf messages and their
    codecs are generated from the service's definitions and the numeric encodings
    are those of [psa_crypto]: the classes [TsProtobuf] and [PsaTypes]. *)
From S2P Require Import Prelude RustStd Interface Authenticators KeyInfo Provide CoreProvider.
From S2P Require Import ProviderState Mbed.

(** ** What the provider is written against *)
Class PsaTypes := {
  (** [ResponseStatus::from] on an error of [psa_crypto] *)
  psa_error_status : psa_error -> ResponseStatus;
  (** [Status::from(i32).to_result()]: [None] is success *)
  psa_status_from : Z -> option psa_error;
  psa_key_id_user_min : Z;
  psa_key_id_user_max : Z;
  (** [u16::try_from(key_type)], [UsageFlags -> u32], [Algorithm -> u32] *)
  key_type_u16 : KeyType -> result psa_error Z;
  usage_flags_u32 : UsageFlags -> Z;
  algorithm_u32 : Algorithm -> result psa_error Z;
  asym_signature_u32 : AsymmetricSignature -> result psa_error Z;
}.

Record KeyAttributes := { ka_type : Z; ka_key_bits : Z; ka_lifetime : Z; ka_id : Z;
  ka_usage : Z; ka_alg : Z }.
Inductive TsRequest :=
  | GenerateKeyIn (attributes : KeyAttributes)
  | ImportKeyIn (attributes : KeyAttributes) (data : bytes)
  | ExportPublicKeyIn (id : Z)
  | DestroyKeyIn (id : Z)
  | SignHashIn (id : Z) (hash : bytes) (alg : Z)
  | VerifyHashIn (id : Z) (hash signature : bytes) (alg : Z).
Inductive TsOpcode := TsGenerateKey | TsDestroyKey | TsSignHash | TsVerifyHash | TsImportKey
  | TsExportPublicKey.

(** [Message::merge] into a default message of the type. *)
Class Message (T : Type) := merge : bytes -> option T.
Record SignHashOut := { sho_signature : bytes }.
Record DestroyKeyOut := {}.

Class TsProtobuf := {
  opcode_i32 : TsOpcode -> Z;
  KeyLifetime_Persistent : Z;
  encoded_len : TsRequest -> nat;
  (** [Message::encode] into a buffer of the given capacity *)
  encode : TsRequest -> nat -> option bytes;
  unit_message :: Message unit;
  bytes_message :: Message bytes;
  SignHashOut_message :: Message SignHashOut;
  DestroyKeyOut_message :: Message DestroyKeyOut;
}.

(** The [GetOpcode] implementations. *)
Definition ts_opcode (req : TsRequest) : TsOpcode :=
  match req with
  | GenerateKeyIn _ => TsGenerateKey | DestroyKeyIn _ => TsDestroyKey
  | SignHashIn _ _ _ => TsSignHash | VerifyHashIn _ _ _ _ => TsVerifyHash
  | ImportKeyIn _ _ => TsImportKey | ExportPublicKeyIn _ => TsExportPublicKey
  end.

Class RpcCaller (R : Type) := {
  TS_RPC_ENCODING_PROTOBUF : Z;
  service_locator_init : R -> R;
  (** the service context and the status written through [&mut status] *)
  service_locator_query : string -> R -> (option Z * Z) * R;
  (** the session handle and the caller written through [&mut rpc_caller] *)
  service_context_open : Z -> Z -> R -> (option Z * option Z) * R;
  service_context_close : Z -> Z -> R -> R;
  service_context_relinquish : Z -> R -> R;
  (** the call handle and whether the buffer is not null *)
  rpc_caller_begin : Z -> nat -> R -> (option Z * bool) * R;
  (** status, opstatus and the response buffer *)
  rpc_caller_invoke : Z -> Z -> Z -> bytes -> R -> (Z * Z * bytes) * R;
  rpc_caller_end : Z -> Z -> R -> R;
}.

(** ** Errors *)
Inductive RpcCallerError :=
  | EndpointDoesNotExist | InvalidOpcode | SerializationNotSupported | InvalidRequestBody
  | InvalidResponseBody | ResourceFailure | NotReady | InvalidTransaction | Internal
  | InvalidParameter.
Inductive WrapperError := CallHandleNull | CallBufferNull | FailedPbConversion | InvalidParam.
Inductive TsError :=
  | PsaCrypto_error (e : psa_error) | RpcCaller_error (e : RpcCallerError)
  | Wrapper_error (e : WrapperError).

(** [From<i32> for RpcCallerError] *)
Definition rpc_caller_error_from (e : Z) : RpcCallerError :=
  match e with
  | (-1)%Z => EndpointDoesNotExist
  | (-2)%Z => InvalidOpcode
  | (-3)%Z => SerializationNotSupported
  | (-4)%Z => InvalidRequestBody
  | (-5)%Z => InvalidResponseBody
  | (-6)%Z => ResourceFailure
  | (-7)%Z => NotReady
  | (-8)%Z => InvalidTransaction
  | (-9)%Z => Internal
  | (-10)%Z => InvalidParameter
  | _ => Internal
  end.

(** [From<PsaError>], [From<RpcCallerError>], [From<WrapperError>],
    [From<Infallible>] and [From<TryFromIntError>] for [Error] *)
Definition from_psa_error (error : psa_error) : TsError := PsaCrypto_error error.
Definition from_rpc_caller_error (error : RpcCallerError) : TsError := RpcCaller_error error.
Definition from_wrapper_error (error : WrapperError) : TsError := Wrapper_error error.
Definition from_infallible {A} (_ : Empty_set) : result TsError A := Panic.
Definition from_try_from_int_error : TsError := Wrapper_error InvalidParam.

(** [Display] for the errors, which is how they appear in the log; the errors of
    [psa_crypto] are rendered by that library. *)
Definition rpc_caller_error_fmt (error : RpcCallerError) : string :=
  match error with
  | EndpointDoesNotExist => "endpoint for connecting to Trusted Services does not exist"
  | InvalidOpcode => "opcode provided for call was invalid"
  | SerializationNotSupported =>
    "serialization of requested kind is not supported for the given message"
  | InvalidRequestBody => "provided request body was invalid"
  | InvalidResponseBody => "response body received from Trusted Service was invalid"
  | ResourceFailure => "failed to access or use resource"
  | NotReady => "RPC layer was not ready for an operation"
  | InvalidTransaction => "transaction handle was invalid"
  | Internal => "internal RPC caller error"
  | InvalidParameter => "call contained an invalid parameter"
  end.
Definition wrapper_error_fmt (error : WrapperError) : string :=
  match error with
  | CallHandleNull => "call handle returned by RPC layer was null"
  | CallBufferNull => "call buffer returned by RPC layer was null"
  | FailedPbConversion => "serialization or deserialization of protobuf message failed"
  | InvalidParam => "a parameter passed to the function was invalid"
  end.
Definition error_fmt (psa_error_fmt : psa_error -> string) (error : TsError) : string :=
  match error with
  | PsaCrypto_error e => psa_error_fmt e
  | Wrapper_error e => wrapper_error_fmt e
  | RpcCaller_error e => rpc_caller_error_fmt e
  end.

(** [ErrorTrait::source]: the error inside, which is one of three types. *)
Definition error_source (error : TsError) : option (psa_error + RpcCallerError + WrapperError) :=
  match error with
  | PsaCrypto_error e => Some (inl (inl e))
  | Wrapper_error e => Some (inr e)
  | RpcCaller_error e => Some (inl (inr e))
  end.

Module TsContext.
(** The pointers of [Context]; the mutex is free when a call starts. *)
Record Context := { rpc_caller : Z; service_context : Z; rpc_session_handle : Z }.

Section Calls.
Context {R : Type} `{PsaTypes} `{TsProtobuf} `{RpcCaller R}.
Implicit Types (self : Context) (req : TsRequest).

(** A call of the C layer. *)
Definition c_call {E A} (f : R -> A * R) : ST R E A := fun r => let '(a, r') := f r in (Ok a, r').
Definition c_do {E} (f : R -> R) : ST R E unit := modify f.

Definition from_status_opstatus (status opstatus : Z) : result TsError unit :=
  if (negb (opstatus =? 0))%Z then
    match psa_status_from opstatus with
    | Some error => Err (PsaCrypto_error error)
    | None => Panic
    end
  else if (negb (status =? 0))%Z then Err (RpcCaller_error (rpc_caller_error_from status))
  else Ok tt.

Definition connect : ST R string Context :=
  c_do service_locator_init ;;
  '(service_context, status) ← c_call (service_locator_query "sn:trustedfirmware.org:crypto:0");
  match service_context with
  | None => raise "Failed to obtain a Trusted Service context"
  | Some service_context =>
    if (negb (status =? 0))%Z then raise "Failed to connect to Trusted Service"
    else
      '(rpc_session_handle, rpc_caller) ←
        c_call (service_context_open service_context TS_RPC_ENCODING_PROTOBUF);
      match rpc_caller, rpc_session_handle with
      | Some rpc_caller, Some rpc_session_handle =>
        mret {| rpc_caller := rpc_caller; service_context := service_context;
                rpc_session_handle := rpc_session_handle |}
      | _, _ => raise "Failed to start Trusted Service context"
      end
  end.

(** [Drop for Context] *)
Definition drop self : ST R string unit :=
  c_do (service_context_close (service_context self) (rpc_session_handle self)) ;;
  c_do (service_context_relinquish (service_context self)).

(** [map_err] with a clean-up. *)
Definition or_end {A} self (call_handle : Z) (r : result TsError A) : ST R TsError A :=
  match r with
  | Err e => c_do (rpc_caller_end (rpc_caller self) call_handle) ;; raise e
  | _ => lift r
  end.

Definition send_request (T : Type) `{Message T} self req : ST R TsError T :=
  '(call_handle, buf_out) ← c_call (rpc_caller_begin (rpc_caller self) (encoded_len req));
  match call_handle with
  | None => raise (Wrapper_error CallHandleNull)
  | Some call_handle =>
    if negb buf_out then raise (Wrapper_error CallBufferNull)
    else
      buf_out ← or_end self call_handle
        (ok_or (encode req (encoded_len req)) (Wrapper_error FailedPbConversion));
      let opcode := opcode_i32 (ts_opcode req) in
      if (opcode <? 0)%Z then panic
      else
        '(status, opstatus, resp_buf) ←
          c_call (rpc_caller_invoke (rpc_caller self) call_handle opcode buf_out);
        or_end self call_handle (from_status_opstatus status opstatus) ;;
        resp ← or_end self call_handle
          (ok_or (merge resp_buf) (Wrapper_error FailedPbConversion));
        c_do (rpc_caller_end (rpc_caller self) call_handle) ;;
        mret resp
  end.

(** The attributes as sent: the key is persistent whatever its lifetime. *)
Definition key_attributes (key_attrs : Attributes) (id : Z) : result TsError KeyAttributes :=
  type ← map_err from_psa_error (key_type_u16 (key_type key_attrs));
  key_bits ← (if (bits key_attrs <? 2 ^ 32)%Z then Ok (bits key_attrs)
              else Err from_try_from_int_error);
  alg ← map_err from_psa_error (algorithm_u32 (permitted_algorithms (policy key_attrs)));
  Ok {| ka_type := type; ka_key_bits := key_bits; ka_lifetime := KeyLifetime_Persistent;
        ka_id := id; ka_usage := usage_flags_u32 (usage_flags (policy key_attrs));
        ka_alg := alg |}.

Definition generate_key self (key_attrs : Attributes) (id : Z) : ST R TsError unit :=
  attributes ← lift (key_attributes key_attrs id);
  send_request unit self (GenerateKeyIn attributes) ;;
  mret tt.

Definition import_key self (key_attrs : Attributes) (id : Z) (key_data : bytes)
    : ST R TsError unit :=
  attributes ← lift (key_attributes key_attrs id);
  send_request unit self (ImportKeyIn attributes key_data) ;;
  mret tt.

Definition export_public_key self (id : Z) : ST R TsError bytes :=
  send_request bytes self (ExportPublicKeyIn id).

Definition destroy_key self (key_id : Z) : ST R TsError unit :=
  send_request DestroyKeyOut self (DestroyKeyIn key_id) ;;
  mret tt.

Definition sign_hash self (key_id : Z) (hash : bytes) (algorithm : AsymmetricSignature)
    : ST R TsError bytes :=
  alg ← lift (map_err from_psa_error (asym_signature_u32 algorithm));
  out ← send_request SignHashOut self (SignHashIn key_id hash alg);
  mret (sho_signature out).

Definition verify_hash self (key_id : Z) (hash signature : bytes)
    (algorithm : AsymmetricSignature) : ST R TsError unit :=
  alg ← lift (map_err from_psa_error (asym_signature_u32 algorithm));
  send_request unit self (VerifyHashIn key_id hash signature alg) ;;
  mret tt.
End Calls.
End TsContext.

Module TsProvider.
Definition SUPPORTED_OPCODES : list Opcode :=
  [ OpPsaDestroyKey; OpPsaGenerateKey; OpPsaSignHash; OpPsaVerifyHash; OpPsaImportKey;
    OpPsaExportPublicKey ].

(** [From<RpcCallerError>], [From<WrapperError>] and [From<Error>] for
    [ResponseStatus] *)
Definition rpc_caller_status (error : RpcCallerError) : ResponseStatus :=
  match error with
  | InvalidRequestBody => PsaErrorInvalidArgument
  | EndpointDoesNotExist | InvalidOpcode | SerializationNotSupported | ResourceFailure
  | NotReady | InvalidTransaction | Internal | InvalidResponseBody | InvalidParameter =>
    PsaErrorCommunicationFailure
  end.
Definition wrapper_status (error : WrapperError) : ResponseStatus :=
  match error with
  | CallBufferNull | CallHandleNull | FailedPbConversion | InvalidParam =>
    PsaErrorCommunicationFailure
  end.
Definition ts_status `{PsaTypes} (error : TsError) : ResponseStatus :=
  match error with
  | PsaCrypto_error e => psa_error_status e
  | RpcCaller_error e => rpc_caller_status e
  | Wrapper_error e => wrapper_status e
  end.

Record Provider := { context : TsContext.Context; key_info_store : KeyInfoManagerClient }.
(** The RPC layer and the counter of identifiers. *)
Record device (R : Type) := { rpc : R; id_counter : Z }.
Arguments rpc {R}.
Arguments id_counter {R}.

Section Ts.
Context {K R : Type} `{ManageKeyInfo K} `{PsaTypes} `{TsProtobuf} `{RpcCaller R} `{Bincode Z}.
Implicit Types (self : Provider) (app_name : ApplicationName).
Abbreviation M A := (ST (pstate K (device R)) ResponseStatus A).

Definition on_rpc {E A} (m : ST R E A) : ST (pstate K (device R)) E A :=
  on_dev (zoom rpc (fun r d => {| rpc := r; id_counter := id_counter d |}) m).
Definition on_counter {E A} (m : ST Z E A) : ST (pstate K (device R)) E A :=
  on_dev (zoom id_counter (fun n d => {| rpc := rpc d; id_counter := n |}) m).

(** [create_key_id], over the atomic counter *)
Definition create_key_id : ST Z ResponseStatus Z :=
  old ← gets id;
  modify (fun n => u32_wrap (n + 1)) ;;
  let new_key_id := u32_wrap (old + 1) in
  if (psa_key_id_user_max <? new_key_id)%Z then
    modify (fun _ => psa_key_id_user_max) ;;
    raise PsaErrorInsufficientMemory
  else mret new_key_id.

Definition triple app_name (key_name : string) : KeyTriple :=
  KeyTriple_new app_name TrustedService key_name.

(** The [match] on the created key that ends [psa_generate_key_internal] and
    [psa_import_key_internal]. *)
Definition create_and_store self (key_triple : KeyTriple) (attrs : Attributes) (key_id : Z)
    (make : ST R TsError unit) : M unit :=
  r ← attempt (on_rpc make);
  match r with
  | Ok _ =>
    r ← attempt (on_kim (insert_key_info (key_info_store self) key_triple key_id attrs));
    match r with
    | Err e =>
      attempt (F := ResponseStatus) (on_rpc (TsContext.destroy_key (context self) key_id)) ;;
      raise e
    | Ok _ => mret tt
    | Panic => panic
    end
  | Err error => raise (ts_status error)
  | Panic => panic
  end.

Definition psa_generate_key_internal self app_name (op : GenerateKeyOp) : M unit :=
  let key_triple := triple app_name (gk_key_name op) in
  on_kim (does_not_exist (key_info_store self) key_triple) ;;
  key_id ← on_counter create_key_id;
  create_and_store self key_triple (gk_attributes op) key_id
    (TsContext.generate_key (context self) (gk_attributes op) key_id).

Definition psa_import_key_internal self app_name (op : ImportKeyOp) : M unit :=
  let key_triple := triple app_name (ik_key_name op) in
  on_kim (does_not_exist (key_info_store self) key_triple) ;;
  key_id ← on_counter create_key_id;
  create_and_store self key_triple (ik_attributes op) key_id
    (TsContext.import_key (context self) (ik_attributes op) key_id (ik_data op)).

Definition psa_export_public_key_internal self app_name (key_name : string) : M bytes :=
  key_id ← on_kim (get_key_id Z (key_info_store self) (triple app_name key_name));
  on_err ts_status (on_rpc (TsContext.export_public_key (context self) key_id)).

Definition psa_destroy_key_internal self app_name (key_name : string) : M unit :=
  let key_triple := triple app_name key_name in
  key_id ← on_kim (get_key_id Z (key_info_store self) key_triple);
  on_kim (remove_key_info (key_info_store self) key_triple) ;;
  on_err ts_status (on_rpc (TsContext.destroy_key (context self) key_id)).

Definition psa_sign_hash_internal self app_name (op : SignHashOp) : M bytes :=
  key_id ← on_kim (get_key_id Z (key_info_store self) (triple app_name (sh_key_name op)));
  on_err ts_status (on_rpc (TsContext.sign_hash (context self) key_id (sh_hash op) (sh_alg op))).

Definition psa_verify_hash_internal self app_name (op : VerifyHashOp) : M unit :=
  key_id ← on_kim (get_key_id Z (key_info_store self) (triple app_name (vh_key_name op)));
  on_err ts_status
    (on_rpc (TsContext.verify_hash (context self) key_id (vh_hash op) (vh_signature op) (vh_alg op))).

(** ** Start-up *)

(** One turn of the loop over the stored triples. *)
Definition check_stored (c : KeyInfoManagerClient) (acc : Z * list KeyTriple)
    (key_triple : KeyTriple) : ST (pstate K (device R)) string (Z * list KeyTriple) :=
  let '(max_key_id, to_remove) := acc in
  r ← attempt (on_kim (get_key_id Z c key_triple));
  match r with
  | Err _ => mret (max_key_id, to_remove ++ [key_triple])
  | Ok key_id => mret (if (max_key_id <? key_id)%Z then key_id else max_key_id, to_remove)
  | Panic => panic
  end.

(** [Provider::new]; a provider that is dropped on an error closes its context. *)
Definition new (c : KeyInfoManagerClient) : ST (pstate K (device R)) string Provider :=
  context ← on_rpc TsContext.connect;
  on_counter (modify (fun _ => psa_key_id_user_min)) ;;
  r ← attempt (F := string) (
    key_triples ← on_err (fun _ => "key info manager"%string) (on_kim (get_all c));
    '(max_key_id, to_remove) ← fold_each key_triples (psa_key_id_user_min, []) (check_stored c);
    for_each to_remove (fun key_triple =>
      on_err (fun _ => "key info manager"%string) (on_kim (remove_key_info c key_triple))) ;;
    on_counter (modify (fun _ => max_key_id)));
  match r with
  | Ok _ => mret {| context := context; key_info_store := c |}
  | Err e => on_rpc (TsContext.drop context) ;; raise e
  | Panic => panic
  end.

(** ** The builder *)
Record ProviderBuilder := { b_key_info_store : option KeyInfoManagerClient }.
Definition ProviderBuilder_new : ProviderBuilder := {| b_key_info_store := None |}.
Definition with_key_info_store (c : KeyInfoManagerClient) (b : ProviderBuilder) : ProviderBuilder :=
  {| b_key_info_store := Some c |}.

Definition build (b : ProviderBuilder) : ST (pstate K (device R)) string Provider :=
  c ← lift (ok_or (b_key_info_store b) "missing key info store");
  new c.

(** ** The trait *)
Definition describe (parse_uuid : string -> option string)
    : Result (ProviderInfo * gset Opcode) :=
  uuid ← ok_or (parse_uuid "71129441-508a-4da6-b6e8-7b98a777e4c0") InvalidEncoding;
  Ok ({| pi_uuid := uuid;
         pi_description := "Provider exposing functionality provided by the Crypto Trusted Service running in a Trusted Execution Environment";
         pi_vendor := "Arm"; pi_version_maj := 0; pi_version_min := 1; pi_version_rev := 0;
         pi_id := TrustedService |}, list_to_set SUPPORTED_OPCODES).

Definition list_keys self app_name : M (list ListedKey) :=
  on_kim (KeyInfo.list_keys (key_info_store self) app_name).

Definition list_clients self : M (list string) :=
  clients ← on_kim (KeyInfo.list_clients (key_info_store self));
  mret (app_name_string <$> clients).

Definition provide (parse_uuid : string -> option string) self : Provide (pstate K (device R)) := {|
  prov_describe := describe parse_uuid;
  prov_list_providers := DefaultMethods.list_providers;
  prov_list_opcodes := DefaultMethods.list_opcodes;
  prov_list_authenticators := DefaultMethods.list_authenticators;
  prov_list_keys := list_keys self;
  prov_list_clients := list_clients self;
  prov_delete_client := DefaultMethods.delete_client;
  prov_ping := DefaultMethods.ping;
  prov_psa_generate_key := psa_generate_key_internal self;
  prov_psa_import_key := psa_import_key_internal self;
  prov_psa_export_public_key := psa_export_public_key_internal self;
  prov_psa_export_key := DefaultMethods.psa_export_key;
  prov_psa_destroy_key := psa_destroy_key_internal self;
  prov_psa_sign_hash := psa_sign_hash_internal self;
  prov_psa_verify_hash := psa_verify_hash_internal self;
  prov_psa_asymmetric_encrypt := DefaultMethods.psa_asymmetric_encrypt;
  prov_psa_asymmetric_decrypt := DefaultMethods.psa_asymmetric_decrypt;
  prov_psa_aead_encrypt := DefaultMethods.psa_aead_encrypt;
  prov_psa_aead_decrypt := DefaultMethods.psa_aead_decrypt;
  prov_psa_hash_compute := DefaultMethods.psa_hash_compute;
  prov_psa_hash_compare := DefaultMethods.psa_hash_compare;
  prov_psa_raw_key_agreement := DefaultMethods.psa_raw_key_agreement;
  prov_psa_generate_random := DefaultMethods.psa_generate_random;
  prov_psa_sign_message := DefaultMethods.psa_sign_message;
  prov_psa_verify_message := DefaultMethods.psa_verify_message;
|}.
End Ts.
End TsProvider.
