(* ===== verification/TrustedServiceSpec.v ===== *)
(** * Correctness of the Trusted Service provider

    Proved for any RPC layer with the documented effect on calls and on the keys
    of the service ([TsLaws]) and any key info manager ([KimSpec]). *)
From S2P Require Import Prelude RustStd Interface Authenticators Fs KeyInfo OnDisk Concrete Provide.
From S2P Require Import CoreProvider ProviderState Mbed MbedSpec Scenario TrustedService.
Import TsContext.
Import TsProvider.

(** What a request does to the keys of the service, given whether the service
    and the transport reported success; after an error the request may or may not
    have been carried out. *)
Definition ts_effect (req : TsRequest) (done : bool) (k k' : gset Z) : Prop :=
  match req with
  | GenerateKeyIn a | ImportKeyIn a _ =>
    if done then (ka_id a ∉ k) /\ k' = {[ka_id a]} ∪ k else k' = k \/ k' = {[ka_id a]} ∪ k
  | DestroyKeyIn id => if done then k' = k ∖ {[id]} else k' = k \/ k' = k ∖ {[id]}
  | _ => k' = k
  end.

Class TsLaws (R : Type) `{PsaTypes} `{TsProtobuf} `{RpcCaller R} := {
  ts_keys : R -> gset Z;
  (** the calls begun and not ended *)
  open_calls : R -> gset Z;
  ts_id_bounds : (0 < psa_key_id_user_min <= psa_key_id_user_max /\
                  psa_key_id_user_max < 2 ^ 30)%Z;
  psa_status_nonzero z : z <> 0%Z -> is_Some (psa_status_from z);
  ts_conversions kt alg sig :
    key_type_u16 kt <> Panic /\ algorithm_u32 alg <> Panic /\ asym_signature_u32 sig <> Panic;
  opcode_nonneg o : (0 <= opcode_i32 o)%Z;
  (** opening a session leaves the keys alone *)
  ts_init_keys r : ts_keys (service_locator_init r) = ts_keys r;
  ts_query_keys sn r : ts_keys (service_locator_query sn r).2 = ts_keys r;
  ts_open_keys c e r : ts_keys (service_context_open c e r).2 = ts_keys r;
  ts_begin c n r :
    let '((h, _), r') := rpc_caller_begin c n r in
    ts_keys r' = ts_keys r /\
    match h with
    | Some h => (h ∉ open_calls r) /\ open_calls r' = {[h]} ∪ open_calls r
    | None => open_calls r' = open_calls r
    end;
  ts_invoke c h req buf r :
    encode req (encoded_len req) = Some buf ->
    let '((st, ost, _), r') := rpc_caller_invoke c h (opcode_i32 (ts_opcode req)) buf r in
    open_calls r' = open_calls r /\
    ts_effect req ((st =? 0) && (ost =? 0))%Z (ts_keys r) (ts_keys r');
  ts_end c h r :
    ts_keys (rpc_caller_end c h r) = ts_keys r /\
    open_calls (rpc_caller_end c h r) = open_calls r ∖ {[h]};
}.

(** ** The messages of errors *)
(** Errors of the RPC layer and of the wrapper can be told apart by their messages. *)
Lemma error_fmt_inj f e e' :
  (forall p, e <> PsaCrypto_error p) -> (forall p, e' <> PsaCrypto_error p) ->
  error_fmt f e = error_fmt f e' -> e = e'.
Proof.
  destruct e as [p|e|e], e' as [p'|e'|e']; intros Hp Hp' Heq;
    try (by destruct (Hp p)); try (by destruct (Hp' p'));
    destruct e, e'; (reflexivity || discriminate Heq).
Qed.
(** Every error of the RPC layer comes from a status, and the statuses of the
    documentation give different errors. *)
Lemma rpc_caller_error_from_surj e :
  exists st, (-10 <= st <= -1)%Z /\ rpc_caller_error_from st = e.
Proof.
  destruct e; [exists (-1)%Z|exists (-2)%Z|exists (-3)%Z|exists (-4)%Z|exists (-5)%Z
    |exists (-6)%Z|exists (-7)%Z|exists (-8)%Z|exists (-9)%Z|exists (-10)%Z]; split; (lia || done).
Qed.

Section Spec.
Context {K R : Type} `{KimSpec K} `{TsLaws R} `{BZ : Bincode Z}.
Context `{!BincodeLaws Z} `{!BincodeU32}.
Implicit Types (s : pstate K (device R)) (self : Provider) (cx : Context) (req : TsRequest) (r : R).

(** ** One call *)
Lemma ts_effect_weaken req k k' b : ts_effect req b k k' -> ts_effect req false k k'.
Proof. destruct req, b; simpl; naive_solver. Qed.
Lemma ts_effect_refl req k : ts_effect req false k k.
Proof. destruct req; simpl; auto. Qed.

(** How a call ended, and what it did to the calls in progress and the keys. *)
Definition call_outcome {A} req r (out : result TsError A * R) : Prop :=
  match out with
  | (Ok _, r') => open_calls r' = open_calls r /\ ts_effect req true (ts_keys r) (ts_keys r')
  | (Err e, r') => ts_effect req false (ts_keys r) (ts_keys r') /\
      (open_calls r' = open_calls r \/
       e = Wrapper_error CallBufferNull /\
       exists h, (h ∉ open_calls r) /\ open_calls r' = {[h]} ∪ open_calls r)
  | (Panic, _) => False
  end.

Lemma end_closes cx h r r1 :
  (h ∉ open_calls r) -> open_calls r1 = {[h]} ∪ open_calls r ->
  open_calls (rpc_caller_end (rpc_caller cx) h r1) = open_calls r.
Proof. intros Hh Ho. rewrite (proj2 (ts_end _ _ _)), Ho. set_solver. Qed.

Lemma status_no_panic st ost : from_status_opstatus st ost <> Panic.
Proof.
  unfold from_status_opstatus. destruct (Z.eqb_spec ost 0); simpl.
  - by destruct (st =? 0)%Z.
  - by destruct (psa_status_nonzero ost) as [? ->].
Qed.

Lemma status_ok st ost u :
  from_status_opstatus st ost = Ok u -> ((st =? 0) && (ost =? 0))%Z = true.
Proof.
  unfold from_status_opstatus. destruct (ost =? 0)%Z; simpl.
  - by destruct (st =? 0)%Z.
  - by destruct (psa_status_from ost).
Qed.

Lemma send_request_outcome T `{Message T} cx req r : call_outcome req r (send_request T cx req r).
Proof.
  unfold send_request, or_end, c_call, c_do. run_unfold.
  pose proof (ts_begin (rpc_caller cx) (encoded_len req) r) as Hb.
  destruct (rpc_caller_begin (rpc_caller cx) (encoded_len req) r) as [[[h|] []] r1]; simpl in *;
    destruct Hb as [Hk1 Ho1].
  2-4: split; [rewrite Hk1; apply ts_effect_refl|naive_solver].
  destruct Ho1 as [Hh Ho1]. pose proof (opcode_nonneg (ts_opcode req)).
  destruct (encode req (encoded_len req)) as [buf|] eqn:He; simpl.
  2: { split; [rewrite (proj1 (ts_end _ _ _)), Hk1; apply ts_effect_refl|].
       left. by apply end_closes. }
  destruct (Z.ltb_spec (opcode_i32 (ts_opcode req)) 0); [lia|].
  pose proof (ts_invoke (rpc_caller cx) h req buf r1 He) as Hi.
  destruct (rpc_caller_invoke _ _ _ _ _) as [[[st ost] resp] r2]. destruct Hi as [Ho2 Hk2].
  rewrite Hk1 in Hk2. rewrite Ho1 in Ho2.
  pose proof (status_no_panic st ost) as Hnp. pose proof (status_ok st ost) as Hst.
  destruct (from_status_opstatus st ost) as [[]|e|]; simpl; [| |done].
  - rewrite (Hst tt eq_refl) in Hk2. destruct (merge resp) as [x|]; simpl.
    + split; [by apply end_closes|]. by rewrite (proj1 (ts_end _ _ _)).
    + split; [rewrite (proj1 (ts_end _ _ _)); by eapply ts_effect_weaken|].
      left. by apply end_closes.
  - split; [rewrite (proj1 (ts_end _ _ _)); by eapply ts_effect_weaken|].
    left. by apply end_closes.
Qed.

(** ** Calls of the context *)
Lemma effect_bind {A C} req r (m : ST R TsError A) (f : A -> C) :
  call_outcome req r (m r) -> call_outcome req r ((x ← m; mret (f x)) r).
Proof. run_unfold. by destruct (m r) as [[| |] ?]. Qed.

(** A call that creates the key [id]. *)
Definition ts_creates_key (id : Z) (m : ST R TsError unit) : Prop :=
  forall r, match m r with
  | (Ok _, r') => (id ∉ ts_keys r) /\ ts_keys r' = {[id]} ∪ ts_keys r
  | (Err _, r') => ts_keys r' = ts_keys r \/ ts_keys r' = {[id]} ∪ ts_keys r
  | (Panic, _) => False
  end.

Lemma key_attributes_id attrs id :
  match key_attributes attrs id with Ok a => ka_id a = id | Err _ => True | Panic => False end.
Proof.
  unfold key_attributes.
  destruct (ts_conversions (key_type attrs) (permitted_algorithms (policy attrs))
    (AsymmetricSignature_other 0)) as (Ht & Ha & _). run_unfold.
  destruct (key_type_u16 _); simpl; [|done|done]. destruct (_ <? _)%Z; simpl; [|done].
  by destruct (algorithm_u32 _).
Qed.

Lemma creates_by cx attrs id (req : KeyAttributes -> TsRequest) :
  (forall a b k k', ts_effect (req a) b k k' = ts_effect (GenerateKeyIn a) b k k') ->
  ts_creates_key id (attributes ← lift (key_attributes attrs id);
                     send_request unit cx (req attributes) ;; mret tt).
Proof.
  intros Hreq r. unfold mbind at 1, ST_bind at 1, lift.
  pose proof (key_attributes_id attrs id) as Ha.
  destruct (key_attributes attrs id) as [a|e|]; [|by left|done].
  pose proof (effect_bind (req a) r _ (fun _ => tt) (send_request_outcome unit cx (req a) r)) as Ho.
  destruct ((send_request unit cx (req a) ;; mret tt) r) as [[u|e|] r']; simpl in Ho; rewrite ?Hreq in Ho; simpl in Ho;
    rewrite ?Ha in Ho; naive_solver.
Qed.

Lemma generate_key_creates cx attrs id : ts_creates_key id (generate_key cx attrs id).
Proof. by apply (creates_by cx attrs id GenerateKeyIn). Qed.
Lemma import_key_creates cx attrs id data : ts_creates_key id (import_key cx attrs id data).
Proof. by apply (creates_by cx attrs id (fun a => ImportKeyIn a data)). Qed.

Lemma destroy_key_effect cx id r :
  match destroy_key cx id r with
  | (Ok _, r') => ts_keys r' = ts_keys r ∖ {[id]}
  | (Err _, r') => ts_keys r' = ts_keys r \/ ts_keys r' = ts_keys r ∖ {[id]}
  | (Panic, _) => False
  end.
Proof.
  pose proof (effect_bind _ r _ (fun _ => tt)
    (send_request_outcome DestroyKeyOut cx (DestroyKeyIn id) r)) as Ho.
  unfold destroy_key.
  destruct ((send_request DestroyKeyOut cx (DestroyKeyIn id) ;; mret tt) r) as [[u|e|] r']; simpl in Ho; naive_solver.
Qed.

(** A call that leaves the keys alone. *)
Definition ts_reads {A} (m : ST R TsError A) : Prop :=
  forall r, ts_keys (m r).2 = ts_keys r /\ (m r).1 <> Panic.

Lemma send_request_reads T `{Message T} cx req :
  (forall b k k', ts_effect req b k k' -> k' = k) -> ts_reads (send_request T cx req).
Proof.
  intros Hreq r. pose proof (send_request_outcome T cx req r) as Ho.
  destruct (send_request T cx req r) as [[x|e|] r']; simpl in *; [| |done];
    (split; [by eapply Hreq, Ho|done]).
Qed.

Lemma reads_bind {A C} (m : ST R TsError A) (k : A -> ST R TsError C) :
  ts_reads m -> (forall a, ts_reads (k a)) -> ts_reads (x ← m; k x).
Proof.
  intros Hm Hk r. destruct (Hm r) as [Hr Hp]. run_unfold.
  destruct (m r) as [[a| |] r1]; simpl in *; [|done|done]. destruct (Hk a r1).
  split; [congruence|done].
Qed.
Lemma reads_ret {A} (a : A) : ts_reads (mret a).
Proof. by intros r. Qed.
Lemma reads_alg a : ts_reads (lift (map_err PsaCrypto_error (asym_signature_u32 a))).
Proof.
  intros r. destruct (ts_conversions RawData (Alg_other 0) a) as (_ & _ & Ha).
  split; [done|]. simpl. by destruct (asym_signature_u32 a).
Qed.

Lemma export_reads cx id : ts_reads (export_public_key cx id).
Proof. apply send_request_reads. done. Qed.
Lemma sign_reads cx id h a : ts_reads (sign_hash cx id h a).
Proof.
  apply reads_bind; [apply reads_alg|intros alg].
  apply reads_bind; [by apply send_request_reads|intros x; apply reads_ret].
Qed.
Lemma verify_reads cx id h g a : ts_reads (verify_hash cx id h g a).
Proof.
  apply reads_bind; [apply reads_alg|intros alg].
  apply reads_bind; [by apply send_request_reads|intros x; apply reads_ret].
Qed.

(** ** The invariant *)
Definition keys s : gset Z := ts_keys (rpc (dev s)).
Definition counter s : Z := id_counter (dev s).
Definition ts_live s (id : Z) : Prop := (id <= counter s)%Z /\ id ∈ keys s.

Record ts_ok s : Prop := {
  to_counter : (0 <= counter s <= psa_key_id_user_max)%Z;
  to_mapped : mapped TrustedService (ts_live s) (mappings s);
}.

(** Nothing happened to mappings and counter; keys were only added. *)
Lemma ts_ok_grow s s' :
  ts_ok s -> mappings s' = mappings s -> keys s ⊆ keys s' ->
  (counter s <= counter s' <= psa_key_id_user_max)%Z -> ts_ok s'.
Proof.
  intros [Hc Hm] Hv Hk Hn. split; [lia|]. rewrite Hv. apply (mapped_mono _ _ _ _ Hm).
  intros id _ [Hle Hin]. split; [lia|set_solver].
Qed.

Definition bumped s : pstate K (device R) :=
  {| kim := kim s; dev := {| rpc := rpc (dev s); id_counter := (counter s + 1)%Z |} |}.

Lemma ts_create_key_id_run s :
  (0 <= counter s <= psa_key_id_user_max)%Z ->
  on_counter create_key_id s =
  if decide (counter s = psa_key_id_user_max) then (Err PsaErrorInsufficientMemory, s)
  else (Ok (counter s + 1)%Z, bumped s).
Proof.
  intros Hc. pose proof ts_id_bounds as Hb. unfold on_counter, on_dev, create_key_id. run_unfold.
  unfold counter in *.
  assert (Hw : u32_wrap (id_counter (dev s) + 1) = (id_counter (dev s) + 1)%Z).
  { unfold u32_wrap. apply Z.mod_small. lia. }
  rewrite Hw. case_decide as Hm;
    destruct (Z.ltb_spec psa_key_id_user_max (id_counter (dev s) + 1)); simpl; try lia; [|done].
  rewrite <- Hm. by destruct s as [? []].
Qed.

(** What creating a key under [t] does. *)
Definition ts_creates t attrs (m : ST (pstate K (device R)) ResponseStatus unit) : Prop :=
  forall s, (0 <= counter s <= psa_key_id_user_max)%Z ->
  let id := (counter s + 1)%Z in
  match m s with
  | (Ok _, s') => mappings s !! t = None /\ (id ∉ keys s) /\
      (exists b, bincode_serialize id = Some b /\
        mappings s' = <[t := {| ki_id := b; ki_attributes := attrs |}]> (mappings s)) /\
      keys s' = {[id]} ∪ keys s /\ counter s' = id /\ (id <= psa_key_id_user_max)%Z
  | (Err e, s') => mappings s' = mappings s /\
      (counter s <= counter s' <= psa_key_id_user_max)%Z /\
      (keys s' = keys s \/ keys s' = {[id]} ∪ keys s) /\
      (is_Some (mappings s !! t) -> e = PsaErrorAlreadyExists /\ s' = s)
  | (Panic, _) => False
  end.

Lemma ts_create_and_store self t attrs id make s :
  (0 <= id < 2 ^ 32)%Z -> ts_creates_key id make -> mappings s !! t = None ->
  match create_and_store self t attrs id make s with
  | (Ok _, s') => (id ∉ keys s) /\
      (exists b, bincode_serialize id = Some b /\
        mappings s' = <[t := {| ki_id := b; ki_attributes := attrs |}]> (mappings s)) /\
      keys s' = {[id]} ∪ keys s /\ counter s' = counter s
  | (Err _, s') => mappings s' = mappings s /\ counter s' = counter s /\
      (keys s' = keys s \/ keys s' = {[id]} ∪ keys s)
  | (Panic, _) => False
  end.
Proof.
  intros Hid Hmake Hfree. destruct (bincode_u32 id Hid) as [b Hb].
  unfold create_and_store, on_rpc, on_dev, on_kim. specialize (Hmake (rpc (dev s))).
  run_unfold. destruct (make (rpc (dev s))) as [[i|e|] r1]; simpl; [|done|done].
  destruct Hmake as (Hnew & Hkeys).
  destruct (insert_key_info_cases (key_info_store self) t id attrs (kim s) b Hb)
    as (k1 & [[-> Hv]|[-> Hv]]).
  - pose proof (destroy_key_effect (context self) id r1) as Hd. simpl.
    destruct (destroy_key (context self) id r1) as [[[]|e|] r2]; simpl; [| |done];
      (split_and!; [done|done|]); unfold keys; simpl; rewrite Hkeys in Hd.
    + left. rewrite Hd. set_solver.
    + destruct Hd as [Hd|Hd]; rewrite Hd; [by right|left; set_solver].
  - unfold mappings in Hfree. rewrite Hfree. simpl. eauto 10.
Qed.

Lemma ts_create_creates self t attrs (make : Z -> ST R TsError unit) :
  (forall id, ts_creates_key id (make id)) ->
  ts_creates t attrs (
    on_kim (does_not_exist (key_info_store self) t) ;;
    key_id ← on_counter create_key_id;
    create_and_store self t attrs key_id (make key_id)).
Proof.
  intros Hmake s Hc id. subst id. pose proof ts_id_bounds as Hb.
  unfold on_kim at 1. unfold mbind at 1, ST_bind at 1, zoom.
  rewrite does_not_exist_run. change (kim_view (kim s)) with (mappings s).
  destruct (mappings s !! t) as [i|] eqn:Ht; rewrite pstate_eta.
  { split_and!; auto; lia. }
  unfold mbind at 1, ST_bind at 1. rewrite ts_create_key_id_run by done. case_decide as Hm.
  { split_and!; auto; try lia. by intros [? ?]. }
  pose proof (ts_create_and_store self t attrs (counter s + 1) (make (counter s + 1)%Z)
    (bumped s) ltac:(lia) (Hmake _) Ht) as Hcs.
  change (mappings (bumped s)) with (mappings s) in Hcs.
  change (keys (bumped s)) with (keys s) in Hcs.
  change (counter (bumped s)) with (counter s + 1)%Z in Hcs.
  destruct (create_and_store _ _ _ _ _ (bumped s)) as [[u|e|] s']; [| |done].
  - destruct Hcs as (? & ? & ? & ?). split_and!; auto; lia.
  - destruct Hcs as (? & -> & ?). split_and!; auto; try lia. by intros [? ?].
Qed.

Lemma ts_generate_creates self a op :
  ts_creates (triple a (gk_key_name op)) (gk_attributes op) (psa_generate_key_internal self a op).
Proof. apply (ts_create_creates self _ _ (fun id => _)). intros id. apply generate_key_creates. Qed.
Lemma ts_import_creates self a op :
  ts_creates (triple a (ik_key_name op)) (ik_attributes op) (psa_import_key_internal self a op).
Proof. apply (ts_create_creates self _ _ (fun id => _)). intros id. apply import_key_creates. Qed.

Lemma ts_creates_safe t attrs m : ts_creates t attrs m -> safe_in ts_ok m.
Proof.
  intros Hm s Hs. specialize (Hm s (to_counter s Hs)). simpl in Hm.
  destruct (m s) as [[u|e|] s']; simpl; [| |done]; (split; [|done]).
  - destruct Hm as (_ & Hnew & (b & Hb & Hv) & Hk & Hc & Hle). pose proof (to_counter s Hs).
    split; [lia|]. rewrite Hv. eapply mapped_insert; [|exact Hb| |].
    + apply (mapped_mono _ _ _ _ (to_mapped s Hs)). intros id _ [? ?].
      split; [lia|set_solver].
    + intros Hu. destruct (used_live _ _ _ _ (to_mapped s Hs) Hu). lia.
    + split; [lia|set_solver].
  - destruct Hm as (Hv & Hc & Hk & _). apply (ts_ok_grow s); [done|done|set_solver|lia].
Qed.

Lemma ts_destroy_spec self a k s :
  match psa_destroy_key_internal self a k s with
  | (Ok _, s') => exists i id, mappings s !! triple a k = Some i /\ id_of i = Some id /\
      mappings s' = delete (triple a k) (mappings s) /\ keys s' = keys s ∖ {[id]} /\
      counter s' = counter s
  | (Err e, s') => counter s' = counter s /\
      ((mappings s' = mappings s /\ keys s' = keys s) \/
       exists i id, mappings s !! triple a k = Some i /\ id_of i = Some id /\
         mappings s' = delete (triple a k) (mappings s) /\
         (keys s' = keys s \/ keys s' = keys s ∖ {[id]}))
  | (Panic, _) => False
  end.
Proof.
  unfold psa_destroy_key_internal, on_kim, on_rpc, on_dev. run_unfold.
  rewrite get_key_id_run. change (kim_view (kim s)) with (mappings s).
  destruct (mappings s !! triple a k) as [i|] eqn:Ht; [|simpl; by auto 10].
  destruct (bincode_deserialize (ki_id i)) as [id|] eqn:Hi; simpl; [|by split_and!; auto].
  destruct (remove_key_info_cases (key_info_store self) (triple a k) (kim s))
    as (k1 & [[-> Hv]|[-> Hv]]); simpl; [by split_and!; auto|].
  change (kim_view (kim s)) with (mappings s) in *. rewrite Ht. simpl.
  pose proof (destroy_key_effect (context self) id (rpc (dev s))) as Hd.
  destruct (destroy_key (context self) id (rpc (dev s))) as [[u|e|] r1]; simpl; [| |done].
  - exists i, id. by split_and!.
  - split; [done|]. right. exists i, id. by split_and!.
Qed.

Lemma ts_destroy_safe self a k : safe_in ts_ok (psa_destroy_key_internal self a k).
Proof.
  intros s Hs. pose proof (ts_destroy_spec self a k s) as Hd.
  assert (Hdel : forall s' i id, mappings s !! triple a k = Some i -> id_of i = Some id ->
    mappings s' = delete (triple a k) (mappings s) -> counter s' = counter s ->
    keys s ∖ {[id]} ⊆ keys s' -> ts_ok s').
  { intros s' i id Ht Hi Hv Hc Hk. split; [rewrite Hc; apply Hs|]. rewrite Hv.
    apply (mapped_mono _ (ts_live s)); [by apply mapped_delete, Hs|].
    intros id' Hu [Hle Hin]. split; [lia|]. apply Hk, elem_of_difference. split; [done|].
    intros ->%elem_of_singleton.
    by apply (delete_unused _ _ _ _ i id (to_mapped s Hs)) in Hu. }
  destruct (psa_destroy_key_internal self a k s) as [[u|e|] s']; simpl; [| |done];
    (split; [|done]).
  - destruct Hd as (i & id & ? & ? & ? & Hk & ?). apply (Hdel s' i id); auto. by rewrite Hk.
  - destruct Hd as (Hc & [[Hv Hk]|(i & id & ? & ? & ? & Hk)]).
    + pose proof (to_counter s Hs). apply (ts_ok_grow s); [done|done|by rewrite Hk|lia].
    + apply (Hdel s' i id); auto. set_solver.
Qed.

(** ** Every call *)
Lemma ts_reads_safe {A} (m : ST R TsError A) :
  ts_reads m -> safe_in ts_ok (on_err ts_status (on_rpc (K := K) m)).
Proof.
  intros Hm s Hs. destruct (Hm (rpc (dev s))) as [Hk Hp]. pose proof (to_counter s Hs).
  unfold on_rpc, on_dev. run_unfold. destruct (m (rpc (dev s))) as [r r1]. simpl in *.
  split; [|by destruct r]. apply (ts_ok_grow s); [done|done| |unfold counter in *; simpl; lia].
  unfold keys. simpl. by rewrite Hk.
Qed.

Lemma ts_kim_safe {A} (m : ST K ResponseStatus A) :
  (forall k, (m k).2 = k /\ (m k).1 <> Panic) -> safe_in ts_ok (on_kim (D := device R) m).
Proof.
  intros Hm s Hs. destruct (Hm (kim s)) as [Hk Hp]. unfold on_kim, zoom.
  destruct (m (kim s)) as [r k]. simpl in *. subst. by rewrite pstate_eta.
Qed.

Lemma ts_id_safe c t : safe_in ts_ok (on_kim (D := device R) (get_key_id Z c t)).
Proof.
  apply ts_kim_safe. intros k. rewrite get_key_id_run. split; [done|]. simpl.
  destruct (kim_view k !! t); [|done]. by destruct (bincode_deserialize _).
Qed.
#[local] Hint Resolve ts_id_safe ts_reads_safe export_reads sign_reads verify_reads : parsec.

Lemma ts_safe uuid self : safe ts_ok (provide uuid self).
Proof.
  intros a op. destruct op; simpl; apply safe_bind_ret; try apply safe_raise;
    try (apply safe_bind; [|intros ?]; auto with parsec; fail).
  - apply ts_kim_safe. intros k.
    by destruct (list_keys_run (key_info_store self) a k) as (l & -> & _).
  - apply safe_bind; [|intros; apply safe_ret]. apply ts_kim_safe. intros k.
    by destruct (list_clients_run (key_info_store self) k) as (l & -> & _).
  - eapply ts_creates_safe, ts_generate_creates.
  - eapply ts_creates_safe, ts_import_creates.
  - apply ts_destroy_safe.
Qed.

(** In every state and for every RPC layer, a call changes no mapping but the
    application's own. *)
Lemma ts_keeps_to uuid self : keeps_to mappings TrustedService (provide uuid self).
Proof.
  intros a op s. set (P := own TrustedService (touches a op)).
  change (keeps mappings P (provider_call (provide uuid self) a op s).2 s).
  revert s. change (steps (keeps mappings P) (provider_call (provide uuid self) a op)).
  unfold P, on_rpc, on_counter.
  destruct op; simpl; unfold list_keys, list_clients, psa_generate_key_internal,
    psa_import_key_internal, psa_export_public_key_internal, psa_destroy_key_internal,
    psa_sign_hash_internal, psa_verify_hash_internal, create_and_store, on_rpc, on_counter;
    steps_auto.
Qed.
Lemma ts_well_behaved uuid self : well_behaved mappings (provide uuid self).
Proof. eapply keeps_to_well_behaved, ts_keeps_to. Qed.

(** C13: The Trusted Service provider keeps its invariant whatever fails underneath:
    every mapping names a key the service holds, below the counter, and no two
    mappings name the same one. *)
Theorem ts_invariant uuid self a op s res s' :
  ts_ok s -> provider_call (provide uuid self) a op s = (res, s') -> ts_ok s' /\ res <> Panic.
Proof. intros Hs Hcall. pose proof (ts_safe uuid self a op s Hs) as Hr. by rewrite Hcall in Hr. Qed.

(** C31: A call to the service ends every RPC call it begins, on every path but one:
    when a call is begun and its buffer is null the call stays open.  The keys of
    the service change as the request says when the call succeeds, and as it says
    or not at all when it fails. *)
Theorem send_request_balanced T `{Message T} cx req r :
  call_outcome req r (send_request T cx req r).
Proof. apply send_request_outcome. Qed.

(** ** Start-up *)
Definition unreadable s t : Prop := exists i, mappings s !! t = Some i /\ id_of (T := Z) i = None.

Lemma ts_check_all c ts : forall mx rm s,
  (forall t, t ∈ ts -> is_Some (mappings s !! t)) ->
  exists mx' rm', fold_each ts (mx, rm) (check_stored c) s = (Ok (mx', rm'), s) /\
    (mx <= mx')%Z /\
    (mx' = mx \/ exists t i, t ∈ ts /\ mappings s !! t = Some i /\ id_of i = Some mx') /\
    (forall t, t ∈ rm' <-> t ∈ rm \/ t ∈ ts /\ unreadable s t) /\
    (forall t i id, t ∈ ts -> mappings s !! t = Some i -> id_of i = Some id -> (id <= mx')%Z).
Proof.
  induction ts as [|t ts IH]; intros mx rm s Hin; cbn [fold_each].
  - exists mx, rm. split_and!; [done|lia|by left|set_solver|set_solver].
  - destruct (Hin t) as [i Hi]; [left|].
    assert (Hstep : check_stored c (mx, rm) t s = (Ok (match id_of i with
        | Some id => (if (mx <? id)%Z then id else mx, rm) | None => (mx, rm ++ [t]) end), s)).
    { unfold check_stored, on_kim. run_unfold. rewrite get_key_id_run. simpl.
      change (kim_view (kim s)) with (mappings s). rewrite Hi. unfold id_of.
      destruct (bincode_deserialize (ki_id i)); simpl; by rewrite pstate_eta. }
    rewrite (bind_run _ _ _ _ _ Hstep). destruct (id_of i) as [id|] eqn:Hid.
    + destruct (IH (if (mx <? id)%Z then id else mx) rm s) as (mx' & rm' & -> & Hle & Hm & Hrm & Hids);
        [set_solver|].
      exists mx', rm'. destruct (Z.ltb_spec mx id); split_and!; try done; try lia.
      * destruct Hm as [->|(t' & i' & ? & ? & ?)]; right; [exists t, i|exists t', i']; set_solver.
      * intros t'. rewrite Hrm. unfold unreadable. set_solver.
      * intros t' i' id' [->|Ht']%elem_of_cons Hi' Hid'; [simplify_eq; lia|by eapply Hids].
      * destruct Hm as [->|(t' & i' & ? & ? & ?)]; [by left|right; exists t', i'; set_solver].
      * intros t'. rewrite Hrm. unfold unreadable. set_solver.
      * intros t' i' id' [->|Ht']%elem_of_cons Hi' Hid'; [simplify_eq; lia|by eapply Hids].
    + destruct (IH mx (rm ++ [t]) s) as (mx' & rm' & -> & Hle & Hm & Hrm & Hids); [set_solver|].
      exists mx', rm'. split_and!; try done.
      * destruct Hm as [->|(t' & i' & ? & ? & ?)]; [by left|right; exists t', i'; set_solver].
      * intros t'. rewrite Hrm. unfold unreadable. set_solver.
      * intros t' i' id' [->|Ht']%elem_of_cons Hi' Hid'; [congruence|by eapply Hids].
Qed.

(** Connecting changes the RPC layer only. *)
Lemma connect_run s : exists out r1,
  on_rpc (K := K) connect s =
    (out, {| kim := kim s; dev := {| rpc := r1; id_counter := id_counter (dev s) |} |}) /\
  out <> Panic /\ ts_keys r1 = keys s.
Proof.
  unfold on_rpc, on_dev, connect, c_call, c_do. run_unfold.
  pose proof (ts_query_keys "sn:trustedfirmware.org:crypto:0" (service_locator_init (rpc (dev s)))) as Hq.
  rewrite ts_init_keys in Hq. fold (keys s) in Hq.
  destruct (service_locator_query _ _) as [[[h|] st] r1]; simpl in *; [|by eauto 10].
  destruct (negb _); [by eauto 10|].
  pose proof (ts_open_keys h TS_RPC_ENCODING_PROTOBUF r1) as Ho. rewrite Hq in Ho.
  destruct (service_context_open _ _ _) as [[[] []] r2]; simpl in *; by eauto 10.
Qed.

(** The provider starts with exactly the mappings whose identifier can be read,
    and a counter above all of them.  No call asks the service which keys it
    holds: a mapping whose key is gone stays. *)
Theorem ts_new_spec c s res s' :
  client_provider_id c = TrustedService ->
  new c s = (res, s') ->
  match res with
  | Ok self => key_info_store self = c /\ keys s' = keys s /\
      (forall t i, mappings s' !! t = Some i <->
         mappings s !! t = Some i /\ (kt_provider_id t = TrustedService -> is_Some (id_of (T := Z) i))) /\
      (psa_key_id_user_min <= counter s')%Z /\
      (counter s' = psa_key_id_user_min \/ used TrustedService (mappings s') (counter s')) /\
      forall id, used TrustedService (mappings s') id -> (id <= counter s')%Z
  | Err _ => True
  | Panic => False
  end.
Proof.
  intros Hc. unfold new. unfold mbind at 1, ST_bind at 1.
  destruct (connect_run s) as (out & r1 & -> & Hp & Hkeys). destruct out as [cx|e|]; [|by intros [= <- <-]|done].
  set (s1 := {| kim := kim s; dev := {| rpc := r1; id_counter := psa_key_id_user_min |} |}).
  unfold on_counter at 1, on_dev at 1, mbind at 1, ST_bind at 1. unfold modify at 1, zoom at 1 2. simpl.
  fold s1. destruct (get_all_run c (kim s)) as (ts & Hts & _ & Hin). rewrite Hc in Hin.
  destruct (ts_check_all c ts psa_key_id_user_min [] s1) as (mx & rm & Hrun & Hle & Hm & Hrm & Hids);
    [intros t Ht; by apply Hin|].
  unfold mbind, ST_bind, attempt, on_err at 1, on_kim at 1, zoom at 1. simpl. rewrite Hts. simpl.
  fold s1. rewrite Hrun. pose proof (remove_loop_spec (fun _ => "key info manager"%string) c rm s1) as Hrem.
  destruct (for_each rm _ s1) as [[u|e|] s2]; [| |done].
  2: { unfold drop, on_rpc, on_dev, c_do. run_unfold. by intros [= <- <-]. }
  destruct Hrem as [Hdev Hv]. unfold on_counter, on_dev. run_unfold. intros [= <- <-].
  assert (Hview : forall t i, mappings s2 !! t = Some i <->
    mappings s !! t = Some i /\ (kt_provider_id t = TrustedService -> is_Some (id_of (T := Z) i))).
  { intros t i. rewrite Hv. change (mappings s1) with (mappings s) in *. case_decide as Hd.
    - apply Hrm in Hd as [Hd|(Ht & i' & Hi' & Hid)]; [by apply not_elem_of_nil in Hd|].
      apply Hin in Ht as [_ Hpr]. split; [done|]. intros [Hi Hs]. destruct (Hs Hpr).
      change (mappings s1 !! t = Some i) in Hi. by simplify_eq.
    - split; [|tauto]. intros Hi. split; [done|]. intros Hpr.
      destruct (id_of i) as [id|] eqn:Hid; [by eexists|]. exfalso. apply Hd, Hrm. right.
      split; [by apply Hin; split; [exists i|]|by exists i]. }
  assert (Hused : forall t i id, mappings s !! t = Some i -> kt_provider_id t = TrustedService ->
    id_of i = Some id -> used TrustedService (mappings s2) id).
  { intros t i id Ht Hpr Hid. exists t, i. split_and!; [|done|done]. apply Hview.
    split; [done|]. intros _. by rewrite Hid. }
  unfold counter. simpl. split_and!; [done| |exact Hview|done| |].
  - unfold keys at 1. simpl. by rewrite Hdev.
  - destruct Hm as [->|(t & i & Ht & Hi & Hid)]; [by left|right].
    apply Hin in Ht as [_ Hpr]. by apply (Hused t i).
  - intros id (t & i & Hi & Hpr & Hid). apply Hview in Hi as [Hi _].
    apply (Hids t i id); [by apply Hin; split; [exists i|]|done|done].
Qed.
End Spec.

(** ** A concrete service *)
Record ts_world := { w_keys : gset Z; w_calls : gset Z }.
Definition ts_request_id (req : TsRequest) : Z :=
  match req with
  | GenerateKeyIn a | ImportKeyIn a _ => ka_id a
  | ExportPublicKeyIn id | DestroyKeyIn id | SignHashIn id _ _ | VerifyHashIn id _ _ _ => id
  end.

#[export] Instance demo_psa_types : PsaTypes := {
  psa_error_status e := match e with PsaDoesNotExist => PsaErrorDoesNotExist
                                   | psa_error_other _ => PsaErrorGenericError end;
  psa_status_from z := if (z =? 0)%Z then None
                       else Some (if (z =? -140)%Z then PsaDoesNotExist else psa_error_other z);
  psa_key_id_user_min := 1; psa_key_id_user_max := 1073741823;
  key_type_u16 _ := Ok 28674%Z; usage_flags_u32 _ := 0%Z; algorithm_u32 _ := Ok 100664841%Z;
  asym_signature_u32 _ := Ok 100664841%Z;
}.
#[export] Instance demo_protobuf : TsProtobuf := {
  opcode_i32 o := match o with TsGenerateKey => 258 | TsDestroyKey => 259 | TsSignHash => 264
                             | TsVerifyHash => 265 | TsImportKey => 262
                             | TsExportPublicKey => 261 end%Z;
  KeyLifetime_Persistent := 1;
  encoded_len _ := 4;
  encode req _ := bincode_serialize (ts_request_id req);
  unit_message := fun _ => Some tt; bytes_message := Some;
  SignHashOut_message := fun b => Some {| sho_signature := b |};
  DestroyKeyOut_message := fun _ => Some Build_DestroyKeyOut;
}.
Definition ts_perform (opcode id : Z) (w : ts_world) : (Z * Z * bytes) * ts_world :=
  let with_keys k := {| w_keys := k; w_calls := w_calls w |} in
  if ((opcode =? 258) || (opcode =? 262))%Z then
    if decide (id ∈ w_keys w) then ((0, -139, [])%Z, w)
    else ((0, 0, [])%Z, with_keys ({[id]} ∪ w_keys w))
  else if decide (id ∈ w_keys w) then
    if (opcode =? 259)%Z then ((0, 0, [])%Z, with_keys (w_keys w ∖ {[id]}))
    else ((0, 0, ["001"%char])%Z, w)
  else ((0, -140, [])%Z, w).

#[export] Instance demo_rpc : RpcCaller ts_world := {
  TS_RPC_ENCODING_PROTOBUF := 1;
  service_locator_init w := w;
  service_locator_query _ w := ((Some 1, 0)%Z, w);
  service_context_open _ _ w := ((Some 2, Some 3)%Z, w);
  service_context_close _ _ w := w;
  service_context_relinquish _ w := w;
  rpc_caller_begin _ _ w :=
    let h := fresh (w_calls w) in
    ((Some h, true), {| w_keys := w_keys w; w_calls := {[h]} ∪ w_calls w |});
  rpc_caller_invoke _ _ opcode buf w := ts_perform opcode (from_le_bytes buf) w;
  rpc_caller_end _ h w := {| w_keys := w_keys w; w_calls := w_calls w ∖ {[h]} |};
}.

#[export] Instance demo_ts_laws : TsLaws ts_world.
Proof.
  refine {| ts_keys := w_keys; open_calls := w_calls |}; try done.
  - intros z Hz. simpl. destruct (Z.eqb_spec z 0); [done|by eexists].
  - by intros [].
  - intros c n r. simpl. split_and!; [done|apply is_fresh|done].
  - intros c h req buf r. cbn [encode demo_protobuf bincode_serialize demo_bincode_u32 bincode_uint].
    case_decide as Hr; [|done].
    intros Hbuf. assert (buf = to_le_bytes 4 (ts_request_id req)) as -> by congruence.
    cbn [rpc_caller_invoke demo_rpc]. rewrite from_to_le_bytes by done.
    clear Hbuf Hr. unfold ts_perform.
    destruct req; simpl; repeat case_decide; simpl; auto.
Defined.

Definition ts_client : KeyInfoManagerClient := {| client_provider_id := TrustedService |}.
Definition ts_blank : pstate OnDisk (device ts_world) :=
  {| kim := {| od_manager := {| key_store := ∅; mappings_dir_path := ["map"] |};
               od_disk := {| Fs.nodes := {[ ["map"] := Fs.Dir ]}; Fs.faults := [] |} |};
     dev := {| rpc := {| w_keys := ∅; w_calls := ∅ |}; id_counter := 0 |} |}.
Definition ts_self : Provider :=
  {| context := {| rpc_caller := 3; service_context := 1; rpc_session_handle := 2 |};
     key_info_store := ts_client |}.
Definition ts_gen : GenerateKeyOp := {| gk_key_name := "k"; gk_attributes := ecc_attributes |}.
Definition ts_app : ApplicationName := from_name "app".
(** The provider started, a key generated, and the key lost by the service. *)
Definition ts0 : pstate OnDisk (device ts_world) := (new ts_client ts_blank).2.
Definition ts1 : pstate OnDisk (device ts_world) :=
  (psa_generate_key_internal ts_self ts_app ts_gen ts0).2.
Definition ts_lost : pstate OnDisk (device ts_world) :=
  {| kim := kim ts1; dev := {| rpc := {| w_keys := ∅; w_calls := ∅ |}; id_counter := 0 |} |}.

Lemma ts0_ok : ts_ok ts0.
Proof.
  split; [vm_compute; split; discriminate|].
  assert (Hv : mappings ts0 = ∅) by (vm_compute; reflexivity). rewrite Hv.
  split; [intros t i Hi|intros t1 t2 i1 i2 j Hi]; by rewrite lookup_empty in Hi.
Qed.

Lemma ts_invariant_witness : ts_ok ts1.
Proof.
  apply (ts_invariant Some ts_self ts_app (PsaGenerateKey ts_gen) ts0 (Ok RPsaGenerateKey) ts1);
    [apply ts0_ok|vm_compute; reflexivity].
Defined.

Lemma ts_new_spec_witness :
  exists i, mappings (new ts_client ts_lost).2 !! triple ts_app "k" = Some i /\ keys ts_lost = ∅.
Proof.
  assert (Hrun : new ts_client ts_lost = (Ok ts_self, (new ts_client ts_lost).2))
    by (vm_compute; reflexivity).
  pose proof (ts_new_spec ts_client ts_lost (Ok ts_self) _ eq_refl Hrun) as (_ & _ & Hv & _).
  eexists. split; [|reflexivity]. apply Hv. split; [vm_compute; reflexivity|].
  intros _. vm_compute. eexists. reflexivity.
Defined.

(** Two calls, one that creates a key and one that the service refuses; neither
    stays open. *)
Definition ts_create : TsRequest :=
  GenerateKeyIn {| ka_type := 0; ka_key_bits := 256; ka_lifetime := 1; ka_id := 7; ka_usage := 0;
                   ka_alg := 0 |}.
Lemma send_request_balanced_witness :
  let '(out, w1) := send_request unit (context ts_self) ts_create {| w_keys := ∅; w_calls := {[9%Z]} |} in
  out = Ok tt /\ w_calls w1 = {[9%Z]} /\ w_keys w1 = {[7%Z]} /\
  w_calls (send_request unit (context ts_self) ts_create w1).2 = {[9%Z]}.
Proof.
  pose proof (send_request_balanced unit (context ts_self) ts_create
    {| w_keys := ∅; w_calls := {[9%Z]} |}) as H1.
  destruct (send_request unit (context ts_self) ts_create _) as [out w1] eqn:Hrun.
  pose proof (send_request_balanced unit (context ts_self) ts_create w1) as H2.
  vm_compute in Hrun. injection Hrun as <- <-. destruct H1 as [Hc [_ Hk]].
  split; [reflexivity|]. split; [exact Hc|]. split; [vm_compute; reflexivity|].
  destruct (send_request unit (context ts_self) ts_create _) as [out2 w2] eqn:Hrun2.
  vm_compute in Hrun2. injection Hrun2 as <- <-. destruct H2 as [_ [Ho|[He _]]]; [|discriminate He].
  exact Ho.
Defined.
