(* ===== verification/TsThreads.v ===== *)
(** * Threads in the Trusted Service provider

    The requests to the Trusted Service provider as programs whose steps interleave
    with those of other requests: each access of the key info manager and of the
    atomic counter is one step, and so is each call of the service, which is made under
    the mutex of the context.  The programs are the methods of [TsProvider] with the
    accesses told apart; [ts_run_alone] says that one that is not interrupted is the
    method. *)
From S2P Require Import Prelude RustStd Interface Authenticators KeyInfo Provide ProviderState.
From S2P Require Import TrustedService Threads Claims.
Import TsProvider.

Module TsThread.
Section Ts.
Context {K R : Type} `{ManageKeyInfo K} `{PsaTypes} `{TsProtobuf} `{RpcCaller R} `{Bincode Z}.
Implicit Types (self : Provider) (app_name : ApplicationName).
Abbreviation P A := (PR (pstate K (device R)) ResponseStatus A).

(** The addition and the store are two accesses of the atomic counter. *)
Definition create_key_id : P Z :=
  old ← once (on_counter (fun n => (Ok n, u32_wrap (n + 1))));
  let new_key_id := u32_wrap (old + 1) in
  if (psa_key_id_user_max <? new_key_id)%Z then
    once (on_counter (modify (fun _ => psa_key_id_user_max))) ;;
    local (Err PsaErrorInsufficientMemory)
  else mret new_key_id.

Definition create_and_store self (key_triple : KeyTriple) (attrs : Attributes) (key_id : Z)
    (make : ST R TsError unit) : P unit :=
  r ← tried (once (on_rpc make));
  match r with
  | Ok _ =>
    r ← tried (once (on_kim (insert_key_info (key_info_store self) key_triple key_id attrs)));
    match r with
    | Err e =>
      tried (F := ResponseStatus)
        (once (on_rpc (TsContext.destroy_key (context self) key_id))) ;;
      local (Err e)
    | Ok _ => mret tt
    | Panic => local Panic
    end
  | Err error => local (Err (ts_status error))
  | Panic => local Panic
  end.

Definition psa_generate_key_internal self app_name (op : GenerateKeyOp) : P unit :=
  let key_triple := triple app_name (gk_key_name op) in
  once (on_kim (does_not_exist (key_info_store self) key_triple)) ;;
  key_id ← create_key_id;
  create_and_store self key_triple (gk_attributes op) key_id
    (TsContext.generate_key (context self) (gk_attributes op) key_id).

Definition psa_import_key_internal self app_name (op : ImportKeyOp) : P unit :=
  let key_triple := triple app_name (ik_key_name op) in
  once (on_kim (does_not_exist (key_info_store self) key_triple)) ;;
  key_id ← create_key_id;
  create_and_store self key_triple (ik_attributes op) key_id
    (TsContext.import_key (context self) (ik_attributes op) key_id (ik_data op)).

Definition psa_export_public_key_internal self app_name (key_name : string) : P bytes :=
  key_id ← once (on_kim (get_key_id Z (key_info_store self) (triple app_name key_name)));
  once (on_err ts_status (on_rpc (TsContext.export_public_key (context self) key_id))).

Definition psa_destroy_key_internal self app_name (key_name : string) : P unit :=
  let key_triple := triple app_name key_name in
  key_id ← once (on_kim (get_key_id Z (key_info_store self) key_triple));
  once (on_kim (remove_key_info (key_info_store self) key_triple)) ;;
  once (on_err ts_status (on_rpc (TsContext.destroy_key (context self) key_id))).

Definition psa_sign_hash_internal self app_name (op : SignHashOp) : P bytes :=
  key_id ← once (on_kim (get_key_id Z (key_info_store self) (triple app_name (sh_key_name op))));
  once (on_err ts_status
    (on_rpc (TsContext.sign_hash (context self) key_id (sh_hash op) (sh_alg op)))).

Definition psa_verify_hash_internal self app_name (op : VerifyHashOp) : P unit :=
  key_id ← once (on_kim (get_key_id Z (key_info_store self) (triple app_name (vh_key_name op))));
  once (on_err ts_status
    (on_rpc (TsContext.verify_hash (context self) key_id (vh_hash op) (vh_signature op)
       (vh_alg op)))).

Definition list_keys self app_name : P (list ListedKey) :=
  once (on_kim (KeyInfo.list_keys (key_info_store self) app_name)).

Definition list_clients self : P (list string) :=
  clients ← once (on_kim (KeyInfo.list_clients (key_info_store self)));
  mret (app_name_string <$> clients).

(** The program of a request. *)
Definition code self (c : ApplicationName * NativeOperation) : P NativeResult :=
  let app := c.1 in
  match c.2 with
  | ListKeys => r ← list_keys self app; mret (RListKeys r)
  | ListClients => r ← list_clients self; mret (RListClients r)
  | PsaGenerateKey o => psa_generate_key_internal self app o ;; mret RPsaGenerateKey
  | PsaImportKey o => psa_import_key_internal self app o ;; mret RPsaImportKey
  | PsaExportPublicKey o =>
    r ← psa_export_public_key_internal self app o; mret (RPsaExportPublicKey r)
  | PsaDestroyKey o => psa_destroy_key_internal self app o ;; mret RPsaDestroyKey
  | PsaSignHash o => r ← psa_sign_hash_internal self app o; mret (RPsaSignHash r)
  | PsaVerifyHash o => psa_verify_hash_internal self app o ;; mret RPsaVerifyHash
  | _ => local (Err PsaErrorNotSupported)
  end.
End Ts.
End TsThread.

(** ** A request that is not interrupted *)
Section Alone.
Context {K R : Type} `{ManageKeyInfo K} `{PsaTypes} `{TsProtobuf} `{RpcCaller R} `{Bincode Z}.

Lemma alike_create_key_id :
  alike (TsThread.create_key_id (K := K) (R := R)) (on_counter create_key_id).
Proof.
  intros s. unfold TsThread.create_key_id, create_key_id, on_counter, on_dev, once. simpl.
  run_unfold. by destruct (_ <? _)%Z.
Qed.

(** A request to the Trusted Service provider that is not interrupted does what the
    method of the provider does. *)
Theorem ts_run_alone uuid self app op (s : pstate K (device R)) :
  run (TsThread.code self (app, op)) s = provider_call (provide uuid self) app op s.
Proof.
  revert s. change (alike (TsThread.code self (app, op))
    (provider_call (provide uuid self) app op)).
  unfold TsThread.code, provider_call. cbn [fst snd].
  destruct op; try (intros s; reflexivity); (apply alike_bind; [|intros ?; apply alike_ret]);
    unfold provide;
    cbn [prov_list_keys prov_list_clients prov_psa_generate_key prov_psa_import_key
      prov_psa_destroy_key prov_psa_export_public_key prov_psa_sign_hash prov_psa_verify_hash];
    unfold TsThread.list_keys, TsThread.list_clients, TsThread.psa_generate_key_internal,
      TsThread.psa_import_key_internal, TsThread.psa_destroy_key_internal,
      TsThread.psa_export_public_key_internal, TsThread.psa_sign_hash_internal,
      TsThread.psa_verify_hash_internal, TsThread.create_and_store,
      list_keys, list_clients, psa_generate_key_internal, psa_import_key_internal,
      psa_destroy_key_internal, psa_export_public_key_internal, psa_sign_hash_internal,
      psa_verify_hash_internal, create_and_store;
    repeat (apply alike_create_key_id || alike_step).
Qed.
End Alone.
