(* ===== verification/TsConcurrency.v ===== *)
(** * Correctness of the threads of the Trusted Service provider

    However requests are interleaved, every mapping names a key of the service and no
    two the same one, as long as no two requests in progress create the same key
    ([ts_parallel_safe]); requests that destroy the same key may run at the same time.
    Two that create it may not ([ts_create_race]). *)
From S2P Require Import Prelude RustStd Interface Authenticators KeyInfo OnDisk Concrete.
From S2P Require Import Provide ProviderState MbedSpec Scenario TrustedService TrustedServiceSpec.
From S2P Require Import Threads Claims TsThreads.
Import TsProvider.

(** What a request is about to do to the mappings. *)
Inductive ts_intent := TsCreating (t : KeyTriple) | TsDestroying (t : KeyTriple) | TsUsing.

Definition ts_clash (i j : ts_intent) : bool :=
  match i, j with TsCreating t, TsCreating u => bool_decide (t = u) | _, _ => false end.

Definition ts_intent_of (c : ApplicationName * NativeOperation) : ts_intent :=
  match c.2 with
  | PsaGenerateKey o => TsCreating (triple c.1 (gk_key_name o))
  | PsaImportKey o => TsCreating (triple c.1 (ik_key_name o))
  | PsaDestroyKey k => TsDestroying (triple c.1 k)
  | _ => TsUsing
  end.

(** What a request in progress knows: nothing; that its name is free; that it drove the
    counter over the limit; that it is and the identifier [id] is its own, drawn or
    with a key; that only its name can be mapped to [id]; that no name is. *)
Inductive ts_holding :=
  | NoClaim | NameOpen | OverLimit | Drawn (id : Z) | KeyMade (id : Z) | OldId (id : Z)
  | GoneId (id : Z).

(** The requests that are about to set the counter back count. *)
Definition ts_counts (h : ts_holding) : bool := match h with OverLimit => true | _ => false end.

Definition new_id (h : ts_holding) : option Z :=
  match h with Drawn id | KeyMade id => Some id | _ => None end.
Definition any_id (h : ts_holding) : option Z :=
  match h with Drawn id | KeyMade id | OldId id | GoneId id => Some id | _ => None end.
(** A new identifier is known to one request only. *)
Definition ts_apart (h g : ts_holding) : Prop :=
  (forall id, new_id h = Some id -> any_id g <> Some id) /\
  (forall id, new_id g = Some id -> any_id h <> Some id).

Lemma ts_apart_sym h g : ts_apart h g -> ts_apart g h.
Proof. by intros []. Qed.
Lemma ts_apart_none g : ts_apart NoClaim g.
Proof. done. Qed.
(** Knowing less of an identifier keeps one apart. *)
Lemma ts_apart_less h h' g :
  ts_apart h g -> (new_id h' = None \/ new_id h' = new_id h) ->
  (any_id h' = None \/ any_id h' = any_id h) -> ts_apart h' g.
Proof.
  intros [Ha Hb] Hn Ho. split; intros id Hid; [apply Ha|]; [destruct Hn; congruence|].
  destruct Ho as [-> | ->]; [done|by apply Hb].
Qed.

Section Spec.
Context {K R : Type} `{KimSpec K} `{TsLaws R} `{BZ : Bincode Z}.
Context `{!BincodeLaws Z} `{!BincodeU32}.
Context (self : Provider).
Implicit Types (s w : pstate K (device R)) (t : KeyTriple) (id : Z).
Implicit Types (i : ts_intent) (h g : ts_holding).

(** An identifier that was drawn at some time. *)
Definition ts_old s id : Prop := (id <= counter s /\ id <= psa_key_id_user_max)%Z.
Definition ts_known s id : Prop := ts_old s id /\ id ∈ keys s.
(** The counter passes the limit by no more than the requests that will set it back. *)
Record ts_sound (n : nat) s : Prop := {
  tn_counter : (0 <= counter s <= psa_key_id_user_max + Z.of_nat n)%Z;
  tn_mapped : mapped TrustedService (ts_known s) (mappings s);
}.

Definition name_open i s : Prop :=
  match i with TsCreating t => mappings s !! t = None | _ => False end.
Definition only_mine i id s : Prop :=
  match i with
  | TsDestroying t => forall u k, mappings s !! u = Some k -> kt_provider_id u = TrustedService ->
      id_of k = Some id -> u = t
  | _ => False
  end.
Definition ts_unused s id : Prop := ts_old s id /\ ~ used TrustedService (mappings s) id.

Definition ts_holds i h s : Prop :=
  match h with
  | NoClaim | OverLimit => True
  | NameOpen => name_open i s
  | Drawn id => name_open i s /\ (0 <= id)%Z /\ ts_unused s id
  | KeyMade id => name_open i s /\ (0 <= id)%Z /\ ts_unused s id /\ id ∈ keys s
  | OldId id => only_mine i id s /\ ts_old s id
  | GoneId id => ts_unused s id
  end.

(** All that is held is old. *)
Lemma held_old i h s id : ts_holds i h s -> any_id h = Some id -> ts_old s id.
Proof. destruct h; simpl; try done; unfold ts_unused; intros Hh [= <-]; tauto. Qed.
(** What is new is in no mapping. *)
Lemma new_unused i h s id : ts_holds i h s -> new_id h = Some id -> ts_unused s id.
Proof. destruct h; simpl; try done; intros Hh [= <-]; tauto. Qed.

(** Steps that leave the mappings alone. *)
Lemma holds_keep i h s s' :
  mappings s' = mappings s -> (forall id, ts_old s id -> ts_old s' id) ->
  (forall id, new_id h = Some id -> id ∈ keys s -> id ∈ keys s') ->
  ts_holds i h s -> ts_holds i h s'.
Proof.
  intros Hm Ho Hk. unfold ts_holds, name_open, only_mine, ts_unused. rewrite Hm.
  destruct h; simpl in *; try done; naive_solver.
Qed.

Section Steps.
Context (cap : nat) (Hcap : (Z.of_nat cap <= 2 ^ 30)%Z).
Abbreviation exchange := (exchange ts_sound ts_counts ts_holds ts_apart ts_clash).
Abbreviation claims := (claims ts_sound ts_counts ts_holds ts_apart ts_clash cap).
Abbreviation ends := (ends ts_counts).
Abbreviation weight := (weight ts_counts).

(** A step that changes nothing of this. *)
Lemma keep_exchange i n h h' s s' :
  ts_sound (weight h + n) s -> mappings s' = mappings s -> counter s' = counter s ->
  keys s' = keys s -> ts_holds i h' s -> weight h' = weight h ->
  (forall j g, ts_apart h g -> ts_holds j g s -> ts_apart h' g) -> exchange i n h s h' s'.
Proof.
  intros [Hc Hm] Hv Hn Hk Hh Hw Ha.
  assert (Hold : forall id, ts_old s id -> ts_old s' id) by (unfold ts_old; by rewrite Hn).
  split.
  - split; [by rewrite Hw, Hn|]. rewrite Hv. apply (mapped_mono _ _ _ _ Hm).
    intros id _ [Ho Hin]. split; [by apply Hold|by rewrite Hk].
  - apply (holds_keep _ _ s); auto. by rewrite Hk.
  - intros j g _ Hap Hg. split; [by eapply Ha|]. apply (holds_keep _ _ s); auto. by rewrite Hk.
Qed.

(** The key of an identifier that no mapping names goes, or stays. *)
Lemma drop_exchange i n h id s s' :
  ts_sound (weight h + n) s -> ts_counts h = false -> any_id h = Some id -> ts_unused s id ->
  mappings s' = mappings s -> counter s' = counter s ->
  keys s' = keys s \/ keys s' = keys s ∖ {[id]} -> exchange i n h s NoClaim s'.
Proof.
  intros [Hc Hm] Hw Hany [_ Hun] Hv Hn Hk. unfold Claims.weight in *. rewrite Hw in Hc.
  assert (Hold : forall id, ts_old s id -> ts_old s' id) by (unfold ts_old; by rewrite Hn).
  assert (Hkeep : forall id', id' <> id -> id' ∈ keys s -> id' ∈ keys s') by set_solver.
  split; [|done|].
  - split; [by rewrite Hn|]. rewrite Hv. apply (mapped_mono _ _ _ _ Hm).
    intros id' Hu [Ho Hin]. split; [by apply Hold|]. apply Hkeep; [|done]. by intros ->.
  - intros j g _ [_ Hap] Hg. split; [done|]. apply (holds_keep _ _ s); [done|done| |done].
    intros id' Hid'. apply Hkeep. intros ->. by apply (Hap id).
Qed.

(** *** Programs that only look *)
Definition ts_still {A} (m : ST (pstate K (device R)) ResponseStatus A) : Prop :=
  forall s, mappings (m s).2 = mappings s /\ counter (m s).2 = counter s /\
    keys (m s).2 = keys s /\ (m s).1 <> Panic.
Definition ts_looks {A} (p : PR (pstate K (device R)) ResponseStatus A) : Prop :=
  forall i h, ts_counts h = false -> claims i ends p h.

Lemma ts_looks_once {A} (m : ST (pstate K (device R)) ResponseStatus A) :
  ts_still m -> ts_looks (once m).
Proof.
  intros Hm i h Hh. apply claims_atomic. intros n s _ Hs Hhs. exists h.
  destruct (Hm s) as (Hv & Hn & Hk & Hp). split; [|done]. by apply keep_exchange.
Qed.
Lemma ts_looks_bind {A B} (p : PR (pstate K (device R)) ResponseStatus A)
    (q : A -> PR _ ResponseStatus B) :
  ts_looks p -> (forall a, ts_looks (q a)) -> ts_looks (x ← p; q x).
Proof.
  intros Hp Hq i h Hh. apply claims_bind. eapply claims_mono; [by apply Hp|].
  intros [a|e|] g [Hr Hg]; [by apply Hq|done|done].
Qed.
Lemma ts_looks_ret {A} (a : A) : ts_looks (mret a).
Proof. by intros i h Hh. Qed.

Lemma ts_still_kim {A} (m : ST K ResponseStatus A) :
  (forall k, (m k).2 = k /\ (m k).1 <> Panic) -> ts_still (on_kim m).
Proof.
  intros Hm s. destruct (Hm (kim s)) as [Hk Hp]. unfold on_kim, zoom.
  destruct (m (kim s)) as [r k]. simpl in *. subst. by rewrite pstate_eta.
Qed.
Lemma ts_still_rpc {A} (m : ST R TsError A) : ts_reads m -> ts_still (on_err ts_status (on_rpc m)).
Proof.
  intros Hm s. destruct (Hm (rpc (dev s))) as [Hk Hp]. unfold on_rpc, on_dev. run_unfold.
  destruct (m (rpc (dev s))) as [r r1]. simpl in *. split_and!; [done|done|done|by destruct r].
Qed.
Lemma ts_still_id t : ts_still (on_kim (get_key_id Z (key_info_store self) t)).
Proof.
  apply ts_still_kim. intros k. rewrite get_key_id_run. split; [done|]. simpl.
  destruct (kim_view k !! t); [|done]. by destruct (bincode_deserialize _).
Qed.

Definition ts_reading (op : NativeOperation) : bool :=
  match op with PsaGenerateKey _ | PsaImportKey _ | PsaDestroyKey _ => false | _ => true end.
Lemma ts_code_looks a op : ts_reading op = true -> ts_looks (TsThread.code self (a, op)).
Proof.
  unfold TsThread.code. cbn [fst snd].
  destruct op; intros Hr; try discriminate Hr; try (by intros i h Hh);
    (apply ts_looks_bind; [|intros; apply ts_looks_ret]).
  - apply ts_looks_once, ts_still_kim. intros k.
    by destruct (list_keys_run (key_info_store self) a k) as (l & -> & _).
  - apply ts_looks_bind; [|intros; apply ts_looks_ret]. apply ts_looks_once, ts_still_kim.
    intros k. by destruct (list_clients_run (key_info_store self) k) as (l & -> & _).
  - apply ts_looks_bind; [apply ts_looks_once, ts_still_id|intros id].
    apply ts_looks_once, ts_still_rpc, export_reads.
  - apply ts_looks_bind; [apply ts_looks_once, ts_still_id|intros id].
    apply ts_looks_once, ts_still_rpc, sign_reads.
  - apply ts_looks_bind; [apply ts_looks_once, ts_still_id|intros id].
    apply ts_looks_once, ts_still_rpc, verify_reads.
Qed.

(** *** The steps that change something *)
Lemma ts_check_claims t (Q : Result unit -> ts_holding -> Prop) :
  Q (Ok tt) NameOpen -> (forall e, Q (Err e) NoClaim) ->
  claims (TsCreating t) Q (once (on_kim (does_not_exist (key_info_store self) t))) NoClaim.
Proof.
  intros HOk HErr. apply claims_atomic. intros n s _ Hs _. unfold on_kim, zoom.
  rewrite does_not_exist_run. change (kim_view (kim s)) with (mappings s). simpl.
  rewrite pstate_eta. destruct (mappings s !! t) eqn:Ht.
  - exists NoClaim. split; [by apply keep_exchange|done].
  - exists NameOpen. split; [by apply keep_exchange|done].
Qed.

(** The counter moves up; no identifier that is in use or held is above it. *)
Lemma ts_add_claims t (Q : Result Z -> ts_holding -> Prop) :
  (forall old, u32_wrap (old + 1) = (old + 1)%Z ->
     Q (Ok old) (if (psa_key_id_user_max <? old + 1)%Z then OverLimit else Drawn (old + 1))) ->
  claims (TsCreating t) Q (once (on_counter (fun n => (Ok n, u32_wrap (n + 1))))) NameOpen.
Proof.
  intros HQ. apply claims_atomic. intros n s Hn [Hc Hm] Hopen. simpl in Hopen.
  pose proof ts_id_bounds as Hb. unfold Claims.weight in Hc. simpl in Hc.
  assert (Hwrap : u32_wrap (counter s + 1) = (counter s + 1)%Z).
  { unfold u32_wrap. apply Z.mod_small. lia. }
  specialize (HQ (counter s) Hwrap). unfold on_counter, on_dev, zoom. simpl.
  fold (counter s). rewrite Hwrap. eexists. split; [|exact HQ].
  set (s' := {| kim := kim s; dev := {| rpc := rpc (dev s); id_counter := counter s + 1 |} |}).
  assert (Hcs : counter s' = (counter s + 1)%Z) by done.
  assert (Hold : forall id, ts_old s id -> ts_old s' id) by (unfold ts_old; rewrite Hcs; lia).
  assert (Hoth : forall j g, ts_holds j g s -> ts_holds j g s').
  { intros j g. by apply holds_keep. }
  assert (Hm' : mapped TrustedService (ts_known s') (mappings s')).
  { apply (mapped_mono _ _ _ _ Hm). intros id _ [Ho Hin]. split; [by apply Hold|done]. }
  destruct (Z.ltb_spec psa_key_id_user_max (counter s + 1)).
  - split; [|done|]; [|by intros; split; [|by apply Hoth]].
    split; [rewrite Hcs; unfold Claims.weight; simpl; lia|done].
  - split.
    + split; [rewrite Hcs; lia|done].
    + simpl. split_and!; [done|lia|]. split; [unfold ts_old; lia|].
      intros Hu. apply (used_live _ _ _ _ Hm) in Hu as [[Hle _] _]. lia.
    + intros j g _ _ Hg. split; [|by apply Hoth].
      split; intros id Hid Heq; simplify_eq/=.
      * destruct (held_old _ _ _ _ Hg Heq). lia.
      * destruct (proj1 (new_unused _ _ _ _ Hg Hid)). lia.
Qed.

Lemma ts_store_max_claims t (Q : Result unit -> ts_holding -> Prop) :
  Q (Ok tt) NoClaim ->
  claims (TsCreating t) Q (once (on_counter (modify (fun _ => psa_key_id_user_max)))) OverLimit.
Proof.
  intros HQ. apply claims_atomic. intros n s Hn [Hc Hm] _. exists NoClaim. split; [|done].
  pose proof ts_id_bounds as Hb. unfold on_counter, on_dev, zoom, modify. simpl.
  set (s' := {| kim := kim s;
                dev := {| rpc := rpc (dev s); id_counter := psa_key_id_user_max |} |}).
  assert (Hcs : counter s' = psa_key_id_user_max) by done.
  assert (Hold : forall id, ts_old s id -> ts_old s' id) by (unfold ts_old; rewrite Hcs; lia).
  split; [|done|].
  - split; [rewrite Hcs; lia|]. apply (mapped_mono _ _ _ _ Hm).
    intros id _ [Ho Hin]. split; [by apply Hold|done].
  - intros j g _ _ Hg. split; [done|]. by apply (holds_keep _ _ s).
Qed.

Lemma ts_id_claims t (Q : Result Z -> ts_holding -> Prop) :
  (forall id, Q (Ok id) (Drawn id)) -> (forall e, Q (Err e) NoClaim) ->
  claims (TsCreating t) Q TsThread.create_key_id NameOpen.
Proof.
  intros HOk HErr. apply claims_bind, ts_add_claims. intros old ->.
  destruct (_ <? _)%Z; [|apply HOk]. apply claims_bind, ts_store_max_claims, HErr.
Qed.

Lemma ts_make_claims t id make (Q : result TsError unit -> ts_holding -> Prop) :
  ts_creates_key id make ->
  Q (Ok tt) (KeyMade id) -> (forall e, Q (Err e) NoClaim) ->
  claims (TsCreating t) Q (once (on_rpc make)) (Drawn id).
Proof.
  intros Hmake HOk HErr. apply claims_atomic. intros n s _ [Hc Hm] (Hopen & Hpos & Hun).
  unfold on_rpc, on_dev, zoom. simpl. specialize (Hmake (rpc (dev s))). fold (keys s) in Hmake.
  destruct (make (rpc (dev s))) as [res r]. simpl.
  set (s' := {| kim := kim s; dev := {| rpc := r; id_counter := id_counter (dev s) |} |}).
  assert (Hgrow : ts_keys r = keys s \/ ts_keys r = {[id]} ∪ keys s) by (destruct res; tauto).
  assert (Hk : forall id', id' ∈ keys s -> id' ∈ keys s').
  { intros id' Hin. unfold keys at 1. simpl. set_solver. }
  assert (Hex : forall h', ts_counts h' = false -> ts_holds (TsCreating t) h' s' ->
    (new_id h' = None \/ new_id h' = Some id) -> (any_id h' = None \/ any_id h' = Some id) ->
    exchange (TsCreating t) n (Drawn id) s h' s').
  { intros h' Hh' Hown Hn' Ha'. split; [|done|].
    - unfold Claims.weight. rewrite Hh'. split; [done|]. apply (mapped_mono _ _ _ _ Hm).
      intros id' _ [Ho Hin]. split; [done|by apply Hk].
    - intros j g _ Hap Hg. split; [by apply (ts_apart_less (Drawn id))|].
      apply (holds_keep _ _ s); [done|done| |done]. intros id' _. apply Hk. }
  destruct res as [[]|e|]; [| |done].
  - exists (KeyMade id). split; [|done]. apply Hex; [done| |by right|by right].
    simpl. split_and!; [done|done|exact Hun|]. unfold keys. simpl. set_solver.
  - exists NoClaim. split; [|done]. apply Hex; [done|done|by left|by left].
Qed.

Lemma ts_insert_claims t id attrs (Q : Result unit -> ts_holding -> Prop) :
  Q (Ok tt) NoClaim -> (forall e, Q (Err e) (KeyMade id)) ->
  claims (TsCreating t) Q (once (on_kim (insert_key_info (key_info_store self) t id attrs)))
    (KeyMade id).
Proof.
  intros HOk HErr. apply claims_atomic. intros n s _ Hs (Hopen & Hpos & [[Ho Hmax] Hun] & Hin).
  simpl in Hopen. pose proof ts_id_bounds as Hb.
  destruct (bincode_u32 id ltac:(lia)) as [b Hser]. unfold on_kim, zoom.
  destruct (insert_key_info_cases (key_info_store self) t id attrs (kim s) b Hser)
    as (k1 & [[-> Hv]|[-> Hv]]); change (kim_view (kim s)) with (mappings s) in *.
  { simpl. exists (KeyMade id). split; [|by apply HErr]. by apply keep_exchange. }
  rewrite Hopen. simpl. exists NoClaim. split; [|done].
  set (s' := {| kim := k1; dev := dev s |}). change (kim_view k1) with (mappings s') in Hv.
  assert (Hround : id_of (T := Z) {| ki_id := b; ki_attributes := attrs |} = Some id)
    by (by apply bincode_round).
  assert (Hused : forall id', id' <> id -> ~ used TrustedService (mappings s) id' ->
    ~ used TrustedService (mappings s') id').
  { intros id' Hne Hno (u & k & Hu & Hp & Hk). rewrite Hv in Hu.
    apply lookup_insert_Some in Hu as [[<- <-]|[_ Hu]]; [congruence|]. apply Hno. by exists u, k. }
  split; [|done|].
  - split; [apply Hs|]. rewrite Hv.
    by apply (mapped_insert _ _ _ _ id); [apply (tn_mapped _ _ Hs)|..].
  - intros j g Hcl [Hap Hap'] Hg. split; [done|].
    assert (Hname : name_open j s -> name_open j s').
    { destruct j as [u|u|]; simpl in *; try done. intros Hu. rewrite Hv, lookup_insert_ne; [done|].
      by apply bool_decide_eq_false in Hcl. }
    assert (Hne : forall id', any_id g = Some id' -> id' <> id).
    { intros id' Hid' ->. by apply (Hap id). }
    destruct g as [| | |id'|id'|id'|id']; simpl in *; try done.
    + by auto.
    + destruct Hg as (? & ? & ? & ?). split_and!; auto. split; [done|]. by apply Hused; auto.
    + destruct Hg as (? & ? & [? ?] & ?). split_and!; auto. split; [done|]. by apply Hused; auto.
    + destruct Hg as [Honly Hold]. split; [|done]. destruct j as [u|u|]; simpl in *; try done.
      intros u' k Hu' Hp Hk. rewrite Hv in Hu'.
      apply lookup_insert_Some in Hu' as [[<- <-]|[_ Hu']]; [|by eapply Honly].
      exfalso. apply (Hne id'); congruence.
    + destruct Hg as [? ?]. split; [done|]. by apply Hused; auto.
Qed.

(** The call that destroys a key no mapping names. *)
Lemma ts_destroy_claims i id (Q : result TsError unit -> ts_holding -> Prop) h :
  h = KeyMade id \/ h = GoneId id -> (forall r, r <> Panic -> Q r NoClaim) ->
  claims i Q (once (on_rpc (TsContext.destroy_key (context self) id))) h.
Proof.
  intros Hh HQ. apply claims_atomic. intros n s _ Hs Hhs. exists NoClaim.
  assert (Hun : ts_unused s id) by (destruct Hh as [-> | ->]; simpl in Hhs; tauto).
  unfold on_rpc, on_dev. run_unfold.
  pose proof (destroy_key_effect (context self) id (rpc (dev s))) as Hd.
  destruct (TsContext.destroy_key (context self) id (rpc (dev s))) as [res r]. simpl.
  split; [|apply HQ; by destruct res].
  apply (drop_exchange i n h id s); [done|by destruct Hh as [-> | ->]..|done|done|].
  unfold keys at 1 3. simpl. destruct res; tauto.
Qed.

Lemma ts_found_claims t (Q : Result Z -> ts_holding -> Prop) :
  kt_provider_id t = TrustedService ->
  (forall id, Q (Ok id) (OldId id)) -> (forall e, Q (Err e) NoClaim) ->
  claims (TsDestroying t) Q (once (on_kim (get_key_id Z (key_info_store self) t))) NoClaim.
Proof.
  intros Hp HOk HErr. apply claims_atomic. intros n s _ Hs _. unfold on_kim, zoom.
  rewrite get_key_id_run. change (kim_view (kim s)) with (mappings s). simpl.
  rewrite pstate_eta.
  destruct (mappings s !! t) as [k|] eqn:Ht.
  2: { exists NoClaim. split; [|by apply HErr]. by apply keep_exchange. }
  destruct (bincode_deserialize (ki_id k)) as [id|] eqn:Hid.
  2: { exists NoClaim. split; [|by apply HErr]. by apply keep_exchange. }
  exists (OldId id). split; [|by apply HOk].
  assert (Hu : used TrustedService (mappings s) id) by (by exists t, k).
  apply keep_exchange; try done.
  - split; [|by apply (used_live _ _ _ _ (tn_mapped _ _ Hs)) in Hu as [? _]].
    intros u k' Hu' Hpu Hk'. by apply (mp_distinct _ _ _ (tn_mapped _ _ Hs) u t k' k id).
  - intros j g _ Hg. split; [done|]. intros id' Hid' [= ->].
    by apply (new_unused _ _ _ _ Hg Hid').
Qed.

Lemma ts_remove_claims t id (Q : Result unit -> ts_holding -> Prop) :
  Q (Ok tt) (GoneId id) -> (forall e, Q (Err e) NoClaim) ->
  claims (TsDestroying t) Q (once (on_kim (remove_key_info (key_info_store self) t))) (OldId id).
Proof.
  intros HOk HErr. apply claims_atomic. intros n s _ Hs [Honly Hold]. simpl in Honly.
  unfold on_kim, zoom.
  destruct (remove_key_info_cases (key_info_store self) t (kim s)) as (k1 & [[-> Hv]|[-> Hv]]);
    change (kim_view (kim s)) with (mappings s) in *; simpl.
  { exists NoClaim. split; [|by apply HErr]. by apply keep_exchange. }
  set (s' := {| kim := k1; dev := dev s |}). change (kim_view k1) with (mappings s') in Hv.
  assert (Hsub : forall id', used TrustedService (mappings s') id' ->
    used TrustedService (mappings s) id').
  { intros id' (u & k & Hu & Hp & Hk). rewrite Hv in Hu. apply lookup_delete_Some in Hu as [_ Hu].
    by exists u, k. }
  assert (Hex : forall h', ts_counts h' = false -> ts_holds (TsDestroying t) h' s' ->
    new_id h' = None -> (any_id h' = None \/ any_id h' = Some id) ->
    exchange (TsDestroying t) n (OldId id) s h' s').
  { intros h' Hh' Hown Hn' Ha'. split; [|done|].
    - unfold Claims.weight. rewrite Hh'. split; [apply Hs|]. rewrite Hv.
      apply mapped_delete, (tn_mapped _ _ Hs).
    - intros j g _ Hap Hg. split; [by apply (ts_apart_less (OldId id)); auto|].
      assert (Hname : name_open j s -> name_open j s').
      { destruct j as [u|u|]; simpl; try done. intros Hu. rewrite Hv, lookup_delete_None. by right. }
      assert (Hmine : forall id', only_mine j id' s -> only_mine j id' s').
      { intros id'. destruct j as [u|u|]; simpl; try done. intros Ho u' k' Hu'.
        rewrite Hv in Hu'. apply lookup_delete_Some in Hu' as [_ Hu']. by apply Ho. }
      unfold ts_holds, ts_unused in *. destruct g; naive_solver. }
  destruct (mappings s !! t) as [k|]; simpl.
  - exists (GoneId id). split; [|done]. apply Hex; [done| |done|by right]. split; [done|].
    intros (u & k' & Hu & Hp & Hk'). rewrite Hv in Hu. apply lookup_delete_Some in Hu as [Hne Hu].
    by apply Hne, eq_sym, (Honly u k').
  - exists NoClaim. split; [|by apply HErr]. by apply Hex; auto.
Qed.

(** *** The programs *)
Lemma ts_create_claims t attrs id make :
  ts_creates_key id make ->
  claims (TsCreating t) ends (TsThread.create_and_store self t attrs id make) (Drawn id).
Proof.
  intros Hmake. apply claims_bind, claims_prog_bind, ts_make_claims; [done| |done].
  apply claims_bind, claims_prog_bind, ts_insert_claims; [done|]. intros e.
  apply claims_bind, claims_prog_bind, ts_destroy_claims; [by left|]. by intros [[]|e'|] Hr.
Qed.

Lemma ts_code_claims c : claims (ts_intent_of c) ends (TsThread.code self c) NoClaim.
Proof.
  destruct c as [a op]. destruct (ts_reading op) eqn:Hr; [by apply ts_code_looks|].
  unfold ts_intent_of, TsThread.code. cbn [fst snd].
  destruct op; try discriminate Hr; apply claims_map.
  - apply claims_bind, ts_check_claims; [|done]. apply claims_bind, ts_id_claims; [|done].
    intros id. apply ts_create_claims, generate_key_creates.
  - apply claims_bind, ts_check_claims; [|done]. apply claims_bind, ts_id_claims; [|done].
    intros id. apply ts_create_claims, import_key_creates.
  - apply claims_bind, ts_found_claims; [done| |done]. intros id.
    apply claims_bind, ts_remove_claims; [|done].
    apply claims_on_err, ts_destroy_claims; [by right|]. by intros [[]|e'|] Hr'.
Qed.
End Steps.

Lemma ts_ok_sound s : ts_ok s -> ts_sound 0 s.
Proof.
  intros [Hc Hm]. split; [lia|]. apply (mapped_mono _ _ _ _ Hm). intros id _ [Hle Hin].
  split; [|done]. unfold ts_old. lia.
Qed.

Lemma sound_ts_ok s : ts_sound 0 s -> ts_ok s.
Proof.
  intros [Hc Hm]. split; [lia|]. apply (mapped_mono _ _ _ _ Hm). intros id _ [[Hle _] Hin]. by split.
Qed.

(** C20: requests of any kind to the Trusted Service provider can run in parallel, on up
    to 2^30 threads, as long as no two in progress create the same key.  Whatever fails
    underneath and however their accesses are interleaved, every mapping names a key
    that the service holds, under an identifier that was drawn for it and is in range,
    no two mappings name the same one, and no request panics.  The counter may pass the
    limit in between; when all requests have finished the invariant of the provider
    holds as it did before. *)
Theorem ts_parallel_safe s0 x :
  ts_ok s0 ->
  rtc (calm_step ts_clash (TsThread.code self) ts_intent_of) (open s0) x ->
  (Z.of_nat (size (threads x)) <= 2 ^ 30)%Z ->
  mapped TrustedService (ts_known (shared x)) (mappings (shared x)) /\
  (forall u c, threads x !! u <> Some (c, Ret Panic)) /\
  ((forall u c p, threads x !! u = Some (c, p) -> finished p = true) -> ts_ok (shared x)).
Proof.
  intros Hok Hrun Hsize.
  destruct (crew_claims ts_sound ts_counts ts_holds ts_apart NoClaim ts_clash (size (threads x))
    ts_apart_sym ts_apart_none (fun _ _ _ _ => I) eq_refl (TsThread.code self) ts_intent_of
    (ends ts_counts) (fun _ _ Hr => conj (proj1 Hr) eq_refl) (fun _ _ Hr => proj2 Hr)
    (ts_code_claims (size (threads x)) Hsize) s0 x) as [(n & Hx & Hn) Hp];
    [by apply ts_ok_sound|done|done|].
  split_and!; [apply Hx|intros u c Hu; by destruct (Hp u c _ Hu) as (h & Hr & _)|].
  intros Hfin. rewrite (Hn Hfin) in Hx. by apply sound_ts_ok.
Qed.
End Spec.

(** ** Concrete runs *)
Definition ts_generate (a k : string) : ApplicationName * NativeOperation :=
  (from_name a, PsaGenerateKey {| gk_key_name := k; gk_attributes := ecc_attributes |}).
Definition ts_destroy (a k : string) : ApplicationName * NativeOperation :=
  (from_name a, PsaDestroyKey k).
Abbreviation ts_crew := (crew (pstate OnDisk (device ts_world)) (Result NativeResult)
  (ApplicationName * NativeOperation)).
Abbreviation ts_turn := (turn (ApplicationName * NativeOperation)).

Definition id_at (s : pstate OnDisk (device ts_world)) (a k : string) : option Z :=
  mappings s !! triple (from_name a) k ≫= id_of.

(** Two applications create keys under the same name, and one destroys its own twice at
    the same time, while a third request creates it again. *)
Definition ts_busy : list ts_turn :=
  [Arrives 0 (ts_generate "app" "k"); Arrives 1 (ts_generate "other" "k");
   Goes 0; Goes 1; Goes 1; Goes 0; Goes 0; Goes 1; Goes 0; Goes 1;
   Arrives 0 (ts_destroy "app" "k"); Arrives 1 (ts_destroy "app" "k");
   Goes 0; Goes 1; Goes 0; Arrives 2 (ts_generate "app" "k"); Goes 2; Goes 2; Goes 0; Goes 2;
   Goes 2; Goes 1; Goes 1].
Definition ts_busy_crew : ts_crew :=
  default (open ts0)
    (take_calm_turns ts_clash (TsThread.code ts_self) ts_intent_of ts_busy (open ts0)).

Lemma ts_busy_run :
  take_calm_turns ts_clash (TsThread.code ts_self) ts_intent_of ts_busy (open ts0) =
  Some ts_busy_crew.
Proof.
  unfold ts_busy_crew.
  assert (Hs : bool_decide (is_Some (take_calm_turns ts_clash (TsThread.code ts_self)
    ts_intent_of ts_busy (open ts0))) = true) by (vm_compute; reflexivity).
  apply bool_decide_eq_true in Hs as [y Hy]. by rewrite Hy.
Qed.

Lemma ts_parallel_safe_witness :
  id_at (shared ts_busy_crew) "other" "k" = Some 2%Z /\
  id_at (shared ts_busy_crew) "app" "k" = None /\
  mapped TrustedService (ts_known (shared ts_busy_crew)) (mappings (shared ts_busy_crew)).
Proof.
  split; [vm_compute; reflexivity|]. split; [vm_compute; reflexivity|].
  apply (ts_parallel_safe ts_self ts0 ts_busy_crew); [exact ts0_ok| |].
  - exact (take_calm_turns_run ts_clash (TsThread.code ts_self) ts_intent_of ts_busy
      (open ts0) ts_busy_crew ts_busy_run).
  - assert (Hs : (Z.of_nat (size (threads ts_busy_crew)) <=? 2 ^ 30)%Z = true)
      by (vm_compute; reflexivity).
    by apply Z.leb_le.
Defined.

(** Two requests that create the same key both find the name free. *)
Definition ts_race : list ts_turn :=
  [Arrives 0 (ts_generate "app" "k"); Arrives 1 (ts_generate "app" "k"); Goes 0; Goes 1;
   Goes 0; Goes 0; Goes 0; Goes 1; Goes 1; Goes 1; Goes 1].
Definition ts_race_crew : ts_crew :=
  default (open ts0) (take_turns (TsThread.code ts_self) ts_race (open ts0)).

Lemma ts_race_run : take_turns (TsThread.code ts_self) ts_race (open ts0) = Some ts_race_crew.
Proof.
  unfold ts_race_crew.
  assert (Hs : bool_decide (is_Some (take_turns (TsThread.code ts_self) ts_race (open ts0)))
    = true) by (vm_compute; reflexivity).
  apply bool_decide_eq_true in Hs as [y Hy]. by rewrite Hy.
Qed.

(** Two requests that create the same key at once: one succeeds, the other replaces its
    mapping, reports that the name exists and destroys the key it made.  The name is then
    mapped to a key the service does not hold, and the key that was reported as created
    has no name. *)
Theorem ts_create_race :
  exists x, rtc (crew_step (TsThread.code ts_self)) (open ts0) x /\
    (exists c, threads x !! 0 = Some (c, Ret (Ok RPsaGenerateKey))) /\
    (exists c, threads x !! 1 = Some (c, Ret (Err PsaErrorAlreadyExists))) /\
    id_at (shared x) "app" "k" = Some 3%Z /\ (3%Z ∉ keys (shared x)) /\ ~ ts_ok (shared x).
Proof.
  exists ts_race_crew.
  assert (Hk : id_at (shared ts_race_crew) "app" "k" = Some 3%Z) by (vm_compute; reflexivity).
  assert (Hgone : 3%Z ∉ keys (shared ts_race_crew)).
  { apply (bool_decide_eq_true_1 _). vm_compute. reflexivity. }
  split_and!; [by eapply take_turns_run, ts_race_run|eexists; vm_compute; reflexivity..|done|done|].
  intros Hok. apply bind_Some in Hk as (i & Hi & Hid).
  destruct (mp_ids _ _ _ (to_mapped _ Hok) _ i Hi eq_refl) as (id & Hid' & _ & Hin).
  congruence.
Qed.
