(* ===== verification/Pkcs11.v ===== *)
(** * The PKCS 11 provider ([src/providers/pkcs11])

    The token behind the [cryptoki] binding is the class [Cryptoki] over its state
    [T]; object and session handles are integers.  A [Session] closes when it goes
    out of scope: [with_session] is the scope.  Software operations on public keys
    go to [psa_crypto] (the class [PsaCrypto] of [Mbed]), the DER encodings are
    those of [picky_asn1] (the class [Der]), and [rand::random] draws from a
    generator (the class [Rng]). *)
From S2P Require Import Prelude RustStd Interface Authenticators KeyInfo Provide CoreProvider.
From S2P Require Import ProviderState Mbed CryptoAuthLib.

(** ** What the provider is written against *)
Inductive RvError :=
  | HostMemory | DeviceError | DeviceMemory | DeviceRemoved | SignatureInvalid
  | SignatureLenRange | TokenNotPresent | TokenNotRecognized | RandomNoRng | StateUnsaveable
  | CurveNotSupported | DomainParamsInvalid | FunctionNotSupported | RvError_other (n : nat).
(** [cryptoki::Error] *)
Inductive ck_error :=
  | LibraryLoading | Pkcs11_rv (ck_rv : RvError) | CkNotSupported | TryFromInt | TryFromSlice
  | NulError | ck_error_other (n : nat).

Inductive ObjectClass := PUBLIC_KEY | PRIVATE_KEY.
Inductive CkKeyType := CKK_RSA | CKK_EC.
Inductive MechanismType := RSA_PKCS | ECDSA | MechanismType_other (n : nat).
Inductive Mechanism := RsaPkcsKeyPairGen | EccKeyPairGen | Mechanism_other (n : nat).
Inductive CkAttribute :=
  | AId (id : bytes) | AToken (b : bool) | AAllowedMechanisms (l : list MechanismType)
  | APrivate (b : bool) | ASign (b : bool) | AVerify (b : bool) | AEncrypt (b : bool)
  | ADecrypt (b : bool) | ADerive (b : bool) | AExtractable (b : bool) | ASensitive (b : bool)
  | ACopyable (b : bool) | APublicExponent (e : bytes) | AModulusBits (n : Z)
  | AEcParams (p : bytes) | AClass (c : ObjectClass) | AModulus (m : bytes)
  | AKeyType (k : CkKeyType) | AEcPoint (p : bytes) | CkAttribute_other (n : nat).
Inductive AttributeType := TModulus | TPublicExponent | TEcPoint.
#[export] Instance ObjectClass_eq_dec : EqDecision ObjectClass. Proof. solve_decision. Defined.
#[export] Instance CkKeyType_eq_dec : EqDecision CkKeyType. Proof. solve_decision. Defined.
#[export] Instance MechanismType_eq_dec : EqDecision MechanismType. Proof. solve_decision. Defined.
#[export] Instance CkAttribute_eq_dec : EqDecision CkAttribute. Proof. solve_decision. Defined.

Class Cryptoki (T : Type) := {
  (** [Mechanism::try_from(Algorithm)], [mechanism_type], [Ulong] and [Slot] from
      integers, and [ResponseStatus::from] on the standard library's errors *)
  mechanism_of : Algorithm -> result ck_error Mechanism;
  mechanism_type : Mechanism -> MechanismType;
  ulong_of : Z -> result ck_error Z;
  slot_of : Z -> option Z;
  status_try_from_int : ResponseStatus;
  status_try_from_slice : ResponseStatus;
  status_nul_error : ResponseStatus;
  pkcs11_new : string -> ST T ck_error unit;
  pkcs11_initialize : ST T ck_error unit;
  set_pin : Z -> string -> ST T ck_error unit;
  (** slot, read/write and serial flags *)
  open_session_no_callback : Z -> bool -> bool -> ST T ck_error Z;
  close_session : Z -> T -> T;
  login_user : Z -> ST T ck_error unit;
  find_objects : Z -> list CkAttribute -> ST T ck_error (list Z);
  get_attributes : Z -> Z -> list AttributeType -> ST T ck_error (list CkAttribute);
  generate_key_pair : Z -> Mechanism -> list CkAttribute -> list CkAttribute ->
    ST T ck_error (Z * Z);
  create_object : Z -> list CkAttribute -> ST T ck_error Z;
  destroy_object : Z -> Z -> ST T ck_error unit;
  ck_sign : Z -> Mechanism -> Z -> bytes -> ST T ck_error bytes;
  ck_verify : Z -> Mechanism -> Z -> bytes -> bytes -> ST T ck_error unit;
  ck_encrypt : Z -> Mechanism -> Z -> bytes -> ST T ck_error bytes;
  ck_decrypt : Z -> Mechanism -> Z -> bytes -> ST T ck_error bytes;
}.

Inductive SHAVariant := SHA2_224 | SHA2_256 | SHA2_384 | SHA2_512.
(** [picky_asn1]'s [RSAPublicKey]; an [IntegerAsn1] is its content bytes. *)
Record RSAPublicKey := { modulus : bytes; public_exponent : bytes }.
Class Der := {
  rsa_public_key_from_bytes : bytes -> option RSAPublicKey;
  rsa_public_key_to_vec : RSAPublicKey -> option bytes;
  is_negative : bytes -> bool;
  as_unsigned_bytes_be : bytes -> bytes;
  from_bytes_be_unsigned : bytes -> bytes;
  octet_string_to_vec : bytes -> option bytes;
  octet_string_from_bytes : bytes -> option bytes;
  (** [ECParameters::NamedCurve] of an object identifier *)
  named_curve_to_vec : string -> option bytes;
  digest_info_to_vec : SHAVariant -> bytes -> option bytes;
}.

(** [rand::random::<u32>()] *)
Class Rng (G : Type) := random_u32 : G -> Z * G.

(** [u32::to_be_bytes] *)
Definition u32_to_be_bytes (z : Z) : bytes := rev (to_le_bytes 4 z).

Module Pkcs11Provider.
Definition SUPPORTED_OPCODES : list Opcode :=
  [ OpPsaGenerateKey; OpPsaDestroyKey; OpPsaSignHash; OpPsaVerifyHash; OpPsaImportKey;
    OpPsaExportPublicKey; OpPsaAsymmetricDecrypt; OpPsaAsymmetricEncrypt ].

(** ** [utils.rs] *)
Definition PUBLIC_EXPONENT : bytes := ["001"; "000"; "001"]%char.

Definition rv_to_response_status (rv : RvError) : ResponseStatus :=
  match rv with
  | HostMemory => PsaErrorInsufficientMemory
  | DeviceError => PsaErrorHardwareFailure
  | DeviceMemory => PsaErrorInsufficientStorage
  | DeviceRemoved => PsaErrorHardwareFailure
  | SignatureInvalid => PsaErrorInvalidSignature
  | SignatureLenRange => PsaErrorInvalidSignature
  | TokenNotPresent => PsaErrorHardwareFailure
  | TokenNotRecognized => PsaErrorHardwareFailure
  | RandomNoRng => PsaErrorInsufficientEntropy
  | StateUnsaveable => PsaErrorHardwareFailure
  | CurveNotSupported | DomainParamsInvalid | FunctionNotSupported => PsaErrorNotSupported
  | _ => PsaErrorCommunicationFailure
  end.

Definition to_response_status `{Cryptoki T} (error : ck_error) : ResponseStatus :=
  match error with
  | LibraryLoading => PsaErrorCommunicationFailure
  | Pkcs11_rv ck_rv => rv_to_response_status ck_rv
  | CkNotSupported => PsaErrorNotSupported
  | TryFromInt => status_try_from_int
  | TryFromSlice => status_try_from_slice
  | NulError => status_nul_error
  | _ => PsaErrorCommunicationFailure
  end.

Inductive KeyPairType := PublicKey | PrivateKey | Any.

(** The two templates, extended. *)
Definition key_pair_usage_flags_to_pkcs11_attributes (u : UsageFlags)
    (pub_template priv_template : list CkAttribute) : list CkAttribute * list CkAttribute :=
  (pub_template ++
     [ AVerify (verify_hash u || verify_message u); AEncrypt (encrypt u); ACopyable (copy u) ],
   priv_template ++
     [ ASign (sign_hash u || sign_message u); ADecrypt (decrypt u); ADerive (derive u);
       AExtractable (export u); ASensitive (negb (export u)); ACopyable (copy u) ]).

Definition digest_info `{Der} (alg : AsymmetricSignature) (hash : bytes) : Result bytes :=
  oid ← (match alg with
         | RsaPkcs1v15Sign (SignHash_Specific Sha224) => Ok SHA2_224
         | RsaPkcs1v15Sign (SignHash_Specific Sha256) => Ok SHA2_256
         | RsaPkcs1v15Sign (SignHash_Specific Sha384) => Ok SHA2_384
         | RsaPkcs1v15Sign (SignHash_Specific Sha512) => Ok SHA2_512
         | _ => Err PsaErrorNotSupported
         end);
  ok_or (digest_info_to_vec oid hash) PsaErrorGenericError.

Definition ec_params (ecc_family : EccFamily) (bits : Z) : Result string :=
  match ecc_family, bits with
  | SecpR1, 192%Z => Ok "1.2.840.10045.3.1.1"%string
  | SecpR1, 224%Z => Ok "1.3.132.0.33"%string
  | SecpR1, 256%Z => Ok "1.2.840.10045.3.1.7"%string
  | SecpR1, 384%Z => Ok "1.3.132.0.34"%string
  | SecpR1, 521%Z => Ok "1.3.132.0.35"%string
  | _, _ => Err PsaErrorNotSupported
  end.

(** ** State *)
Record Provider := { key_info_store : KeyInfoManagerClient; slot_number : Z;
  software_public_operations : bool; allow_export : bool }.
Record device (T B G : Type) := { token : T; psa_lib : B; rng : G; local_ids : gset Z }.
Arguments token {T B G}.
Arguments psa_lib {T B G}.
Arguments rng {T B G}.
Arguments local_ids {T B G}.

(** [key_metadata.rs].  The loop of [create_key_id] has no bound in the source;
    it is followed for [fuel] more draws, and [None] means that it went on. *)
Fixpoint draw_free {G} `{Rng G} (fuel : nat) (ids : gset Z) (key_id : Z) (g : G)
    : option Z * G :=
  if decide (key_id ∈ ids) then
    match fuel with
    | O => (None, g)
    | S fuel' => let '(key_id', g') := random_u32 g in draw_free fuel' ids key_id' g'
    end
  else (Some key_id, g).

Section Provider.
Context {K T B G : Type} `{ManageKeyInfo K} `{Cryptoki T} `{PsaCrypto B} `{Rng G}.
Context `{Validate} `{KeyApi} `{Der} `{Bincode Z} (fuel : nat).
Implicit Types (self : Provider) (app_name : ApplicationName).
Abbreviation W := (pstate K (device T B G)).
Abbreviation M A := (ST W ResponseStatus A).

Definition set_token (t : T) (d : device T B G) : device T B G :=
  {| token := t; psa_lib := psa_lib d; rng := rng d; local_ids := local_ids d |}.
Definition on_token {E A} (m : ST T E A) : ST W E A := on_dev (zoom token set_token m).
Definition on_psa {E A} (m : ST B E A) : ST W E A :=
  on_dev (zoom psa_lib (fun b d => {| token := token d; psa_lib := b; rng := rng d;
                                      local_ids := local_ids d |}) m).
(** Calls followed by [map_err(to_response_status)] and by [?]. *)
Definition ck {A} (m : ST T ck_error A) : M A := on_err to_response_status (on_token m).
Definition psa {A} (m : ST B psa_error A) : M A := on_err status_of (on_psa m).

(** A loop that went on is a computation that does not return; it is the only
    [panic] of the running provider. *)
Definition create_key_id : M Z :=
  on_dev (fun d =>
    let '(key_id, g) := random_u32 (rng d) in
    let '(found, g') := draw_free fuel (local_ids d) key_id g in
    match found with
    | Some key_id => (Ok key_id, {| token := token d; psa_lib := psa_lib d; rng := g';
                                    local_ids := {[key_id]} ∪ local_ids d |})
    | None => (Panic, {| token := token d; psa_lib := psa_lib d; rng := g';
                         local_ids := local_ids d |})
    end).

(** ** Sessions *)
Definition closing {E A} (session : Z) (m : ST W E A) : ST W E A := fun s =>
  let '(r, s') := m s in
  (r, {| kim := kim s'; dev := set_token (close_session session (token (dev s'))) (dev s') |}).

(** [new_session], the code that uses the session and the end of its scope. *)
Definition with_session {A} self (k : Z -> M A) : M A :=
  session ← ck (open_session_no_callback (slot_number self) true true);
  closing session (ck (login_user session) ;; k session).

Definition triple app_name (key_name : string) : KeyTriple :=
  KeyTriple_new app_name Pkcs11 key_name.

(** ** [key_management.rs] *)
Definition find_key (session key_id : Z) (key_type : KeyPairType) : M Z :=
  let template := AId (u32_to_be_bytes key_id) ::
    match key_type with
    | PublicKey => [AClass PUBLIC_KEY]
    | PrivateKey => [AClass PRIVATE_KEY]
    | Any => []
    end in
  objects ← ck (find_objects session template);
  match objects with
  | [] => raise PsaErrorDoesNotExist
  | o :: _ => mret o
  end.

Definition export_public_rsa_internal (key session : Z) : M bytes :=
  attributes ← ck (get_attributes session key [TModulus; TPublicExponent]);
  match attributes with
  | [a; b] =>
    match a with
    | AModulus vec =>
      let modulus := from_bytes_be_unsigned vec in
      match b with
      | APublicExponent vec =>
        let public_exponent := from_bytes_be_unsigned vec in
        lift (ok_or (rsa_public_key_to_vec {| modulus := modulus; public_exponent := public_exponent |})
          PsaErrorCommunicationFailure)
      | _ => raise PsaErrorCommunicationFailure
      end
    | _ => raise PsaErrorCommunicationFailure
    end
  | _ => raise PsaErrorCommunicationFailure
  end.

Definition export_public_ec_internal (key session : Z) : M bytes :=
  attributes ← ck (get_attributes session key [TEcPoint]);
  match attributes with
  | [AEcPoint data] => lift (ok_or (octet_string_from_bytes data) PsaErrorGenericError)
  | _ => raise PsaErrorCommunicationFailure
  end.

Definition psa_export_public_key_internal self app_name (key_name : string) : M bytes :=
  let key_triple := triple app_name key_name in
  key_attributes ← on_kim (get_key_attributes (key_info_store self) key_triple);
  key_id ← on_kim (get_key_id Z (key_info_store self) key_triple);
  with_session self (fun session =>
    key ← find_key session key_id PublicKey;
    match key_type key_attributes with
    | RsaKeyPair | RsaPublicKey => export_public_rsa_internal key session
    | EccKeyPair _ | EccPublicKey _ => export_public_ec_internal key session
    | _ => raise PsaErrorNotSupported
    end).

Definition move_pub_key_to_psa_crypto self (key_triple : KeyTriple) : M Z :=
  data ← psa_export_public_key_internal self (kt_app_name key_triple) (kt_key_name key_triple);
  attributes ← on_kim (get_key_attributes (key_info_store self) key_triple);
  key_type ← (match key_type attributes with
              | RsaKeyPair | RsaPublicKey => mret RsaPublicKey
              | EccKeyPair curve_family | EccPublicKey curve_family =>
                mret (EccPublicKey curve_family)
              | DhKeyPair group_family | DhPublicKey group_family =>
                mret (DhPublicKey group_family)
              | _ => raise PsaErrorInvalidArgument
              end);
  psa (psa_import {| lifetime := Volatile; key_type := key_type; bits := bits attributes;
                     policy := policy attributes |} None data).

Definition remove_psa_crypto_pub_key (pub_key_id : Z) : M unit :=
  psa (psa_destroy pub_key_id).

(** The mapping of a key just created, or its destruction by [undo]. *)
Definition store_or_undo self (key_triple : KeyTriple) (key_id : Z) (attrs : Attributes)
    (undo : M unit) : M unit :=
  r ← attempt (on_kim (insert_key_info (key_info_store self) key_triple key_id attrs));
  match r with
  | Err e => undo ;; raise e
  | Ok _ => mret tt
  | Panic => panic
  end.
Definition destroy_ignoring (session object : Z) : M unit :=
  attempt (F := ResponseStatus) (on_token (destroy_object session object)) ;; mret tt.

(** The templates and the mechanism of [psa_generate_key_internal]. *)
Definition generate_templates (key_attributes : Attributes) (key_id : Z)
    : Result (Mechanism * list CkAttribute * list CkAttribute) :=
  mech ← map_err to_response_status (mechanism_of (permitted_algorithms (policy key_attributes)));
  let template := [ AId (u32_to_be_bytes key_id); AToken true;
                    AAllowedMechanisms [mechanism_type mech] ] in
  let '(pub_template, priv_template) := key_pair_usage_flags_to_pkcs11_attributes
    (usage_flags (policy key_attributes)) (template ++ [APrivate false]) template in
  match key_type key_attributes with
  | RsaKeyPair =>
    modulus_bits ← map_err to_response_status (ulong_of (bits key_attributes));
    Ok (RsaPkcsKeyPairGen,
        pub_template ++ [APublicExponent PUBLIC_EXPONENT; AModulusBits modulus_bits],
        priv_template)
  | EccKeyPair curve_family =>
    oid ← ec_params curve_family (bits key_attributes);
    params ← ok_or (named_curve_to_vec oid) PsaErrorGenericError;
    Ok (EccKeyPairGen, pub_template ++ [AEcParams params], priv_template)
  | _ => Err PsaErrorNotSupported
  end.

Definition psa_generate_key_internal self app_name (op : GenerateKeyOp) : M unit :=
  if is_public_key (key_type (gk_attributes op)) then raise PsaErrorInvalidArgument
  else
    let key_attributes := gk_attributes op in
    if export (usage_flags (policy key_attributes)) && negb (allow_export self) then
      raise PsaErrorNotPermitted
    else
      let key_triple := triple app_name (gk_key_name op) in
      on_kim (does_not_exist (key_info_store self) key_triple) ;;
      with_session self (fun session =>
        key_id ← create_key_id;
        '(mech, pub_template, priv_template) ← lift (generate_templates key_attributes key_id);
        '(public, private) ← ck (generate_key_pair session mech pub_template priv_template);
        store_or_undo self key_triple key_id key_attributes
          (destroy_ignoring session public ;; destroy_ignoring session private)).

Definition handle_rsa_public_import_attrib (key_data : bytes) (bits : Z)
    (template : list CkAttribute) : Result (list CkAttribute) :=
  public_key ← ok_or (rsa_public_key_from_bytes key_data) PsaErrorInvalidArgument;
  if is_negative (modulus public_key) || is_negative (public_exponent public_key) then
    Err PsaErrorInvalidArgument
  else
    let modulus_object := as_unsigned_bytes_be (modulus public_key) in
    let exponent_object := as_unsigned_bytes_be (public_exponent public_key) in
    if (negb (bits =? 0) && negb (Z.of_nat (length modulus_object) * 8 =? bits))%Z then
      Err PsaErrorInvalidArgument
    else
      Ok (template ++ [ AModulus modulus_object; APublicExponent exponent_object; AEncrypt true;
                        APrivate false; AAllowedMechanisms [RSA_PKCS]; AKeyType CKK_RSA ]).

Definition handle_ecc_public_import_attrib (key_data : bytes) (bits : Z)
    (curve_family : EccFamily) (template : list CkAttribute) : Result (list CkAttribute) :=
  match curve_family with
  | Montgomery => Err PsaErrorNotSupported
  | _ =>
    key_data ← ok_or (octet_string_to_vec key_data) PsaErrorInvalidArgument;
    oid ← ec_params curve_family bits;
    params ← ok_or (named_curve_to_vec oid) PsaErrorGenericError;
    Ok (template ++ [ AEcPoint key_data; APrivate false; AAllowedMechanisms [ECDSA];
                      AKeyType CKK_EC; AEcParams params ])
  end.

(** The template of [psa_import_key_internal]. *)
Definition import_template (attrs : Attributes) (data : bytes) (key_id : Z)
    : Result (list CkAttribute) :=
  let template := [ AClass PUBLIC_KEY; AToken true; AVerify true; AId (u32_to_be_bytes key_id) ] in
  match key_type attrs with
  | RsaPublicKey => handle_rsa_public_import_attrib data (bits attrs) template
  | EccPublicKey curve_family =>
    handle_ecc_public_import_attrib data (bits attrs) curve_family template
  | _ => Err PsaErrorNotSupported
  end.

Definition psa_import_key_internal self app_name (op : ImportKeyOp) : M unit :=
  let key_attributes := ik_attributes op in
  if export (usage_flags (policy key_attributes)) && negb (allow_export self) then
    raise PsaErrorNotPermitted
  else
    let key_triple := triple app_name (ik_key_name op) in
    on_kim (does_not_exist (key_info_store self) key_triple) ;;
    with_session self (fun session =>
      key_id ← create_key_id;
      template ← lift (import_template key_attributes (ik_data op) key_id);
      key ← ck (create_object session template);
      store_or_undo self key_triple key_id key_attributes (destroy_ignoring session key)).

Definition psa_destroy_key_internal self app_name (key_name : string) : M unit :=
  let key_triple := triple app_name key_name in
  key_id ← on_kim (get_key_id Z (key_info_store self) key_triple);
  on_kim (remove_key_info (key_info_store self) key_triple) ;;
  with_session self (fun session =>
    first_key ← find_key session key_id Any;
    ck (destroy_object session first_key) ;;
    r ← attempt (find_key session key_id Any);
    match r with
    | Ok key => ck (destroy_object session key)
    | Err PsaErrorDoesNotExist => mret tt
    | Err e => raise e
    | Panic => panic
    end).

(** ** [asym_sign.rs] and [asym_encryption.rs] *)
Definition psa_sign_hash_internal self app_name (op : SignHashOp) : M bytes :=
  let key_triple := triple app_name (sh_key_name op) in
  key_id ← on_kim (get_key_id Z (key_info_store self) key_triple);
  key_attributes ← on_kim (get_key_attributes (key_info_store self) key_triple);
  lift (validate_sign_hash op key_attributes) ;;
  mech ← lift (map_err to_response_status (mechanism_of (Alg_AsymmetricSignature (sh_alg op))));
  with_session self (fun session =>
    key ← find_key session key_id PrivateKey;
    hash ← lift (match key_type key_attributes with
                 | RsaKeyPair => digest_info (sh_alg op) (sh_hash op)
                 | EccKeyPair _ => Ok (sh_hash op)
                 | _ => Err PsaErrorNotSupported
                 end);
    ck (ck_sign session mech key hash)).

Definition psa_verify_hash_internal self app_name (op : VerifyHashOp) : M unit :=
  let key_triple := triple app_name (vh_key_name op) in
  key_id ← on_kim (get_key_id Z (key_info_store self) key_triple);
  key_attributes ← on_kim (get_key_attributes (key_info_store self) key_triple);
  lift (validate_verify_hash op key_attributes) ;;
  mech ← lift (map_err to_response_status (mechanism_of (Alg_AsymmetricSignature (vh_alg op))));
  with_session self (fun session =>
    key ← find_key session key_id PublicKey;
    hash ← lift (match key_type key_attributes with
                 | RsaKeyPair | RsaPublicKey => digest_info (vh_alg op) (vh_hash op)
                 | EccKeyPair _ | EccPublicKey _ => Ok (vh_hash op)
                 | _ => Err PsaErrorNotSupported
                 end);
    ck (ck_verify session mech key hash (vh_signature op))).

Definition software_psa_verify_hash_internal self app_name (op : VerifyHashOp) : M unit :=
  let key_triple := triple app_name (vh_key_name op) in
  key_attributes ← on_kim (get_key_attributes (key_info_store self) key_triple);
  lift (validate_verify_hash op key_attributes) ;;
  pub_key_id ← move_pub_key_to_psa_crypto self key_triple;
  res ← attempt (psa (psa_verify_hash pub_key_id (vh_alg op) (vh_hash op) (vh_signature op)));
  attempt (F := ResponseStatus) (remove_psa_crypto_pub_key pub_key_id) ;;
  lift res.

Definition psa_asymmetric_encrypt_internal self app_name (op : AsymEncryptOp) : M bytes :=
  let key_triple := triple app_name (ae_key_name op) in
  key_id ← on_kim (get_key_id Z (key_info_store self) key_triple);
  key_attributes ← on_kim (get_key_attributes (key_info_store self) key_triple);
  lift (validate_asym_encrypt op key_attributes) ;;
  mech ← lift (map_err to_response_status (mechanism_of (Alg_AsymmetricEncryption (ae_alg op))));
  with_session self (fun session =>
    key ← find_key session key_id PublicKey;
    ck (ck_encrypt session mech key (ae_plaintext op))).

Definition psa_asymmetric_decrypt_internal self app_name (op : AsymDecryptOp) : M bytes :=
  let key_triple := triple app_name (ad_key_name op) in
  key_id ← on_kim (get_key_id Z (key_info_store self) key_triple);
  key_attributes ← on_kim (get_key_attributes (key_info_store self) key_triple);
  lift (validate_asym_decrypt op key_attributes) ;;
  mech ← lift (map_err to_response_status (mechanism_of (Alg_AsymmetricEncryption (ad_alg op))));
  with_session self (fun session =>
    key ← find_key session key_id PrivateKey;
    ck (ck_decrypt session mech key (ad_ciphertext op))).

Definition software_psa_asymmetric_encrypt_internal self app_name (op : AsymEncryptOp) : M bytes :=
  let key_triple := triple app_name (ae_key_name op) in
  key_attributes ← on_kim (get_key_attributes (key_info_store self) key_triple);
  lift (validate_asym_encrypt op key_attributes) ;;
  buffer_size ← lift (map_err status_of (asymmetric_encrypt_output_size key_attributes (ae_alg op)));
  pub_key_id ← move_pub_key_to_psa_crypto self key_triple;
  res ← attempt ('(output_size, ciphertext) ← psa (psa_encrypt pub_key_id (ae_alg op)
                     (ae_plaintext op) (ae_salt op) (zeroed buffer_size));
                 mret (resize output_size "000"%char ciphertext));
  attempt (F := ResponseStatus) (remove_psa_crypto_pub_key pub_key_id) ;;
  lift res.

(** ** Start-up *)

(** One turn of the loop over the stored triples, with the triples to remove as
    accumulator; an error abandons the initialisation. *)
Definition check_stored (c : KeyInfoManagerClient) (session : Z) (to_remove : list KeyTriple)
    (key_triple : KeyTriple) : M (list KeyTriple) :=
  r ← attempt (on_kim (get_key_id Z c key_triple));
  match r with
  | Err PsaErrorDoesNotExist => mret to_remove
  | Err _ => mret (to_remove ++ [key_triple])
  | Ok key_id =>
    r ← attempt (find_key session key_id Any);
    match r with
    | Ok _ =>
      on_dev (modify (fun d => {| token := token d; psa_lib := psa_lib d; rng := rng d;
                                  local_ids := {[key_id]} ∪ local_ids d |})) ;;
      mret to_remove
    | Err PsaErrorDoesNotExist => mret (to_remove ++ [key_triple])
    | Err e => raise e
    | Panic => panic
    end
  | Panic => panic
  end.

(** [Provider::new]; an error is the [None] of the source. *)
Definition new (c : KeyInfoManagerClient) (slot : Z) (user_pin : option string)
    (software_public_operations allow_export : bool) : ST W unit Provider :=
  (match user_pin with
   | Some pin => on_err (fun _ => tt) (on_token (set_pin slot pin))
   | None => mret tt
   end) ;;
  let self := {| key_info_store := c; slot_number := slot;
                 software_public_operations := software_public_operations;
                 allow_export := allow_export |} in
  on_dev (modify (fun d => {| token := token d; psa_lib := psa_lib d; rng := rng d;
                              local_ids := ∅ |})) ;;
  key_triples ← on_err (fun _ => tt) (on_kim (get_all c));
  to_remove ← on_err (fun _ => tt) (with_session self (fun session =>
    fold_each key_triples [] (check_stored c session)));
  for_each to_remove (fun key_triple =>
    on_err (fun _ => tt) (on_kim (remove_key_info c key_triple))) ;;
  (if software_public_operations then
     r ← attempt (on_psa psa_init);
     match r with Ok _ => mret tt | _ => panic end
   else mret tt) ;;
  mret self.

(** The builder's fields and [build]. *)
Record ProviderBuilder := { b_key_info_store : option KeyInfoManagerClient;
  b_pkcs11_library_path : option string; b_slot_number : option Z; b_user_pin : option string;
  b_software_public_operations : option bool; b_allow_export : option bool }.

Definition ProviderBuilder_new : ProviderBuilder :=
  {| b_key_info_store := None; b_pkcs11_library_path := None; b_slot_number := None;
     b_user_pin := None; b_software_public_operations := None; b_allow_export := None |}.
Definition with_key_info_store (key_info_store : KeyInfoManagerClient) (b : ProviderBuilder)
    : ProviderBuilder :=
  {| b_key_info_store := Some key_info_store; b_pkcs11_library_path := b_pkcs11_library_path b;
     b_slot_number := b_slot_number b; b_user_pin := b_user_pin b;
     b_software_public_operations := b_software_public_operations b;
     b_allow_export := b_allow_export b |}.
Definition with_pkcs11_library_path (pkcs11_library_path : string) (b : ProviderBuilder)
    : ProviderBuilder :=
  {| b_key_info_store := b_key_info_store b; b_pkcs11_library_path := Some pkcs11_library_path;
     b_slot_number := b_slot_number b; b_user_pin := b_user_pin b;
     b_software_public_operations := b_software_public_operations b;
     b_allow_export := b_allow_export b |}.
Definition with_slot_number (slot_number : Z) (b : ProviderBuilder) : ProviderBuilder :=
  {| b_key_info_store := b_key_info_store b; b_pkcs11_library_path := b_pkcs11_library_path b;
     b_slot_number := Some slot_number; b_user_pin := b_user_pin b;
     b_software_public_operations := b_software_public_operations b;
     b_allow_export := b_allow_export b |}.
(** The PIN is copied into a [SecretString] and the original is zeroized. *)
Definition with_user_pin (user_pin : option string) (b : ProviderBuilder) : ProviderBuilder :=
  {| b_key_info_store := b_key_info_store b; b_pkcs11_library_path := b_pkcs11_library_path b;
     b_slot_number := b_slot_number b;
     b_user_pin := match user_pin with Some pin => Some pin | None => None end;
     b_software_public_operations := b_software_public_operations b;
     b_allow_export := b_allow_export b |}.
Definition with_software_public_operations (software_public_operations : option bool)
    (b : ProviderBuilder) : ProviderBuilder :=
  {| b_key_info_store := b_key_info_store b; b_pkcs11_library_path := b_pkcs11_library_path b;
     b_slot_number := b_slot_number b; b_user_pin := b_user_pin b;
     b_software_public_operations := software_public_operations;
     b_allow_export := b_allow_export b |}.
Definition with_allow_export (allow_export : option bool) (b : ProviderBuilder) : ProviderBuilder :=
  {| b_key_info_store := b_key_info_store b; b_pkcs11_library_path := b_pkcs11_library_path b;
     b_slot_number := b_slot_number b; b_user_pin := b_user_pin b;
     b_software_public_operations := b_software_public_operations b;
     b_allow_export := allow_export |}.

Definition build (b : ProviderBuilder) : ST W string Provider :=
  library_path ← lift (ok_or (b_pkcs11_library_path b) "missing library path");
  slot_number ← lift (ok_or (b_slot_number b) "missing slot number");
  slot ← lift (ok_or (slot_of slot_number) "cannot convert slot value");
  on_err (fun _ => "error creating PKCS 11 context") (on_token (pkcs11_new library_path)) ;;
  on_err (fun _ => "error initializing PKCS 11 context") (on_token pkcs11_initialize) ;;
  key_info_store ← lift (ok_or (b_key_info_store b) "missing key info store");
  on_err (fun _ => "PKCS 11 initialization failed")
    (new key_info_store slot (b_user_pin b) (default false (b_software_public_operations b))
       (default true (b_allow_export b))).

(** ** The trait *)
Definition describe (parse_uuid : string -> option string)
    : Result (ProviderInfo * gset Opcode) :=
  uuid ← ok_or (parse_uuid "30e39502-eba6-4d60-a4af-c518b7f5e38f") InvalidEncoding;
  Ok ({| pi_uuid := uuid;
         pi_description := "PKCS #11 provider, interfacing with a PKCS #11 library.";
         pi_vendor := "OASIS Standard."; pi_version_maj := 0; pi_version_min := 1;
         pi_version_rev := 0; pi_id := Pkcs11 |}, list_to_set SUPPORTED_OPCODES).

Definition list_keys self app_name : M (list ListedKey) :=
  on_kim (KeyInfo.list_keys (key_info_store self) app_name).

Definition list_clients self : M (list string) :=
  clients ← on_kim (KeyInfo.list_clients (key_info_store self));
  mret (app_name_string <$> clients).

Definition provide (parse_uuid : string -> option string) self : Provide W := {|
  prov_describe := describe parse_uuid;
  prov_list_providers := DefaultMethods.list_providers;
  prov_list_opcodes := DefaultMethods.list_opcodes;
  prov_list_authenticators := DefaultMethods.list_authenticators;
  prov_list_keys := list_keys self;
  prov_list_clients := list_clients self;
  prov_delete_client := DefaultMethods.delete_client;
  prov_ping := DefaultMethods.ping;
  prov_psa_generate_key := psa_generate_key_internal self;
  prov_psa_import_key := psa_import_key_internal self;
  prov_psa_export_public_key := psa_export_public_key_internal self;
  prov_psa_export_key := DefaultMethods.psa_export_key;
  prov_psa_destroy_key := psa_destroy_key_internal self;
  prov_psa_sign_hash := psa_sign_hash_internal self;
  prov_psa_verify_hash := fun app_name op =>
    if software_public_operations self then software_psa_verify_hash_internal self app_name op
    else psa_verify_hash_internal self app_name op;
  prov_psa_asymmetric_encrypt := fun app_name op =>
    if software_public_operations self then
      software_psa_asymmetric_encrypt_internal self app_name op
    else psa_asymmetric_encrypt_internal self app_name op;
  prov_psa_asymmetric_decrypt := psa_asymmetric_decrypt_internal self;
  prov_psa_aead_encrypt := DefaultMethods.psa_aead_encrypt;
  prov_psa_aead_decrypt := DefaultMethods.psa_aead_decrypt;
  prov_psa_hash_compute := DefaultMethods.psa_hash_compute;
  prov_psa_hash_compare := DefaultMethods.psa_hash_compare;
  prov_psa_raw_key_agreement := DefaultMethods.psa_raw_key_agreement;
  prov_psa_generate_random := DefaultMethods.psa_generate_random;
  prov_psa_sign_message := DefaultMethods.psa_sign_message;
  prov_psa_verify_message := DefaultMethods.psa_verify_message;
|}.
End Provider.
End Pkcs11Provider.
