(* ===== verification/Pkcs11Spec.v ===== *)
(** * Correctness of the PKCS 11 provider

    Proved for any token whose calls have the documented effect on sessions and
    objects ([TokenLaws]) and any key info manager ([KimSpec]).  Nothing is
    assumed of the random generator but the range of its values: whether a key
    identifier is found is a separate question ([create_key_id_terminates]). *)
From S2P Require Import Prelude RustStd Interface Authenticators Fs KeyInfo OnDisk Concrete Provide.
From S2P Require Import CoreProvider ProviderState Mbed MbedSpec Scenario CryptoAuthLib.
From S2P Require Import CryptoAuthLibSpec Pkcs11.
Import Pkcs11Provider.

(** ** Identifiers *)
Lemma u32_to_be_bytes_inj z1 z2 :
  (0 <= z1 < 2 ^ 32)%Z -> (0 <= z2 < 2 ^ 32)%Z -> u32_to_be_bytes z1 = u32_to_be_bytes z2 ->
  z1 = z2.
Proof.
  intros Hz1 Hz2 He. apply (f_equal (@rev ascii)) in He. unfold u32_to_be_bytes in He.
  rewrite !rev_involutive in He. apply (f_equal from_le_bytes) in He.
  by rewrite !from_to_le_bytes in He by done.
Qed.

Section Draws.
Context {G : Type} `{Rng G}.

(** The [n]-th draw of the generator. *)
Fixpoint draw (n : nat) (g : G) : Z :=
  match n with O => (random_u32 g).1 | S n' => draw n' (random_u32 g).2 end.

Lemma draw_free_cases fuel ids k g :
  match (draw_free fuel ids k g).1 with
  | Some id => (id ∉ ids) /\ (k = id \/
      k ∈ ids /\ exists n, n < fuel /\ draw n g = id /\ forall i, i < n -> draw i g ∈ ids)
  | None => k ∈ ids /\ forall n, n < fuel -> draw n g ∈ ids
  end.
Proof.
  revert k g. induction fuel as [|fuel IH]; intros k g; simpl.
  - case_decide; simpl; [split; [done|lia]|auto].
  - case_decide as Hk; simpl; [|auto]. destruct (random_u32 g) as [k' g'] eqn:Hr.
    specialize (IH k' g'). destruct (draw_free fuel ids k' g') as [[id|] g1]; simpl in *.
    + destruct IH as [Hid [->|(Hk' & n & Hn & Hd & Hi)]]; split; [done| |done|]; right; (split; [done|]).
      * exists 0. simpl. rewrite Hr. split_and!; [lia|done|lia].
      * exists (S n). simpl. rewrite Hr. split_and!; [lia|done|].
        intros [|i] Hlt; simpl; rewrite Hr; [done|]. apply Hi. lia.
    + destruct IH as [Hk' Hd]. split; [done|]. intros [|n] Hn; simpl; rewrite Hr; [done|].
      apply Hd. lia.
Qed.

(** More fuel does not change an identifier that was found. *)
Lemma draw_free_mono fuel fuel' ids k g id :
  fuel <= fuel' -> (draw_free fuel ids k g).1 = Some id ->
  draw_free fuel' ids k g = draw_free fuel ids k g.
Proof.
  revert fuel' k g. induction fuel as [|fuel IH]; intros fuel' k g Hle; destruct fuel' as [|fuel'];
    simpl; try lia; case_decide; try done.
  destruct (random_u32 g) as [k' g']. apply IH. lia.
Qed.
End Draws.

(** ** Tokens *)

(** Attributes that set the same property of an object. *)
Definition attr_kind (a : CkAttribute) : nat :=
  match a with
  | AId _ => 0 | AToken _ => 1 | AAllowedMechanisms _ => 2 | APrivate _ => 3 | ASign _ => 4
  | AVerify _ => 5 | AEncrypt _ => 6 | ADecrypt _ => 7 | ADerive _ => 8 | AExtractable _ => 9
  | ASensitive _ => 10 | ACopyable _ => 11 | APublicExponent _ => 12 | AModulusBits _ => 13
  | AEcParams _ => 14 | AClass _ => 15 | AModulus _ => 16 | AKeyType _ => 17 | AEcPoint _ => 18
  | CkAttribute_other n => 19 + n
  end.

(** The object [o] was made from the template: it has its attributes, and no
    other value for any of them. *)
Definition made (template o : list CkAttribute) : Prop :=
  template ⊆ o /\
  forall a a', a ∈ template -> a' ∈ o -> attr_kind a' = attr_kind a -> a' ∈ template.

(** A call that changes neither objects nor sessions. *)
Definition token_reads {T A} (objects : T -> gmap Z (list CkAttribute)) (sessions : T -> gset Z)
    (m : ST T ck_error A) : Prop :=
  forall t, objects (m t).2 = objects t /\ sessions (m t).2 = sessions t /\ (m t).1 <> Panic.

Class TokenLaws (T : Type) `{Cryptoki T} := {
  objects : T -> gmap Z (list CkAttribute);
  sessions : T -> gset Z;
  ck_conversions a z : mechanism_of a <> Panic /\ ulong_of z <> Panic;
  ck_statuses : status_try_from_int <> PsaErrorDoesNotExist /\
    status_try_from_slice <> PsaErrorDoesNotExist /\ status_nul_error <> PsaErrorDoesNotExist;
  open_session_spec slot rw ser t :
    match open_session_no_callback slot rw ser t with
    | (Ok h, t') => (h ∉ sessions t) /\ sessions t' = {[h]} ∪ sessions t /\ objects t' = objects t
    | (Err _, t') => sessions t' = sessions t /\ objects t' = objects t
    | (Panic, _) => False
    end;
  close_session_spec h t :
    sessions (close_session h t) = sessions t ∖ {[h]} /\ objects (close_session h t) = objects t;
  login_reads h : token_reads objects sessions (login_user h);
  set_pin_reads slot pin : token_reads objects sessions (set_pin slot pin);
  find_objects_reads h l : token_reads objects sessions (find_objects h l);
  get_attributes_reads h o l : token_reads objects sessions (get_attributes h o l);
  ck_sign_reads h m k d : token_reads objects sessions (ck_sign h m k d);
  ck_verify_reads h m k d g : token_reads objects sessions (ck_verify h m k d g);
  ck_encrypt_reads h m k d : token_reads objects sessions (ck_encrypt h m k d);
  ck_decrypt_reads h m k d : token_reads objects sessions (ck_decrypt h m k d);
  find_objects_spec h template t l t' :
    find_objects h template t = (Ok l, t') ->
    forall k, k ∈ l <-> exists o, objects t !! k = Some o /\ template ⊆ o;
  get_ec_point_spec h k t l t' o :
    get_attributes h k [TEcPoint] t = (Ok l, t') -> objects t !! k = Some o ->
    (exists p, l = [AEcPoint p] /\ AEcPoint p ∈ o) \/ forall p, AEcPoint p ∉ o;
  create_object_spec h template t :
    match create_object h template t with
    | (Ok k, t') => objects t !! k = None /\ sessions t' = sessions t /\
        exists o, objects t' = <[k := o]> (objects t) /\ made template o
    | (Err _, t') => objects t' = objects t /\ sessions t' = sessions t
    | (Panic, _) => False
    end;
  generate_key_pair_spec h mech pub priv t :
    match generate_key_pair h mech pub priv t with
    | (Ok (k1, k2), t') => k1 <> k2 /\ objects t !! k1 = None /\ objects t !! k2 = None /\
        sessions t' = sessions t /\
        exists o1 o2, objects t' = <[k2 := o2]> (<[k1 := o1]> (objects t)) /\
          made (AClass PUBLIC_KEY :: pub) o1 /\ made (AClass PRIVATE_KEY :: priv) o2
    | (Err _, t') => objects t' = objects t /\ sessions t' = sessions t
    | (Panic, _) => False
    end;
  destroy_object_spec h k t :
    match destroy_object h k t with
    | (Ok _, t') => objects t' = delete k (objects t) /\ sessions t' = sessions t
    | (Err _, t') => objects t' = objects t /\ sessions t' = sessions t
    | (Panic, _) => False
    end;
}.
#[export] Hint Resolve login_reads set_pin_reads find_objects_reads get_attributes_reads
  ck_sign_reads ck_verify_reads ck_encrypt_reads ck_decrypt_reads : parsec.

(** Importing without an identifier makes a key the library did not have. *)
Class PsaVolatile (B : Type) `{PsaLaws B} : Prop := psa_import_volatile a d b :
  match psa_import a None d b with
  | (Ok i, b') => (i ∉ psa_keys b) /\ psa_keys b' = {[i]} ∪ psa_keys b
  | (Err _, b') => psa_keys b' = psa_keys b
  | (Panic, _) => False
  end.

Class DerLaws `{Der} : Prop := octet_string_round d v :
  octet_string_to_vec d = Some v -> octet_string_from_bytes v = Some d.

Class RngLaws (G : Type) `{Rng G} : Prop :=
  random_u32_range g : (0 <= (random_u32 g).1 < 2 ^ 32)%Z.

Lemma draw_range {G} `{RngLaws G} n g : (0 <= draw n g < 2 ^ 32)%Z.
Proof. revert g. induction n as [|n IH]; intros g; simpl; [apply random_u32_range|apply IH]. Qed.

Section Spec.
Context {K T B G : Type} `{KimSpec K} `{TokenLaws T} `{PsaLaws B} `{!PsaVolatile B}.
Context `{RngLaws G} `{ValidateLaws} `{KeyApiLaws} `{Der} `{BZ : Bincode Z} `{!BincodeLaws Z} `{!BincodeU32}.
Abbreviation W := (pstate K (device T B G)).
Implicit Types (s : W) (self : Provider) (id : Z) (session : Z).

Definition objs s : gmap Z (list CkAttribute) := objects (token (dev s)).
Definition open_sessions s : gset Z := sessions (token (dev s)).
Definition ids s : gset Z := local_ids (dev s).
Definition has_id id (o : list CkAttribute) : Prop := AId (u32_to_be_bytes id) ∈ o.

(** ** Key identifiers *)

(** All of the first [n] draws are taken. *)
Definition taken_draws s n : Prop := forall i, i < n -> draw i (rng (dev s)) ∈ ids s.

(** [create_key_id] as the source means it: the first draw that is not taken. *)
Lemma create_key_id_cases fuel s :
  match create_key_id (K := K) fuel s with
  | (Ok id, s') => kim s' = kim s /\ token (dev s') = token (dev s) /\
      psa_lib (dev s') = psa_lib (dev s) /\ (0 <= id < 2 ^ 32)%Z /\
      (id ∉ ids s) /\ ids s' = {[id]} ∪ ids s /\
      exists n, n <= fuel /\ draw n (rng (dev s)) = id /\ taken_draws s n
  | (Err _, _) => False
  | (Panic, s') => kim s' = kim s /\ token (dev s') = token (dev s) /\
      psa_lib (dev s') = psa_lib (dev s) /\ ids s' = ids s /\ taken_draws s (S fuel)
  end.
Proof.
  unfold create_key_id, on_dev, zoom, taken_draws, ids.
  destruct (random_u32 (rng (dev s))) as [k g] eqn:Hr.
  pose proof (draw_free_cases fuel (local_ids (dev s)) k g) as Hd.
  destruct (draw_free fuel (local_ids (dev s)) k g) as [[id|] g1]; simpl in *.
  - assert (Hn : exists n, n <= fuel /\ draw n (rng (dev s)) = id /\
      forall i, i < n -> draw i (rng (dev s)) ∈ local_ids (dev s)).
    { destruct Hd as [Hid [->|(Hk & n & Hn & Hd & Hi)]].
      - exists 0. simpl. rewrite Hr. split_and!; [lia|done|lia].
      - exists (S n). simpl. rewrite Hr. split_and!; [lia|done|].
        intros [|i] Hlt; simpl; rewrite Hr; [done|]. apply Hi. lia. }
    assert (Hrange : (0 <= id < 2 ^ 32)%Z) by (destruct Hn as (n & _ & <- & _); apply draw_range).
    destruct Hd as [Hid _]. split_and!; done || apply Hrange.
  - destruct Hd as [Hk Hd]. split_and!; try done.
    intros [|n] Hn; simpl; rewrite Hr; [done|]. apply Hd. lia.
Qed.

(** C25: The loop of [create_key_id] ends if and only if the generator eventually
    draws an identifier that is not in use; then it returns the first such one,
    however many draws it is followed for beyond that, and records it.  With every
    value the generator produces in use it runs for ever. *)
Theorem create_key_id_terminates s :
  (forall n, (draw n (rng (dev s)) ∉ ids s) -> taken_draws s n ->
     forall fuel, n <= fuel -> exists s',
       create_key_id (K := K) fuel s = (Ok (draw n (rng (dev s))), s') /\
       ids s' = {[draw n (rng (dev s))]} ∪ ids s) /\
  ((forall n, draw n (rng (dev s)) ∈ ids s) <->
   forall fuel, (create_key_id (K := K) fuel s).1 = Panic).
Proof.
  split; [|split].
  - intros n Hn Hi fuel Hle. pose proof (create_key_id_cases fuel s) as Hc.
    destruct (create_key_id fuel s) as [[id| |] s']; [|done|].
    + destruct Hc as (_ & _ & _ & _ & Hid & Hids & m & _ & <- & Hm). exists s'.
      assert (m = n) as ->; [|done].
      destruct (lt_eq_lt_dec m n) as [[Hlt|]|Hlt]; [|done|]; [by apply Hi in Hlt|by apply Hm in Hlt].
    + destruct Hc as (_ & _ & _ & _ & Ht). exfalso. apply Hn, Ht. lia.
  - intros Hall fuel. pose proof (create_key_id_cases fuel s) as Hc.
    destruct (create_key_id fuel s) as [[id| |] s']; [|done|done].
    destruct Hc as (_ & _ & _ & _ & Hid & _ & m & _ & <- & _). exfalso. apply Hid, Hall.
  - intros Hall n. specialize (Hall n). pose proof (create_key_id_cases n s) as Hc.
    destruct (create_key_id n s) as [[id| |] s']; [done|done|].
    destruct Hc as (_ & _ & _ & _ & Ht). apply Ht. lia.
Qed.

(** ** Sessions *)

(** Mappings, objects, sessions, identifiers and the generator are as before. *)
Definition same s1 s2 : Prop :=
  kim s1 = kim s2 /\ objs s1 = objs s2 /\ open_sessions s1 = open_sessions s2 /\
  ids s1 = ids s2 /\ rng (dev s1) = rng (dev s2).
#[export] Instance same_preorder : PreOrder same.
Proof. split; [by intros s|]. unfold same. intros s1 s2 s3. naive_solver congruence. Qed.

Definition same_sessions s1 s2 : Prop := open_sessions s1 = open_sessions s2.
#[export] Instance same_sessions_preorder : PreOrder same_sessions.
Proof. split; [by intros s|]. unfold same_sessions. intros s1 s2 s3. congruence. Qed.

Lemma on_token_run {E A} (m : ST T E A) s :
  on_token (K := K) (B := B) (G := G) m s =
  ((m (token (dev s))).1, {| kim := kim s; dev := set_token (m (token (dev s))).2 (dev s) |}).
Proof. unfold on_token, on_dev, zoom. by destruct (m (token (dev s))). Qed.

Lemma calm_token {A} (m : ST T ck_error A) : token_reads objects sessions m -> calm same (on_token m).
Proof.
  intros Hm s. rewrite on_token_run. destruct (Hm (token (dev s))) as (Ho & Hs & Hp).
  split; [by split_and!|done].
Qed.
Lemma calm_ck {A} (m : ST T ck_error A) : token_reads objects sessions m -> calm same (ck m).
Proof. intros Hm. by apply calm_on_err, calm_token. Qed.

(** A session is opened and closed again around the code that uses it. *)
Lemma with_session_cases {A} self (k : Z -> ST W ResponseStatus A) s :
  (exists e s', with_session self k s = (Err e, s') /\ same s' s /\
     psa_lib (dev s') = psa_lib (dev s)) \/
  exists session s1, kim s1 = kim s /\ objs s1 = objs s /\ ids s1 = ids s /\
    rng (dev s1) = rng (dev s) /\ psa_lib (dev s1) = psa_lib (dev s) /\
    (session ∉ open_sessions s) /\ open_sessions s1 = {[session]} ∪ open_sessions s /\
    with_session self k s = closing session (k session) s1.
Proof.
  destruct (with_session self k s) as [r s'] eqn:Hrun. revert Hrun.
  unfold with_session, mbind at 1, ST_bind at 1, ck at 1, on_err at 1. rewrite on_token_run.
  pose proof (open_session_spec (slot_number self) true true (token (dev s))) as Ho.
  destruct (open_session_no_callback _ _ _ _) as [[h|e|] t1]; simpl; [| |done].
  2: { intros [= <- <-]. left. eexists _, _. split; [done|]. destruct Ho. by split_and!. }
  destruct Ho as (Hh & Hs & Ho). set (s1 := {| kim := kim s; dev := _ |}).
  unfold closing at 1, mbind at 1, ST_bind at 1, ck at 1, on_err at 1. rewrite on_token_run.
  destruct (login_reads h (token (dev s1))) as (Hlo & Hls & Hlp).
  destruct (login_user h (token (dev s1))) as [[u|e|] t2]; simpl in *; [| |done]; intros Hrun.
  - right. exists h, {| kim := kim s; dev := set_token t2 (dev s1) |}.
    split_and!; try done; unfold objs, open_sessions; simpl; congruence.
  - left. injection Hrun as <- <-. eexists _, _. split; [done|].
    destruct (close_session_spec h t2) as [Hc1 Hc2].
    split; [|done]. split_and!; try done; unfold objs; simpl; [congruence|].
    unfold open_sessions. simpl. rewrite Hc1, Hls, Hs. set_solver.
Qed.

Lemma closing_run {E A} session (m : ST W E A) s :
  (closing session m s).1 = (m s).1 /\ kim (closing session m s).2 = kim (m s).2 /\
  objs (closing session m s).2 = objs (m s).2 /\ ids (closing session m s).2 = ids (m s).2 /\
  rng (dev (closing session m s).2) = rng (dev (m s).2) /\
  psa_lib (dev (closing session m s).2) = psa_lib (dev (m s).2) /\
  open_sessions (closing session m s).2 = open_sessions (m s).2 ∖ {[session]}.
Proof.
  unfold closing. destruct (m s) as [r s']. simpl.
  destruct (close_session_spec session (token (dev s'))). by split_and!.
Qed.

Lemma calm_with_session {A} self (k : Z -> ST W ResponseStatus A) :
  (forall session, calm same (k session)) -> calm same (with_session self k).
Proof.
  intros Hk s. destruct (with_session_cases self k s)
    as [(e & s' & -> & Hs & _)|(h & s1 & ? & ? & ? & ? & ? & Hh & Hs1 & ->)]; [done|].
  destruct (closing_run h (k h) s1) as (-> & ? & ? & ? & ? & ? & Hc).
  destruct (Hk h s1) as [(? & ? & Hs & ? & ?) Hp]. split; [|done].
  split_and!; try congruence. rewrite Hc, Hs, Hs1. set_solver.
Qed.

Lemma steps_with_session {A} self (k : Z -> ST W ResponseStatus A) :
  (forall session, steps same_sessions (k session)) -> steps same_sessions (with_session self k).
Proof.
  intros Hk s. destruct (with_session_cases self k s)
    as [(e & s' & -> & Hs & _)|(h & s1 & ? & ? & ? & ? & ? & Hh & Hs1 & ->)]; [apply Hs|].
  destruct (closing_run h (k h) s1) as (_ & _ & _ & _ & _ & _ & Hc).
  specialize (Hk h s1). unfold same_sessions in *. rewrite Hc, Hk, Hs1. set_solver.
Qed.

(** ** Every call closes its sessions *)
Lemma sess_kim {E A} (m : ST K E A) : steps same_sessions (on_kim (D := device T B G) m).
Proof. intros s. unfold on_kim, zoom. by destruct (m (kim s)). Qed.
Lemma sess_token {E A} (m : ST T E A) :
  (forall t, sessions (m t).2 = sessions t) -> steps same_sessions (on_token m).
Proof. intros Hm s. rewrite on_token_run. apply Hm. Qed.
Lemma sess_psa {E A} (m : ST B E A) : steps same_sessions (on_psa m).
Proof. intros s. unfold on_psa, on_dev, zoom. by destruct (m (psa_lib (dev s))). Qed.
Lemma sess_id fuel : steps same_sessions (create_key_id fuel).
Proof.
  intros s. pose proof (create_key_id_cases fuel s) as Hc. unfold same_sessions, open_sessions.
  destruct (create_key_id fuel s) as [[| |] s']; simpl; [|done|]; destruct Hc as (_ & -> & _); done.
Qed.
Lemma reads_sessions {A} (m : ST T ck_error A) t :
  token_reads objects sessions m -> sessions (m t).2 = sessions t.
Proof. intros Hm. apply Hm. Qed.
Lemma create_object_sessions h l t : sessions (create_object h l t).2 = sessions t.
Proof. pose proof (create_object_spec h l t). destruct (create_object h l t) as [[| |] ?]; naive_solver. Qed.
Lemma destroy_object_sessions h k t : sessions (destroy_object h k t).2 = sessions t.
Proof. pose proof (destroy_object_spec h k t). destruct (destroy_object h k t) as [[| |] ?]; naive_solver. Qed.
Lemma generate_sessions h m l1 l2 t : sessions (generate_key_pair h m l1 l2 t).2 = sessions t.
Proof.
  pose proof (generate_key_pair_spec h m l1 l2 t).
  destruct (generate_key_pair h m l1 l2 t) as [[[? ?]| |] ?]; naive_solver.
Qed.
#[local] Hint Resolve sess_kim sess_token sess_psa sess_id steps_with_session reads_sessions
  create_object_sessions destroy_object_sessions generate_sessions : parsec.

(** The definitions of the provider, down to the calls the specifications know. *)
Ltac pk_unfold :=
  unfold list_keys, list_clients, psa_generate_key_internal, psa_import_key_internal,
    psa_export_public_key_internal, psa_destroy_key_internal, psa_sign_hash_internal,
    psa_verify_hash_internal, software_psa_verify_hash_internal,
    psa_asymmetric_encrypt_internal, psa_asymmetric_decrypt_internal,
    software_psa_asymmetric_encrypt_internal, move_pub_key_to_psa_crypto,
    remove_psa_crypto_pub_key, psa_export_public_key_internal, export_public_rsa_internal,
    export_public_ec_internal, store_or_undo, destroy_ignoring, find_key, ck, psa.

(** C24: No request leaves a session of the token open, whatever fails. *)
Theorem pkcs11_sessions_closed fuel uuid self a op s :
  open_sessions (provider_call (provide fuel uuid self) a op s).2 = open_sessions s.
Proof.
  revert s. change (steps same_sessions (provider_call (provide fuel uuid self) a op)).
  destruct op; simpl; pk_unfold; steps_auto;
    try (apply steps_with_session; steps_auto); try (apply sess_token; by auto with parsec).
Qed.

(** ** Isolation *)
Lemma keeps_closing {E A} P session (m : ST W E A) :
  steps (keeps mappings P) m -> steps (keeps mappings P) (closing session m).
Proof. intros Hm s. specialize (Hm s). unfold closing. by destruct (m s). Qed.

Lemma keeps_with_session {A} P self (k : Z -> ST W ResponseStatus A) :
  (forall session, steps (keeps mappings P) (k session)) ->
  steps (keeps mappings P) (with_session self k).
Proof.
  intros Hk. unfold with_session, ck, on_token. steps_auto. apply keeps_closing. steps_auto.
Qed.

Lemma pkcs11_keeps_to fuel uuid self :
  keeps_to mappings Pkcs11 (provide (K := K) fuel uuid self).
Proof.
  intros a op s. set (P := own Pkcs11 (touches a op)). revert s.
  change (steps (keeps mappings P) (provider_call (provide fuel uuid self) a op)). unfold P.
  destruct op; simpl; pk_unfold; unfold on_token, on_psa, create_key_id; steps_auto;
    try (apply keeps_with_session; unfold on_token; steps_auto).
Qed.
Lemma pkcs11_well_behaved fuel uuid self :
  well_behaved mappings (provide (K := K) fuel uuid self).
Proof. eapply keeps_to_well_behaved, pkcs11_keeps_to. Qed.

(** ** Operations that only read *)
Lemma calm_psa {A} (m : ST B psa_error A) :
  (forall b, (m b).1 <> Panic) -> calm same (psa (K := K) (T := T) (G := G) m).
Proof.
  intros Hm. apply calm_on_err. intros s. specialize (Hm (psa_lib (dev s))).
  unfold on_psa, on_dev, zoom. by destruct (m (psa_lib (dev s))).
Qed.

Lemma import_volatile_no_panic a d b : (psa_import a None d b).1 <> Panic.
Proof. pose proof (psa_import_volatile a d b). by destruct (psa_import a None d b) as [[| |] ?]. Qed.
Lemma destroy_no_panic i b : (psa_destroy i b).1 <> Panic.
Proof. pose proof (psa_destroy_spec i b). by destruct (psa_destroy i b) as [[| |] ?]. Qed.
Lemma reads_no_panic {A} (m : ST B psa_error A) b : reads_keys psa_keys m -> (m b).1 <> Panic.
Proof. intros Hm. apply Hm. Qed.

Lemma mechanism_no_panic a :
  map_err (to_response_status (T := T)) (mechanism_of a) <> Panic.
Proof. destruct (ck_conversions a 0) as [Ha _]. by destruct (mechanism_of a). Qed.
Lemma ok_or_no_panic {E A} (o : option A) (e : E) : ok_or o e <> Panic.
Proof. by destruct o. Qed.
Lemma digest_info_no_panic a h : digest_info a h <> Panic.
Proof.
  unfold digest_info. run_unfold. destruct a as [[|[]]| | |]; simpl; try done;
    by destruct (digest_info_to_vec _ _).
Qed.
Lemma encrypt_size_no_panic a g :
  map_err status_of (asymmetric_encrypt_output_size a g) <> Panic.
Proof.
  destruct (psa_sizes_no_panic a) as (_ & _ & _ & Hs & _). specialize (Hs g).
  by destruct (asymmetric_encrypt_output_size a g).
Qed.
Lemma encrypt_no_panic op a : validate_asym_encrypt op a <> Panic.
Proof. apply validate_no_panic. Qed.
Lemma decrypt_no_panic op a : validate_asym_decrypt op a <> Panic.
Proof. apply validate_no_panic. Qed.
#[local] Hint Resolve calm_ck calm_with_session calm_psa import_volatile_no_panic destroy_no_panic
  reads_no_panic mechanism_no_panic ok_or_no_panic digest_info_no_panic encrypt_size_no_panic
  encrypt_no_panic decrypt_no_panic sign_hash_no_panic verify_hash_no_panic : parsec.

Definition pk_reading (op : NativeOperation) : bool :=
  match op with
  | PsaGenerateKey _ | PsaImportKey _ | PsaDestroyKey _ => false
  | _ => true
  end.

Lemma calm_find_key session id ty : calm same (find_key (K := K) (B := B) (G := G) session id ty).
Proof. unfold find_key. calm_auto. Qed.
#[local] Hint Resolve calm_find_key : parsec.

Lemma calm_export self a k : calm same (psa_export_public_key_internal self a k).
Proof.
  unfold psa_export_public_key_internal. calm_auto. apply calm_with_session.
  unfold export_public_rsa_internal, export_public_ec_internal. calm_auto; auto with parsec.
Qed.
#[local] Hint Resolve calm_export : parsec.

Lemma calm_move self t : calm same (move_pub_key_to_psa_crypto self t).
Proof. unfold move_pub_key_to_psa_crypto. calm_auto. Qed.
#[local] Hint Resolve calm_move : parsec.

Lemma pk_reading_calm fuel uuid self a op :
  pk_reading op = true -> calm same (provider_call (provide fuel uuid self) a op).
Proof.
  destruct op; intros Hr; try discriminate Hr; simpl;
    unfold list_keys, list_clients, psa_sign_hash_internal, psa_verify_hash_internal,
      software_psa_verify_hash_internal, psa_asymmetric_encrypt_internal,
      psa_asymmetric_decrypt_internal, software_psa_asymmetric_encrypt_internal,
      remove_psa_crypto_pub_key;
    calm_auto; try done; auto with parsec;
    try (apply calm_with_session; calm_auto; try done; auto with parsec);
    case_match; try done; apply digest_info_no_panic.
Qed.

(** ** Objects under a new identifier *)

(** [m'] is [m] with objects whose identifier is [id] added. *)
Definition grown id (m m' : gmap Z (list CkAttribute)) : Prop :=
  m ⊆ m' /\ forall h o, m' !! h = Some o -> m !! h = Some o \/
    has_id id o /\ forall b, AId b ∈ o -> b = u32_to_be_bytes id.

Lemma grown_refl id m : grown id m m.
Proof. by split; [|auto]. Qed.
Lemma grown_insert id m m' k template o :
  grown id m m' -> m' !! k = None -> made template o -> has_id id template ->
  (forall b, AId b ∈ template -> b = u32_to_be_bytes id) -> grown id m (<[k := o]> m').
Proof.
  intros [Hsub Hnew] Hk [Hin Hkind] Hid Hone. split.
  - etrans; [done|]. by apply insert_subseteq.
  - intros h o' [[<- <-]|[_ Ho']]%lookup_insert_Some; [right|by apply Hnew]. split; [by apply Hin|].
    intros b Hb. apply Hone. by apply (Hkind _ _ Hid Hb).
Qed.
Lemma grown_delete id m m' k : grown id m m' -> m !! k = None -> grown id m (delete k m').
Proof.
  intros [Hsub Hnew] Hk. split.
  - apply map_subseteq_spec. intros h o Ho. rewrite lookup_delete_ne by congruence.
    by apply (lookup_weaken m).
  - intros h o [_ Ho]%lookup_delete_Some. by apply Hnew.
Qed.

Lemma destroy_ignoring_run session k s :
  exists s', destroy_ignoring (K := K) (B := B) (G := G) session k s = (Ok tt, s') /\
    kim s' = kim s /\ ids s' = ids s /\ (objs s' = objs s \/ objs s' = delete k (objs s)).
Proof.
  unfold destroy_ignoring, mbind, ST_bind, attempt. rewrite on_token_run.
  pose proof (destroy_object_spec session k (token (dev s))) as Hd.
  destruct (destroy_object session k (token (dev s))) as [[u|e|] t']; simpl; [| |done];
    (eexists; split; [done|]); destruct Hd; split_and!; auto.
Qed.

(** [undo] takes back objects that are not in [m]. *)
Definition undoes (m : gmap Z (list CkAttribute)) (undo : ST W ResponseStatus unit) : Prop :=
  forall id s, grown id m (objs s) -> exists s', undo s = (Ok tt, s') /\
    kim s' = kim s /\ ids s' = ids s /\ grown id m (objs s').

Lemma undoes_destroy m session k : m !! k = None -> undoes m (destroy_ignoring session k).
Proof.
  intros Hk id s Hg. destruct (destroy_ignoring_run session k s) as (s' & Hrun & ? & ? & Ho).
  exists s'. split_and!; try done. destruct Ho as [->| ->]; [done|by apply grown_delete].
Qed.
Lemma undoes_seq m u1 u2 : undoes m u1 -> undoes m u2 -> undoes m (u1 ;; u2).
Proof.
  intros Hu1 Hu2 id s Hg. destruct (Hu1 id s Hg) as (s1 & Hrun1 & ? & ? & Hg1).
  destruct (Hu2 id s1 Hg1) as (s2 & Hrun2 & ? & ? & Hg2). exists s2.
  rewrite (bind_run _ _ _ _ _ Hrun1). split_and!; try done; congruence.
Qed.

Lemma store_or_undo_spec self t id attrs undo m s :
  (0 <= id < 2 ^ 32)%Z -> mappings s !! t = None -> grown id m (objs s) -> undoes m undo ->
  match store_or_undo self t id attrs undo s with
  | (Ok _, s') => ids s' = ids s /\ objs s' = objs s /\ exists b, bincode_serialize id = Some b /\
      mappings s' = <[t := {| ki_id := b; ki_attributes := attrs |}]> (mappings s)
  | (Err _, s') => ids s' = ids s /\ grown id m (objs s') /\ mappings s' = mappings s
  | (Panic, _) => False
  end.
Proof.
  intros Hid Hfree Hg Hundo. destruct (bincode_u32 id Hid) as [b Hb].
  unfold store_or_undo, on_kim. run_unfold.
  destruct (insert_key_info_cases (key_info_store self) t id attrs (kim s) b Hb)
    as (k1 & [[-> Hv]|[-> Hv]]).
  - destruct (Hundo id {| kim := k1; dev := dev s |} Hg) as (s' & -> & Hk & Hi & Hg').
    split_and!; [done|done|]. unfold mappings. by rewrite Hk.
  - unfold mappings in Hfree. rewrite Hfree. simpl. eauto 10.
Qed.

(** ** Creating keys *)
Definition created fuel t attrs s (out : Result unit * W) : Prop :=
  match out with
  | (Ok _, s') => exists id b, (id ∉ ids s) /\ (0 <= id < 2 ^ 32)%Z /\
      bincode_serialize id = Some b /\
      mappings s' = <[t := {| ki_id := b; ki_attributes := attrs |}]> (mappings s) /\
      ids s' = {[id]} ∪ ids s /\ grown id (objs s) (objs s') /\
      exists h o, objs s' !! h = Some o /\ has_id id o
  | (Err _, s') => mappings s' = mappings s /\ ids s ⊆ ids s' /\
      (objs s' = objs s \/ exists id, (id ∉ ids s) /\ (0 <= id < 2 ^ 32)%Z /\
         grown id (objs s) (objs s'))
  | (Panic, s') => mappings s' = mappings s /\ ids s' = ids s /\ objs s' = objs s /\
      taken_draws s (S fuel)
  end.

(** What [make] does with a drawn identifier [id]. *)
Definition makes_stored t attrs id s1 (out : Result unit * W) : Prop :=
  match out with
  | (Ok _, s') => ids s' = ids s1 /\ grown id (objs s1) (objs s') /\
      (exists h o, objs s' !! h = Some o /\ has_id id o) /\
      exists b, bincode_serialize id = Some b /\
        mappings s' = <[t := {| ki_id := b; ki_attributes := attrs |}]> (mappings s1)
  | (Err _, s') => ids s' = ids s1 /\ grown id (objs s1) (objs s') /\ mappings s' = mappings s1
  | (Panic, _) => False
  end.

Lemma store_made self t id attrs undo s1 s2 :
  (0 <= id < 2 ^ 32)%Z -> mappings s1 !! t = None -> kim s2 = kim s1 -> ids s2 = ids s1 ->
  grown id (objs s1) (objs s2) -> (exists h o, objs s2 !! h = Some o /\ has_id id o) ->
  undoes (objs s1) undo -> makes_stored t attrs id s1 (store_or_undo self t id attrs undo s2).
Proof.
  intros Hr Hfree Hk Hi Hg Hex Hu.
  assert (Hm : mappings s2 = mappings s1) by (unfold mappings; by rewrite Hk).
  rewrite <- Hm in Hfree.
  pose proof (store_or_undo_spec self t id attrs undo (objs s1) s2 Hr Hfree Hg Hu) as Hs.
  unfold makes_stored. rewrite <- Hm, <- Hi.
  destruct (store_or_undo self t id attrs undo s2) as [[u|e|] s']; [| |done].
  - destruct Hs as (-> & -> & Hs). by split_and!.
  - destruct Hs as (-> & ? & ->). by split_and!.
Qed.

(** The identifier is drawn, then [make] creates and stores the key. *)
Lemma create_key_created fuel t attrs (make : Z -> ST W ResponseStatus unit) s :
  (forall id s1, (0 <= id < 2 ^ 32)%Z -> kim s1 = kim s -> objs s1 = objs s ->
     makes_stored t attrs id s1 (make id s1)) ->
  created fuel t attrs s ((key_id ← create_key_id fuel; make key_id) s).
Proof.
  intros Hmake. unfold mbind, ST_bind. pose proof (create_key_id_cases fuel s) as Hc.
  destruct (create_key_id fuel s) as [[id| |] s1]; [|done|].
  - destruct Hc as (Hk & Ht & _ & Hr & Hnew & Hids & _).
    assert (Ho : objs s1 = objs s) by (unfold objs; by rewrite Ht).
    assert (Hm : mappings s1 = mappings s) by (unfold mappings; by rewrite Hk).
    specialize (Hmake id s1 Hr Hk Ho). unfold makes_stored in Hmake. rewrite Ho, Hm in Hmake.
    destruct (make id s1) as [[u|e|] s']; simpl; [| |done].
    + destruct Hmake as (Hi & Hg & Hex & b & Hb & Hv). exists id, b. rewrite Hi. split_and!; done || apply Hr.
    + destruct Hmake as (-> & Hg & Hv). split_and!; [done|set_solver|right; eauto].
  - destruct Hc as (Hk & Ht & _ & Hids & Htk). unfold created, mappings, objs.
    by rewrite Hk, Ht.
Qed.

Lemma ec_params_no_panic f n : ec_params f n <> Panic.
Proof. unfold ec_params. by repeat case_match. Qed.

Lemma template_ids attrs id :
  match generate_templates (T := T) attrs id with
  | Ok (mech, pub, priv) =>
      (has_id id pub /\ forall b, AId b ∈ pub -> b = u32_to_be_bytes id) /\
      (has_id id priv /\ forall b, AId b ∈ priv -> b = u32_to_be_bytes id)
  | Err _ => True
  | Panic => False
  end.
Proof.
  unfold generate_templates, key_pair_usage_flags_to_pkcs11_attributes, has_id.
  pose proof (mechanism_no_panic (permitted_algorithms (policy attrs))) as Hm. run_unfold.
  destruct (mechanism_of _) as [mech|e|]; simpl; [|done|done].
  destruct (key_type attrs); simpl; try done.
  - destruct (ck_conversions (Alg_other 0) (bits attrs)) as [_ Hu].
    destruct (ulong_of (bits attrs)); simpl; [|done|done]. set_solver.
  - pose proof (ec_params_no_panic curve_family (bits attrs)) as Hec.
    destruct (ec_params _ _) as [oid|e|]; simpl; [|done|done].
    destruct (named_curve_to_vec oid); simpl; [|done]. set_solver.
Qed.

Lemma import_ids attrs data id :
  match import_template attrs data id with
  | Ok l => has_id id l /\ forall b, AId b ∈ l -> b = u32_to_be_bytes id
  | Err _ => True
  | Panic => False
  end.
Proof.
  unfold import_template, has_id. destruct (key_type attrs); try done.
  - unfold handle_rsa_public_import_attrib. run_unfold.
    destruct (rsa_public_key_from_bytes data); simpl; [|done].
    repeat (case_match; simpl; try done); simplify_eq; set_solver.
  - unfold handle_ecc_public_import_attrib. run_unfold.
    pose proof (ec_params_no_panic curve_family (bits attrs)) as Hec.
    generalize dependent (ec_params curve_family (bits attrs)). intros out Hec.
    destruct curve_family; try done; (destruct (octet_string_to_vec data); simpl; [|done]);
      (destruct out as [oid|e|]; simpl; [|done|done]);
      (destruct (named_curve_to_vec oid); simpl; [|done]); set_solver.
Qed.

Lemma has_id_class id c l : has_id id l -> has_id id (AClass c :: l).
Proof. unfold has_id. set_solver. Qed.

Lemma generate_body fuel self t attrs session s :
  mappings s !! t = None ->
  created fuel t attrs s ((key_id ← create_key_id fuel;
    '(mech, pub, priv) ← lift (generate_templates attrs key_id);
    '(public, private) ← ck (generate_key_pair session mech pub priv);
    store_or_undo self t key_id attrs
      (destroy_ignoring session public ;; destroy_ignoring session private)) s).
Proof.
  intros Hfree. apply (create_key_created fuel t attrs). intros id s1 Hr Hk Ho.
  assert (Hfree1 : mappings s1 !! t = None) by (unfold mappings in *; by rewrite Hk).
  unfold mbind at 1, ST_bind at 1, lift. pose proof (template_ids attrs id) as Ht.
  destruct (generate_templates attrs id) as [[[mech pub] priv]|e|]; [| |done].
  2: { split_and!; auto using grown_refl. }
  destruct Ht as [[Hpub Hpub1] [Hpriv Hpriv1]].
  unfold mbind at 1, ST_bind at 1, ck at 1, on_err at 1. rewrite on_token_run.
  pose proof (generate_key_pair_spec session mech pub priv (token (dev s1))) as Hg.
  destruct (generate_key_pair session mech pub priv (token (dev s1))) as [[[k1 k2]|e|] t'];
    simpl; [| |done].
  2: { destruct Hg as [Hg _]. split_and!; [done| |done]. unfold objs at 2. simpl. rewrite Hg.
       apply grown_refl. }
  destruct Hg as (Hne & Hk1 & Hk2 & _ & o1 & o2 & Ho' & Hm1 & Hm2).
  set (s2 := {| kim := kim s1; dev := set_token t' (dev s1) |}).
  change (objects (token (dev s1))) with (objs s1) in *.
  assert (Hgrown : grown id (objs s1) (objs s2)).
  { unfold objs at 2. simpl. rewrite Ho'.
    eapply (grown_insert id _ _ k2); [|rewrite lookup_insert_ne by done; done|exact Hm2|by apply has_id_class|set_solver].
    eapply (grown_insert id _ _ k1); [apply grown_refl|done|exact Hm1|by apply has_id_class|set_solver]. }
  assert (Hex : exists h o, objs s2 !! h = Some o /\ has_id id o).
  { exists k2, o2. unfold objs. simpl. rewrite Ho', lookup_insert_eq. split; [done|].
    apply Hm2, has_id_class, Hpriv. }
  apply (store_made self t id attrs _ s1 s2); auto using undoes_seq, undoes_destroy.
Qed.

Lemma import_body fuel self t attrs data session s :
  mappings s !! t = None ->
  created fuel t attrs s ((key_id ← create_key_id fuel;
    template ← lift (import_template attrs data key_id);
    key ← ck (create_object session template);
    store_or_undo self t key_id attrs (destroy_ignoring session key)) s).
Proof.
  intros Hfree. apply (create_key_created fuel t attrs). intros id s1 Hr Hk Ho.
  assert (Hfree1 : mappings s1 !! t = None) by (unfold mappings in *; by rewrite Hk).
  unfold mbind at 1, ST_bind at 1, lift. pose proof (import_ids attrs data id) as Ht.
  destruct (import_template attrs data id) as [l|e|]; [| |done].
  2: { split_and!; auto using grown_refl. }
  destruct Ht as [Hid Hone].
  unfold mbind at 1, ST_bind at 1, ck at 1, on_err at 1. rewrite on_token_run.
  pose proof (create_object_spec session l (token (dev s1))) as Hg.
  destruct (create_object session l (token (dev s1))) as [[k1|e|] t']; simpl; [| |done].
  2: { destruct Hg as [Hg _]. split_and!; [done| |done]. unfold objs at 2. simpl. rewrite Hg.
       apply grown_refl. }
  destruct Hg as (Hk1 & _ & o & Ho' & Hm).
  set (s2 := {| kim := kim s1; dev := set_token t' (dev s1) |}).
  change (objects (token (dev s1))) with (objs s1) in *.
  assert (Hgrown : grown id (objs s1) (objs s2)).
  { unfold objs at 2. simpl. rewrite Ho'.
    by eapply (grown_insert id _ _ k1); [apply grown_refl|..]. }
  assert (Hex : exists h o, objs s2 !! h = Some o /\ has_id id o).
  { exists k1, o. unfold objs. simpl. rewrite Ho', lookup_insert_eq. split; [done|].
    apply Hm, Hid. }
  apply (store_made self t id attrs _ s1 s2); auto using undoes_destroy.
Qed.

(** What creating a key under [t] does; a name that is taken is reported with
    nothing changed. *)
Definition pk_creates fuel t attrs (m : ST W ResponseStatus unit) : Prop :=
  forall s, created fuel t attrs s (m s) /\
    match m s with
    | (Ok _, _) => mappings s !! t = None
    | (Err e, s') => is_Some (mappings s !! t) -> objs s' = objs s /\ ids s' = ids s
    | (Panic, _) => True
    end.

Lemma created_refuse fuel t attrs e s s' :
  mappings s' = mappings s -> ids s' = ids s -> objs s' = objs s -> created fuel t attrs s (Err e, s').
Proof. intros Hm Hi Ho. split_and!; [done|by rewrite Hi|by left]. Qed.

Lemma create_in_session fuel self t attrs (body : Z -> ST W ResponseStatus unit) :
  (forall session s, mappings s !! t = None -> created fuel t attrs s (body session s)) ->
  pk_creates fuel t attrs (
    on_kim (does_not_exist (key_info_store self) t) ;; with_session self body).
Proof.
  intros Hbody s. unfold mbind, ST_bind, on_kim, zoom. rewrite does_not_exist_run.
  change (kim_view (kim s)) with (mappings s).
  destruct (mappings s !! t) as [i|] eqn:Ht; rewrite pstate_eta; [by split; [apply created_refuse|]|].
  destruct (with_session_cases self body s)
    as [(e & s' & -> & (Hk & Ho & _ & Hi & _) & _)|(h & s1 & Hk & Ho & Hi & Hr & _ & _ & _ & ->)].
  { split; [apply created_refuse; try done; unfold mappings; by rewrite Hk|]. by intros [? ?]. }
  assert (Hm : mappings s1 = mappings s) by (unfold mappings; by rewrite Hk).
  rewrite <- Hm in Ht. specialize (Hbody h s1 Ht).
  destruct (closing_run h (body h) s1) as (Hout & Hk' & Ho' & Hi' & _).
  assert (Hm' : mappings (closing h (body h) s1).2 = mappings (body h s1).2)
    by (unfold mappings; by rewrite Hk').
  destruct (closing h (body h) s1) as [r s']. destruct (body h s1) as [r1 s1']. simpl in *.
  rewrite Hm in Ht. subst r1. split; [|by destruct r; try (intros [? ?])].
  unfold created, taken_draws in *. rewrite Hm, Hi, Ho, Hr in Hbody.
  by destruct r; rewrite Hm', Hi', Ho'.
Qed.

Lemma pk_generate_creates fuel self a op :
  pk_creates fuel (triple a (gk_key_name op)) (gk_attributes op)
    (psa_generate_key_internal fuel self a op).
Proof.
  unfold psa_generate_key_internal. destruct (is_public_key _); [by split; [apply created_refuse|]|].
  destruct (_ && _); [by split; [apply created_refuse|]|].
  apply create_in_session. intros session s. apply generate_body.
Qed.
Lemma pk_import_creates fuel self a op :
  pk_creates fuel (triple a (ik_key_name op)) (ik_attributes op)
    (psa_import_key_internal fuel self a op).
Proof.
  unfold psa_import_key_internal. destruct (_ && _); [by split; [apply created_refuse|]|].
  apply create_in_session. intros session s. apply import_body.
Qed.

(** ** The invariant *)
Definition pk_live s id : Prop :=
  (0 <= id < 2 ^ 32)%Z /\ id ∈ ids s /\ exists h o, objs s !! h = Some o /\ has_id id o.

Record pk_ok s : Prop := {
  (** an object has one identifier *)
  ko_wf h o b1 b2 : objs s !! h = Some o -> AId b1 ∈ o -> AId b2 ∈ o -> b1 = b2;
  ko_mapped : mapped Pkcs11 (pk_live s) (mappings s);
}.

Lemma pk_live_grow s s' id id' :
  grown id' (objs s) (objs s') -> ids s ⊆ ids s' -> pk_live s id -> pk_live s' id.
Proof.
  intros [Hsub _] Hi (Hr & Hin & h & o & Ho & Hid). split_and!; [apply Hr|apply Hr|set_solver|].
  exists h, o. split; [by apply (lookup_weaken (objs s))|done].
Qed.

Lemma wf_grow s s' id :
  pk_ok s -> grown id (objs s) (objs s') ->
  forall h o b1 b2, objs s' !! h = Some o -> AId b1 ∈ o -> AId b2 ∈ o -> b1 = b2.
Proof.
  intros Hs [_ Hnew] h o b1 b2 Ho Hb1 Hb2. destruct (Hnew h o Ho) as [Ho'|[_ Hone]].
  - by apply (ko_wf s Hs h o).
  - by rewrite (Hone b1), (Hone b2).
Qed.

Lemma pk_ok_grow s s' id :
  pk_ok s -> mappings s' = mappings s -> ids s ⊆ ids s' -> grown id (objs s) (objs s') -> pk_ok s'.
Proof.
  intros Hs Hv Hi Hg. split; [by apply (wf_grow s s' id)|]. rewrite Hv.
  apply (mapped_mono _ _ _ _ (ko_mapped s Hs)). intros id' _. by apply (pk_live_grow s s' id' id).
Qed.

Lemma created_ok fuel t attrs s out :
  created fuel t attrs s out -> pk_ok s ->
  pk_ok out.2 /\ (out.1 = Panic -> taken_draws s (S fuel)).
Proof.
  destruct out as [[u|e|] s']; simpl; intros Hc Hs.
  - destruct Hc as (id & b & Hnew & Hr & Hb & Hv & Hi & Hg & Hex). split; [|done].
    split; [by apply (wf_grow s s' id)|]. rewrite Hv. eapply mapped_insert; [|exact Hb| |].
    + apply (mapped_mono _ _ _ _ (ko_mapped s Hs)). intros id' _.
      apply (pk_live_grow s s' id' id); [done|set_solver].
    + intros Hu. destruct (used_live _ _ _ _ (ko_mapped s Hs) Hu) as (_ & ? & _). done.
    + split_and!; [apply Hr|apply Hr|set_solver|done].
  - destruct Hc as (Hv & Hi & Ho). split; [|done].
    destruct Ho as [Ho|(id & _ & _ & Hg)]; [|by apply (pk_ok_grow s s' id)].
    apply (pk_ok_grow s s' 0); [done|done|done|]. rewrite Ho. apply grown_refl.
  - destruct Hc as (Hv & Hi & Ho & Ht). split; [|done].
    apply (pk_ok_grow s s' 0); [done|done|by rewrite Hi|]. rewrite Ho. apply grown_refl.
Qed.

(** ** Destroying keys *)

(** [m'] is [m] without some objects whose identifier is [id]. *)
Definition shrunk id (m m' : gmap Z (list CkAttribute)) : Prop :=
  m' ⊆ m /\ forall h o, m !! h = Some o -> m' !! h = Some o \/ has_id id o.

Lemma shrunk_refl id m : shrunk id m m.
Proof. by split; [|auto]. Qed.
Lemma shrunk_delete id m m' k o :
  shrunk id m m' -> m' !! k = Some o -> has_id id o -> shrunk id m (delete k m').
Proof.
  intros [Hsub Hold] Hk Hid. split.
  - etrans; [apply delete_subseteq|done].
  - intros h o' Ho'. destruct (decide (h = k)) as [->|Hne].
    + right. destruct (Hold k o' Ho') as [Hk'|Hid']; [by simplify_eq|done].
    + rewrite lookup_delete_ne by done. by apply Hold.
Qed.

Lemma ck_not_missing e : to_response_status (T := T) e <> PsaErrorDoesNotExist.
Proof. destruct ck_statuses as (? & ? & ?). by destruct e as [|[]| | | | |]. Qed.

(** [find_key] finds an object with the identifier, or reports that there is none. *)
Lemma find_any_spec session id s :
  match find_key (K := K) (B := B) (G := G) session id Any s with
  | (Ok k, s') => same s' s /\ exists o, objs s !! k = Some o /\ has_id id o
  | (Err e, s') => same s' s /\
      (e = PsaErrorDoesNotExist -> forall h o, objs s !! h = Some o -> ~ has_id id o)
  | (Panic, _) => False
  end.
Proof.
  unfold find_key, mbind, ST_bind, ck, on_err. rewrite on_token_run.
  destruct (find_objects_reads session [AId (u32_to_be_bytes id)] (token (dev s))) as (Ho & Hs & Hp).
  pose proof (find_objects_spec session [AId (u32_to_be_bytes id)] (token (dev s))) as Hf.
  destruct (find_objects session _ (token (dev s))) as [[l|e|] t']; simpl in *; [| |done].
  - specialize (Hf l t' eq_refl). destruct l as [|k l].
    + split; [by split_and!|]. intros _ h o Ho' Hid.
      destruct (not_elem_of_nil h). apply Hf. exists o. split; [done|]. unfold has_id in Hid. set_solver.
    + split; [by split_and!|]. destruct (proj1 (Hf k)) as (o & Ho' & Hin); [left|].
      exists o. split; [done|]. apply Hin. left.
  - split; [by split_and!|]. intros He. by apply ck_not_missing in He.
Qed.

Definition destroyed id s (out : Result unit * W) : Prop :=
  kim out.2 = kim s /\ ids out.2 = ids s /\ shrunk id (objs s) (objs out.2) /\
  match out.1 with
  | Ok _ => forall k1 k2,
      (forall h o, objs s !! h = Some o -> has_id id o -> h = k1 \/ h = k2) ->
      forall h o, objs out.2 !! h = Some o -> ~ has_id id o
  | Err _ => True
  | Panic => False
  end.

Lemma destroy_object_run session k s :
  match ck (K := K) (B := B) (G := G) (destroy_object session k) s with
  | (Ok _, s') => kim s' = kim s /\ ids s' = ids s /\ objs s' = delete k (objs s)
  | (Err _, s') => kim s' = kim s /\ ids s' = ids s /\ objs s' = objs s
  | (Panic, _) => False
  end.
Proof.
  unfold ck, on_err. rewrite on_token_run.
  pose proof (destroy_object_spec session k (token (dev s))) as Hd.
  destruct (destroy_object session k (token (dev s))) as [[u|e|] t']; simpl; [| |done];
    destruct Hd; by split_and!.
Qed.

Lemma destroy_body session id s :
  destroyed id s ((first_key ← find_key session id Any;
    ck (destroy_object session first_key) ;;
    r ← attempt (find_key session id Any);
    match r with
    | Ok key => ck (destroy_object session key)
    | Err PsaErrorDoesNotExist => mret tt
    | Err e => raise e
    | Panic => panic
    end) s).
Proof.
  unfold mbind at 1, ST_bind at 1. pose proof (find_any_spec session id s) as Hf.
  destruct (find_key session id Any s) as [[k|e|] s1]; [| |done].
  2: { destruct Hf as [(Hk & Ho & _ & Hi & _) _]. split_and!; try done. simpl. rewrite Ho.
       apply shrunk_refl. }
  destruct Hf as ((Hk1 & Ho1 & _ & Hi1 & _) & o & Hko & Hid).
  unfold mbind at 1, ST_bind at 1. pose proof (destroy_object_run session k s1) as Hd.
  rewrite Hk1, Ho1, Hi1 in Hd.
  destruct (ck (destroy_object session k) s1) as [[u|e|] s2]; [| |done].
  2: { destruct Hd as (Hk & Hi & Ho). split_and!; try done. simpl. rewrite Ho. apply shrunk_refl. }
  destruct Hd as (Hk2 & Hi2 & Ho2).
  assert (Hsh : shrunk id (objs s) (objs s2)).
  { rewrite Ho2. by eapply shrunk_delete; [apply shrunk_refl|..]. }
  unfold mbind, ST_bind, attempt. pose proof (find_any_spec session id s2) as Hf.
  destruct (find_key session id Any s2) as [[k'|e|] s3]; [| |done].
  - destruct Hf as ((Hk3 & Ho3 & _ & Hi3 & _) & o' & Hko' & Hid').
    pose proof (destroy_object_run session k' s3) as Hd. rewrite Hk3, Ho3, Hi3, Hk2, Hi2 in Hd.
    destruct (ck (destroy_object session k') s3) as [[u'|e|] s4]; [| |done];
      destruct Hd as (Hk4 & Hi4 & Ho4).
    + split_and!; try done; simpl; rewrite Ho4; [by eapply shrunk_delete|].
      intros k1 k2 Hall h o'' [Hne' Ho'']%lookup_delete_Some. rewrite Ho2 in Ho'', Hko'.
      apply lookup_delete_Some in Ho'' as [Hne Ho'']. apply lookup_delete_Some in Hko' as [Hkk Hko'].
      intros Hid''. pose proof (Hall h o'' Ho'' Hid''). pose proof (Hall k o Hko Hid).
      pose proof (Hall k' o' Hko' Hid'). naive_solver.
    + split_and!; try done. simpl. by rewrite Ho4.
  - destruct Hf as ((Hk3 & Ho3 & _ & Hi3 & _) & Hnone).
    assert (Hstate : kim s3 = kim s /\ ids s3 = ids s /\ shrunk id (objs s) (objs s3))
      by (rewrite Hk3, Hi3, Ho3; by split_and!).
    destruct Hstate as (? & ? & ?). destruct e; try by split_and!.
    split_and!; try done. simpl. intros k1 k2 _ h o'. rewrite Ho3. by apply Hnone.
Qed.

(** The outcome of destroying the key [k] of [a]. *)
Lemma pk_destroy_spec self a k s :
  let t := triple a k in
  match psa_destroy_key_internal self a k s with
  | (Ok _, s') => exists i id, mappings s !! t = Some i /\ id_of i = Some id /\
      mappings s' = delete t (mappings s) /\ ids s' = ids s /\ shrunk id (objs s) (objs s') /\
      forall k1 k2, (forall h o, objs s !! h = Some o -> has_id id o -> h = k1 \/ h = k2) ->
        forall h o, objs s' !! h = Some o -> ~ has_id id o
  | (Err e, s') => ids s' = ids s /\
      ((mappings s' = mappings s /\ objs s' = objs s) \/
       exists i id, mappings s !! t = Some i /\ id_of i = Some id /\
         mappings s' = delete t (mappings s) /\ shrunk id (objs s) (objs s'))
  | (Panic, _) => False
  end.
Proof.
  intros t. unfold psa_destroy_key_internal. unfold mbind at 1, ST_bind at 1, on_kim at 1, zoom.
  rewrite get_key_id_run, pstate_eta. change (kim_view (kim s)) with (mappings s).
  fold t. destruct (mappings s !! t) as [i|] eqn:Ht; [|simpl; by auto].
  destruct (bincode_deserialize (ki_id i)) as [id|] eqn:Hi; simpl; [|by split_and!; auto].
  unfold mbind at 1, ST_bind at 1, on_kim, zoom.
  destruct (remove_key_info_cases (key_info_store self) t (kim s)) as (k1 & [[-> Hv]|[-> Hv]]);
    simpl; [by split_and!; auto|].
  change (kim_view (kim s)) with (mappings s) in *. rewrite Ht.
  set (s1 := {| kim := k1; dev := dev s |}). set (body := fun session : Z => _).
  destruct (with_session_cases self body s1)
    as [(e & s' & -> & (Hk & Ho & _ & Hids & _) & _)|(h & s2 & Hk & Ho & Hids & _ & _ & _ & _ & ->)].
  { split; [done|]. right. exists i, id. unfold mappings. rewrite Hk, Ho.
    split_and!; try done. apply shrunk_refl. }
  destruct (closing_run h (body h) s2) as (Hout & Hk' & Ho' & Hi' & _).
  pose proof (destroy_body h id s2) as (Hkb & Hib & Hsh & Hr). fold (body h) in Hkb, Hib, Hsh, Hr.
  change (objs s1) with (objs s) in Ho. change (ids s1) with (ids s) in Hids.
  rewrite <- Ho' in Hsh, Hr. rewrite <- Hout in Hr. rewrite Ho in Hsh, Hr.
  destruct (closing h (body h) s2) as [[u|e|] s']; simpl in *; [| |done].
  - exists i, id. unfold mappings. rewrite Hk', Hkb, Hk. split_and!; try done; congruence.
  - split; [congruence|]. right. exists i, id. unfold mappings. rewrite Hk', Hkb, Hk.
    by split_and!.
Qed.

Lemma pk_destroy_safe self a k : safe_in pk_ok (psa_destroy_key_internal self a k).
Proof.
  intros s Hs. pose proof (pk_destroy_spec self a k s) as Hd. simpl in Hd.
  assert (Hdel : forall s' i id, mappings s !! triple a k = Some i -> id_of i = Some id ->
    mappings s' = delete (triple a k) (mappings s) -> ids s' = ids s ->
    shrunk id (objs s) (objs s') -> pk_ok s').
  { intros s' i id Ht Hi Hv Hids [Hsub Hold]. split.
    - intros h o b1 b2 Ho. apply (ko_wf s Hs h o). by apply (lookup_weaken (objs s')).
    - rewrite Hv. apply (mapped_mono _ (pk_live s)); [by apply mapped_delete, Hs|].
      intros id' Hu (Hr & Hin & h & o & Ho & Hid'). split_and!; [apply Hr|apply Hr|by rewrite Hids|].
      exists h, o. split; [|done]. destruct (Hold h o Ho) as [?|Hid]; [done|]. exfalso.
      apply (delete_unused _ _ _ _ i id (ko_mapped s Hs)) in Ht as Hun; [|done|done].
      assert (id' = id) as ->; [|done].
      destruct (used_live _ _ _ id (ko_mapped s Hs)) as (Hr' & _); [by exists (triple a k), i|].
      apply u32_to_be_bytes_inj; [done|done|]. by apply (ko_wf s Hs h o). }
  destruct (psa_destroy_key_internal self a k s) as [[u|e|] s']; simpl; [| |done]; (split; [|done]).
  - destruct Hd as (i & id & ? & ? & ? & ? & ? & _). by apply (Hdel s' i id).
  - destruct Hd as (Hi & [[Hv Ho]|(i & id & ? & ? & ? & ?)]); [|by apply (Hdel s' i id)].
    apply (pk_ok_grow s s' 0); [done|done|by rewrite Hi|rewrite Ho; apply grown_refl].
Qed.

(** C12: Whatever an application asks for and whatever fails underneath, every mapping
    of the PKCS 11 provider names a key that is on the token, no two mappings name
    the same key and the identifiers in use are recorded; and the only way a
    request does not return is that every identifier drawn was in use. *)
Theorem pkcs11_invariant fuel uuid self a op s :
  pk_ok s ->
  pk_ok (provider_call (provide fuel uuid self) a op s).2 /\
  ((provider_call (provide fuel uuid self) a op s).1 = Panic -> taken_draws s (S fuel)).
Proof.
  intros Hs. destruct (pk_reading op) eqn:Hr.
  - destruct (pk_reading_calm fuel uuid self a op Hr s) as [(Hk & Ho & _ & Hi & _) Hp].
    split; [|done]. apply (pk_ok_grow s _ 0); [done|unfold mappings; by rewrite Hk|by rewrite Hi|].
    rewrite Ho. apply grown_refl.
  - destruct op; try discriminate Hr; simpl; rewrite bind_ret_state, bind_ret_panic.
    + by eapply created_ok; [apply pk_generate_creates|].
    + by eapply created_ok; [apply pk_import_creates|].
    + destruct (pk_destroy_safe self a key_name s Hs). done.
Qed.

(** Creating a key, by generation or import.  On success the name was free, the
    identifier was not in use and is recorded, the mapping gains exactly that key
    and the token gains only objects with that identifier.  On failure no mapping
    changes and what is left on the token, if anything, has an identifier that was
    not in use. *)
Theorem pkcs11_create_key_spec fuel self a gop iop :
  pk_creates fuel (triple a (gk_key_name gop)) (gk_attributes gop)
    (psa_generate_key_internal fuel self a gop) /\
  pk_creates fuel (triple a (ik_key_name iop)) (ik_attributes iop)
    (psa_import_key_internal fuel self a iop).
Proof. split; [apply pk_generate_creates|apply pk_import_creates]. Qed.

(** Destroying a key removes its mapping and, if the token held a key pair under
    its identifier, both objects; objects with another identifier stay. *)
Theorem pkcs11_destroy_complete self a k s s' :
  psa_destroy_key_internal self a k s = (Ok tt, s') ->
  mappings s' = delete (triple a k) (mappings s) /\
  exists id, shrunk id (objs s) (objs s') /\
    forall public private,
      (forall h o, objs s !! h = Some o -> has_id id o -> h = public \/ h = private) ->
      forall h o, objs s' !! h = Some o -> ~ has_id id o.
Proof.
  intros Hrun. pose proof (pk_destroy_spec self a k s) as Hd. simpl in Hd. rewrite Hrun in Hd.
  destruct Hd as (i & id & _ & _ & Hv & _ & Hsh & Hall). split; [done|]. by exists id.
Qed.

(** ** Start-up *)
Definition on_the_token s (i : KeyInfo) : Prop :=
  exists id, id_of i = Some id /\ exists h o, objs s !! h = Some o /\ has_id id o.

(** What the loop over the stored triples leaves alone. *)
Definition kept s1 s2 : Prop := kim s1 = kim s2 /\ objs s1 = objs s2.

Lemma pk_check_stored c session rm t i s :
  mappings s !! t = Some i ->
  match check_stored c session rm t s with
  | (Ok rm', s') => kept s' s /\
      ((exists id, id_of i = Some id /\ on_the_token s i /\ rm' = rm /\ ids s' = {[id]} ∪ ids s) \/
       ~ on_the_token s i /\ rm' = rm ++ [t] /\ ids s' = ids s)
  | (Err _, s') => kept s' s
  | (Panic, _) => False
  end.
Proof.
  intros Ht. unfold check_stored, on_kim. unfold mbind at 1, ST_bind at 1, attempt at 1, zoom.
  rewrite get_key_id_run, pstate_eta. change (kim_view (kim s)) with (mappings s). rewrite Ht.
  change (bincode_deserialize (ki_id i)) with (id_of (T := Z) i).
  destruct (id_of i) as [id|] eqn:Hid; simpl.
  - unfold mbind at 1, ST_bind at 1, attempt. pose proof (find_any_spec session id s) as Hf.
    destruct (find_key session id Any s) as [[k|e|] s1]; [| |done].
    + destruct Hf as ((Hk & Ho & _ & Hi & _) & o & Hko & Hhas).
      unfold on_dev, zoom. run_unfold. split; [by split|]. left. exists id.
      split_and!; [done| |done|unfold ids in *; simpl; by rewrite Hi].
      exists id. split; [done|]. by exists k, o.
    + destruct Hf as ((Hk & Ho & _ & Hi & _) & Hnone). destruct e; try by split.
      split; [by split|]. right. split_and!; [|done|done].
      intros (id' & Hid' & h & o & Hho & Hhas). simplify_eq. by apply (Hnone eq_refl h o).
  - split; [done|]. right. split_and!; [|done|done]. intros (id' & Hid' & _). congruence.
Qed.

Lemma pk_check_all c session ts : forall rm s,
  (forall t, t ∈ ts -> is_Some (mappings s !! t)) ->
  match fold_each ts rm (check_stored c session) s with
  | (Ok rm', s') => kept s' s /\
      (forall t, t ∈ rm' <-> t ∈ rm \/
         t ∈ ts /\ exists i, mappings s !! t = Some i /\ ~ on_the_token s i) /\
      (forall t i, t ∈ ts -> mappings s !! t = Some i -> on_the_token s i \/ t ∈ rm') /\
      (forall id, id ∈ ids s' <-> id ∈ ids s \/
         exists t i, t ∈ ts /\ mappings s !! t = Some i /\ id_of i = Some id /\ on_the_token s i)
  | (Err _, s') => kept s' s
  | (Panic, _) => False
  end.
Proof.
  induction ts as [|t ts IH]; intros rm s Hin; cbn [fold_each].
  - split; [done|]. set_solver.
  - destruct (Hin t) as [i Hi]; [left|]. unfold mbind, ST_bind.
    pose proof (pk_check_stored c session rm t i s Hi) as Hc.
    destruct (check_stored c session rm t s) as [[rm1|e|] s1]; [|done|done].
    destruct Hc as [[Hk1 Ho1] Hcase].
    assert (Hm : mappings s1 = mappings s) by (unfold mappings; by rewrite Hk1).
    assert (Hon : forall i, on_the_token s1 i <-> on_the_token s i)
      by (intros i'; unfold on_the_token; by rewrite Ho1).
    specialize (IH rm1 s1). rewrite Hm in IH. specialize (IH ltac:(set_solver)).
    destruct (fold_each ts rm1 (check_stored c session) s1) as [[rm2|e|] s2]; [| |done].
    2: { destruct IH as [Hk2 Ho2]. split; congruence. }
    destruct IH as ([Hk2 Ho2] & Hrm & Hor & Hids). split; [split; congruence|].
    setoid_rewrite Hon in Hrm. setoid_rewrite Hon in Hids. setoid_rewrite Hon in Hor.
    destruct Hcase as [(id & Hid & Ht & -> & Hi1)|(Hnt & -> & Hi1)]; split_and!.
    + intros t'. rewrite Hrm. set_solver.
    + intros t' i' [->|Ht']%elem_of_cons Hi'; [left; by simplify_eq|by apply Hor].
    + intros id'. rewrite Hids, Hi1. set_solver.
    + intros t'. rewrite Hrm. set_solver.
    + intros t' i' [->|Ht']%elem_of_cons Hi'; [right; apply Hrm; set_solver|by apply Hor].
    + intros id'. rewrite Hids, Hi1. set_solver.
Qed.

(** The scan of the stored triples in a session of its own. *)
Lemma pk_scan c self ts s :
  (forall t, t ∈ ts -> is_Some (mappings s !! t)) -> ids s = ∅ ->
  match with_session self (fun session => fold_each ts [] (check_stored c session)) s with
  | (Ok rm, s') => kept s' s /\
      (forall t i, t ∈ ts -> mappings s !! t = Some i -> on_the_token s i \/ t ∈ rm) /\
      (forall t, t ∈ rm -> t ∈ ts /\ exists i, mappings s !! t = Some i /\ ~ on_the_token s i) /\
      (forall id, id ∈ ids s' <->
         exists t i, t ∈ ts /\ mappings s !! t = Some i /\ id_of i = Some id /\ on_the_token s i)
  | (Err _, s') => kept s' s
  | (Panic, _) => False
  end.
Proof.
  intros Hin Hempty. set (body := fun session : Z => _).
  destruct (with_session_cases self body s)
    as [(e & s' & -> & (Hk & Ho & _) & _)|(h & s1 & Hk & Ho & Hi & _ & _ & _ & _ & ->)]; [done|].
  assert (Hm : mappings s1 = mappings s) by (unfold mappings; by rewrite Hk).
  assert (Hon : forall i, on_the_token s1 i <-> on_the_token s i)
    by (intros i; unfold on_the_token; by rewrite Ho).
  pose proof (pk_check_all c h ts [] s1) as Hall. rewrite Hm in Hall. specialize (Hall Hin).
  destruct (closing_run h (body h) s1) as (Hout & Hk3 & Ho3 & Hi3 & _).
  change (fold_each ts [] (check_stored c h) s1) with (body h s1) in Hall.
  destruct (closing h (body h) s1) as [r s3]. destruct (body h s1) as [r2 s2]. simpl in *. subst r.
  destruct r2 as [rm|e|]; [| |done].
  - destruct Hall as ([Hk2 Ho2] & Hrm & Hor & Hids). setoid_rewrite Hon in Hrm.
    setoid_rewrite Hon in Hor. setoid_rewrite Hon in Hids. split_and!; try done; try congruence.
    + split; congruence.
    + intros t [Ht|Ht]%Hrm; [by apply not_elem_of_nil in Ht|done].
    + intros id. rewrite Hi3, Hids, Hi, Hempty. set_solver.
  - destruct Hall as [Hk2 Ho2]. split; congruence.
Qed.

Lemma pk_set_pin slot pin s :
  exists out s0, (match pin with
    | Some pin => on_err (fun _ => tt) (on_token (set_pin slot pin))
    | None => mret tt end) s = (out, s0) /\ kept s0 s /\ out <> Panic.
Proof.
  destruct pin as [p|]; [|by eexists _, _]. unfold on_err. rewrite on_token_run.
  destruct (set_pin_reads slot p (token (dev s))) as (Ho & _ & Hp).
  eexists _, _. split_and!; [done|by split|]. by destruct (set_pin slot p _) as [[| |] ?].
Qed.

(** After the triples the scan reports are removed: what is left of the mappings and
    which identifiers are in use. *)
Lemma pk_pruned (ts rm : list KeyTriple) s s2 s4 :
  (forall t, t ∈ ts <-> is_Some (mappings s !! t) /\ kt_provider_id t = Pkcs11) ->
  kept s2 s ->
  (forall t i, t ∈ ts -> mappings s !! t = Some i -> on_the_token s i \/ t ∈ rm) ->
  (forall t, t ∈ rm -> t ∈ ts /\ exists i, mappings s !! t = Some i /\ ~ on_the_token s i) ->
  (forall id, id ∈ ids s2 <->
     exists t i, t ∈ ts /\ mappings s !! t = Some i /\ id_of i = Some id /\ on_the_token s i) ->
  dev s4 = dev s2 ->
  (forall t, mappings s4 !! t = if decide (t ∈ rm) then None else mappings s2 !! t) ->
  objs s4 = objs s /\
  (forall t i, mappings s4 !! t = Some i <->
     mappings s !! t = Some i /\ (kt_provider_id t = Pkcs11 -> on_the_token s i)) /\
  forall id, id ∈ ids s4 <-> used Pkcs11 (mappings s4) id.
Proof.
  intros Hts [Hk2 Ho2] Hor Hrm Hids Hd4 Hv4.
  assert (Hm2 : mappings s2 = mappings s) by (unfold mappings in *; by rewrite Hk2).
  assert (Hview : forall t i, mappings s4 !! t = Some i <->
    mappings s !! t = Some i /\ (kt_provider_id t = Pkcs11 -> on_the_token s i)).
  { intros t i. rewrite Hv4, Hm2. case_decide as Hd.
    - destruct (Hrm t Hd) as (Ht & i' & Hi' & Hna). apply Hts in Ht as [_ Hp].
      split; [done|]. intros [Hi Ha]. simplify_eq. destruct Hna. by apply Ha.
    - split; [|tauto]. intros Hi. split; [done|]. intros Hp.
      destruct (Hor t i) as [?|?]; [by apply Hts|done|done|done]. }
  split_and!; [|done|].
  - unfold objs in *. by rewrite Hd4, Ho2.
  - intros id. unfold ids in *. rewrite Hd4, Hids. unfold used.
    setoid_rewrite Hview. setoid_rewrite Hts. naive_solver.
Qed.

(** C23: Starting the provider drops exactly the mappings whose key is not on the
    token and keeps the rest, of this provider and of others; the objects stay;
    exactly the identifiers of the keys it keeps are recorded as in use.  It
    panics only if the software library does not start. *)
Theorem pkcs11_new_spec c slot pin sw allow s res s' :
  client_provider_id c = Pkcs11 ->
  new c slot pin sw allow s = (res, s') ->
  match res with
  | Ok self => key_info_store self = c /\ objs s' = objs s /\
      (forall t i, mappings s' !! t = Some i <->
         mappings s !! t = Some i /\ (kt_provider_id t = Pkcs11 -> on_the_token s i)) /\
      forall id, id ∈ ids s' <-> used Pkcs11 (mappings s') id
  | Err _ => True
  | Panic => sw = true
  end.
Proof.
  intros Hc. unfold new. unfold mbind at 1, ST_bind at 1.
  destruct (pk_set_pin slot pin s) as (out & s0 & -> & [Hk0 Ho0] & Hp0).
  destruct out as [u|e|]; [|by intros [= <- <-]|done].
  unfold mbind at 1, ST_bind at 1, on_dev, modify, zoom. cbn [dev].
  set (s1 := {| kim := kim s0; dev := _ |}).
  assert (Hm1 : mappings s1 = mappings s) by (unfold mappings; simpl; by rewrite Hk0).
  unfold mbind at 1, ST_bind at 1, on_err at 1, on_kim at 1, zoom.
  destruct (get_all_run c (kim s1)) as (ts & -> & _ & Hts). rewrite pstate_eta. rewrite Hc in Hts.
  change (kim_view (kim s1)) with (mappings s1) in Hts. rewrite Hm1 in Hts. cbn [map_err].
  unfold mbind at 1, ST_bind at 1, on_err at 1.
  pose proof (pk_scan c {| key_info_store := c; slot_number := slot;
    software_public_operations := sw; allow_export := allow |} ts s1) as Hscan.
  rewrite Hm1 in Hscan. specialize (Hscan ltac:(intros t Ht; by apply Hts) eq_refl).
  destruct (with_session _ _ s1) as [[rm|e|] s2]; cbn [map_err]; [|by intros [= <- <-]|done].
  destruct Hscan as ([Hk2 Ho2] & Hor & Hrm & Hids).
  unfold mbind at 1, ST_bind at 1. pose proof (remove_loop_spec (fun _ => tt) c rm s2) as Hrem.
  destruct (for_each rm _ s2) as [[u'|e|] s4]; [|by intros [= <- <-]|done].
  destruct Hrem as [Hd4 Hv4].
  pose proof (pk_pruned ts rm s1 s2 s4) as Hfinal. rewrite Hm1 in Hfinal.
  specialize (Hfinal Hts (conj Hk2 Ho2) Hor Hrm Hids Hd4 Hv4).
  assert (Hon : forall i, on_the_token s1 i <-> on_the_token s i).
  { intros i. unfold on_the_token. change (objs s1) with (objs s0). by rewrite Ho0. }
  change (objs s1) with (objs s0) in Hfinal. rewrite Ho0 in Hfinal. setoid_rewrite Hon in Hfinal.
  unfold mbind at 1, ST_bind at 1. destruct sw.
  - unfold mbind at 1, ST_bind at 1, attempt, on_psa, on_dev, zoom.
    destruct (psa_init (psa_lib (dev s4))) as [[u5|e|] b5]; intros [= <- <-]; [|done|done].
    split; [done|]. exact Hfinal.
  - intros [= <- <-]. split; [done|]. exact Hfinal.
Qed.

(** ** Software operations on public keys *)
Definition soft_keys s : gset Z := psa_keys (psa_lib (dev s)).
Definition same_soft s1 s2 : Prop := psa_lib (dev s1) = psa_lib (dev s2).
#[export] Instance same_soft_preorder : PreOrder same_soft.
Proof. split; [by intros s|]. unfold same_soft. intros s1 s2 s3. congruence. Qed.

Lemma soft_kim {E A} (m : ST K E A) : steps same_soft (on_kim (D := device T B G) m).
Proof. intros s. unfold on_kim, zoom. by destruct (m (kim s)). Qed.
Lemma soft_token {E A} (m : ST T E A) : steps same_soft (on_token m).
Proof. intros s. by rewrite on_token_run. Qed.
Lemma soft_session {A} self (k : Z -> ST W ResponseStatus A) :
  (forall session, steps same_soft (k session)) -> steps same_soft (with_session self k).
Proof.
  intros Hk s. destruct (with_session_cases self k s)
    as [(e & s' & -> & _ & Hs)|(h & s1 & ? & ? & ? & ? & Hp & _ & _ & ->)]; [done|].
  destruct (closing_run h (k h) s1) as (_ & _ & _ & _ & _ & Hc & _).
  specialize (Hk h s1). unfold same_soft in *. congruence.
Qed.
#[local] Hint Resolve soft_kim soft_token soft_session : parsec.

Lemma soft_export self a k : steps same_soft (psa_export_public_key_internal self a k).
Proof.
  unfold psa_export_public_key_internal. steps_auto. apply soft_session.
  unfold export_public_rsa_internal, export_public_ec_internal, find_key, ck. steps_auto.
Qed.
#[local] Hint Resolve soft_export : parsec.

Lemma psa_run {A} (m : ST B psa_error A) s :
  psa (K := K) (T := T) (G := G) m s = (map_err status_of (m (psa_lib (dev s))).1,
    {| kim := kim s; dev := {| token := token (dev s); psa_lib := (m (psa_lib (dev s))).2;
                               rng := rng (dev s); local_ids := local_ids (dev s) |} |}).
Proof. unfold psa, on_err, on_psa, on_dev, zoom. by destruct (m (psa_lib (dev s))). Qed.

(** A computation whose last step imports a volatile key. *)
Definition imports (m : ST W ResponseStatus Z) : Prop :=
  forall s, match m s with
  | (Ok i, s') => (i ∉ soft_keys s) /\ soft_keys s' = {[i]} ∪ soft_keys s
  | (_, s') => soft_keys s' = soft_keys s
  end.

Lemma imports_bind {A} (m : ST W ResponseStatus A) k :
  steps same_soft m -> (forall a, imports (k a)) -> imports (x ← m; k x).
Proof.
  intros Hm Hk s. specialize (Hm s). unfold mbind, ST_bind, same_soft, soft_keys in *.
  destruct (m s) as [[a|e|] s1]; simpl in *; [|by rewrite Hm|by rewrite Hm].
  specialize (Hk a s1). unfold soft_keys in Hk. by rewrite Hm in Hk.
Qed.
Lemma imports_psa a d : imports (psa (psa_import a None d)).
Proof.
  intros s. rewrite psa_run. unfold soft_keys.
  pose proof (psa_import_volatile a d (psa_lib (dev s))) as Hv.
  by destruct (psa_import a None d (psa_lib (dev s))) as [[i|e|] b1].
Qed.
Lemma move_imports self t : imports (move_pub_key_to_psa_crypto self t).
Proof.
  unfold move_pub_key_to_psa_crypto. apply imports_bind; [auto with parsec|intros data].
  apply imports_bind; [auto with parsec|intros attributes].
  apply imports_bind; [steps_auto|intros ty]. apply imports_psa.
Qed.

(** The volatile key is gone again, or the library refused to destroy it. *)
Definition cleans_up {A} (m : ST W ResponseStatus A) : Prop :=
  forall s, soft_keys (m s).2 = soft_keys s \/
    exists i b e, (i ∉ soft_keys s) /\ (psa_destroy i b).1 = Err e /\
      soft_keys (m s).2 = {[i]} ∪ soft_keys s.

Lemma cleans_bind {A C} (m : ST W ResponseStatus A) (k : A -> ST W ResponseStatus C) :
  steps same_soft m -> (forall a, cleans_up (k a)) -> cleans_up (x ← m; k x).
Proof.
  intros Hm Hk s. specialize (Hm s). unfold mbind, ST_bind, same_soft, soft_keys in *.
  destruct (m s) as [[a|e|] s1]; simpl in *; [|left; by rewrite Hm|left; by rewrite Hm].
  specialize (Hk a s1). unfold soft_keys in Hk. by rewrite Hm in Hk.
Qed.

Lemma remove_soft_run i s :
  exists r s', attempt (F := ResponseStatus) (remove_psa_crypto_pub_key i) s = (Ok r, s') /\
    (soft_keys s' = soft_keys s ∖ {[i]} \/
     soft_keys s' = soft_keys s /\ exists b e, (psa_destroy i b).1 = Err e).
Proof.
  unfold attempt, remove_psa_crypto_pub_key. rewrite psa_run. unfold soft_keys.
  pose proof (psa_destroy_spec i (psa_lib (dev s))) as Hd.
  destruct (psa_destroy i (psa_lib (dev s))) as [[u|e|] b] eqn:Hrun; simpl; [| |done];
    eexists _, _; (split; [done|]); [by left|]. destruct Hd as [Hd|Hd]; [right|by left].
  split; [done|]. exists (psa_lib (dev s)), e. by rewrite Hrun.
Qed.

(** Import a public key, use it and remove it. *)
Lemma cleans_use {A} self t (use : Z -> ST W ResponseStatus A) :
  (forall i s, soft_keys (use i s).2 = soft_keys s /\ (use i s).1 <> Panic) ->
  cleans_up (pub_key_id ← move_pub_key_to_psa_crypto self t;
             res ← attempt (use pub_key_id);
             attempt (F := ResponseStatus) (remove_psa_crypto_pub_key pub_key_id) ;; lift res).
Proof.
  intros Huse s. pose proof (move_imports self t s) as Hm. pose proof (calm_move self t s) as [_ Hp].
  destruct (move_pub_key_to_psa_crypto self t s) as [[i|e|] s1] eqn:Hmove; [| |done].
  2: { left. by rewrite (bind_Err _ _ _ _ _ Hmove). }
  rewrite (bind_run _ _ _ _ _ Hmove). destruct Hm as [Hi Hm]. destruct (Huse i s1) as [Hu Hup].
  assert (exists r s2, attempt (F := ResponseStatus) (use i) s1 = (Ok r, s2) /\
    soft_keys s2 = soft_keys s1) as (r & s2 & Hrun & Hs2).
  { unfold attempt. destruct (use i s1) as [[| |] s2]; simpl in *; [by eauto|by eauto|done]. }
  rewrite (bind_run _ _ _ _ _ Hrun).
  destruct (remove_soft_run i s2) as (r3 & s3 & Hrem & Hcase).
  rewrite (bind_run _ _ _ _ _ Hrem). rewrite Hs2, Hm in Hcase.
  destruct Hcase as [Hs3|(Hs3 & b & e & He)].
  - left. simpl. rewrite Hs3. set_solver.
  - right. exists i, b, e. by split_and!.
Qed.

Lemma psa_use_reads {A} (m : ST B psa_error A) s :
  reads_keys psa_keys m ->
  soft_keys (psa (K := K) (T := T) (G := G) m s).2 = soft_keys s /\
  (psa (K := K) (T := T) (G := G) m s).1 <> Panic.
Proof.
  intros Hm. rewrite psa_run. destruct (Hm (psa_lib (dev s))) as [Hk Hp]. split; [done|].
  by destruct (m (psa_lib (dev s))) as [[| |] ?].
Qed.

(** Verifying or encrypting in software leaves no key behind in the software
    library, on success and on every error, unless the library itself refuses to
    destroy the volatile key. *)
Theorem software_ops_clean_up self a vop eop :
  cleans_up (software_psa_verify_hash_internal self a vop) /\
  cleans_up (software_psa_asymmetric_encrypt_internal self a eop).
Proof.
  split.
  - unfold software_psa_verify_hash_internal. apply cleans_bind; [auto with parsec|intros attrs].
    apply cleans_bind; [steps_auto|intros _].
    apply (cleans_use self _ (fun i => psa _)). intros i s. apply psa_use_reads. auto with parsec.
  - unfold software_psa_asymmetric_encrypt_internal. apply cleans_bind; [auto with parsec|intros attrs].
    apply cleans_bind; [steps_auto|intros _]. apply cleans_bind; [steps_auto|intros n].
    apply (cleans_use self _ (fun i => _ ← psa _; _)). intros i s.
    destruct (psa_use_reads (psa_encrypt i (ae_alg eop) (ae_plaintext eop) (ae_salt eop) (zeroed n)) s)
      as [Hs Hp]; [auto with parsec|]. unfold mbind, ST_bind.
    by destruct (psa (psa_encrypt _ _ _ _ _) s) as [[[m c]|e|] s'].
Qed.

(** ** A public key comes back as it was imported *)
Lemma with_session_Ok {A} self (k : Z -> ST W ResponseStatus A) s x s' :
  with_session self k s = (Ok x, s') ->
  exists session s1 s2, kim s1 = kim s /\ objs s1 = objs s /\ ids s1 = ids s /\
    k session s1 = (Ok x, s2) /\ kim s' = kim s2 /\ objs s' = objs s2 /\ ids s' = ids s2.
Proof.
  intros Hrun. destruct (with_session_cases self k s)
    as [(e & s0 & Hrun' & _)|(h & s1 & Hk & Ho & Hi & _ & _ & _ & _ & Hrun')]; [congruence|].
  rewrite Hrun in Hrun'. destruct (closing_run h (k h) s1) as (Hout & Hk' & Ho' & Hi' & _).
  rewrite <- Hrun' in *. destruct (k h s1) as [r s2] eqn:Hb. simpl in *. subst r.
  exists h, s1, s2. by split_and!.
Qed.

(** The one object a successful import makes. *)
Lemma import_Ok fuel self a op s s' :
  psa_import_key_internal fuel self a op s = (Ok tt, s') ->
  exists id b l h o, import_template (ik_attributes op) (ik_data op) id = Ok l /\ made l o /\
    (id ∉ ids s) /\ (0 <= id < 2 ^ 32)%Z /\ objs s !! h = None /\ objs s' = <[h := o]> (objs s) /\
    bincode_serialize id = Some b /\
    mappings s' !! triple a (ik_key_name op) = Some {| ki_id := b; ki_attributes := ik_attributes op |}.
Proof.
  unfold psa_import_key_internal. destruct (_ && _); [done|]. intros Hrun.
  apply bind_Ok in Hrun as ([] & s0 & Hdne & Hrun). unfold on_kim, zoom in Hdne.
  rewrite does_not_exist_run, pstate_eta in Hdne. change (kim_view (kim s)) with (mappings s) in Hdne.
  destruct (mappings s !! triple a (ik_key_name op)) eqn:Hfree; [done|]. injection Hdne as <-.
  apply with_session_Ok in Hrun as (session & s1 & s2 & Hk1 & Ho1 & Hi1 & Hrun & Hk2 & Ho2 & Hi2).
  apply bind_Ok in Hrun as (id & s3 & Hid & Hrun). pose proof (create_key_id_cases fuel s1) as Hc.
  rewrite Hid in Hc. destruct Hc as (Hk3 & Ht3 & _ & Hr & Hnew & _).
  apply bind_Ok in Hrun as (l & s4 & Hl & Hrun). injection Hl as Hl <-.
  apply bind_Ok in Hrun as (h & s5 & Hobj & Hrun). unfold ck, on_err in Hobj. rewrite on_token_run in Hobj.
  pose proof (create_object_spec session l (token (dev s3))) as Hco.
  destruct (create_object session l (token (dev s3))) as [[h'|e|] t']; simpl in *; [|done|done].
  injection Hobj as -> <-. destruct Hco as (Hh & _ & o & Ho & Hmade).
  assert (Hobjs : objs s3 = objs s) by (unfold objs in *; rewrite Ht3; done).
  change (objects (token (dev s3))) with (objs s3) in *. rewrite Hobjs in *.
  destruct (bincode_u32 id Hr) as [b Hb]. revert Hrun. unfold store_or_undo, on_kim. run_unfold.
  assert (Hks : kim s3 = kim s) by congruence. rewrite Hks.
  destruct (insert_key_info_cases (key_info_store self) (triple a (ik_key_name op)) id
    (ik_attributes op) (kim s) b Hb) as (k1 & [[-> _]|[-> Hv]]).
  - destruct (destroy_ignoring session h _) as [[| |] ?]; done.
  - unfold mappings in Hfree. rewrite Hfree. intros [= <-]. exists id, b, l, h, o.
    split_and!; try done; try (by rewrite <- Hi1); try apply Hr; [by rewrite Ho2|].
    unfold mappings. rewrite Hk2. simpl. by rewrite Hv, lookup_insert_eq.
Qed.

Lemma generated_pair fuel self a op s s' :
  mappings s !! triple a (gk_key_name op) = None ->
  with_session self (fun session =>
    key_id ← create_key_id fuel;
    '(mech, pub, priv) ← lift (generate_templates (gk_attributes op) key_id);
    '(public, private) ← ck (generate_key_pair session mech pub priv);
    store_or_undo self (triple a (gk_key_name op)) key_id (gk_attributes op)
      (destroy_ignoring session public ;; destroy_ignoring session private)) s = (Ok tt, s') ->
  exists id b mech pub priv k1 k2 o1 o2,
    generate_templates (T := T) (gk_attributes op) id = Ok (mech, pub, priv) /\
    (exists session tk, (generate_key_pair session mech pub priv tk).1 = Ok (k1, k2)) /\
    made (AClass PUBLIC_KEY :: pub) o1 /\ made (AClass PRIVATE_KEY :: priv) o2 /\
    (id ∉ ids s) /\ (0 <= id < 2 ^ 32)%Z /\ k1 <> k2 /\ objs s !! k1 = None /\
    objs s !! k2 = None /\ objs s' = <[k2 := o2]> (<[k1 := o1]> (objs s)) /\
    bincode_serialize id = Some b /\
    mappings s' !! triple a (gk_key_name op) =
      Some {| ki_id := b; ki_attributes := gk_attributes op |}.
Proof.
  intros Hfree Hrun.
  apply with_session_Ok in Hrun as (session & s1 & s2 & Hk1 & Ho1 & Hi1 & Hrun & Hk2 & Ho2 & Hi2).
  apply bind_Ok in Hrun as (id & s3 & Hid & Hrun). pose proof (create_key_id_cases fuel s1) as Hc.
  rewrite Hid in Hc. destruct Hc as (Hk3 & Ht3 & _ & Hr & Hnew & _).
  apply bind_Ok in Hrun as ([[mech pub] priv] & s4 & Hl & Hrun). injection Hl as Hl <-.
  apply bind_Ok in Hrun as ([k1 k2] & s5 & Hobj & Hrun).
  unfold ck, on_err in Hobj. rewrite on_token_run in Hobj.
  pose proof (generate_key_pair_spec session mech pub priv (token (dev s3))) as Hco.
  destruct (generate_key_pair session mech pub priv (token (dev s3))) as [[[k1' k2']|e|] t'] eqn:Hcall;
    simpl in *; [|done|done].
  injection Hobj as -> -> <-. destruct Hco as (Hne & Hh1 & Hh2 & _ & o1 & o2 & Ho & Hm1 & Hm2).
  assert (Hobjs : objs s3 = objs s) by (unfold objs in *; rewrite Ht3; done).
  change (objects (token (dev s3))) with (objs s3) in *. rewrite Hobjs in *.
  destruct (bincode_u32 id Hr) as [b Hb]. revert Hrun. unfold store_or_undo, on_kim. run_unfold.
  assert (Hks : kim s3 = kim s) by congruence. rewrite Hks.
  destruct (insert_key_info_cases (key_info_store self) (triple a (gk_key_name op)) id
    (gk_attributes op) (kim s) b Hb) as (q & [[-> _]|[-> Hv]]).
  - destruct (destroy_ignoring session k1 _) as [[| |] ?]; [|done|done].
    destruct (destroy_ignoring session k2 _) as [[| |] ?]; done.
  - unfold mappings in Hfree. rewrite Hfree. intros [= <-].
    exists id, b, mech, pub, priv, k1, k2, o1, o2.
    split_and!; try done; try (by rewrite <- Hi1); try apply Hr; 
      [exists session, (token (dev s3)); by rewrite Hcall|by rewrite Ho2|].
    unfold mappings. rewrite Hk2. simpl. by rewrite Hv, lookup_insert_eq.
Qed.

(** The two objects a successful generation makes, and what the token was asked for. *)
Lemma generate_Ok fuel self a op s s' :
  psa_generate_key_internal fuel self a op s = (Ok tt, s') ->
  let attrs := gk_attributes op in
  (export (usage_flags (policy attrs)) = true -> allow_export self = true) /\
  mappings s !! triple a (gk_key_name op) = None /\
  exists id b mech pub priv k1 k2 o1 o2,
    generate_templates (T := T) attrs id = Ok (mech, pub, priv) /\
    (exists session tk, (generate_key_pair session mech pub priv tk).1 = Ok (k1, k2)) /\
    made (AClass PUBLIC_KEY :: pub) o1 /\ made (AClass PRIVATE_KEY :: priv) o2 /\
    (id ∉ ids s) /\ (0 <= id < 2 ^ 32)%Z /\ k1 <> k2 /\ objs s !! k1 = None /\
    objs s !! k2 = None /\ objs s' = <[k2 := o2]> (<[k1 := o1]> (objs s)) /\
    bincode_serialize id = Some b /\
    mappings s' !! triple a (gk_key_name op) = Some {| ki_id := b; ki_attributes := attrs |}.
Proof.
  unfold psa_generate_key_internal. destruct (is_public_key _); [done|].
  destruct (export _) eqn:Hexp, (allow_export self) eqn:Hallow; simpl; try done; intros Hrun;
    (split; [done|]); apply bind_Ok in Hrun as ([] & s0 & Hdne & Hrun); unfold on_kim, zoom in Hdne;
    rewrite does_not_exist_run, pstate_eta in Hdne;
    change (kim_view (kim s)) with (mappings s) in Hdne;
    (destruct (mappings s !! triple a (gk_key_name op)) eqn:Hfree; [done|]);
    injection Hdne as <-; (split; [done|]); by eapply generated_pair.
Qed.

(** ** What a generated key may be used for *)

(** A template gives each property at most one value. *)
Definition consistent (l : list CkAttribute) : Prop := NoDup (attr_kind <$> l).
Lemma consistent_by l : bool_decide (NoDup (attr_kind <$> l)) = true -> consistent l.
Proof. by intros ?%bool_decide_eq_true. Qed.
(** The object has the property with this value, and with no other. *)
Definition has_only {A} (property : A -> CkAttribute) (v : A) (o : list CkAttribute) : Prop :=
  forall x, property x ∈ o <-> x = v.

Lemma made_only {A} (property : A -> CkAttribute) v template o :
  made template o -> consistent template -> property v ∈ template ->
  (forall x y, attr_kind (property x) = attr_kind (property y)) ->
  (forall x y, property x = property y -> x = y) -> has_only property v o.
Proof.
  intros [Hsub Hkind] Hc Hv Hk Hinj x. split; [|intros ->; by apply Hsub]. intros Hx. apply Hinj.
  assert (Hin : property x ∈ template) by (by apply (Hkind (property v)); [| |apply Hk]).
  apply list_elem_of_lookup in Hin as [n Hn]. apply list_elem_of_lookup in Hv as [m Hm].
  assert (n = m) as ->; [|congruence].
  apply (NoDup_lookup _ n m (attr_kind (property v)) Hc); rewrite list_lookup_fmap, ?Hn, ?Hm;
    simpl; [by rewrite (Hk x v)|done].
Qed.
Ltac made_only :=
  eapply made_only; [eassumption|by apply consistent_by|set_solver|done|by intros ? ? [= ->]].

(** The public half of a pair with the identifier [id]. *)
Record public_half (attrs : Attributes) (id : Z) (o : list CkAttribute) : Prop := {
  pub_class : has_only AClass PUBLIC_KEY o;
  pub_id : has_only AId (u32_to_be_bytes id) o;
  pub_token : has_only AToken true o;
  pub_private : has_only APrivate false o;
  pub_verify : has_only AVerify
    (verify_hash (usage_flags (policy attrs)) || verify_message (usage_flags (policy attrs))) o;
  pub_encrypt : has_only AEncrypt (encrypt (usage_flags (policy attrs))) o;
  pub_copy : has_only ACopyable (copy (usage_flags (policy attrs))) o;
  pub_mechanism : exists m, mechanism_of (permitted_algorithms (policy attrs)) = Ok m /\
    has_only AAllowedMechanisms [mechanism_type m] o;
  pub_size : match key_type attrs with
    | RsaKeyPair => has_only APublicExponent PUBLIC_EXPONENT o /\
        exists n, ulong_of (bits attrs) = Ok n /\ has_only AModulusBits n o
    | EccKeyPair f => exists oid params, ec_params f (bits attrs) = Ok oid /\
        named_curve_to_vec oid = Some params /\ has_only AEcParams params o
    | _ => False
    end;
}.
(** The private half. *)
Record private_half (attrs : Attributes) (id : Z) (o : list CkAttribute) : Prop := {
  priv_class : has_only AClass PRIVATE_KEY o;
  priv_id : has_only AId (u32_to_be_bytes id) o;
  priv_token : has_only AToken true o;
  priv_sign : has_only ASign
    (sign_hash (usage_flags (policy attrs)) || sign_message (usage_flags (policy attrs))) o;
  priv_decrypt : has_only ADecrypt (decrypt (usage_flags (policy attrs))) o;
  priv_derive : has_only ADerive (derive (usage_flags (policy attrs))) o;
  priv_extract : has_only AExtractable (export (usage_flags (policy attrs))) o;
  priv_sensitive : has_only ASensitive (negb (export (usage_flags (policy attrs)))) o;
  priv_copy : has_only ACopyable (copy (usage_flags (policy attrs))) o;
  priv_mechanism : exists m, mechanism_of (permitted_algorithms (policy attrs)) = Ok m /\
    has_only AAllowedMechanisms [mechanism_type m] o;
}.
(** What the token is asked to generate. *)
Definition pair_mechanism (ty : KeyType) : option Mechanism :=
  match ty with
  | RsaKeyPair => Some RsaPkcsKeyPairGen
  | EccKeyPair _ => Some EccKeyPairGen
  | _ => None
  end.

Lemma templates_carry_policy attrs id mech pub priv o1 o2 :
  generate_templates (T := T) attrs id = Ok (mech, pub, priv) ->
  made (AClass PUBLIC_KEY :: pub) o1 -> made (AClass PRIVATE_KEY :: priv) o2 ->
  pair_mechanism (key_type attrs) = Some mech /\ public_half attrs id o1 /\
  private_half attrs id o2.
Proof.
  unfold generate_templates, key_pair_usage_flags_to_pkcs11_attributes. run_unfold.
  destruct (mechanism_of _) as [m|e|] eqn:Hm; simpl; [|done|done].
  destruct (key_type attrs) eqn:Hty; simpl; try done.
  - destruct (ulong_of (bits attrs)) as [n|e|] eqn:Hn; simpl; [|done|done].
    intros [= <- <- <-] H1' H2'. split_and!; [done|split|split]; rewrite ?Hty;
      try made_only; [exists m; split; [done|made_only]| |exists m; split; [done|made_only]].
    split; [made_only|]. exists n. split; [done|made_only].
  - destruct (ec_params _ _) as [oid|e|] eqn:Ho; simpl; [|done|done].
    destruct (named_curve_to_vec oid) as [params|] eqn:Hp; simpl; [|done].
    intros [= <- <- <-] H1' H2'. split_and!; [done|split|split]; rewrite ?Hty;
      try made_only; [exists m; split; [done|made_only]| |exists m; split; [done|made_only]].
    exists oid, params. split_and!; [done|done|made_only].
Qed.

(** C26: a key that was generated on the token can be used exactly for what its policy
    says.  Generation succeeds only for a name that is free, and for a key that may be
    exported only if the configuration allows it.  Then the token has gained two objects,
    under one identifier that was not in use, and the mapping leads to it.  Each property
    has one value in them: the private half may sign, decrypt and derive as the usage
    flags say, can be extracted exactly if the key may be exported and is sensitive
    otherwise; the public half may verify and encrypt as the flags say and is public;
    both can be copied as the flags say and only used with the mechanism of the permitted
    algorithm; and the pair was generated with the mechanism, the size and the curve of
    the key's type. *)
Theorem generated_key_carries_policy fuel self a op s s' :
  psa_generate_key_internal fuel self a op s = (Ok tt, s') ->
  let attrs := gk_attributes op in
  (export (usage_flags (policy attrs)) = true -> allow_export self = true) /\
  mappings s !! triple a (gk_key_name op) = None /\
  exists id b mech k1 k2 o1 o2,
    (id ∉ ids s) /\ (0 <= id < 2 ^ 32)%Z /\ bincode_serialize id = Some b /\
    mappings s' !! triple a (gk_key_name op) = Some {| ki_id := b; ki_attributes := attrs |} /\
    k1 <> k2 /\ objs s !! k1 = None /\ objs s !! k2 = None /\
    objs s' = <[k2 := o2]> (<[k1 := o1]> (objs s)) /\
    public_half attrs id o1 /\ private_half attrs id o2 /\
    pair_mechanism (key_type attrs) = Some mech /\
    exists session pub priv tk, (generate_key_pair session mech pub priv tk).1 = Ok (k1, k2).
Proof.
  intros (Hexp & Hfree & id & b & mech & pub & priv & k1 & k2 & o1 & o2 & Ht & (session & tk & Hg) &
    Hm1 & Hm2 & Hnew & Hr & Hne & Hk1 & Hk2 & Ho & Hb & Hmap)%generate_Ok.
  destruct (templates_carry_policy _ _ _ _ _ _ _ Ht Hm1 Hm2) as (Hmech & Hpub & Hpriv).
  split_and!; [done|done|]. exists id, b, mech, k1, k2, o1, o2. split_and!; try done;
    try apply Hr. by exists session, pub, priv, tk.
Qed.

(** The object found has the attributes asked for. *)
Lemma find_key_Ok session id ty s k s' :
  find_key session id ty s = (Ok k, s') ->
  objs s' = objs s /\ exists o, objs s !! k = Some o /\ has_id id o.
Proof.
  unfold find_key. intros Hrun. apply bind_Ok in Hrun as (l & s1 & Hl & Hrun).
  unfold ck, on_err in Hl. rewrite on_token_run in Hl. set (template := AId _ :: _) in Hl.
  destruct (find_objects_reads session template (token (dev s))) as (Ho & _ & _).
  destruct (find_objects session template (token (dev s))) as [[l'|e|] t'] eqn:Hf; simpl in *; [|done|done].
  injection Hl as -> <-. destruct l as [|k' l]; [done|]. injection Hrun as -> <-. split; [done|].
  destruct (proj1 (find_objects_spec _ _ _ _ _ Hf k)) as (o & Hko & Hin); [left|].
  exists o. split; [done|]. apply Hin. left.
Qed.

Lemma import_ec_template attrs data id f l :
  key_type attrs = EccPublicKey f -> import_template attrs data id = Ok l ->
  exists v, octet_string_to_vec data = Some v /\ AEcPoint v ∈ l /\ forall p, AEcPoint p ∈ l -> p = v.
Proof.
  intros Hty. unfold import_template. rewrite Hty. unfold handle_ecc_public_import_attrib.
  run_unfold. generalize (ec_params f (bits attrs)). intros out. destruct f; try done;
    (destruct (octet_string_to_vec data) as [v|]; simpl; [|done]);
    (destruct out as [oid|e|]; simpl; [|done|done]);
    (destruct (named_curve_to_vec oid) as [params|]; simpl; [|done]); intros [= <-];
    exists v; set_solver.
Qed.

Lemma export_ec_Ok h session s d s' o v :
  export_public_ec_internal h session s = (Ok d, s') -> objs s !! h = Some o ->
  AEcPoint v ∈ o -> (forall p, AEcPoint p ∈ o -> p = v) -> octet_string_from_bytes v = Some d.
Proof.
  unfold export_public_ec_internal. intros Hrun Ho Hv Hone.
  apply bind_Ok in Hrun as (l & s1 & Hget & Hrun). unfold ck, on_err in Hget.
  rewrite on_token_run in Hget.
  destruct (get_attributes session h [TEcPoint] (token (dev s))) as [[l'|e|] t'] eqn:Hg;
    simpl in Hget; [|done|done]. injection Hget as -> <-.
  destruct (get_ec_point_spec session h _ l t' o Hg Ho) as [(p & -> & Hp)|Hno]; [|by destruct (Hno v)].
  rewrite (Hone p Hp) in Hrun. unfold lift in Hrun. injection Hrun as Hrun _.
  destruct (octet_string_from_bytes v); simpl in *; congruence.
Qed.

(** Importing an elliptic curve public key and exporting it again gives the same
    bytes, if the token holds no object under an identifier the provider does not
    know. *)
Theorem ec_public_key_roundtrip `{!DerLaws} fuel self a op f s s1 s2 data :
  key_type (ik_attributes op) = EccPublicKey f ->
  (forall h o id, objs s !! h = Some o -> (0 <= id < 2 ^ 32)%Z -> has_id id o -> id ∈ ids s) ->
  psa_import_key_internal fuel self a op s = (Ok tt, s1) ->
  psa_export_public_key_internal self a (ik_key_name op) s1 = (Ok data, s2) ->
  data = ik_data op.
Proof.
  intros Hty Hknown Himp Hexp.
  destruct (import_Ok fuel self a op s s1 Himp)
    as (id & b & l & h & o & Hl & [Hsub Hkind] & Hnew & Hr & Hh & Ho & Hb & Hmap).
  apply bincode_round in Hb. revert Hexp. unfold psa_export_public_key_internal. intros Hexp.
  apply bind_Ok in Hexp as (attrs & t1 & Hat & Hexp). unfold on_kim, zoom in Hat.
  rewrite get_key_attributes_run, pstate_eta in Hat.
  change (kim_view (kim s1)) with (mappings s1) in Hat. rewrite Hmap in Hat. injection Hat as <- <-.
  apply bind_Ok in Hexp as (id' & t2 & Hid & Hexp). unfold on_kim, zoom in Hid.
  rewrite get_key_id_run, pstate_eta in Hid. change (kim_view (kim s1)) with (mappings s1) in Hid.
  rewrite Hmap in Hid. simpl in Hid. rewrite Hb in Hid. injection Hid as <- <-.
  apply with_session_Ok in Hexp as (session & t3 & t4 & _ & Ho3 & _ & Hexp & _).
  apply bind_Ok in Hexp as (k & t5 & Hfind & Hexp).
  apply find_key_Ok in Hfind as (Ho5 & o' & Hk & Hhas). rewrite Ho3, Ho in *.
  assert (k = h /\ o' = o) as [-> ->].
  { apply lookup_insert_Some in Hk as [[<- <-]|[_ Hk]]; [done|]. destruct Hnew.
    by apply (Hknown k o' id). }
  simpl in Hexp. rewrite Hty in Hexp.
  destruct (import_ec_template _ _ _ _ _ Hty Hl) as (v & Hv & Hin & Hone).
  apply (export_ec_Ok _ _ _ _ _ o v) in Hexp.
  - rewrite (octet_string_round _ _ Hv) in Hexp. by injection Hexp.
  - by rewrite Ho5, lookup_insert_eq.
  - by apply Hsub.
  - intros p Hp. apply Hone. by apply (Hkind (AEcPoint v) (AEcPoint p)).
Qed.
End Spec.
