(* ===== verification/Pkcs11Scenario.v ===== *)
(** * A concrete token

    A token that keeps its objects in a map, with the PKCS 11 provider over it;
    the theorems of [Pkcs11Spec] are applied to it. *)
From S2P Require Import Prelude RustStd Interface Authenticators Fs KeyInfo OnDisk Concrete Provide.
From S2P Require Import CoreProvider ProviderState Mbed MbedSpec Scenario CryptoAuthLib.
From S2P Require Import CryptoAuthLibSpec Pkcs11 Pkcs11Spec.
Import Pkcs11Provider.

Record demo_token := { tk_objects : gmap Z (list CkAttribute); tk_sessions : gset Z }.
Definition with_objects (o : gmap Z (list CkAttribute)) (t : demo_token) : demo_token :=
  {| tk_objects := o; tk_sessions := tk_sessions t |}.
(** Handles of objects that are gone are used again. *)
Fixpoint first_free (n : nat) (z : Z) (d : gset Z) : Z :=
  match n with
  | O => fresh d
  | S n' => if decide (z ∈ d) then first_free n' (z + 1) d else z
  end.
Definition tk_fresh (t : demo_token) : Z := first_free 8 0 (dom (tk_objects t)).
Definition tk_add (l : list CkAttribute) (t : demo_token) : Z * demo_token :=
  (tk_fresh t, with_objects (<[tk_fresh t := l]> (tk_objects t)) t).
Definition has_all (template o : list CkAttribute) : bool :=
  forallb (fun a => bool_decide (a ∈ o)) template.
Definition ec_points (o : list CkAttribute) : list CkAttribute :=
  filter (fun a => attr_kind a = 18) o.
Definition tk_open (t : demo_token) : result ck_error Z * demo_token :=
  let h := fresh (tk_sessions t) in
  (Ok h, {| tk_objects := tk_objects t; tk_sessions := {[h]} ∪ tk_sessions t |}).

#[export] Instance demo_cryptoki : Cryptoki demo_token := {
  mechanism_of _ := Ok (Mechanism_other 0);
  mechanism_type _ := ECDSA;
  ulong_of z := Ok z;
  slot_of z := Some z;
  status_try_from_int := InvalidEncoding;
  status_try_from_slice := InvalidEncoding;
  status_nul_error := InvalidEncoding;
  pkcs11_new _ := mret tt;
  pkcs11_initialize := mret tt;
  set_pin _ _ := mret tt;
  open_session_no_callback _ _ _ := tk_open;
  close_session h t := {| tk_objects := tk_objects t; tk_sessions := tk_sessions t ∖ {[h]} |};
  login_user _ := mret tt;
  find_objects _ l t := (Ok ((map_to_list (filter (fun ho => has_all l ho.2 = true) (tk_objects t))).*1), t);
  get_attributes _ k _ t :=
    (Ok (take 1 (ec_points (default [] (tk_objects t !! k)))), t);
  generate_key_pair _ _ pub priv t :=
    let '(k1, t1) := tk_add (AClass PUBLIC_KEY :: pub) t in
    let '(k2, t2) := tk_add (AClass PRIVATE_KEY :: priv) t1 in (Ok (k1, k2), t2);
  create_object _ l t := let '(k, t') := tk_add l t in (Ok k, t');
  destroy_object _ k t := (Ok tt, with_objects (delete k (tk_objects t)) t);
  ck_sign _ _ _ d := mret d;
  ck_verify _ _ _ _ _ := mret tt;
  ck_encrypt _ _ _ d := mret d;
  ck_decrypt _ _ _ d := mret d;
}.

Lemma tk_fresh_None t : tk_objects t !! tk_fresh t = None.
Proof.
  apply not_elem_of_dom. unfold tk_fresh. generalize 0%Z as z, 8 as n.
  generalize (dom (tk_objects t)) as d. intros d z n. revert z.
  induction n as [|n IH]; intros z; cbn [first_free]; [apply is_fresh|].
  destruct (decide (z ∈ d)); [apply IH|done].
Qed.
Lemma made_self l : made l l.
Proof. split; [done|]. auto. Qed.
Lemma has_all_sub l o : has_all l o = true <-> l ⊆ o.
Proof.
  unfold has_all. rewrite forallb_forall. setoid_rewrite bool_decide_eq_true.
  setoid_rewrite <- list_elem_of_In. done.
Qed.

#[export] Instance demo_token_laws : TokenLaws demo_token.
Proof.
  refine {| objects := tk_objects; sessions := tk_sessions |}; try done.
  - intros slot rw ser t. simpl. split_and!; [apply is_fresh|done|done].
  - intros h template t l t' [= <- <-] k. rewrite list_elem_of_fmap. split.
    + intros ([k' o] & -> & Hin%elem_of_map_to_list).
      apply map_lookup_filter_Some in Hin as [Ho Hall]. exists o. split; [done|].
      by apply has_all_sub.
    + intros (o & Ho & Hsub). exists (k, o). split; [done|]. apply elem_of_map_to_list.
      apply map_lookup_filter_Some. split; [done|]. by apply has_all_sub.
  - intros h k t l t' o [= <- <-] Ho. simpl. rewrite Ho. simpl.
    assert (Hin : forall a, a ∈ ec_points o <-> attr_kind a = 18 /\ a ∈ o)
      by (intros a; unfold ec_points; by rewrite list_elem_of_filter).
    destruct (ec_points o) as [|a r].
    + right. intros p Hp. destruct (not_elem_of_nil (AEcPoint p)). by apply Hin.
    + left. destruct (proj1 (Hin a)) as [Hk Ha]; [left|]. destruct a; try discriminate Hk.
      by exists p.
  - intros h template t. simpl. split_and!; [apply tk_fresh_None|done|].
    exists template. split; [done|apply made_self].
  - intros h mech pub priv t. simpl. set (t1 := with_objects _ t).
    pose proof (tk_fresh_None t1) as Hf. unfold t1 in Hf at 1. simpl in Hf.
    apply lookup_insert_None in Hf as [Hn Hne]. split_and!; [done|apply tk_fresh_None|done|done|].
    eexists _, _. split; [done|]. split; apply made_self.
Defined.

#[export] Instance demo_der : Der := {
  rsa_public_key_from_bytes _ := None;
  rsa_public_key_to_vec _ := None;
  is_negative _ := false;
  as_unsigned_bytes_be b := b;
  from_bytes_be_unsigned b := b;
  octet_string_to_vec b := Some ("004"%char :: b);
  octet_string_from_bytes b := match b with [] => None | _ :: r => Some r end;
  named_curve_to_vec oid := Some (as_bytes oid);
  digest_info_to_vec _ h := Some h;
}.
#[export] Instance demo_der_laws : DerLaws.
Proof. intros d v [= <-]. done. Qed.
(** A generator that counts. *)
#[export] Instance demo_rng : Rng Z := fun g => (g `mod` 2 ^ 32, g + 1)%Z.
#[export] Instance demo_rng_laws : RngLaws Z.
Proof. intros g. apply Z.mod_pos_bound. lia. Qed.
#[export] Instance demo_volatile : PsaVolatile library.
Proof. by intros a d b. Qed.

Definition pk_client : KeyInfoManagerClient := {| client_provider_id := Pkcs11 |}.
Definition pk_blank : pstate OnDisk (device demo_token library Z) :=
  {| kim := {| od_manager := {| key_store := ∅; mappings_dir_path := ["map"] |};
               od_disk := {| Fs.nodes := {[ ["map"] := Fs.Dir ]}; Fs.faults := [] |} |};
     dev := {| token := {| tk_objects := ∅; tk_sessions := ∅ |}; psa_lib := ∅; rng := 5%Z;
               local_ids := {[5; 6]}%Z |} |}.
Definition pk_self : Provider :=
  {| key_info_store := pk_client; slot_number := 0; software_public_operations := false;
     allow_export := true |}.
Definition pk_app : ApplicationName := from_name "app".
Definition pk_gen : GenerateKeyOp := {| gk_key_name := "k"; gk_attributes := ecc_attributes |}.
(** A key generated, after two draws that are taken; then the token emptied. *)
Definition pk1 : pstate OnDisk (device demo_token library Z) :=
  (psa_generate_key_internal 3 pk_self pk_app pk_gen pk_blank).2.
Definition pk_lost : pstate OnDisk (device demo_token library Z) :=
  {| kim := kim pk1; dev := dev pk_blank |}.

Example create_key_id_third : (create_key_id (K := OnDisk) 3 pk_blank).1 = Ok 7%Z.
Proof. vm_compute. reflexivity. Qed.

Lemma pk_blank_ok : pk_ok pk_blank.
Proof.
  split.
  - intros h o b1 b2 Ho. unfold objs in Ho. simpl in Ho. by rewrite lookup_empty in Ho.
  - assert (Hv : mappings pk_blank = ∅) by reflexivity. rewrite Hv.
    split; [intros t i Hi|intros t1 t2 i1 i2 j Hi]; by rewrite lookup_empty in Hi.
Qed.

Lemma create_key_id_terminates_witness :
  exists s', create_key_id (K := OnDisk) 3 pk_blank = (Ok 7%Z, s') /\ ids s' = {[7; 5; 6]}%Z.
Proof.
  destruct (proj1 (create_key_id_terminates pk_blank) 2) with (fuel := 3) as (s' & Hrun & Hids).
  - vm_compute. discriminate.
  - intros [|[|i]] Hi; [vm_compute; reflexivity|vm_compute; reflexivity|lia].
  - lia.
  - exists s'. split; [exact Hrun|]. rewrite Hids. vm_compute. reflexivity.
Defined.

Lemma pkcs11_invariant_witness : pk_ok pk1.
Proof.
  assert (Hs : pk1 = (provider_call (provide 3 Some pk_self) pk_app (PsaGenerateKey pk_gen) pk_blank).2)
    by (vm_compute; reflexivity).
  rewrite Hs. apply (pkcs11_invariant 3 Some pk_self pk_app (PsaGenerateKey pk_gen) pk_blank).
  apply pk_blank_ok.
Defined.

Lemma pkcs11_destroy_complete_witness :
  mappings (psa_destroy_key_internal pk_self pk_app "k" pk1).2 = delete (triple pk_app "k") (mappings pk1).
Proof.
  refine (proj1 (pkcs11_destroy_complete pk_self pk_app "k" pk1
    (psa_destroy_key_internal pk_self pk_app "k" pk1).2 _)).
  vm_compute. reflexivity.
Defined.

Lemma pkcs11_new_spec_witness :
  is_Some (mappings pk_lost !! triple pk_app "k") /\
  mappings (new pk_client 0 None false true pk_lost).2 !! triple pk_app "k" = None.
Proof.
  split; [eexists; vm_compute; reflexivity|].
  assert (Hrun : new pk_client 0 None false true pk_lost =
    (Ok pk_self, (new pk_client 0 None false true pk_lost).2)) by (vm_compute; reflexivity).
  pose proof (pkcs11_new_spec pk_client 0 None false true pk_lost (Ok pk_self) _ eq_refl Hrun)
    as (_ & _ & Hv & _).
  destruct (mappings (new pk_client 0 None false true pk_lost).2 !! triple pk_app "k")
    as [i|] eqn:Hi; [|reflexivity].
  apply Hv in Hi as [_ Hon]. destruct (Hon eq_refl) as (id & _ & h & o & Ho & _).
  exfalso. unfold objs in Ho. simpl in Ho. rewrite lookup_empty in Ho. discriminate Ho.
Defined.

(** A public key of three bytes. *)
Definition pk_import : ImportKeyOp :=
  {| ik_key_name := "p"; ik_attributes := ecc_public_attributes; ik_data := as_bytes "abc" |}.
Definition pk2 : pstate OnDisk (device demo_token library Z) :=
  (psa_import_key_internal 3 pk_self pk_app pk_import pk_blank).2.

Lemma ec_public_key_roundtrip_witness :
  (psa_export_public_key_internal pk_self pk_app "p" pk2).1 = Ok (as_bytes "abc").
Proof.
  destruct (psa_export_public_key_internal pk_self pk_app "p" pk2) as [[d|e|] s2] eqn:Hexp;
    [|vm_compute in Hexp; discriminate Hexp|vm_compute in Hexp; discriminate Hexp].
  simpl. f_equal.
  apply (ec_public_key_roundtrip 3 pk_self pk_app pk_import SecpR1 pk_blank pk2 s2 d).
  - reflexivity.
  - intros h o id Ho. unfold objs in Ho. simpl in Ho. rewrite lookup_empty in Ho. discriminate Ho.
  - vm_compute. reflexivity.
  - exact Hexp.
Defined.

Lemma pkcs11_sessions_closed_witness :
  (provider_call (provide 3 Some pk_self) pk_app (PsaGenerateKey pk_gen) pk_blank).1 =
    Ok RPsaGenerateKey /\
  open_sessions (provider_call (provide 3 Some pk_self) pk_app (PsaGenerateKey pk_gen) pk_blank).2 = ∅.
Proof.
  split; [vm_compute; reflexivity|].
  rewrite (pkcs11_sessions_closed 3 Some pk_self pk_app (PsaGenerateKey pk_gen) pk_blank).
  reflexivity.
Defined.

Lemma generated_key_carries_policy_witness :
  let s' := (psa_generate_key_internal 3 pk_self pk_app pk_gen pk_blank).2 in
  exists k1 k2 o1 o2, objs s' = <[k2 := o2]> (<[k1 := o1]> (objs pk_blank)) /\
    (forall b, ASign b ∈ o2 <-> b = true) /\ (forall b, AExtractable b ∈ o2 <-> b = true) /\
    (forall b, ACopyable b ∈ o1 <-> b = false).
Proof.
  cbv zeta. destruct (psa_generate_key_internal 3 pk_self pk_app pk_gen pk_blank) as [r s'] eqn:Hrun.
  assert (Hr : r = Ok tt) by (apply (f_equal fst) in Hrun; vm_compute in Hrun; congruence).
  rewrite Hr in Hrun.
  destruct (generated_key_carries_policy 3 pk_self pk_app pk_gen pk_blank s' Hrun)
    as (_ & _ & id & b & mech & k1 & k2 & o1 & o2 & _ & _ & _ & _ & _ & _ & _ & Ho & Hpub & Hpriv & _).
  exists k1, k2, o1, o2. split; [exact Ho|]. split; [exact (priv_sign _ _ _ Hpriv)|].
  split; [exact (priv_extract _ _ _ Hpriv)|exact (pub_copy _ _ _ Hpub)].
Defined.
