(* ===== verification/Pkcs11Threads.v ===== *)
(** * Threads in the PKCS 11 provider

    The requests to the PKCS 11 provider as programs whose steps interleave with those
    of other requests: each access of the key info manager, of the set of identifiers,
    of the token and of the software library is one step.  Every request has a session
    of its own, which is closed when it goes out of scope.  The programs are the methods
    of [Pkcs11Provider] with the accesses told apart; [pkcs11_run_alone] says that one
    that is not interrupted is the method. *)
From S2P Require Import Prelude RustStd Interface Authenticators KeyInfo Provide ProviderState.
From S2P Require Import Mbed CryptoAuthLib Pkcs11 Threads Claims.
Import Pkcs11Provider.

Module Pkcs11Thread.
Section Provider.
Context {K T B G : Type} `{ManageKeyInfo K} `{Cryptoki T} `{PsaCrypto B} `{Rng G}.
Context `{Validate} `{KeyApi} `{Der} `{Bincode Z} (fuel : nat).
Implicit Types (self : Provider) (app_name : ApplicationName).
Abbreviation W := (pstate K (device T B G)).
Abbreviation P A := (PR W ResponseStatus A).

(** The draws are made and the identifier is recorded under the lock of the set. *)
Definition create_key_id : P Z := once (Pkcs11Provider.create_key_id fuel).

(** *** Sessions *)
Definition closing {A} (session : Z) (p : P A) : P A :=
  prog_bind p (fun r =>
    Step (fun s => {| kim := kim s; dev := set_token (close_session session (token (dev s))) (dev s) |})
      (fun _ => Ret r)).
Definition with_session {A} self (k : Z -> P A) : P A :=
  session ← once (ck (open_session_no_callback (slot_number self) true true));
  closing session (once (ck (login_user session)) ;; k session).

(** *** Keys *)
Definition find_key (session key_id : Z) (key_type : KeyPairType) : P Z :=
  let template := AId (u32_to_be_bytes key_id) ::
    match key_type with
    | PublicKey => [AClass PUBLIC_KEY]
    | PrivateKey => [AClass PRIVATE_KEY]
    | Any => []
    end in
  objects ← once (ck (find_objects session template));
  match objects with
  | [] => local (Err PsaErrorDoesNotExist)
  | o :: _ => mret o
  end.

Definition export_public_rsa_internal (key session : Z) : P bytes :=
  attributes ← once (ck (get_attributes session key [TModulus; TPublicExponent]));
  match attributes with
  | [a; b] =>
    match a with
    | AModulus vec =>
      let modulus := from_bytes_be_unsigned vec in
      match b with
      | APublicExponent vec =>
        let public_exponent := from_bytes_be_unsigned vec in
        local (ok_or (rsa_public_key_to_vec {| modulus := modulus; public_exponent := public_exponent |})
          PsaErrorCommunicationFailure)
      | _ => local (Err PsaErrorCommunicationFailure)
      end
    | _ => local (Err PsaErrorCommunicationFailure)
    end
  | _ => local (Err PsaErrorCommunicationFailure)
  end.

Definition export_public_ec_internal (key session : Z) : P bytes :=
  attributes ← once (ck (get_attributes session key [TEcPoint]));
  match attributes with
  | [AEcPoint data] => local (ok_or (octet_string_from_bytes data) PsaErrorGenericError)
  | _ => local (Err PsaErrorCommunicationFailure)
  end.

Definition psa_export_public_key_internal self app_name (key_name : string) : P bytes :=
  let key_triple := triple app_name key_name in
  key_attributes ← once (on_kim (get_key_attributes (key_info_store self) key_triple));
  key_id ← once (on_kim (get_key_id Z (key_info_store self) key_triple));
  with_session self (fun session =>
    key ← find_key session key_id PublicKey;
    match key_type key_attributes with
    | RsaKeyPair | RsaPublicKey => export_public_rsa_internal key session
    | EccKeyPair _ | EccPublicKey _ => export_public_ec_internal key session
    | _ => local (Err PsaErrorNotSupported)
    end).

Definition move_pub_key_to_psa_crypto self (key_triple : KeyTriple) : P Z :=
  data ← psa_export_public_key_internal self (kt_app_name key_triple) (kt_key_name key_triple);
  attributes ← once (on_kim (get_key_attributes (key_info_store self) key_triple));
  key_type ← (match key_type attributes with
              | RsaKeyPair | RsaPublicKey => mret RsaPublicKey
              | EccKeyPair curve_family | EccPublicKey curve_family =>
                mret (EccPublicKey curve_family)
              | DhKeyPair group_family | DhPublicKey group_family =>
                mret (DhPublicKey group_family)
              | _ => local (Err PsaErrorInvalidArgument)
              end);
  once (psa (psa_import {| lifetime := Volatile; key_type := key_type; bits := bits attributes;
                           policy := policy attributes |} None data)).

Definition remove_psa_crypto_pub_key (pub_key_id : Z) : P unit :=
  once (psa (psa_destroy pub_key_id)).

Definition store_or_undo self (key_triple : KeyTriple) (key_id : Z) (attrs : Attributes)
    (undo : P unit) : P unit :=
  r ← tried (once (on_kim (insert_key_info (key_info_store self) key_triple key_id attrs)));
  match r with
  | Err e => undo ;; local (Err e)
  | Ok _ => mret tt
  | Panic => local Panic
  end.
Definition destroy_ignoring (session object : Z) : P unit :=
  tried (F := ResponseStatus) (once (on_token (destroy_object session object))) ;; mret tt.

Definition psa_generate_key_internal self app_name (op : GenerateKeyOp) : P unit :=
  if is_public_key (key_type (gk_attributes op)) then local (Err PsaErrorInvalidArgument)
  else
    let key_attributes := gk_attributes op in
    if export (usage_flags (policy key_attributes)) && negb (allow_export self) then
      local (Err PsaErrorNotPermitted)
    else
      let key_triple := triple app_name (gk_key_name op) in
      once (on_kim (does_not_exist (key_info_store self) key_triple)) ;;
      with_session self (fun session =>
        key_id ← create_key_id;
        '(mech, pub_template, priv_template) ← local (generate_templates key_attributes key_id);
        '(public, private) ← once (ck (generate_key_pair session mech pub_template priv_template));
        store_or_undo self key_triple key_id key_attributes
          (destroy_ignoring session public ;; destroy_ignoring session private)).

Definition psa_import_key_internal self app_name (op : ImportKeyOp) : P unit :=
  let key_attributes := ik_attributes op in
  if export (usage_flags (policy key_attributes)) && negb (allow_export self) then
    local (Err PsaErrorNotPermitted)
  else
    let key_triple := triple app_name (ik_key_name op) in
    once (on_kim (does_not_exist (key_info_store self) key_triple)) ;;
    with_session self (fun session =>
      key_id ← create_key_id;
      template ← local (import_template key_attributes (ik_data op) key_id);
      key ← once (ck (create_object session template));
      store_or_undo self key_triple key_id key_attributes (destroy_ignoring session key)).

Definition psa_destroy_key_internal self app_name (key_name : string) : P unit :=
  let key_triple := triple app_name key_name in
  key_id ← once (on_kim (get_key_id Z (key_info_store self) key_triple));
  once (on_kim (remove_key_info (key_info_store self) key_triple)) ;;
  with_session self (fun session =>
    first_key ← find_key session key_id Any;
    once (ck (destroy_object session first_key)) ;;
    r ← tried (find_key session key_id Any);
    match r with
    | Ok key => once (ck (destroy_object session key))
    | Err PsaErrorDoesNotExist => mret tt
    | Err e => local (Err e)
    | Panic => local Panic
    end).

(** *** Signatures and encryption *)
Definition psa_sign_hash_internal self app_name (op : SignHashOp) : P bytes :=
  let key_triple := triple app_name (sh_key_name op) in
  key_id ← once (on_kim (get_key_id Z (key_info_store self) key_triple));
  key_attributes ← once (on_kim (get_key_attributes (key_info_store self) key_triple));
  local (validate_sign_hash op key_attributes) ;;
  mech ← local (map_err to_response_status (mechanism_of (Alg_AsymmetricSignature (sh_alg op))));
  with_session self (fun session =>
    key ← find_key session key_id PrivateKey;
    hash ← local (match key_type key_attributes with
                  | RsaKeyPair => digest_info (sh_alg op) (sh_hash op)
                  | EccKeyPair _ => Ok (sh_hash op)
                  | _ => Err PsaErrorNotSupported
                  end);
    once (ck (ck_sign session mech key hash))).

Definition psa_verify_hash_internal self app_name (op : VerifyHashOp) : P unit :=
  let key_triple := triple app_name (vh_key_name op) in
  key_id ← once (on_kim (get_key_id Z (key_info_store self) key_triple));
  key_attributes ← once (on_kim (get_key_attributes (key_info_store self) key_triple));
  local (validate_verify_hash op key_attributes) ;;
  mech ← local (map_err to_response_status (mechanism_of (Alg_AsymmetricSignature (vh_alg op))));
  with_session self (fun session =>
    key ← find_key session key_id PublicKey;
    hash ← local (match key_type key_attributes with
                  | RsaKeyPair | RsaPublicKey => digest_info (vh_alg op) (vh_hash op)
                  | EccKeyPair _ | EccPublicKey _ => Ok (vh_hash op)
                  | _ => Err PsaErrorNotSupported
                  end);
    once (ck (ck_verify session mech key hash (vh_signature op)))).

Definition software_psa_verify_hash_internal self app_name (op : VerifyHashOp) : P unit :=
  let key_triple := triple app_name (vh_key_name op) in
  key_attributes ← once (on_kim (get_key_attributes (key_info_store self) key_triple));
  local (validate_verify_hash op key_attributes) ;;
  pub_key_id ← move_pub_key_to_psa_crypto self key_triple;
  res ← tried (once (psa (psa_verify_hash pub_key_id (vh_alg op) (vh_hash op) (vh_signature op))));
  tried (F := ResponseStatus) (remove_psa_crypto_pub_key pub_key_id) ;;
  local res.

Definition psa_asymmetric_encrypt_internal self app_name (op : AsymEncryptOp) : P bytes :=
  let key_triple := triple app_name (ae_key_name op) in
  key_id ← once (on_kim (get_key_id Z (key_info_store self) key_triple));
  key_attributes ← once (on_kim (get_key_attributes (key_info_store self) key_triple));
  local (validate_asym_encrypt op key_attributes) ;;
  mech ← local (map_err to_response_status (mechanism_of (Alg_AsymmetricEncryption (ae_alg op))));
  with_session self (fun session =>
    key ← find_key session key_id PublicKey;
    once (ck (ck_encrypt session mech key (ae_plaintext op)))).

Definition psa_asymmetric_decrypt_internal self app_name (op : AsymDecryptOp) : P bytes :=
  let key_triple := triple app_name (ad_key_name op) in
  key_id ← once (on_kim (get_key_id Z (key_info_store self) key_triple));
  key_attributes ← once (on_kim (get_key_attributes (key_info_store self) key_triple));
  local (validate_asym_decrypt op key_attributes) ;;
  mech ← local (map_err to_response_status (mechanism_of (Alg_AsymmetricEncryption (ad_alg op))));
  with_session self (fun session =>
    key ← find_key session key_id PrivateKey;
    once (ck (ck_decrypt session mech key (ad_ciphertext op)))).

Definition software_psa_asymmetric_encrypt_internal self app_name (op : AsymEncryptOp) : P bytes :=
  let key_triple := triple app_name (ae_key_name op) in
  key_attributes ← once (on_kim (get_key_attributes (key_info_store self) key_triple));
  local (validate_asym_encrypt op key_attributes) ;;
  buffer_size ← local (map_err status_of (asymmetric_encrypt_output_size key_attributes (ae_alg op)));
  pub_key_id ← move_pub_key_to_psa_crypto self key_triple;
  res ← tried ('(output_size, ciphertext) ← once (psa (psa_encrypt pub_key_id (ae_alg op)
                   (ae_plaintext op) (ae_salt op) (zeroed buffer_size)));
               mret (resize output_size "000"%char ciphertext));
  tried (F := ResponseStatus) (remove_psa_crypto_pub_key pub_key_id) ;;
  local res.

(** *** The trait *)
Definition list_keys self app_name : P (list ListedKey) :=
  once (on_kim (KeyInfo.list_keys (key_info_store self) app_name)).

Definition list_clients self : P (list string) :=
  clients ← once (on_kim (KeyInfo.list_clients (key_info_store self)));
  mret (app_name_string <$> clients).

(** The program of a request. *)
Definition code self (c : ApplicationName * NativeOperation) : P NativeResult :=
  let app := c.1 in
  match c.2 with
  | ListKeys => r ← list_keys self app; mret (RListKeys r)
  | ListClients => r ← list_clients self; mret (RListClients r)
  | PsaGenerateKey o => psa_generate_key_internal self app o ;; mret RPsaGenerateKey
  | PsaImportKey o => psa_import_key_internal self app o ;; mret RPsaImportKey
  | PsaExportPublicKey o =>
    r ← psa_export_public_key_internal self app o; mret (RPsaExportPublicKey r)
  | PsaDestroyKey o => psa_destroy_key_internal self app o ;; mret RPsaDestroyKey
  | PsaSignHash o => r ← psa_sign_hash_internal self app o; mret (RPsaSignHash r)
  | PsaVerifyHash o =>
    (if software_public_operations self then software_psa_verify_hash_internal self app o
     else psa_verify_hash_internal self app o) ;;
    mret RPsaVerifyHash
  | PsaAsymmetricEncrypt o =>
    r ← (if software_public_operations self then software_psa_asymmetric_encrypt_internal self app o
         else psa_asymmetric_encrypt_internal self app o);
    mret (RPsaAsymmetricEncrypt r)
  | PsaAsymmetricDecrypt o =>
    r ← psa_asymmetric_decrypt_internal self app o; mret (RPsaAsymmetricDecrypt r)
  | _ => local (Err PsaErrorNotSupported)
  end.
End Provider.
End Pkcs11Thread.

(** ** A request that is not interrupted *)
Section Alone.
Context {K T B G : Type} `{ManageKeyInfo K} `{Cryptoki T} `{PsaCrypto B} `{Rng G}.
Context `{Validate} `{KeyApi} `{Der} `{Bincode Z} (fuel : nat).

Lemma alike_with_session {A} self (p : Z -> PR (pstate K (device T B G)) ResponseStatus A) k :
  (forall session, alike (p session) (k session)) ->
  alike (Pkcs11Thread.with_session self p) (with_session self k).
Proof.
  intros Hp. apply alike_bind; [apply alike_once|]. intros session s.
  unfold Pkcs11Thread.closing, closing. rewrite run_bind.
  assert (Hb : alike (once (ck (login_user session)) ;; p session)
    (ck (login_user session) ;; k session)).
  { apply alike_bind; [apply alike_once|]. intros u. apply Hp. }
  rewrite (Hb s). by destruct ((ck (login_user session) ;; k session) s).
Qed.

(** The programs and the methods, by name. *)
Ltac pk_programs :=
  unfold Pkcs11Thread.list_keys, Pkcs11Thread.list_clients,
    Pkcs11Thread.psa_generate_key_internal, Pkcs11Thread.psa_import_key_internal,
    Pkcs11Thread.psa_destroy_key_internal, Pkcs11Thread.psa_sign_hash_internal,
    Pkcs11Thread.psa_verify_hash_internal, Pkcs11Thread.software_psa_verify_hash_internal,
    Pkcs11Thread.psa_asymmetric_encrypt_internal, Pkcs11Thread.psa_asymmetric_decrypt_internal,
    Pkcs11Thread.software_psa_asymmetric_encrypt_internal,
    Pkcs11Thread.move_pub_key_to_psa_crypto, Pkcs11Thread.psa_export_public_key_internal,
    Pkcs11Thread.export_public_rsa_internal, Pkcs11Thread.export_public_ec_internal,
    Pkcs11Thread.remove_psa_crypto_pub_key, Pkcs11Thread.store_or_undo,
    Pkcs11Thread.destroy_ignoring, Pkcs11Thread.find_key, Pkcs11Thread.create_key_id.
Ltac pk_methods :=
  unfold list_keys, list_clients, psa_generate_key_internal, psa_import_key_internal,
    psa_destroy_key_internal, psa_sign_hash_internal, psa_verify_hash_internal,
    software_psa_verify_hash_internal, psa_asymmetric_encrypt_internal,
    psa_asymmetric_decrypt_internal, software_psa_asymmetric_encrypt_internal,
    move_pub_key_to_psa_crypto, psa_export_public_key_internal, export_public_rsa_internal,
    export_public_ec_internal, remove_psa_crypto_pub_key, store_or_undo, destroy_ignoring,
    find_key.

(** A request to the PKCS 11 provider that is not interrupted does what the method of the
    provider does. *)
Theorem pkcs11_run_alone uuid self app op (s : pstate K (device T B G)) :
  run (Pkcs11Thread.code fuel self (app, op)) s = provider_call (provide fuel uuid self) app op s.
Proof.
  revert s. change (alike (Pkcs11Thread.code fuel self (app, op))
    (provider_call (provide fuel uuid self) app op)).
  unfold Pkcs11Thread.code, provider_call. cbn [fst snd].
  destruct op; try (intros s; reflexivity); (apply alike_bind; [|intros ?; apply alike_ret]);
    unfold provide;
    cbn [prov_list_keys prov_list_clients prov_psa_generate_key prov_psa_import_key
      prov_psa_destroy_key prov_psa_export_public_key prov_psa_sign_hash prov_psa_verify_hash
      prov_psa_asymmetric_encrypt prov_psa_asymmetric_decrypt];
    pk_programs; pk_methods;
    repeat ((apply alike_with_session; intros ?) || alike_step).
Qed.
End Alone.
