(* ===== verification/Pkcs11Concurrency.v ===== *)
(** * Correctness of the threads of the PKCS 11 provider

    However requests are interleaved, every mapping names a key on the token and no two
    the same one, as long as no two requests in progress create the same key and no two
    destroy the same key ([pkcs11_parallel_safe]).  Identifiers are never given back, but
    the handles of objects are: two requests that destroy the same key can destroy an
    object of another application ([pkcs11_destroy_race]). *)
From S2P Require Import Prelude RustStd Interface Authenticators Fs KeyInfo OnDisk Concrete Provide.
From S2P Require Import CoreProvider ProviderState Mbed MbedSpec Scenario CryptoAuthLib.
From S2P Require Import CryptoAuthLibSpec Pkcs11 Pkcs11Spec Pkcs11Scenario Threads Claims.
From S2P Require Import Pkcs11Threads.
Import Pkcs11Provider.

(** What a request is about to do to the mappings. *)
Inductive pk_intent := PkCreating (t : KeyTriple) | PkDestroying (t : KeyTriple) | PkUsing.

Definition pk_clash (i j : pk_intent) : bool :=
  match i, j with
  | PkCreating t, PkCreating u | PkDestroying t, PkDestroying u => bool_decide (t = u)
  | _, _ => false
  end.

Definition pk_intent_of (c : ApplicationName * NativeOperation) : pk_intent :=
  match c.2 with
  | PsaGenerateKey o => PkCreating (triple c.1 (gk_key_name o))
  | PsaImportKey o => PkCreating (triple c.1 (ik_key_name o))
  | PsaDestroyKey k => PkDestroying (triple c.1 k)
  | _ => PkUsing
  end.

(** What a request in progress knows: nothing; that its name is free; that the identifier
    [id] and the objects [l] are its own, with its name free or not; that its key has the
    identifier [id]. *)
Inductive pk_holding :=
  | PkNothing | PkName | PkOwn (named : bool) (id : Z) (l : list Z) | PkSits (id : Z).

Definition pk_counts (_ : pk_holding) : bool := false.
Definition own_id (h : pk_holding) : option Z := match h with PkOwn _ id _ => Some id | _ => None end.
Definition pk_apart (h g : pk_holding) : Prop := forall id, own_id h = Some id -> own_id g <> Some id.

Lemma pk_apart_sym h g : pk_apart h g -> pk_apart g h.
Proof. intros Ha id Hg Hh. by apply (Ha id). Qed.
Lemma pk_apart_none g : pk_apart PkNothing g.
Proof. done. Qed.
Lemma pk_apart_less h h' g :
  pk_apart h g -> (own_id h' = None \/ own_id h' = own_id h) -> pk_apart h' g.
Proof. intros Ha Ho id Hid. apply Ha. destruct Ho; congruence. Qed.

Section Spec.
Context {K T B G : Type} `{KimSpec K} `{TokenLaws T} `{PsaLaws B} `{!PsaVolatile B}.
Context `{RngLaws G} `{ValidateLaws} `{KeyApiLaws} `{Der} `{BZ : Bincode Z} `{!BincodeLaws Z} `{!BincodeU32}.
Context (fuel : nat) (self : Provider).
Abbreviation W := (pstate K (device T B G)).
Implicit Types (s : W) (t : KeyTriple) (id session k : Z) (i : pk_intent) (h g : pk_holding).

Definition pk_name_free i s : Prop :=
  match i with PkCreating t => mappings s !! t = None | _ => False end.
Definition pk_sits i id s : Prop :=
  match i with
  | PkDestroying t => exists info, mappings s !! t = Some info /\ id_of info = Some id
  | _ => False
  end.
Definition pk_unused s id : Prop :=
  (0 <= id < 2 ^ 32)%Z /\ id ∈ ids s /\ ~ used Pkcs11 (mappings s) id.
Definition object_of s id k : Prop := exists o, objs s !! k = Some o /\ has_id id o.

Definition pk_holds i h s : Prop :=
  match h with
  | PkNothing => True
  | PkName => pk_name_free i s
  | PkOwn named id l => (named = true -> pk_name_free i s) /\ pk_unused s id /\ NoDup l /\
      forall k, k ∈ l -> object_of s id k
  | PkSits id => pk_sits i id s
  end.

(** Two identifiers of one object are the same. *)
Lemma object_of_fun s id id' k :
  pk_ok s -> (0 <= id < 2 ^ 32)%Z -> (0 <= id' < 2 ^ 32)%Z ->
  object_of s id k -> object_of s id' k -> id = id'.
Proof.
  intros Hs Hr Hr' (o & Ho & Hid) (o' & Ho' & Hid').
  assert (o' = o) as -> by congruence.
  apply u32_to_be_bytes_inj; [done|done|]. by apply (ko_wf s Hs k o).
Qed.

(** Claims survive when the mappings stay and nothing is lost that they are about. *)
Lemma pk_holds_keep i h s s' :
  mappings s' = mappings s -> ids s ⊆ ids s' ->
  (forall id k, own_id h = Some id -> object_of s id k -> object_of s' id k) ->
  pk_holds i h s -> pk_holds i h s'.
Proof.
  intros Hm Hi Hk. unfold pk_holds, pk_name_free, pk_sits, pk_unused. rewrite Hm.
  destruct h as [| |named id l|id]; try done. intros (Hn & (Hr & Hin & Hu) & Hnd & Hl).
  split_and!; try done; [apply Hr|apply Hr|set_solver|]. intros k Hkl. apply Hk; [done|by apply Hl].
Qed.

Section Steps.
Context (cap : nat).
Abbreviation exchange := (exchange (fun _ => pk_ok) pk_counts pk_holds pk_apart pk_clash).
Abbreviation claims := (claims (fun _ => pk_ok) pk_counts pk_holds pk_apart pk_clash cap).
Abbreviation settles := (settles pk_counts).

(** *** Steps that only look *)
Definition pk_still {E A} (m : ST W E A) : Prop :=
  forall s, mappings (m s).2 = mappings s /\ objs (m s).2 = objs s /\ ids (m s).2 = ids s.

Lemma pk_ok_same s s' :
  pk_ok s -> mappings s' = mappings s -> objs s' = objs s -> ids s' = ids s -> pk_ok s'.
Proof.
  intros Hs Hm Ho Hi. apply (pk_ok_grow s s' 0); [done|done|by rewrite Hi|].
  rewrite Ho. apply grown_refl.
Qed.

Lemma pk_still_exchange i n h h' s s' :
  pk_ok s -> mappings s' = mappings s -> objs s' = objs s -> ids s' = ids s ->
  pk_holds i h' s -> (own_id h' = None \/ own_id h' = own_id h) -> exchange i n h s h' s'.
Proof.
  intros Hs Hm Ho Hi Hh Hown.
  assert (Hkeep : forall j g, pk_holds j g s -> pk_holds j g s').
  { intros j g. apply pk_holds_keep; [done|by rewrite Hi|]. unfold object_of. by rewrite Ho. }
  split; [by apply (pk_ok_same s)|by apply Hkeep|].
  intros j g _ Ha Hg. split; [by apply (pk_apart_less h)|by apply Hkeep].
Qed.

(** A program that leaves what is held as it is. *)
Definition pk_looks {E A} (p : PR W E A) : Prop :=
  forall i h (Q : result E A -> pk_holding -> Prop), (forall r, Q r h) -> claims i Q p h.

Lemma pk_looks_once {E A} (m : ST W E A) : pk_still m -> pk_looks (once m).
Proof.
  intros Hm i h Q HQ. apply claims_atomic. intros n s _ Hs Hh. destruct (Hm s) as (? & ? & ?).
  exists h. split; [|done]. by apply pk_still_exchange; auto.
Qed.
Lemma pk_looks_local {E A} (r : result E A) : pk_looks (local r).
Proof. intros i h Q HQ. apply HQ. Qed.
Lemma pk_looks_ret {E A} (a : A) : pk_looks (E := E) (mret a).
Proof. intros i h Q HQ. apply HQ. Qed.
Lemma pk_looks_bind {E A C} (p : PR W E A) (q : A -> PR W E C) :
  pk_looks p -> (forall a, pk_looks (q a)) -> pk_looks (x ← p; q x).
Proof.
  intros Hp Hq i h Q HQ. apply claims_bind, Hp. intros [a|e|]; [by apply Hq|apply HQ..].
Qed.
Lemma pk_looks_tried {E F A} (p : PR W E A) : pk_looks p -> pk_looks (tried (F := F) p).
Proof. intros Hp i h Q HQ. apply claims_prog_bind, Hp. intros r. apply HQ. Qed.

Lemma pk_still_calm {E A} (m : ST W E A) : ProviderState.calm same m -> pk_still m.
Proof.
  intros Hm s. destruct (Hm s) as [(Hk & Ho & _ & Hi & _) _]. unfold mappings. by rewrite Hk.
Qed.
Lemma pk_still_psa {A} (m : ST B psa_error A) : pk_still (psa m).
Proof.
  intros s. unfold psa, on_err, on_psa, on_dev, zoom. by destruct (m (psa_lib (dev s))).
Qed.
Lemma pk_still_open slot rw ser : pk_still (ck (open_session_no_callback slot rw ser)).
Proof.
  intros s. unfold ck, on_err. rewrite on_token_run.
  pose proof (open_session_spec slot rw ser (token (dev s))) as Ho.
  destruct (open_session_no_callback _ _ _ _) as [[h|e|] t1]; simpl; [| |done];
    split_and!; try done; unfold objs; simpl; naive_solver.
Qed.
Lemma pk_still_close {A} session (r : result ResponseStatus A) i h
    (Q : result ResponseStatus A -> pk_holding -> Prop) :
  Q r h -> claims i Q (Step (fun s : W => {| kim := kim s;
      dev := set_token (close_session session (token (dev s))) (dev s) |}) (fun _ => Ret r)) h.
Proof.
  intros HQ n s _ Hs Hh. exists h. split; [|done].
  destruct (close_session_spec session (token (dev s))) as [_ Ho].
  apply pk_still_exchange; auto.
Qed.

(** *** Sessions *)
Lemma pk_session_claims {A} i (Q : result ResponseStatus A -> pk_holding -> Prop)
    (p : Z -> PR W ResponseStatus A) h :
  (forall e, Q (Err e) h) -> Q Panic h -> (forall session, claims i Q (p session) h) ->
  claims i Q (Pkcs11Thread.with_session self p) h.
Proof.
  intros HErr HPanic Hp. apply claims_bind, pk_looks_once; [apply pk_still_open|].
  intros [session|e|]; [|apply HErr|apply HPanic]. unfold Pkcs11Thread.closing.
  apply claims_prog_bind. eapply (claims_mono _ _ _ _ _ _ _ Q); [|intros r g; apply pk_still_close].
  apply claims_bind, pk_looks_once; [apply pk_still_calm, calm_ck, login_reads|].
  intros [u|e|]; [apply Hp|apply HErr|apply HPanic].
Qed.
Lemma pk_looks_session {A} (p : Z -> PR W ResponseStatus A) :
  (forall session, pk_looks (p session)) -> pk_looks (Pkcs11Thread.with_session self p).
Proof. intros Hp i h Q HQ. apply pk_session_claims; [by auto..|]. intros session. by apply Hp. Qed.

(** *** Requests that only look *)
Lemma pk_still_kim {A} (m : ST K ResponseStatus A) :
  ProviderState.calm same (on_kim (D := device T B G) m) -> pk_looks (once (on_kim m)).
Proof. intros Hm. by apply pk_looks_once, pk_still_calm. Qed.
Lemma pk_looks_ck {A} (m : ST T ck_error A) :
  token_reads objects sessions m -> pk_looks (once (ck m)).
Proof. intros Hm. by apply pk_looks_once, pk_still_calm, calm_ck. Qed.
Lemma pk_looks_psa {A} (m : ST B psa_error A) : pk_looks (once (psa m)).
Proof. apply pk_looks_once, pk_still_psa. Qed.

Ltac pk_looks_step :=
  lazymatch goal with
  | |- pk_looks (mret _) => apply pk_looks_ret
  | |- pk_looks (local _) => apply pk_looks_local
  | |- pk_looks (once (on_kim _)) =>
      apply pk_still_kim; solve [auto with parsec typeclass_instances]
  | |- pk_looks (once (ck _)) => apply pk_looks_ck; solve [auto with parsec]
  | |- pk_looks (once (psa _)) => apply pk_looks_psa
  | |- pk_looks (tried _) => apply pk_looks_tried
  | |- pk_looks (Pkcs11Thread.with_session _ _) => apply pk_looks_session; intros ?
  | |- pk_looks (mbind _ _) => apply pk_looks_bind; [|intros ?]
  | |- pk_looks (match ?x with _ => _ end) => destruct x
  end.

Lemma pk_code_looks a op :
  pk_reading op = true -> pk_looks (Pkcs11Thread.code fuel self (a, op)).
Proof.
  unfold Pkcs11Thread.code. cbn [fst snd]. destruct op; intros Hr; try discriminate Hr;
    unfold Pkcs11Thread.list_keys, Pkcs11Thread.list_clients, Pkcs11Thread.psa_sign_hash_internal,
      Pkcs11Thread.psa_verify_hash_internal, Pkcs11Thread.software_psa_verify_hash_internal,
      Pkcs11Thread.psa_asymmetric_encrypt_internal, Pkcs11Thread.psa_asymmetric_decrypt_internal,
      Pkcs11Thread.software_psa_asymmetric_encrypt_internal,
      Pkcs11Thread.move_pub_key_to_psa_crypto, Pkcs11Thread.psa_export_public_key_internal,
      Pkcs11Thread.export_public_rsa_internal, Pkcs11Thread.export_public_ec_internal,
      Pkcs11Thread.remove_psa_crypto_pub_key, Pkcs11Thread.find_key;
    repeat pk_looks_step.
Qed.

(** *** The steps that change something *)
Lemma pk_check_claims t (Q : Result unit -> pk_holding -> Prop) :
  Q (Ok tt) PkName -> (forall e, Q (Err e) PkNothing) ->
  claims (PkCreating t) Q (once (on_kim (does_not_exist (key_info_store self) t))) PkNothing.
Proof.
  intros HOk HErr. apply claims_atomic. intros n s _ Hs _. unfold on_kim, zoom.
  rewrite does_not_exist_run. change (kim_view (kim s)) with (mappings s). simpl.
  rewrite pstate_eta. destruct (mappings s !! t) eqn:Ht.
  - exists PkNothing. split; [by apply pk_still_exchange; auto|done].
  - exists PkName. split; [by apply pk_still_exchange; auto|done].
Qed.

Lemma pk_draw_claims t (Q : Result Z -> pk_holding -> Prop) :
  (forall id, (0 <= id < 2 ^ 32)%Z -> Q (Ok id) (PkOwn true id [])) -> Q Panic PkName ->
  claims (PkCreating t) Q (Pkcs11Thread.create_key_id fuel) PkName.
Proof.
  intros HOk HPanic. apply claims_atomic. intros n s _ Hs Hfree.
  pose proof (create_key_id_cases fuel s) as Hc.
  destruct (create_key_id fuel s) as [[id|e|] s']; simpl; [|done|].
  2: { destruct Hc as (Hk & Ht & _ & Hi & _). exists PkName. split; [|done].
       apply pk_still_exchange; auto; unfold mappings, objs; by rewrite ?Hk, ?Ht. }
  destruct Hc as (Hk & Ht & _ & Hr & Hnew & Hi & _). exists (PkOwn true id []). split; [|by apply HOk].
  assert (Hm : mappings s' = mappings s) by (unfold mappings; by rewrite Hk).
  assert (Ho : objs s' = objs s) by (unfold objs; by rewrite Ht).
  assert (Hsub : ids s ⊆ ids s') by (rewrite Hi; set_solver).
  assert (Hkeep : forall j g, pk_holds j g s -> pk_holds j g s').
  { intros j g. apply pk_holds_keep; [done|done|]. unfold object_of. by rewrite Ho. }
  assert (Hun : forall id', pk_unused s id' -> id' <> id) by (intros id' (_ & ? & _) ->; done).
  split.
  - apply (pk_ok_grow s s' 0); [done|done|done|]. rewrite Ho. apply grown_refl.
  - split_and!; [intros _; unfold pk_name_free; by rewrite Hm| |by constructor|set_solver].
    split_and!; [apply Hr|apply Hr|rewrite Hi; set_solver|]. rewrite Hm. intros Hu.
    by destruct (used_live _ _ _ _ (ko_mapped s Hs) Hu) as (_ & ? & _).
  - intros j g _ _ Hg. split; [|by apply Hkeep]. intros id' [= <-] Hg'.
    destruct g as [| |named id' l|id']; simplify_eq/=. by apply (Hun id); [apply Hg|].
Qed.

(** New objects of the identifier. *)
Lemma pk_grow_exchange t n id l s s' :
  pk_ok s -> pk_holds (PkCreating t) (PkOwn true id []) s -> mappings s' = mappings s ->
  ids s' = ids s -> grown id (objs s) (objs s') -> NoDup l ->
  (forall k, k ∈ l -> object_of s' id k) ->
  exchange (PkCreating t) n (PkOwn true id []) s (PkOwn true id l) s'.
Proof.
  intros Hs (Hfree & Hun & _ & _) Hm Hi Hg Hnd Hl.
  assert (Hobj : forall id' k, object_of s id' k -> object_of s' id' k).
  { intros id' k (o & Ho & Hid). exists o. split; [|done]. by apply (lookup_weaken (objs s)), Hg. }
  split.
  - apply (pk_ok_grow s s' id); [done|done|by rewrite Hi|done].
  - split_and!; [|unfold pk_unused; by rewrite Hi, Hm|done|done].
    unfold pk_name_free in *. by rewrite Hm.
  - intros j g _ Ha Hg'. split; [done|]. apply (pk_holds_keep _ _ s); [done|by rewrite Hi| |done].
    intros id' k _. apply Hobj.
Qed.

Lemma pk_generate_claims t id session mech pub priv
    (Q : Result (Z * Z) -> pk_holding -> Prop) :
  has_id id pub /\ (forall b, AId b ∈ pub -> b = u32_to_be_bytes id) ->
  has_id id priv /\ (forall b, AId b ∈ priv -> b = u32_to_be_bytes id) ->
  (forall k1 k2, Q (Ok (k1, k2)) (PkOwn true id [k1; k2])) ->
  (forall e, Q (Err e) (PkOwn true id [])) ->
  claims (PkCreating t) Q (once (ck (generate_key_pair session mech pub priv))) (PkOwn true id []).
Proof.
  intros [Hpub Hpub1] [Hpriv Hpriv1] HOk HErr. apply claims_atomic. intros n s _ Hs Hh.
  unfold ck, on_err. rewrite on_token_run.
  pose proof (generate_key_pair_spec session mech pub priv (token (dev s))) as Hg.
  destruct (generate_key_pair session mech pub priv (token (dev s))) as [[[k1 k2]|e|] t'];
    simpl; [| |done].
  2: { exists (PkOwn true id []). split; [|by apply HErr]. destruct Hg as [Hg _].
       apply pk_still_exchange; auto. }
  destruct Hg as (Hne & Hk1 & Hk2 & _ & o1 & o2 & Ho & Hm1 & Hm2).
  exists (PkOwn true id [k1; k2]). split; [|by apply HOk].
  set (s' := {| kim := kim s; dev := set_token t' (dev s) |}).
  change (objects (token (dev s))) with (objs s) in *.
  assert (Ho' : objs s' = <[k2 := o2]> (<[k1 := o1]> (objs s))) by exact Ho.
  apply pk_grow_exchange; [done|done|done|done| | |].
  - rewrite Ho'. eapply (grown_insert id _ _ k2);
      [|rewrite lookup_insert_ne by done; done|exact Hm2|by apply has_id_class|set_solver].
    eapply (grown_insert id _ _ k1); [apply grown_refl|done|exact Hm1|by apply has_id_class|set_solver].
  - apply NoDup_cons. split; [set_solver|apply NoDup_singleton].
  - unfold object_of. rewrite Ho'.
    intros k [->|[->|[]%elem_of_nil]%elem_of_cons]%elem_of_cons.
    + exists o1. rewrite lookup_insert_ne, lookup_insert_eq by done. split; [done|].
      by apply Hm1, has_id_class.
    + exists o2. rewrite lookup_insert_eq. split; [done|]. by apply Hm2, has_id_class.
Qed.

Lemma pk_object_claims t id session l (Q : Result Z -> pk_holding -> Prop) :
  has_id id l /\ (forall b, AId b ∈ l -> b = u32_to_be_bytes id) ->
  (forall k, Q (Ok k) (PkOwn true id [k])) -> (forall e, Q (Err e) (PkOwn true id [])) ->
  claims (PkCreating t) Q (once (ck (create_object session l))) (PkOwn true id []).
Proof.
  intros [Hid Hone] HOk HErr. apply claims_atomic. intros n s _ Hs Hh.
  unfold ck, on_err. rewrite on_token_run.
  pose proof (create_object_spec session l (token (dev s))) as Hg.
  destruct (create_object session l (token (dev s))) as [[k|e|] t']; simpl; [| |done].
  2: { exists (PkOwn true id []). split; [|by apply HErr]. destruct Hg as [Hg _].
       apply pk_still_exchange; auto. }
  destruct Hg as (Hk & _ & o & Ho & Hm). exists (PkOwn true id [k]). split; [|by apply HOk].
  set (s' := {| kim := kim s; dev := set_token t' (dev s) |}).
  change (objects (token (dev s))) with (objs s) in *.
  assert (Ho' : objs s' = <[k := o]> (objs s)) by exact Ho.
  apply pk_grow_exchange; [done|done|done|done| |apply NoDup_singleton|].
  - rewrite Ho'. by eapply (grown_insert id _ _ k); [apply grown_refl|..].
  - intros k' ->%list_elem_of_singleton. exists o. rewrite Ho', lookup_insert_eq. split; [done|].
    by apply Hm, Hid.
Qed.

(** An object of the identifier goes, or stays. *)
Lemma pk_drop_claims {E} i named id k l session (f : ck_error -> E)
    (Q : result E unit -> pk_holding -> Prop) :
  (forall r, Q r (PkOwn named id l)) ->
  claims i Q (once (on_err f (on_token (destroy_object session k)))) (PkOwn named id (k :: l)).
Proof.
  intros HQ. apply claims_atomic. intros n s _ Hs (Hfree & Hun & Hnd & Hl).
  exists (PkOwn named id l). unfold on_err. rewrite on_token_run.
  pose proof (destroy_object_spec session k (token (dev s))) as Hd.
  destruct (destroy_object session k (token (dev s))) as [res t']. simpl. split; [|apply HQ].
  apply NoDup_cons in Hnd as [Hkl Hnd].
  assert (Hown : object_of s id k) by (apply Hl; left).
  assert (Hrest : pk_holds i (PkOwn named id l) s)
    by (split_and!; [done|done|done|intros; apply Hl; by right]).
  set (s' := {| kim := kim s; dev := set_token t' (dev s) |}).
  assert (Ho : objs s' = delete k (objs s) \/ objs s' = objs s).
  { destruct res; [left|right|done]; apply Hd. }
  destruct Ho as [Ho|Ho]; [|by apply pk_still_exchange; auto].
  assert (Hobj : forall id' k', k' <> k -> object_of s id' k' -> object_of s' id' k').
  { intros id' k' Hne (o & Hk' & Hid). exists o. by rewrite Ho, lookup_delete_ne. }
  assert (Hother : forall id' k', (0 <= id' < 2 ^ 32)%Z -> id' <> id -> object_of s id' k' ->
    object_of s' id' k').
  { intros id' k' Hr Hne Hk'. apply Hobj; [|done]. intros ->.
    by apply Hne, (object_of_fun s id' id k); [| |apply Hun|..]. }
  split.
  - split.
    + intros k' o b1 b2. rewrite Ho. intros [_ Hk']%lookup_delete_Some. by apply (ko_wf s Hs k').
    + apply (mapped_mono _ _ _ _ (ko_mapped s Hs)). intros id' Hu (Hr & Hin & k' & Hk').
      split_and!; [apply Hr|apply Hr|done|]. exists k'. apply Hother; [done| |done].
      intros ->. by apply Hun.
  - destruct Hrest as (? & ? & ? & Hl'). split_and!; [done|done|done|].
    intros k' Hk'. apply Hobj; [by intros ->|by apply Hl'].
  - intros j g _ Ha Hg. split; [done|].
    assert (Hgr : forall id', own_id g = Some id' -> (0 <= id' < 2 ^ 32)%Z).
    { intros id' Hid'. destruct g; simplify_eq/=. apply Hg. }
    apply (pk_holds_keep _ _ s); [done|done| |done].
    intros id' k' Hid'. apply Hother; [by apply Hgr|]. intros ->. by apply (Ha id).
Qed.

Lemma pk_ignoring_claims i named id k l session (Q : Result unit -> pk_holding -> Prop) :
  (forall r, Q r (PkOwn named id l)) ->
  claims i Q (Pkcs11Thread.destroy_ignoring session k) (PkOwn named id (k :: l)).
Proof.
  intros HQ. apply claims_bind, claims_prog_bind.
  eapply (claims_mono _ _ _ _ _ _ _ (fun _ g => g = PkOwn named id l)).
  - pose proof (pk_drop_claims i named id k l session (fun e : ck_error => e)
      (fun _ g => g = PkOwn named id l) (fun _ => eq_refl)) as Hd.
    intros n s Hn Hs Hh. destruct (Hd n s Hn Hs Hh) as (h' & Hex & Hq). exists h'.
    simpl in *. unfold on_err in *. by destruct (on_token (destroy_object session k) s).
  - intros r g ->. destruct r; apply HQ.
Qed.

Lemma pk_insert_claims t id k l attrs (Q : Result unit -> pk_holding -> Prop) :
  Q (Ok tt) PkNothing -> (forall e, Q (Err e) (PkOwn false id (k :: l))) ->
  claims (PkCreating t) Q (once (on_kim (insert_key_info (key_info_store self) t id attrs)))
    (PkOwn true id (k :: l)).
Proof.
  intros HOk HErr. apply claims_atomic. intros n s _ Hs (Hopen & (Hr & Hin & Hun) & Hnd & Hl).
  specialize (Hopen eq_refl). simpl in Hopen.
  destruct (bincode_u32 id Hr) as [b Hser]. unfold on_kim, zoom.
  destruct (insert_key_info_cases (key_info_store self) t id attrs (kim s) b Hser)
    as (k1 & [[-> Hv]|[-> Hv]]); change (kim_view (kim s)) with (mappings s) in *.
  { simpl. exists (PkOwn false id (k :: l)). split; [|by apply HErr].
    apply pk_still_exchange; auto. by split_and!. }
  rewrite Hopen. simpl. exists PkNothing. split; [|done].
  set (s' := {| kim := k1; dev := dev s |}). change (kim_view k1) with (mappings s') in Hv.
  assert (Hround : id_of (T := Z) {| ki_id := b; ki_attributes := attrs |} = Some id)
    by (by apply bincode_round).
  split; [|done|].
  - split; [apply (ko_wf s Hs)|]. rewrite Hv.
    apply (mapped_insert _ _ _ _ id); [apply (ko_mapped s Hs)|done|done|].
    split_and!; [apply Hr|apply Hr|done|]. exists k. apply (Hl k). left.
  - intros j g Hcl Hap Hg. split; [done|].
    assert (Hname : pk_name_free j s -> pk_name_free j s').
    { destruct j as [u|u|]; simpl in *; try done. intros Hu. rewrite Hv, lookup_insert_ne; [done|].
      by apply bool_decide_eq_false in Hcl. }
    destruct g as [| |named id' l'|id']; simpl in *; [done|by auto| |].
    + destruct Hg as (Hn' & (Hr' & Hin' & Hun') & Hnd' & Hl').
      split_and!; [by auto| |done|done]. split_and!; [apply Hr'|apply Hr'|done|].
      intros (u & i' & Hu & Hp & Hi'). rewrite Hv in Hu.
      apply lookup_insert_Some in Hu as [[<- <-]|[_ Hu]]; [|apply Hun'; by exists u, i'].
      apply (Hap id); [done|simpl; congruence].
    + destruct j as [u|u|]; simpl in *; try done. destruct Hg as (info & Hu & Hid). exists info.
      split; [|done]. rewrite Hv, lookup_insert_ne; [done|]. congruence.
Qed.

Lemma pk_found_claims t (Q : Result Z -> pk_holding -> Prop) :
  (forall id, Q (Ok id) (PkSits id)) -> (forall e, Q (Err e) PkNothing) ->
  claims (PkDestroying t) Q (once (on_kim (get_key_id Z (key_info_store self) t))) PkNothing.
Proof.
  intros HOk HErr. apply claims_atomic. intros n s _ Hs _. unfold on_kim, zoom.
  rewrite get_key_id_run. change (kim_view (kim s)) with (mappings s). simpl.
  rewrite pstate_eta.
  destruct (mappings s !! t) as [info|] eqn:Ht.
  2: { exists PkNothing. split; [|by apply HErr]. by apply pk_still_exchange; auto. }
  destruct (bincode_deserialize (ki_id info)) as [id|] eqn:Hid.
  - exists (PkSits id). split; [|by apply HOk]. apply pk_still_exchange; auto. by exists info.
  - exists PkNothing. split; [|by apply HErr]. by apply pk_still_exchange; auto.
Qed.

Lemma pk_remove_claims t id (Q : Result unit -> pk_holding -> Prop) :
  kt_provider_id t = Pkcs11 ->
  Q (Ok tt) (PkOwn false id []) -> (forall e, Q (Err e) PkNothing) ->
  claims (PkDestroying t) Q (once (on_kim (remove_key_info (key_info_store self) t))) (PkSits id).
Proof.
  intros Hp HOk HErr. apply claims_atomic. intros n s _ Hs (info & Ht & Hid). unfold on_kim, zoom.
  destruct (remove_key_info_cases (key_info_store self) t (kim s)) as (k1 & [[-> Hv]|[-> Hv]]);
    change (kim_view (kim s)) with (mappings s) in *.
  { simpl. exists PkNothing. split; [|by apply HErr]. by apply pk_still_exchange; auto. }
  rewrite Ht. simpl. exists (PkOwn false id []). split; [|done].
  set (s' := {| kim := k1; dev := dev s |}). change (kim_view k1) with (mappings s') in Hv.
  assert (Hu : used Pkcs11 (mappings s) id) by (by exists t, info).
  destruct (used_live _ _ _ _ (ko_mapped s Hs) Hu) as (Hr & Hin & _).
  split.
  - split; [apply (ko_wf s Hs)|]. rewrite Hv. apply mapped_delete, (ko_mapped s Hs).
  - split_and!; [done| |by constructor|set_solver]. split_and!; [apply Hr|apply Hr|done|].
    rewrite Hv. by apply (delete_unused _ _ _ _ info id (ko_mapped s Hs)).
  - intros j g Hc Ha Hg. split.
    + intros id' [= <-] Hg'. destruct g as [| |named id' l|id']; simplify_eq/=. by apply Hg.
    + assert (Hname : pk_name_free j s -> pk_name_free j s').
      { destruct j as [u|u|]; simpl; try done. intros Hu'. rewrite Hv, lookup_delete_None. by right. }
      destruct g as [| |named id' l|id']; simpl in *; [done|by auto| |].
      * destruct Hg as (Hn' & (Hr' & Hin' & Hun') & Hnd' & Hl').
        split_and!; [by auto| |done|done]. split_and!; [apply Hr'|apply Hr'|done|].
        intros (u & i' & Hu' & Hp' & Hi'). rewrite Hv in Hu'.
        apply lookup_delete_Some in Hu' as [_ Hu']. apply Hun'. by exists u, i'.
      * destruct j as [u|u|]; simpl in *; try done. destruct Hg as (i' & Hu' & Hid'). exists i'.
        split; [|done]. rewrite Hv, lookup_delete_ne; [done|]. by apply bool_decide_eq_false in Hc.
Qed.

Lemma pk_find_claims i id session (Q : Result Z -> pk_holding -> Prop) :
  (forall k, Q (Ok k) (PkOwn false id [k])) -> (forall e, Q (Err e) (PkOwn false id [])) ->
  claims i Q (Pkcs11Thread.find_key session id Any) (PkOwn false id []).
Proof.
  intros HOk HErr. unfold Pkcs11Thread.find_key. apply claims_bind, claims_atomic.
  intros n s _ Hs Hh. unfold ck, on_err. rewrite on_token_run.
  destruct (find_objects_reads session [AId (u32_to_be_bytes id)] (token (dev s))) as (Ho & _ & Hp).
  pose proof (find_objects_spec session [AId (u32_to_be_bytes id)] (token (dev s))) as Hf.
  destruct (find_objects session _ (token (dev s))) as [[l|e|] t']; simpl in *; [| |done].
  2: { exists (PkOwn false id []). split; [|by apply HErr]. apply pk_still_exchange; auto. }
  specialize (Hf l t' eq_refl). destruct l as [|k l].
  { exists (PkOwn false id []). split; [|apply HErr]. apply pk_still_exchange; auto. }
  destruct (proj1 (Hf k)) as (o & Ho' & Hin); [left|].
  exists (PkOwn false id [k]). split; [|apply HOk]. apply pk_still_exchange; auto.
  destruct Hh as (? & ? & _ & _). split_and!; [done|done|apply NoDup_singleton|].
  intros k' ->%list_elem_of_singleton. exists o. split; [done|]. apply Hin. left.
Qed.

(** *** The programs *)
Lemma pk_store_claims t id k l attrs (undo : PR W ResponseStatus unit) :
  (forall i, claims i settles undo (PkOwn false id (k :: l))) ->
  claims (PkCreating t) settles (Pkcs11Thread.store_or_undo self t id attrs undo)
    (PkOwn true id (k :: l)).
Proof.
  intros Hundo. apply claims_bind, claims_prog_bind, pk_insert_claims; [done|]. intros e.
  apply claims_bind. eapply claims_mono; [apply Hundo|]. by intros [[]|e'|] g Hg.
Qed.

Lemma pk_generate_key_claims a op :
  claims (PkCreating (triple a (gk_key_name op))) settles
    (Pkcs11Thread.psa_generate_key_internal fuel self a op) PkNothing.
Proof.
  unfold Pkcs11Thread.psa_generate_key_internal. destruct (is_public_key _); [done|].
  destruct (_ && _); [done|]. apply claims_bind, pk_check_claims; [|done].
  apply pk_session_claims; [done|done|]. intros session.
  apply claims_bind, pk_draw_claims; [|done]. intros id Hr. apply claims_bind.
  pose proof (template_ids (gk_attributes op) id) as Ht.
  destruct (generate_templates _ id) as [[[mech pub] priv]|e|]; [|done|done].
  destruct Ht as [Hpub Hpriv]. apply claims_bind, pk_generate_claims; [done|done| |done].
  intros k1 k2. apply pk_store_claims. intros i. apply claims_bind, pk_ignoring_claims.
  intros [[]|e|]; [|done|done]. by apply pk_ignoring_claims.
Qed.

Lemma pk_import_key_claims a op :
  claims (PkCreating (triple a (ik_key_name op))) settles
    (Pkcs11Thread.psa_import_key_internal fuel self a op) PkNothing.
Proof.
  unfold Pkcs11Thread.psa_import_key_internal. destruct (_ && _); [done|].
  apply claims_bind, pk_check_claims; [|done]. apply pk_session_claims; [done|done|]. intros session.
  apply claims_bind, pk_draw_claims; [|done]. intros id Hr. apply claims_bind.
  pose proof (import_ids (ik_attributes op) (ik_data op) id) as Ht.
  destruct (import_template _ _ id) as [l|e|]; [|done|done].
  apply claims_bind, pk_object_claims; [done| |done]. intros k.
  apply pk_store_claims. intros i. by apply pk_ignoring_claims.
Qed.

Lemma pk_destroy_key_claims a key_name :
  claims (PkDestroying (triple a key_name)) settles
    (Pkcs11Thread.psa_destroy_key_internal self a key_name) PkNothing.
Proof.
  apply claims_bind, pk_found_claims; [|done]. intros id.
  apply claims_bind, pk_remove_claims; [done| |done]. apply pk_session_claims; [done|done|].
  intros session. apply claims_bind, pk_find_claims; [|done]. intros k1.
  apply claims_bind, pk_drop_claims. intros [[]|e|]; [|done|done].
  apply claims_bind, claims_prog_bind, pk_find_claims; [|by intros []].
  intros k2. by apply pk_drop_claims.
Qed.

Lemma pk_code_claims c : claims (pk_intent_of c) settles (Pkcs11Thread.code fuel self c) PkNothing.
Proof.
  destruct c as [a op]. destruct (pk_reading op) eqn:Hr; [by apply pk_code_looks|].
  unfold pk_intent_of, Pkcs11Thread.code. cbn [fst snd].
  destruct op; try discriminate Hr; apply claims_map_settles.
  - apply pk_generate_key_claims.
  - apply pk_import_key_claims.
  - apply pk_destroy_key_claims.
Qed.
End Steps.

(** C19: requests of any kind to the PKCS 11 provider can run in parallel, as long as no
    two in progress create the same key and no two destroy the same key.  Whatever fails
    underneath and however their accesses of the mappings, the identifiers and the token
    are interleaved, every mapping names a key that is on the token, no two mappings name
    the same key and the identifiers in use are recorded. *)
Theorem pkcs11_parallel_safe s0 x :
  pk_ok s0 ->
  rtc (calm_step pk_clash (Pkcs11Thread.code fuel self) pk_intent_of) (open s0) x ->
  pk_ok (shared x).
Proof.
  intros Hok Hrun.
  by destruct (crew_claims (fun _ => pk_ok) pk_counts pk_holds pk_apart PkNothing pk_clash
    (size (threads x)) pk_apart_sym pk_apart_none (fun _ _ _ _ => I) eq_refl
    (Pkcs11Thread.code fuel self) pk_intent_of (settles pk_counts) (fun _ _ Hr => Hr)
    (fun _ _ Hr => Hr) (pk_code_claims (size (threads x))) s0 x) as [(n & Hx & _) _].
Qed.
End Spec.

(** ** A concrete run *)
Definition pk_generate (a k : string) : ApplicationName * NativeOperation :=
  (from_name a, PsaGenerateKey {| gk_key_name := k; gk_attributes := ecc_attributes |}).
Definition pk_destroy (a k : string) : ApplicationName * NativeOperation :=
  (from_name a, PsaDestroyKey k).
Abbreviation pk_crew := (crew (pstate OnDisk (device demo_token library Z)) (Result NativeResult)
  (ApplicationName * NativeOperation)).
Abbreviation pk_turn := (turn (ApplicationName * NativeOperation)).
(** Two applications create keys under one name in turns; then one destroys its key while
    it creates it again, as soon as the name is free. *)
Definition pk_busy : list pk_turn :=
  [Arrives 0 (pk_generate "app" "k"); Arrives 1 (pk_generate "other" "k")] ++
  concat (replicate 7 [Goes 0; Goes 1]) ++
  [Arrives 0 (pk_destroy "app" "k"); Goes 0; Goes 0; Arrives 1 (pk_generate "app" "k")] ++
  concat (replicate 7 [Goes 1; Goes 0]).
Definition pk_busy_crew : pk_crew :=
  default (open pk_blank)
    (take_calm_turns pk_clash (Pkcs11Thread.code 3 pk_self) pk_intent_of pk_busy (open pk_blank)).
Definition pk_id_at (s : pstate OnDisk (device demo_token library Z)) (a k : string) : option Z :=
  mappings s !! triple (from_name a) k ≫= id_of.

Lemma pk_busy_run :
  take_calm_turns pk_clash (Pkcs11Thread.code 3 pk_self) pk_intent_of pk_busy (open pk_blank) =
  Some pk_busy_crew.
Proof.
  unfold pk_busy_crew.
  assert (Hs : bool_decide (is_Some (take_calm_turns pk_clash (Pkcs11Thread.code 3 pk_self)
    pk_intent_of pk_busy (open pk_blank))) = true) by (vm_compute; reflexivity).
  apply bool_decide_eq_true in Hs as [y Hy]. by rewrite Hy.
Qed.

Lemma pkcs11_parallel_safe_witness :
  pk_id_at (shared pk_busy_crew) "other" "k" = Some 8%Z /\
  pk_id_at (shared pk_busy_crew) "app" "k" = Some 9%Z /\ pk_ok (shared pk_busy_crew).
Proof.
  split; [vm_compute; reflexivity|]. split; [vm_compute; reflexivity|].
  apply (pkcs11_parallel_safe 3 pk_self pk_blank pk_busy_crew); [exact pk_blank_ok|].
  exact (take_calm_turns_run pk_clash (Pkcs11Thread.code 3 pk_self) pk_intent_of pk_busy
    (open pk_blank) pk_busy_crew pk_busy_run).
Defined.

(** An application destroys its key twice at once and creates it again in between; both
    requests have found the same object when the first destroys it, and another
    application imports a key that gets its handle. *)
Definition pk_runs (tid : nat) (c : ApplicationName * NativeOperation) (n : nat) : list pk_turn :=
  Arrives tid c :: replicate n (Goes tid).
Definition pk_race : list pk_turn :=
  pk_runs 0 (pk_generate "app" "k") 7 ++
  pk_runs 0 (pk_destroy "app" "k") 1 ++ pk_runs 1 (pk_destroy "app" "k") 1 ++ [Goes 0] ++
  pk_runs 2 (pk_generate "app" "k") 7 ++
  replicate 4 (Goes 1) ++ replicate 4 (Goes 0) ++
  pk_runs 2 (from_name "other", PsaImportKey pk_import) 7 ++
  replicate 4 (Goes 1) ++ replicate 2 (Goes 0).
Definition pk_race_crew : pk_crew :=
  default (open pk_blank) (take_turns (Pkcs11Thread.code 3 pk_self) pk_race (open pk_blank)).

Lemma pk_race_run :
  take_turns (Pkcs11Thread.code 3 pk_self) pk_race (open pk_blank) = Some pk_race_crew.
Proof.
  unfold pk_race_crew.
  assert (Hs : bool_decide (is_Some (take_turns (Pkcs11Thread.code 3 pk_self) pk_race
    (open pk_blank))) = true) by (vm_compute; reflexivity).
  apply bool_decide_eq_true in Hs as [y Hy]. by rewrite Hy.
Qed.

(** Two requests of an application that destroy the same key at once can destroy the key
    of another.  Both find the same object; once the first has destroyed it the token may
    give its handle to a new object, which the second destroys.  Every request succeeds,
    and the name of the other application is mapped to a key that is not on the token. *)
Theorem pkcs11_destroy_race :
  exists x, rtc (crew_step (Pkcs11Thread.code 3 pk_self)) (open pk_blank) x /\
    (forall u, u < 3 -> exists c r, threads x !! u = Some (c, Ret (Ok r))) /\
    pk_id_at (shared x) "other" "p" = Some 9%Z /\ ~ pk_ok (shared x).
Proof.
  exists pk_race_crew.
  assert (Hp : pk_id_at (shared pk_race_crew) "other" "p" = Some 9%Z) by (vm_compute; reflexivity).
  assert (Hobj : forallb (fun ho => negb (bool_decide (AId (u32_to_be_bytes 9) ∈ ho.2)))
    (map_to_list (objs (shared pk_race_crew))) = true) by (vm_compute; reflexivity).
  split_and!; [by eapply take_turns_run, pk_race_run| |done|].
  - intros [|[|[|u]]] Hu; [..|lia]; do 2 eexists; vm_compute; reflexivity.
  - intros Hok. apply bind_Some in Hp as (i & Hi & Hid).
    destruct (mp_ids _ _ _ (ko_mapped _ Hok) _ i Hi eq_refl) as (id & Hid' & _ & _ & h & o & Ho & Hh).
    assert (id = 9%Z) as -> by congruence. rewrite forallb_forall in Hobj.
    specialize (Hobj (h, o)). rewrite <- list_elem_of_In, elem_of_map_to_list in Hobj.
    specialize (Hobj Ho). apply negb_true_iff, bool_decide_eq_false in Hobj. by apply Hobj.
Qed.
