(* ===== verification/ParallelIsolation.v ===== *)
(** * Isolation of applications in parallel

    However the accesses of requests to a provider are interleaved, and whether or not
    some of them are for the same key, the requests of other applications leave the
    mappings of an application alone ([parallel_isolation]).  Shown for the CryptoAuthLib,
    Trusted Service and PKCS 11 providers, for every device and without any assumption on
    its library. *)
From S2P Require Import Prelude RustStd Interface Authenticators KeyInfo OnDisk Concrete Provide.
From S2P Require Import CoreProvider MbedSpec Scenario CryptoAuthLib CryptoAuthLibSpec ProviderState.
From S2P Require Import TrustedService TrustedServiceSpec Mbed Pkcs11 Pkcs11Spec Pkcs11Scenario Threads Claims.
From S2P Require Import CalThreads CalConcurrency TsThreads TsConcurrency Pkcs11Threads.
From S2P Require Import Pkcs11Concurrency.

(** ** Programs whose steps all stay within a relation *)
Section Within.
Context {W : Type} (R : W -> W -> Prop) `{!PreOrder R}.

Fixpoint within {A} (p : prog W A) : Prop :=
  match p with
  | Ret _ => True
  | Step f k => forall w, R (f w) w /\ within (k w)
  end.

Lemma within_prog_bind {A C} (p : prog W A) (q : A -> prog W C) :
  within p -> (forall a, within (q a)) -> within (prog_bind p q).
Proof.
  intros Hp Hq. induction p as [a|f k IH]; simpl in *; [apply Hq|].
  intros w. destruct (Hp w) as [Hf Hk]. split; [done|by apply IH].
Qed.
Lemma within_bind {E A C} (p : PR W E A) (q : A -> PR W E C) :
  within p -> (forall a, within (q a)) -> within (x ← p; q x).
Proof. intros Hp Hq. apply within_prog_bind; [done|]. by intros [a|e|]. Qed.
Lemma within_once {E A} (m : ST W E A) : steps R m -> within (once m).
Proof. intros Hm w. split; [apply Hm|done]. Qed.
Lemma within_tried {E F A} (p : PR W E A) : within p -> within (tried (F := F) p).
Proof. intros Hp. by apply within_prog_bind. Qed.

Section Pool.
Context {Result Call : Type} (code : Call -> prog W Result) (who : Call -> Prop).

(** The steps of a pool on which only the requests of [who] arrive. *)
Inductive step_of : crew W Result Call -> crew W Result Call -> Prop :=
  | step_goes tid x y : go tid x = Some y -> step_of x y
  | step_takes tid c x : spare x tid = true -> who c -> step_of x (take_on code tid c x).

(** A sequence of turns as such steps. *)
Definition admits (a : turn Call) : Prop := match a with Arrives _ c => who c | Goes _ => True end.
Lemma take_turns_of l x y : take_turns code l x = Some y -> Forall admits l -> rtc step_of x y.
Proof.
  revert x. induction l as [|a l IH]; intros x Hl Hw; simplify_eq/=; [done|].
  apply Forall_cons in Hw as [Ha Hw]. apply bind_Some in Hl as (z & Hz & Hl).
  eapply rtc_l; [|by apply IH]. destruct a as [tid c|tid]; simpl in *; [|by apply (step_goes tid)].
  destruct (spare x tid) eqn:Hs; simplify_eq. by apply step_takes.
Qed.

Lemma within_pool w x :
  (forall c, who c -> within (code c)) -> rtc step_of (open w) x -> R (shared x) w.
Proof.
  intros Hcode Hrun.
  assert (Hinv : R (shared x) w /\ forall u c p, threads x !! u = Some (c, p) -> within p);
    [|apply Hinv].
  change (R (shared x) (shared (open (R := Result) (Call := Call) w)) /\
    forall u c p, threads x !! u = Some (c, p) -> within p).
  assert (H0 : forall u c p, threads (open (R := Result) (Call := Call) w) !! u = Some (c, p) ->
    within p) by done.
  revert H0. induction Hrun as [x|x y z Hstep _ IH]; intros Hx; [by split|].
  destruct Hstep as [tid x y Hgo|tid c x _ Hc].
  - apply bind_Some in Hgo as ([c p] & Ht & Hgo). destruct p as [a|f k]; simplify_eq/=.
    destruct (Hx tid c _ Ht (shared x)) as [Hf Hk]. destruct IH as [IH Hz].
    + intros u d q [[<- [= <- <-]]|[_ Hu]]%lookup_insert_Some; [done|by eapply Hx].
    + split; [by etrans|done].
  - apply IH. intros u d q Hu. simpl in Hu.
    apply lookup_insert_Some in Hu as [[<- [= <- <-]]|[_ Hu]]; [by apply Hcode|by eapply Hx].
Qed.
End Pool.
End Within.

(** ** The requests of other applications *)
(** Keys that are not those of [b], and requests that [b] did not make. *)
Definition foreign (b : ApplicationName) (t : KeyTriple) : Prop := kt_app_name t <> b.
Definition made_by_others (b : ApplicationName) (c : ApplicationName * NativeOperation) : Prop :=
  c.1 <> b.

(** Follow a program down to its accesses. *)
Ltac within_step :=
  lazymatch goal with
  | |- within _ (mbind _ _) => apply within_bind; [|intros ?]
  | |- within _ (tried _) => apply within_tried
  | |- within _ (local _) => exact I
  | |- within _ (mret _) => exact I
  | |- within _ (match ?x with _ => _ end) => destruct x
  | |- within _ (once _) => apply within_once
  end.

Section Isolation.
Context {K : Type} `{KimSpec K} (b : ApplicationName).

Section Ts.
Context {R : Type} `{PsaTypes} `{TsProtobuf} `{RpcCaller R} `{Bincode Z}.
Lemma ts_within self c :
  made_by_others b c ->
  within (keeps (mappings (K := K) (D := TsProvider.device R)) (foreign b)) (TsThread.code self c).
Proof.
  destruct c as [a op]. intros Ha. unfold TsThread.code. cbn [fst snd]. destruct op;
    unfold TsThread.list_keys, TsThread.list_clients, TsThread.psa_generate_key_internal,
      TsThread.psa_import_key_internal, TsThread.psa_destroy_key_internal,
      TsThread.psa_export_public_key_internal, TsThread.psa_sign_hash_internal,
      TsThread.psa_verify_hash_internal, TsThread.create_and_store, TsThread.create_key_id;
    repeat within_step; unfold TsProvider.on_rpc, TsProvider.on_counter; steps_auto.
Qed.
End Ts.

Section Pk.
Context {T B G : Type} `{Cryptoki T} `{PsaCrypto B} `{Rng G}.
Context `{Validate} `{KeyApi} `{Der} `{Bincode Z} (fuel : nat).
Abbreviation W := (pstate K (Pkcs11Provider.device T B G)).

Lemma within_session {A} self (p : Z -> PR W ResponseStatus A) :
  (forall session, within (keeps mappings (foreign b)) (p session)) ->
  within (keeps mappings (foreign b)) (Pkcs11Thread.with_session self p).
Proof.
  intros Hp. apply within_bind; [apply within_once; unfold Pkcs11Provider.ck,
    Pkcs11Provider.on_token; steps_auto|].
  intros session. apply within_prog_bind; [|by intros r w].
  apply within_bind; [apply within_once; unfold Pkcs11Provider.ck, Pkcs11Provider.on_token;
    steps_auto|]. intros _. apply Hp.
Qed.

Lemma pk_within self c :
  made_by_others b c -> within (keeps (mappings (K := K)) (foreign b)) (Pkcs11Thread.code fuel self c).
Proof.
  destruct c as [a op]. intros Ha. unfold Pkcs11Thread.code. cbn [fst snd]. destruct op;
    unfold Pkcs11Thread.list_keys, Pkcs11Thread.list_clients,
      Pkcs11Thread.psa_generate_key_internal, Pkcs11Thread.psa_import_key_internal,
      Pkcs11Thread.psa_destroy_key_internal, Pkcs11Thread.psa_sign_hash_internal,
      Pkcs11Thread.psa_verify_hash_internal, Pkcs11Thread.software_psa_verify_hash_internal,
      Pkcs11Thread.psa_asymmetric_encrypt_internal, Pkcs11Thread.psa_asymmetric_decrypt_internal,
      Pkcs11Thread.software_psa_asymmetric_encrypt_internal,
      Pkcs11Thread.move_pub_key_to_psa_crypto, Pkcs11Thread.psa_export_public_key_internal,
      Pkcs11Thread.export_public_rsa_internal, Pkcs11Thread.export_public_ec_internal,
      Pkcs11Thread.remove_psa_crypto_pub_key, Pkcs11Thread.store_or_undo,
      Pkcs11Thread.destroy_ignoring, Pkcs11Thread.find_key, Pkcs11Thread.create_key_id;
    repeat ((apply within_session; intros ?) || within_step);
    unfold Pkcs11Provider.ck, Pkcs11Provider.psa, Pkcs11Provider.on_token, Pkcs11Provider.on_psa,
      Pkcs11Provider.create_key_id; steps_auto.
Qed.
End Pk.

Section Cal.
Context {D : Type} `{Atecc D} `{KeyApi} `{Bincode Z}.

Lemma cal_steps_kim {A} P (m : ST K ResponseStatus A) :
  (forall k, (m k).2 = k) -> steps (keeps (cal_view (D := D)) P) (CalProvider.on_kim m).
Proof.
  intros Hm s. unfold keeps, CalProvider.on_kim, zoom, cal_view. specialize (Hm (CalProvider.kim s)).
  destruct (m (CalProvider.kim s)) as [r k]. simpl in *. by subst.
Qed.

Lemma within_random n l :
  within (keeps (cal_view (K := K) (D := D)) (foreign b)) (CalThread.random_calls n l).
Proof.
  revert l. induction n as [|n IH]; intros l; cbn [CalThread.random_calls]; [exact I|].
  apply within_bind; [apply within_once; intros s; apply keeps_still, still_device|].
  intros [[] buf]; try exact I. apply IH.
Qed.

Lemma cal_within self c :
  made_by_others b c -> within (keeps (cal_view (D := D)) (foreign b)) (CalThread.code self c).
Proof.
  destruct c as [a op]. intros Ha. unfold CalThread.code, CalThread.guarded. cbn [fst snd].
  destruct op;
    unfold CalThread.list_keys, CalThread.list_clients, CalThread.psa_generate_key_internal,
      CalThread.psa_import_key_internal, CalThread.psa_destroy_key_internal,
      CalThread.psa_export_public_key_internal, CalThread.psa_export_key_internal,
      CalThread.psa_sign_hash_internal, CalThread.psa_verify_hash_internal,
      CalThread.psa_sign_message_internal, CalThread.psa_verify_message_internal,
      CalThread.psa_hash_compute_internal, CalThread.psa_hash_compare_internal,
      CalThread.psa_generate_random_internal, CalThread.sha256, CalThread.ecdsa_hash_sign,
      CalThread.ecdsa_verify_mode_get, CalThread.ecdsa_hash_verify, CalThread.release_and_fail;
    repeat (apply within_random || within_step);
    first [ by apply cal_steps_kim; auto with parsec
          | intros s; apply keeps_still, still_device | intros s; apply keeps_slots
          | intros s; by apply keeps_cal_insert | intros s; by apply keeps_cal_remove ].
Qed.
End Cal.

(** The keys of [b] are mapped as they were. *)
Definition untouched (m m' : gmap KeyTriple KeyInfo) : Prop :=
  forall t, kt_app_name t = b -> m' !! t = m !! t.
Lemma foreign_untouched m m' : agree_off (foreign b) m' m -> untouched m m'.
Proof. intros Hm t Ht. apply Hm. by intros Hf. Qed.

(** C15: requests of other applications leave the mappings of an application alone: however
    many there are, whatever they ask for, however their accesses of the mappings, the
    device and the service are interleaved and whatever these do, with each of the
    CryptoAuthLib, Trusted Service and PKCS 11 providers.  Also requests that race for
    one key cannot reach the mappings of an application that is not among them. *)
Theorem parallel_isolation {D R T B G} `{Atecc D} `{KeyApi} `{Bincode Z} `{PsaTypes}
    `{TsProtobuf} `{RpcCaller R} `{Cryptoki T} `{PsaCrypto B} `{Rng G} `{Validate} `{Der} :
  (forall self (s0 : CalProvider.state K D) x,
     rtc (step_of (CalThread.code self) (made_by_others b)) (open s0) x ->
     untouched (cal_view s0) (cal_view (shared x))) /\
  (forall self (s0 : pstate K (TsProvider.device R)) x,
     rtc (step_of (TsThread.code self) (made_by_others b)) (open s0) x ->
     untouched (mappings s0) (mappings (shared x))) /\
  (forall fuel self (s0 : pstate K (Pkcs11Provider.device T B G)) x,
     rtc (step_of (Pkcs11Thread.code fuel self) (made_by_others b)) (open s0) x ->
     untouched (mappings s0) (mappings (shared x))).
Proof.
  split_and!.
  - intros self s0 x Hrun. apply foreign_untouched.
    by apply (within_pool (keeps cal_view (foreign b)) _ _ s0 x (cal_within self)).
  - intros self s0 x Hrun. apply foreign_untouched.
    by apply (within_pool (keeps mappings (foreign b)) _ _ s0 x (ts_within self)).
  - intros fuel self s0 x Hrun. apply foreign_untouched.
    by apply (within_pool (keeps mappings (foreign b)) _ _ s0 x (pk_within fuel self)).
Qed.
End Isolation.

(** ** A concrete run *)

(** The other application has a key; then the race of [ts_create_race] is run. *)
Definition ts_other : pstate OnDisk (TsProvider.device ts_world) :=
  (run (TsThread.code ts_self (ts_generate "other" "k")) ts0).2.
Definition ts_other_crew : ts_crew :=
  default (open ts_other) (take_turns (TsThread.code ts_self) ts_race (open ts_other)).
Lemma ts_other_run :
  take_turns (TsThread.code ts_self) ts_race (open ts_other) = Some ts_other_crew.
Proof.
  unfold ts_other_crew.
  assert (Hs : bool_decide (is_Some (take_turns (TsThread.code ts_self) ts_race (open ts_other)))
    = true) by (vm_compute; reflexivity).
  apply bool_decide_eq_true in Hs as [y Hy]. by rewrite Hy.
Qed.

Lemma parallel_isolation_witness :
  id_at ts_other "other" "k" = Some 2%Z /\ id_at (shared ts_other_crew) "app" "k" = Some 4%Z /\
  mappings (shared ts_other_crew) !! TsProvider.triple (from_name "other") "k" =
    mappings ts_other !! TsProvider.triple (from_name "other") "k".
Proof.
  split; [vm_compute; reflexivity|]. split; [vm_compute; reflexivity|].
  refine (proj1 (proj2 (parallel_isolation (K := OnDisk) (from_name "other") (D := unit)
    (R := ts_world) (T := demo_token) (B := library) (G := Z))) ts_self ts_other ts_other_crew _ _ _).
  - apply (take_turns_of _ _ ts_race); [exact ts_other_run|].
    repeat constructor; discriminate.
  - reflexivity.
Defined.
