(* ===== verification/Tpm.v ===== *)
(** * The TPM provider ([src/providers/tpm])

    The context of the TSS library ([TransientKeyContext]) is the class [Tss] over
    its state [C]; [X] is the type of saved key contexts ([TpmsContext]).  The mutex
    around the context is always free when a method starts. *)
From S2P Require Import Prelude RustStd Interface Authenticators KeyInfo Provide CoreProvider.
From S2P Require Import ProviderState Mbed CryptoAuthLib Pkcs11.

(** ** What the provider is written against *)
Inductive Tss2ResponseCodeKind :=
  | RcSuccess | RcSignature | RcObjectMemory | RcSessionMemory | RcMemory | RcRetry
  | RcAsymmetric | RcHash | RcKeySize | RcMgf | RcMode | RcKdf | RcScheme | RcSymmetric
  | RcCurve | RcOther (n : nat).
(** [tss_esapi::Error]; the kind of a response code may be unknown. *)
Inductive tss_error := TssWrapperError (n : nat) | Tss2Error (kind : option Tss2ResponseCodeKind).

Inductive HashingAlgorithm := TpmSha1 | TpmSha256 | TpmSha384 | TpmSha512 | TpmSha3_256
  | TpmSha3_384 | TpmSha3_512.
Inductive AsymSchemeUnion := RSASSA (h : HashingAlgorithm) | TpmECDSA (h : HashingAlgorithm)
  | RSAES | RSAOAEP (h : HashingAlgorithm).
Inductive EccCurve := NistP192 | NistP224 | NistP256 | NistP384 | NistP521.
Inductive KeyParams :=
  | RsaSign (size : Z) (scheme : AsymSchemeUnion) (pub_exponent : Z)
  | RsaEncrypt (size : Z) (pub_exponent : Z)
  | EccParams (scheme : AsymSchemeUnion) (curve : EccCurve).
(** [tss_esapi::utils::PublicKey] *)
Inductive TssPublicKey := RsaPub (key : bytes) | EccPub (x y : bytes).
Inductive SignatureData := RsaSignature (signature : bytes) | EcdsaSignature (r s : bytes).
Record Signature := { scheme : AsymSchemeUnion; signature : SignatureData }.
Inductive TpmCipher := aes_256_cfb | aes_128_cfb.

Class Tss (X C : Type) := {
  RSA_KEY_SIZES : list Z;
  (** [AsymmetricSignature::is_rsa_alg] of [psa_crypto] *)
  is_rsa_alg : AsymmetricSignature -> bool;
  create_key : KeyParams -> nat -> ST C tss_error (X * option bytes);
  load_external_rsa_public_key : bytes -> ST C tss_error X;
  load_external_rsa : bytes -> bytes -> Z -> ST C tss_error X;
  read_public_key : X -> ST C tss_error TssPublicKey;
  tss_sign : X -> option bytes -> bytes -> ST C tss_error Signature;
  tss_verify_signature : X -> bytes -> Signature -> ST C tss_error unit;
  rsa_encrypt : X -> option bytes -> bytes -> AsymSchemeUnion -> option bytes -> ST C tss_error bytes;
  rsa_decrypt : X -> option bytes -> bytes -> AsymSchemeUnion -> option bytes -> ST C tss_error bytes;
  (** conversions of byte strings to the TSS's bounded buffers *)
  auth_try_from : bytes -> result tss_error bytes;
  digest_try_from : bytes -> result tss_error bytes;
  public_key_rsa_try_from : bytes -> result tss_error bytes;
  data_try_from : bytes -> result tss_error bytes;
}.

(** [picky_asn1_x509]'s [RSAPrivateKey], the fields the provider reads. *)
Record RSAPrivateKey := { prv_modulus : bytes; prv_public_exponent : bytes; prime_1 : bytes }.
Class TpmDer := {
  rsa_private_key_from_bytes : bytes -> option RSAPrivateKey;
  from_bytes_be_signed : bytes -> bytes;
}.

Module TpmProvider.
Definition SUPPORTED_OPCODES : list Opcode :=
  [ OpPsaGenerateKey; OpPsaDestroyKey; OpPsaSignHash; OpPsaVerifyHash; OpPsaImportKey;
    OpPsaExportPublicKey; OpPsaAsymmetricDecrypt; OpPsaAsymmetricEncrypt ].

(** ** [utils.rs] *)
Definition PUBLIC_EXPONENT : Z := 65537.
Definition PUBLIC_EXPONENT_BYTES : bytes := ["001"; "000"; "001"]%char.
Definition AUTH_VAL_LEN : nat := 32.

Definition to_response_status (error : tss_error) : ResponseStatus :=
  match error with
  | TssWrapperError _ => PsaErrorCommunicationFailure
  | Tss2Error (Some kind) =>
    match kind with
    | RcSuccess => Success
    | RcSignature => PsaErrorInvalidSignature
    | RcObjectMemory => PsaErrorInsufficientMemory
    | RcSessionMemory => PsaErrorInsufficientMemory
    | RcMemory => PsaErrorInsufficientMemory
    | RcRetry => PsaErrorHardwareFailure
    | RcAsymmetric | RcHash | RcKeySize | RcMgf | RcMode | RcKdf | RcScheme | RcSymmetric
    | RcCurve => PsaErrorNotSupported
    | RcOther _ => PsaErrorCommunicationFailure
    end
  | Tss2Error None => InvalidEncoding
  end.

(** What the key info manager stores. *)
Record PasswordContext (X : Type) := { pc_context : X; auth_value : bytes }.
Arguments pc_context {X}.
Arguments auth_value {X}.
Arguments Build_PasswordContext {X}.

Definition convert_hash_to_tpm (hash : Hash) : Result HashingAlgorithm :=
  match hash with
  | Sha1 => Ok TpmSha1
  | Sha256 => Ok TpmSha256
  | Sha384 => Ok TpmSha384
  | Sha512 => Ok TpmSha512
  | Sha3_256 => Ok TpmSha3_256
  | Sha3_384 => Ok TpmSha3_384
  | Sha3_512 => Ok TpmSha3_512
  | _ => Err PsaErrorNotSupported
  end.

Definition convert_asym_scheme_to_tpm (algorithm : Algorithm) : Result AsymSchemeUnion :=
  match algorithm with
  | Alg_AsymmetricSignature (RsaPkcs1v15Sign (SignHash_Specific hash_alg)) =>
    h ← convert_hash_to_tpm hash_alg; Ok (RSASSA h)
  | Alg_AsymmetricSignature (Ecdsa (SignHash_Specific hash_alg)) =>
    h ← convert_hash_to_tpm hash_alg; Ok (TpmECDSA h)
  | Alg_AsymmetricEncryption RsaPkcs1v15Crypt => Ok RSAES
  | Alg_AsymmetricEncryption (RsaOaep hash_alg) =>
    h ← convert_hash_to_tpm hash_alg; Ok (RSAOAEP h)
  | _ => Err PsaErrorNotSupported
  end.

Definition convert_curve_to_tpm (key_attributes : Attributes) : Result EccCurve :=
  match key_type key_attributes with
  | EccKeyPair SecpR1 | EccPublicKey SecpR1 =>
    match bits key_attributes with
    | 192%Z => Ok NistP192
    | 224%Z => Ok NistP224
    | 256%Z => Ok NistP256
    | 384%Z => Ok NistP384
    | 521%Z => Ok NistP521
    | _ => Err PsaErrorNotSupported
    end
  | _ => Err PsaErrorNotSupported
  end.

Section Conversions.
Context {X C : Type} `{Tss X C} `{Der} `{TpmDer}.

Definition parsec_to_tpm_params (attributes : Attributes) : Result KeyParams :=
  match key_type attributes with
  | RsaKeyPair =>
    size ← (match bits attributes with
            | (1024 | 2048 | 3072 | 4096)%Z => Ok (bits attributes)
            | _ => Err PsaErrorInvalidArgument
            end);
    match permitted_algorithms (policy attributes) with
    | Alg_AsymmetricSignature alg =>
      if is_rsa_alg alg then
        scheme ← convert_asym_scheme_to_tpm (permitted_algorithms (policy attributes));
        Ok (RsaSign size scheme 0)
      else Err PsaErrorInvalidArgument
    | Alg_AsymmetricEncryption _ => Ok (RsaEncrypt size 0)
    | _ => Err PsaErrorInvalidArgument
    end
  | EccKeyPair _ =>
    scheme ← convert_asym_scheme_to_tpm (permitted_algorithms (policy attributes));
    curve ← convert_curve_to_tpm attributes;
    Ok (EccParams scheme curve)
  | _ => Err PsaErrorNotSupported
  end.

Definition elliptic_curve_point_to_octet_string (x y : bytes) : bytes := "004"%char :: x ++ y.

(** [bits / 8], as a length. *)
Definition p_byte_size (key_attributes : Attributes) : nat := Z.to_nat (bits key_attributes / 8).

Definition pub_key_to_bytes (pub_key : TssPublicKey) (key_attributes : Attributes) : Result bytes :=
  match pub_key with
  | RsaPub key =>
    ok_or (rsa_public_key_to_vec {| modulus := from_bytes_be_unsigned key;
                                    public_exponent := from_bytes_be_signed PUBLIC_EXPONENT_BYTES |})
      PsaErrorGenericError
  | EccPub x y =>
    if negb (length x =? p_byte_size key_attributes) || negb (length y =? p_byte_size key_attributes)
    then Err PsaErrorCommunicationFailure
    else Ok (elliptic_curve_point_to_octet_string x y)
  end.

Definition signature_data_to_bytes (data : SignatureData) (key_attributes : Attributes)
    : Result bytes :=
  match data with
  | RsaSignature signature => Ok signature
  | EcdsaSignature r s =>
    if negb (length r =? p_byte_size key_attributes) || negb (length s =? p_byte_size key_attributes)
    then Err PsaErrorGenericError
    else Ok (r ++ s)
  end.

Definition bytes_to_signature_data (data : bytes) (key_attributes : Attributes)
    : Result SignatureData :=
  match key_type key_attributes with
  | RsaKeyPair | RsaPublicKey => Ok (RsaSignature data)
  | EccKeyPair _ | EccPublicKey _ =>
    let p_size := p_byte_size key_attributes in
    if negb (length data =? p_size * 2) then Err PsaErrorInvalidArgument
    else Ok (EcdsaSignature (take p_size data) (drop p_size data))
  | _ => Err PsaErrorNotSupported
  end.

Definition parsec_to_tpm_signature (data : bytes) (key_attributes : Attributes)
    (signature_alg : AsymmetricSignature) : Result Signature :=
  scheme ← convert_asym_scheme_to_tpm (Alg_AsymmetricSignature signature_alg);
  signature ← bytes_to_signature_data data key_attributes;
  Ok {| scheme := scheme; signature := signature |}.

Definition validate_public_key (public_key : RSAPublicKey) (attributes : Attributes) : Result unit :=
  if is_negative (modulus public_key) || is_negative (public_exponent public_key) then
    Err PsaErrorInvalidArgument
  else if negb (bool_decide (as_unsigned_bytes_be (public_exponent public_key) = PUBLIC_EXPONENT_BYTES))
  then Err PsaErrorNotSupported
  else
    let len := Z.of_nat (length (as_unsigned_bytes_be (modulus public_key))) in
    let key_bits := bits attributes in
    if (negb (key_bits =? 0) && negb (len * 8 =? key_bits))%Z then Err PsaErrorInvalidArgument
    else if negb (bool_decide (u16_wrap (len * 8) ∈ RSA_KEY_SIZES)) then Err PsaErrorNotSupported
    else Ok tt.

Definition validate_private_key (private_key : RSAPrivateKey) (attributes : Attributes)
    : Result unit :=
  if negb (bool_decide
       (as_unsigned_bytes_be (prv_public_exponent private_key) = PUBLIC_EXPONENT_BYTES))
  then Err PsaErrorInvalidArgument
  else
    let key_prime_len_bits :=
      (Z.of_nat (length (as_unsigned_bytes_be (prime_1 private_key))) * 8)%Z in
    if negb (key_prime_len_bits =? bits attributes / 2)%Z then Err PsaErrorInvalidArgument
    else Ok tt.
End Conversions.

(** ** The provider *)
Record Provider := { key_info_store : KeyInfoManagerClient }.

Section Provider.
Context {K X C : Type} `{ManageKeyInfo K} `{Tss X C} `{Der} `{TpmDer} `{Validate} `{KeyApi}.
Context `{Bincode (PasswordContext X)}.
Implicit Types (self : Provider) (app_name : ApplicationName).
Abbreviation M A := (ST (pstate K C) ResponseStatus A).

(** A call of the TSS followed by [map_err(to_response_status)?]. *)
Definition tss {A} (m : ST C tss_error A) : M A := on_err to_response_status (on_dev m).
Definition tss_value {A} (r : result tss_error A) : M A := lift (map_err to_response_status r).

Definition triple app_name (key_name : string) : KeyTriple := KeyTriple_new app_name Tpm key_name.
Definition get_key self (key_triple : KeyTriple) : M (PasswordContext X) :=
  on_kim (get_key_id (PasswordContext X) (key_info_store self) key_triple).

Definition psa_generate_key_internal self app_name (op : GenerateKeyOp) : M unit :=
  let attributes := gk_attributes op in
  let key_triple := triple app_name (gk_key_name op) in
  on_kim (does_not_exist (key_info_store self) key_triple) ;;
  if is_public_key (key_type attributes) then raise PsaErrorInvalidArgument
  else
    params ← lift (parsec_to_tpm_params attributes);
    '(key_context, auth_value) ← tss (create_key params AUTH_VAL_LEN);
    match auth_value with
    | None => panic
    | Some auth_value =>
      on_kim (insert_key_info (key_info_store self) key_triple
        (Build_PasswordContext key_context auth_value) attributes)
    end.

(** The only policy whose keys can be imported. *)
Definition importable_algorithm : Algorithm :=
  Alg_AsymmetricSignature (RsaPkcs1v15Sign (SignHash_Specific Sha256)).

Definition psa_import_key_internal_rsa_public self app_name (op : ImportKeyOp) : M unit :=
  if negb (bool_decide (permitted_algorithms (policy (ik_attributes op)) = importable_algorithm))
  then raise PsaErrorNotSupported
  else
    let attributes := ik_attributes op in
    let key_triple := triple app_name (ik_key_name op) in
    on_kim (does_not_exist (key_info_store self) key_triple) ;;
    public_key ← lift (ok_or (rsa_public_key_from_bytes (ik_data op)) PsaErrorInvalidArgument);
    lift (validate_public_key public_key attributes) ;;
    let key_data := as_unsigned_bytes_be (modulus public_key) in
    pub_key_context ← tss (load_external_rsa_public_key key_data);
    on_kim (insert_key_info (key_info_store self) key_triple
      (Build_PasswordContext pub_key_context []) attributes).

Definition psa_import_key_internal_rsa_keypair self app_name (op : ImportKeyOp) : M unit :=
  if negb (bool_decide (permitted_algorithms (policy (ik_attributes op)) = importable_algorithm))
  then raise PsaErrorNotSupported
  else
    let attributes := ik_attributes op in
    let key_triple := triple app_name (ik_key_name op) in
    on_kim (does_not_exist (key_info_store self) key_triple) ;;
    private_key ← lift (ok_or (rsa_private_key_from_bytes (ik_data op)) PsaErrorInvalidArgument);
    let public_key := {| modulus := prv_modulus private_key;
                         public_exponent := prv_public_exponent private_key |} in
    lift (validate_public_key public_key attributes) ;;
    lift (validate_private_key private_key attributes) ;;
    let key_prime := as_unsigned_bytes_be (prime_1 private_key) in
    let public_modulus := as_unsigned_bytes_be (prv_modulus private_key) in
    keypair_context ← tss (load_external_rsa key_prime public_modulus PUBLIC_EXPONENT);
    on_kim (insert_key_info (key_info_store self) key_triple
      (Build_PasswordContext keypair_context []) attributes).

Definition psa_import_key_internal self app_name (op : ImportKeyOp) : M unit :=
  match key_type (ik_attributes op) with
  | RsaPublicKey => psa_import_key_internal_rsa_public self app_name op
  | RsaKeyPair => psa_import_key_internal_rsa_keypair self app_name op
  | _ => raise PsaErrorNotSupported
  end.

Definition psa_export_public_key_internal self app_name (key_name : string) : M bytes :=
  let key_triple := triple app_name key_name in
  password_context ← get_key self key_triple;
  key_attributes ← on_kim (get_key_attributes (key_info_store self) key_triple);
  pub_key_data ← tss (read_public_key (pc_context password_context));
  lift (pub_key_to_bytes pub_key_data key_attributes).

Definition psa_destroy_key_internal self app_name (key_name : string) : M unit :=
  on_kim (remove_key_info (key_info_store self) (triple app_name key_name)).

(** The algorithms [psa_sign_hash] and [psa_verify_hash] go on with. *)
Definition tpm_signature_alg (alg : AsymmetricSignature) : Result unit :=
  match alg with
  | RsaPkcs1v15Sign _ => Ok tt
  | Ecdsa _ => Ok tt
  | _ => Err PsaErrorNotSupported
  end.

Definition psa_sign_hash_internal self app_name (op : SignHashOp) : M bytes :=
  let key_triple := triple app_name (sh_key_name op) in
  password_context ← get_key self key_triple;
  key_attributes ← on_kim (get_key_attributes (key_info_store self) key_triple);
  lift (tpm_signature_alg (sh_alg op)) ;;
  lift (validate_sign_hash op key_attributes) ;;
  auth ← tss_value (auth_try_from (auth_value password_context));
  digest ← tss_value (digest_try_from (sh_hash op));
  sig ← tss (tss_sign (pc_context password_context) (Some auth) digest);
  lift (signature_data_to_bytes (signature sig) key_attributes).

Definition psa_verify_hash_internal self app_name (op : VerifyHashOp) : M unit :=
  let key_triple := triple app_name (vh_key_name op) in
  password_context ← get_key self key_triple;
  key_attributes ← on_kim (get_key_attributes (key_info_store self) key_triple);
  lift (tpm_signature_alg (vh_alg op)) ;;
  lift (validate_verify_hash op key_attributes) ;;
  sig ← lift (parsec_to_tpm_signature (vh_signature op) key_attributes (vh_alg op));
  digest ← tss_value (digest_try_from (vh_hash op));
  tss (tss_verify_signature (pc_context password_context) digest sig).

(** An optional salt as a TSS buffer. *)
Definition salt_try_from (salt : option bytes) : M (option bytes) :=
  match salt with
  | Some salt => data ← tss_value (data_try_from salt); mret (Some data)
  | None => mret None
  end.

Definition psa_asymmetric_encrypt_internal self app_name (op : AsymEncryptOp) : M bytes :=
  let key_triple := triple app_name (ae_key_name op) in
  password_context ← get_key self key_triple;
  key_attributes ← on_kim (get_key_attributes (key_info_store self) key_triple);
  lift (validate_asym_encrypt op key_attributes) ;;
  auth ← tss_value (auth_try_from (auth_value password_context));
  message ← tss_value (public_key_rsa_try_from (ae_plaintext op));
  scheme ← lift (convert_asym_scheme_to_tpm (Alg_AsymmetricEncryption (ae_alg op)));
  label ← salt_try_from (ae_salt op);
  tss (rsa_encrypt (pc_context password_context) (Some auth) message scheme label).

Definition psa_asymmetric_decrypt_internal self app_name (op : AsymDecryptOp) : M bytes :=
  let key_triple := triple app_name (ad_key_name op) in
  password_context ← get_key self key_triple;
  key_attributes ← on_kim (get_key_attributes (key_info_store self) key_triple);
  lift (validate_asym_decrypt op key_attributes) ;;
  auth ← tss_value (auth_try_from (auth_value password_context));
  message ← tss_value (public_key_rsa_try_from (ad_ciphertext op));
  scheme ← lift (convert_asym_scheme_to_tpm (Alg_AsymmetricEncryption (ad_alg op)));
  label ← salt_try_from (ad_salt op);
  tss (rsa_decrypt (pc_context password_context) (Some auth) message scheme label).

(** ** The trait *)
Definition describe (parse_uuid : string -> option string)
    : Result (ProviderInfo * gset Opcode) :=
  uuid ← ok_or (parse_uuid "1e4954a4-ff21-46d3-ab0c-661eeb667e1d") InvalidEncoding;
  Ok ({| pi_uuid := uuid;
         pi_description := "TPM provider, interfacing with a library implementing the TCG TSS 2.0 Enhanced System API specification.";
         pi_vendor := "Trusted Computing Group (TCG)"; pi_version_maj := 0; pi_version_min := 1;
         pi_version_rev := 0; pi_id := Tpm |}, list_to_set SUPPORTED_OPCODES).

Definition list_keys self app_name : M (list ListedKey) :=
  on_kim (KeyInfo.list_keys (key_info_store self) app_name).

Definition list_clients self : M (list string) :=
  clients ← on_kim (KeyInfo.list_clients (key_info_store self));
  mret (app_name_string <$> clients).

Definition provide (parse_uuid : string -> option string) self : Provide (pstate K C) := {|
  prov_describe := describe parse_uuid;
  prov_list_providers := DefaultMethods.list_providers;
  prov_list_opcodes := DefaultMethods.list_opcodes;
  prov_list_authenticators := DefaultMethods.list_authenticators;
  prov_list_keys := list_keys self;
  prov_list_clients := list_clients self;
  prov_delete_client := DefaultMethods.delete_client;
  prov_ping := DefaultMethods.ping;
  prov_psa_generate_key := psa_generate_key_internal self;
  prov_psa_import_key := psa_import_key_internal self;
  prov_psa_export_public_key := psa_export_public_key_internal self;
  prov_psa_export_key := DefaultMethods.psa_export_key;
  prov_psa_destroy_key := psa_destroy_key_internal self;
  prov_psa_sign_hash := psa_sign_hash_internal self;
  prov_psa_verify_hash := psa_verify_hash_internal self;
  prov_psa_asymmetric_encrypt := psa_asymmetric_encrypt_internal self;
  prov_psa_asymmetric_decrypt := psa_asymmetric_decrypt_internal self;
  prov_psa_aead_encrypt := DefaultMethods.psa_aead_encrypt;
  prov_psa_aead_decrypt := DefaultMethods.psa_aead_decrypt;
  prov_psa_hash_compute := DefaultMethods.psa_hash_compute;
  prov_psa_hash_compare := DefaultMethods.psa_hash_compare;
  prov_psa_raw_key_agreement := DefaultMethods.psa_raw_key_agreement;
  prov_psa_generate_random := DefaultMethods.psa_generate_random;
  prov_psa_sign_message := DefaultMethods.psa_sign_message;
  prov_psa_verify_message := DefaultMethods.psa_verify_message;
|}.
End Provider.

(** ** The builder *)
Definition ROOT_KEY_SIZE : Z := 2048.
Definition ROOT_KEY_AUTH_SIZE : Z := 32.
Definition AUTH_STRING_PREFIX : string := "str:".
Definition AUTH_HEX_PREFIX : string := "hex:".

Record ProviderBuilder := { b_key_info_store : option KeyInfoManagerClient;
  b_tcti : option string; b_owner_hierarchy_auth : option string }.
Definition ProviderBuilder_new : ProviderBuilder :=
  {| b_key_info_store := None; b_tcti := None; b_owner_hierarchy_auth := None |}.
Definition with_key_info_store (key_info_store : KeyInfoManagerClient) (b : ProviderBuilder)
    : ProviderBuilder :=
  {| b_key_info_store := Some key_info_store; b_tcti := b_tcti b;
     b_owner_hierarchy_auth := b_owner_hierarchy_auth b |}.
Definition with_tcti (tcti : string) (b : ProviderBuilder) : ProviderBuilder :=
  {| b_key_info_store := b_key_info_store b; b_tcti := Some tcti;
     b_owner_hierarchy_auth := b_owner_hierarchy_auth b |}.
Definition with_owner_hierarchy_auth (owner_hierarchy_auth : string) (b : ProviderBuilder)
    : ProviderBuilder :=
  {| b_key_info_store := b_key_info_store b; b_tcti := b_tcti b;
     b_owner_hierarchy_auth := Some owner_hierarchy_auth |}.

(** The arguments of [TransientKeyContextBuilder] that the source varies or fixes:
    TCTI, root key size, root key auth size, hierarchy auth, default cipher; the
    hierarchy is the owner's and the session hash is SHA-256. *)
Record TransientSettings (T : Type) := { ts_tcti : T; ts_root_key_size : Z;
  ts_root_key_auth_size : Z; ts_hierarchy_auth : bytes; ts_default_cipher : TpmCipher }.
Arguments Build_TransientSettings {T}.

(** [Tcti::from_str], [hex::decode], the probing context and the context builder. *)
Class TssSetup (T C : Type) := {
  tcti_from_str : string -> option T;
  hex_decode_str : string -> option bytes;
  probe_context_new : T -> ST C tss_error unit;
  probe_test_parms : TpmCipher -> ST C tss_error unit;
  probe_context_drop : C -> C;
  transient_context_build : TransientSettings T -> ST C tss_error unit;
}.

Section Builder.
Context {K T C : Type} `{TssSetup T C}.

(** [get_hierarchy_auth]: [split_off] keeps what follows the first four bytes. *)
Definition get_hierarchy_auth (owner_hierarchy_auth : option string) : result string bytes :=
  match owner_hierarchy_auth with
  | None => Err "missing owner hierarchy auth"%string
  | Some auth =>
    if String.prefix AUTH_STRING_PREFIX auth then
      Ok (drop (length (as_bytes AUTH_STRING_PREFIX)) (as_bytes auth))
    else if String.prefix AUTH_HEX_PREFIX auth then
      ok_or (hex_decode_str
               (string_of_bytes (drop (length (as_bytes AUTH_STRING_PREFIX)) (as_bytes auth))))
        "invalid hex owner hierarchy auth"%string
    else Ok (as_bytes auth)
  end.

(** The loop over the candidate ciphers. *)
Fixpoint first_cipher (ciphers : list TpmCipher) : ST C string TpmCipher :=
  match ciphers with
  | [] => raise "desired ciphers not supported"%string
  | cipher :: rest =>
    r ← attempt (probe_test_parms cipher);
    if is_ok r then mret cipher else first_cipher rest
  end.

Definition parse_tcti (tcti : option string) : result string T :=
  tcti ← ok_or tcti "TCTI configuration missing"%string;
  ok_or (tcti_from_str tcti) "Invalid TCTI configuration string"%string.

(** The probing context goes out of scope. *)
Definition with_probe {A} (m : ST C string A) : ST C string A :=
  fun c => let '(r, c') := m c in (r, probe_context_drop c').

Definition find_default_context_cipher (tcti : option string) : ST C string TpmCipher :=
  tcti ← lift (parse_tcti tcti);
  on_err (fun _ => "failed initializing TSS context"%string) (probe_context_new tcti) ;;
  with_probe (first_cipher [aes_256_cfb; aes_128_cfb]).

(** [Provider::new]; the context behind the mutex is the state of the device. *)
Definition new (key_info_store : KeyInfoManagerClient) : Provider :=
  {| key_info_store := key_info_store |}.

Definition build (b : ProviderBuilder) : ST (pstate K C) string Provider :=
  hierarchy_auth ← lift (get_hierarchy_auth (b_owner_hierarchy_auth b));
  default_cipher ← on_dev (find_default_context_cipher (b_tcti b));
  tcti ← lift (parse_tcti (b_tcti b));
  key_info_store ← lift (ok_or (b_key_info_store b) "missing key info store"%string);
  on_err (fun _ => "failed initializing TSS context"%string)
    (on_dev (transient_context_build
       {| ts_tcti := tcti; ts_root_key_size := ROOT_KEY_SIZE;
          ts_root_key_auth_size := ROOT_KEY_AUTH_SIZE; ts_hierarchy_auth := hierarchy_auth;
          ts_default_cipher := default_cipher |})) ;;
  mret (new key_info_store).
End Builder.
End TpmProvider.
