(* ===== verification/TpmSpec.v ===== *)
(** * Correctness of the TPM provider

    Proved for any TSS whose calls return ([TssLaws]) and any key info manager. *)
From S2P Require Import Prelude RustStd Interface Authenticators Fs KeyInfo OnDisk Concrete Provide.
From S2P Require Import CoreProvider ProviderState Mbed MbedSpec Scenario CryptoAuthLib.
From S2P Require Import CryptoAuthLibSpec Pkcs11 Pkcs11Spec Pkcs11Scenario Tpm.
Import TpmProvider.

(** ** Conversions *)
Section Conversions.
Context {X C : Type} `{Tss X C} `{Der} `{TpmDer}.

(** The signature is of the kind the key makes. *)
Definition signature_kind (attrs : Attributes) (d : SignatureData) : Prop :=
  match d, key_type attrs with
  | RsaSignature _, (RsaKeyPair | RsaPublicKey) => True
  | EcdsaSignature _ _, (EccKeyPair _ | EccPublicKey _) => True
  | _, _ => False
  end.

(** C34: A signature made by the TPM reaches the TPM again as the same numbers when it
    is verified, and the bytes of a signature that is accepted for verification
    are the bytes that signing would have given. *)
Theorem tpm_signature_roundtrip attrs d b :
  signature_kind attrs d ->
  signature_data_to_bytes d attrs = Ok b <-> bytes_to_signature_data b attrs = Ok d.
Proof.
  intros Hk. unfold signature_kind in Hk. unfold signature_data_to_bytes, bytes_to_signature_data.
  destruct d as [sg|r s]; destruct (key_type attrs); try done; try (split; intros [= ->]; done).
  all: destruct (Nat.eqb_spec (length b) (p_byte_size attrs * 2)) as [Hb|Hb]; simpl;
    destruct (Nat.eqb_spec (length r) (p_byte_size attrs)) as [Hr|Hr]; simpl;
    destruct (Nat.eqb_spec (length s) (p_byte_size attrs)) as [Hs|Hs]; simpl; split; try done.
  all: try (intros [= <-]; rewrite take_app_length', drop_app_length' by done; done).
  all: try (intros [= <-]; rewrite length_app in Hb; lia).
  all: try (intros [= <- <-]; rewrite ?length_take, ?length_drop in *; lia).
  all: intros [= <- <-]; by rewrite take_drop.
Qed.

(** P-521 keys are accepted for generation, but nothing can be done with them: a
    coordinate of this curve takes 66 bytes and the provider expects 65, so
    exporting the public key, signing and verifying all fail. *)
Theorem tpm_p521_unusable attrs h hash :
  key_type attrs = EccKeyPair SecpR1 -> bits attrs = 521%Z ->
  permitted_algorithms (policy attrs) = Alg_AsymmetricSignature (Ecdsa (SignHash_Specific h)) ->
  convert_hash_to_tpm h = Ok hash ->
  parsec_to_tpm_params attrs = Ok (EccParams (TpmECDSA hash) NistP521) /\
  forall x y, length x = 66 -> length y = 66 ->
    pub_key_to_bytes (EccPub x y) attrs = Err PsaErrorCommunicationFailure /\
    signature_data_to_bytes (EcdsaSignature x y) attrs = Err PsaErrorGenericError /\
    bytes_to_signature_data (x ++ y) attrs = Err PsaErrorInvalidArgument.
Proof.
  intros Ht Hb Ha Hh. split.
  - unfold parsec_to_tpm_params, convert_curve_to_tpm. rewrite Ht, Ha, Hb. simpl. by rewrite Hh.
  - intros x y Hx Hy. assert (Hp : p_byte_size attrs = 65) by (unfold p_byte_size; by rewrite Hb).
    unfold pub_key_to_bytes, signature_data_to_bytes, bytes_to_signature_data.
    by rewrite Ht, Hp, length_app, Hx, Hy.
Qed.

(** The length of a modulus in bits. *)
Definition modulus_bits (k : RSAPublicKey) : Z :=
  (Z.of_nat (length (as_unsigned_bytes_be (modulus k))) * 8)%Z.

Lemma validate_public_key_Ok k attrs :
  validate_public_key k attrs = Ok tt <->
  is_negative (modulus k) = false /\ is_negative (public_exponent k) = false /\
  as_unsigned_bytes_be (public_exponent k) = PUBLIC_EXPONENT_BYTES /\
  (bits attrs = 0%Z \/ bits attrs = modulus_bits k) /\ u16_wrap (modulus_bits k) ∈ RSA_KEY_SIZES.
Proof.
  unfold validate_public_key. fold (modulus_bits k).
  destruct (is_negative (modulus k)), (is_negative (public_exponent k)); simpl;
    try (split; [done|naive_solver]).
  destruct (decide (as_unsigned_bytes_be (public_exponent k) = PUBLIC_EXPONENT_BYTES)) as [He|He];
    [rewrite bool_decide_eq_true_2 by done|rewrite bool_decide_eq_false_2 by done; split; [done|naive_solver]].
  simpl. destruct (Z.eqb_spec (bits attrs) 0), (Z.eqb_spec (modulus_bits k) (bits attrs)); simpl;
    try (split; [done|naive_solver]);
    (destruct (decide (u16_wrap (modulus_bits k) ∈ RSA_KEY_SIZES));
      [rewrite bool_decide_eq_true_2 by done|rewrite bool_decide_eq_false_2 by done]); simpl; naive_solver.
Qed.

(** C35: Which RSA keys the provider takes.  A public key with the usual exponent is
    taken if its size is one of the TPM's, and the attributes give that size or
    none; but sizes are compared modulo 2^16, so a key that is 2^16 bits longer
    than an accepted one is taken as well.  A key pair is refused whenever the
    attributes give no size, unless its prime is empty. *)
Theorem tpm_key_validation k attrs :
  (validate_public_key k attrs = Ok tt <->
   is_negative (modulus k) = false /\ is_negative (public_exponent k) = false /\
   as_unsigned_bytes_be (public_exponent k) = PUBLIC_EXPONENT_BYTES /\
   (bits attrs = 0%Z \/ bits attrs = modulus_bits k) /\ u16_wrap (modulus_bits k) ∈ RSA_KEY_SIZES) /\
  ((modulus_bits k < 2 ^ 16)%Z -> validate_public_key k attrs = Ok tt ->
   modulus_bits k ∈ RSA_KEY_SIZES) /\
  (forall k', validate_public_key k attrs = Ok tt -> bits attrs = 0%Z ->
   modulus_bits k' = (modulus_bits k + 2 ^ 16)%Z -> is_negative (modulus k') = false ->
   public_exponent k' = public_exponent k -> validate_public_key k' attrs = Ok tt) /\
  (forall priv, bits attrs = 0%Z -> as_unsigned_bytes_be (prime_1 priv) <> [] ->
   validate_private_key priv attrs = Err PsaErrorInvalidArgument).
Proof.
  split_and!; [apply validate_public_key_Ok| | |].
  - intros Hlt (_ & _ & _ & _ & Hin)%validate_public_key_Ok.
    unfold u16_wrap in Hin. rewrite Z.mod_small in Hin; [done|]. unfold modulus_bits in *. lia.
  - intros k' (_ & He & Hx & _ & Hin)%validate_public_key_Ok Hb Hk' Hn' He'.
    apply validate_public_key_Ok. rewrite He', Hk'. split_and!; auto.
    unfold u16_wrap in *. replace (modulus_bits k + 2 ^ 16)%Z with (modulus_bits k + 1 * 2 ^ 16)%Z by lia.
    by rewrite Z_mod_plus_full.
  - intros priv Hb Hne. unfold validate_private_key. destruct (negb _); [done|]. rewrite Hb.
    destruct (as_unsigned_bytes_be (prime_1 priv)) as [|x l]; [done|].
    change (0 / 2)%Z with 0%Z. cbn [length].
    destruct (Z.eqb_spec (Z.of_nat (S (length l)) * 8) 0); [lia|done].
Qed.
End Conversions.

(** ** The provider *)
Class TssLaws (X C : Type) `{Tss X C} : Prop := {
  tss_create_key p n c : (create_key p n c).1 <> Panic;
  (** a length that is not 0 gives an authorisation value *)
  tss_create_key_auth p n c x o : n <> 0 -> (create_key p n c).1 = Ok (x, o) -> is_Some o;
  tss_load_public d c : (load_external_rsa_public_key d c).1 <> Panic;
  tss_load_pair p m e c : (load_external_rsa p m e c).1 <> Panic;
  tss_read_public x c : (read_public_key x c).1 <> Panic;
  tss_sign_returns x a d c : (tss_sign x a d c).1 <> Panic;
  tss_verify_returns x d g c : (tss_verify_signature x d g c).1 <> Panic;
  tss_encrypt_returns x a m g l c : (rsa_encrypt x a m g l c).1 <> Panic;
  tss_decrypt_returns x a m g l c : (rsa_decrypt x a m g l c).1 <> Panic;
  tss_buffers b : auth_try_from b <> Panic /\ digest_try_from b <> Panic /\
    public_key_rsa_try_from b <> Panic /\ data_try_from b <> Panic;
}.

Section Spec.
Context {K X C : Type} `{KimSpec K} `{TssLaws X C} `{Der} `{TpmDer} `{ValidateLaws} `{KeyApiLaws}.
Context `{BX : Bincode (PasswordContext X)} `{!BincodeLaws (PasswordContext X)}.
Implicit Types (s : pstate K C) (self : Provider).

(** Every key of the provider has a readable context. *)
Definition tpm_ok s : Prop := forall t i,
  mappings s !! t = Some i -> kt_provider_id t = Tpm -> is_Some (id_of (T := PasswordContext X) i).

Definition same_keys s1 s2 : Prop := mappings s1 = mappings s2.
#[export] Instance same_keys_preorder : PreOrder same_keys.
Proof. split; [by intros s|]. unfold same_keys. intros s1 s2 s3. congruence. Qed.

Lemma calm_tss {A} (m : ST C tss_error A) :
  (forall c, (m c).1 <> Panic) -> calm same_keys (tss (K := K) m).
Proof.
  intros Hm. apply calm_on_err. intros s. specialize (Hm (dev s)). unfold on_dev, zoom.
  by destruct (m (dev s)).
Qed.
Lemma calm_value {A} (r : result tss_error A) :
  r <> Panic -> calm same_keys (tss_value (K := K) (C := C) r).
Proof. intros Hr. apply calm_lift; [apply _|]. by destruct r. Qed.

Lemma hash_no_panic h : convert_hash_to_tpm h <> Panic.
Proof. by destruct h. Qed.
Lemma scheme_no_panic a : convert_asym_scheme_to_tpm a <> Panic.
Proof.
  unfold convert_asym_scheme_to_tpm. run_unfold. repeat case_match; simplify_eq; try done;
    match goal with Hh : convert_hash_to_tpm _ = Panic |- _ => by apply hash_no_panic in Hh end.
Qed.
Lemma params_no_panic attrs : parsec_to_tpm_params attrs <> Panic.
Proof.
  unfold parsec_to_tpm_params, convert_curve_to_tpm, mbind, result_bind. pose proof scheme_no_panic as Hs.
  specialize (Hs (permitted_algorithms (policy attrs))).
  destruct (convert_asym_scheme_to_tpm _); [| |done]; by repeat case_match; simplify_eq.
Qed.
Lemma pub_key_no_panic k attrs : pub_key_to_bytes k attrs <> Panic.
Proof. unfold pub_key_to_bytes. destruct k; [by destruct (rsa_public_key_to_vec _)|by case_match]. Qed.
Lemma sig_bytes_no_panic d attrs : signature_data_to_bytes d attrs <> Panic.
Proof. unfold signature_data_to_bytes. destruct d; [done|by case_match]. Qed.
Lemma tpm_sig_no_panic b attrs a : parsec_to_tpm_signature b attrs a <> Panic.
Proof.
  unfold parsec_to_tpm_signature, mbind, result_bind. pose proof (scheme_no_panic (Alg_AsymmetricSignature a)) as Hs.
  destruct (convert_asym_scheme_to_tpm (Alg_AsymmetricSignature a)); [|done|done].
  unfold bytes_to_signature_data. by repeat case_match; simplify_eq.
Qed.
Lemma alg_no_panic a : tpm_signature_alg a <> Panic.
Proof. by destruct a. Qed.
Lemma pub_valid_no_panic k attrs : validate_public_key k attrs <> Panic.
Proof. unfold validate_public_key. by repeat case_match. Qed.
Lemma priv_valid_no_panic k attrs : validate_private_key k attrs <> Panic.
Proof. unfold validate_private_key. by repeat case_match. Qed.
Lemma auth_no_panic b : auth_try_from b <> Panic.
Proof. apply tss_buffers. Qed.
Lemma digest_no_panic b : digest_try_from b <> Panic.
Proof. apply tss_buffers. Qed.
Lemma message_no_panic b : public_key_rsa_try_from b <> Panic.
Proof. apply tss_buffers. Qed.
Lemma data_no_panic b : data_try_from b <> Panic.
Proof. apply tss_buffers. Qed.
#[local] Hint Resolve tss_load_public tss_load_pair tss_read_public tss_sign_returns
  tss_verify_returns tss_encrypt_returns tss_decrypt_returns : parsec.
#[local] Hint Resolve calm_tss calm_value scheme_no_panic params_no_panic pub_key_no_panic
  sig_bytes_no_panic tpm_sig_no_panic alg_no_panic pub_valid_no_panic priv_valid_no_panic
  auth_no_panic digest_no_panic message_no_panic data_no_panic ok_or_no_panic
  encrypt_no_panic decrypt_no_panic sign_hash_no_panic verify_hash_no_panic : parsec.

Definition tpm_reading (op : NativeOperation) : bool :=
  match op with
  | PsaGenerateKey _ | PsaImportKey _ | PsaDestroyKey _ => false
  | _ => true
  end.

Lemma tpm_reading_calm uuid self a op :
  tpm_reading op = true -> calm same_keys (provider_call (provide uuid self) a op).
Proof.
  destruct op; intros Hr; try discriminate Hr; simpl;
    unfold list_keys, list_clients, psa_export_public_key_internal, psa_sign_hash_internal,
      psa_verify_hash_internal, psa_asymmetric_encrypt_internal, psa_asymmetric_decrypt_internal,
      salt_try_from, get_key; calm_auto; try (apply _ || done); auto with parsec.
Qed.

(** ** Isolation and the invariant *)
Lemma tpm_keeps_to uuid self : keeps_to mappings Tpm (provide (K := K) uuid self).
Proof.
  intros a op s. set (P := own Tpm (touches a op)). revert s.
  change (steps (keeps mappings P) (provider_call (provide uuid self) a op)). unfold P.
  destruct op; simpl; unfold list_keys, list_clients, psa_generate_key_internal,
    psa_import_key_internal, psa_import_key_internal_rsa_public, psa_import_key_internal_rsa_keypair,
    psa_export_public_key_internal, psa_destroy_key_internal, psa_sign_hash_internal,
    psa_verify_hash_internal, psa_asymmetric_encrypt_internal, psa_asymmetric_decrypt_internal,
    salt_try_from, get_key, tss, tss_value; steps_auto.
Qed.
Lemma tpm_well_behaved uuid self : well_behaved mappings (provide (K := K) uuid self).
Proof. eapply keeps_to_well_behaved, tpm_keeps_to. Qed.

Lemma tpm_insert_safe c t pc attrs :
  safe_in tpm_ok (on_kim (D := C) (insert_key_info (T := PasswordContext X) c t pc attrs)).
Proof.
  intros s Hs. unfold on_kim, zoom. destruct (bincode_serialize pc) as [b|] eqn:Hb.
  - destruct (insert_key_info_cases c t pc attrs (kim s) b Hb) as (k' & [[-> Hv]|[-> Hv]]); simpl.
    + split; [|done]. intros t' i. unfold mappings. simpl. rewrite Hv. apply Hs.
    + split; [|by destruct (kim_view (kim s) !! t)]. intros t' i. unfold mappings. simpl. rewrite Hv.
      intros [[<- <-]|[_ Ht']]%lookup_insert_Some Hp; [|by eapply Hs].
      exists pc. by apply bincode_round.
  - unfold insert_key_info. run_unfold. by rewrite Hb.
Qed.

Lemma calm_tpm {A} (m : ST (pstate K C) ResponseStatus A) : calm same_keys m -> safe_in tpm_ok m.
Proof.
  apply calm_safe. intros s s' Hs Hv t i. unfold same_keys in Hv. rewrite Hv. apply Hs.
Qed.
#[local] Hint Resolve tpm_insert_safe : parsec.

Lemma create_safe params (k : X -> bytes -> ST (pstate K C) ResponseStatus unit) :
  (forall x a, safe_in tpm_ok (k x a)) ->
  safe_in tpm_ok ('(key_context, auth_value) ← tss (create_key params AUTH_VAL_LEN);
    match auth_value with None => panic | Some auth_value => k key_context auth_value end).
Proof.
  intros Hk s Hs. unfold mbind, ST_bind, tss, on_err, on_dev, zoom.
  pose proof (tss_create_key params AUTH_VAL_LEN (dev s)) as Hp.
  pose proof (tss_create_key_auth params AUTH_VAL_LEN (dev s)) as Ha.
  destruct (create_key params AUTH_VAL_LEN (dev s)) as [[[x o]|e|] c']; simpl in *; [|done|done].
  destruct (Ha x o) as [auth ->]; [done|done|]. by apply Hk.
Qed.

Lemma tpm_safe uuid self : safe tpm_ok (provide uuid self).
Proof.
  intros a op. destruct (tpm_reading op) eqn:Hr; [by apply calm_tpm, tpm_reading_calm|].
  assert (Hlift : forall A (r : Result A), r <> Panic -> safe_in tpm_ok (lift (S := pstate K C) r))
    by (intros A r Hp; by apply safe_lift).
  assert (Hdne : forall c t, safe_in tpm_ok (on_kim (D := C) (does_not_exist c t)))
    by (intros c t; apply calm_tpm; auto with parsec typeclass_instances).
  destruct op; try discriminate Hr; simpl; apply safe_bind_ret.
  - unfold psa_generate_key_internal. apply safe_bind; [done|intros _].
    destruct (is_public_key _); [apply safe_raise|]. apply safe_bind; [auto with parsec|intros params].
    apply create_safe. intros x auth. auto with parsec.
  - unfold psa_import_key_internal. destruct (key_type _); try apply safe_raise.
    + unfold psa_import_key_internal_rsa_keypair. destruct (negb _); [apply safe_raise|].
      apply safe_bind; [done|intros _]. apply safe_bind; [auto with parsec|intros k].
      apply safe_bind; [auto with parsec|intros _]. apply safe_bind; [auto with parsec|intros _].
      apply safe_bind; [apply calm_tpm; auto with parsec|intros x]. auto with parsec.
    + unfold psa_import_key_internal_rsa_public. destruct (negb _); [apply safe_raise|].
      apply safe_bind; [done|intros _]. apply safe_bind; [auto with parsec|intros k].
      apply safe_bind; [auto with parsec|intros _].
      apply safe_bind; [apply calm_tpm; auto with parsec|intros x]. auto with parsec.
  - intros s Hs. unfold psa_destroy_key_internal, on_kim, zoom.
    destruct (remove_key_info_cases (key_info_store self) (triple a key_name) (kim s))
      as (k' & [[-> Hv]|[-> Hv]]); simpl.
    + split; [|done]. intros t' i. unfold mappings. simpl. rewrite Hv. apply Hs.
    + split; [|by destruct (kim_view (kim s) !! _)]. intros t' i. unfold mappings. simpl. rewrite Hv.
      intros [_ Ht']%lookup_delete_Some. by apply Hs.
Qed.

(** The TPM provider does not panic and the context of every key it has stored
    can be read back, whatever fails underneath. *)
Theorem tpm_invariant uuid self a op s res s' :
  tpm_ok s -> provider_call (provide uuid self) a op s = (res, s') -> tpm_ok s' /\ res <> Panic.
Proof. intros Hs Hcall. pose proof (tpm_safe uuid self a op s Hs) as Hr. by rewrite Hcall in Hr. Qed.

(** ** A generated key is the one that is used *)

(** Signing, verifying and exporting with a key context in hand. *)
Definition sign_with (pc : PasswordContext X) (attrs : Attributes) (op : SignHashOp)
    : ST (pstate K C) ResponseStatus bytes :=
  lift (tpm_signature_alg (sh_alg op)) ;;
  lift (validate_sign_hash op attrs) ;;
  auth ← tss_value (auth_try_from (auth_value pc));
  digest ← tss_value (digest_try_from (sh_hash op));
  sig ← tss (tss_sign (pc_context pc) (Some auth) digest);
  lift (signature_data_to_bytes (signature sig) attrs).
Definition verify_with (pc : PasswordContext X) (attrs : Attributes) (op : VerifyHashOp)
    : ST (pstate K C) ResponseStatus unit :=
  lift (tpm_signature_alg (vh_alg op)) ;;
  lift (validate_verify_hash op attrs) ;;
  sig ← lift (parsec_to_tpm_signature (vh_signature op) attrs (vh_alg op));
  digest ← tss_value (digest_try_from (vh_hash op));
  tss (tss_verify_signature (pc_context pc) digest sig).
Definition export_with (pc : PasswordContext X) (attrs : Attributes)
    : ST (pstate K C) ResponseStatus bytes :=
  k ← tss (read_public_key (pc_context pc));
  lift (pub_key_to_bytes k attrs).

(** The code behind the two lookups runs with what they find. *)
Lemma with_key {A} self t pc b attrs (k : PasswordContext X -> Attributes -> ST (pstate K C) ResponseStatus A) s :
  mappings s !! t = Some {| ki_id := b; ki_attributes := attrs |} ->
  bincode_deserialize b = Some pc ->
  (password_context ← get_key self t;
   key_attributes ← on_kim (get_key_attributes (key_info_store self) t);
   k password_context key_attributes) s = k pc attrs s.
Proof.
  intros Ht Hb. unfold get_key, on_kim. unfold mbind, ST_bind, zoom.
  rewrite get_key_id_run, pstate_eta. change (kim_view (kim s)) with (mappings s). rewrite Ht. simpl.
  rewrite Hb. simpl. rewrite get_key_attributes_run, pstate_eta.
  change (kim_view (kim s)) with (mappings s). by rewrite Ht.
Qed.

(** C14: After a key is generated, signing, verifying and exporting under its name are
    what they are for the context and the authorisation value that the TPM returned
    when it created the key, with the attributes the client asked for. *)
Theorem tpm_generated_key_used self a op s s1 :
  psa_generate_key_internal self a op s = (Ok tt, s1) ->
  exists params pc,
    parsec_to_tpm_params (gk_attributes op) = Ok params /\
    create_key params AUTH_VAL_LEN (dev s) = (Ok (pc_context pc, Some (auth_value pc)), dev s1) /\
    (forall sop, sh_key_name sop = gk_key_name op ->
       psa_sign_hash_internal self a sop s1 = sign_with pc (gk_attributes op) sop s1) /\
    (forall vop, vh_key_name vop = gk_key_name op ->
       psa_verify_hash_internal self a vop s1 = verify_with pc (gk_attributes op) vop s1) /\
    psa_export_public_key_internal self a (gk_key_name op) s1 =
      export_with pc (gk_attributes op) s1.
Proof.
  unfold psa_generate_key_internal. intros Hrun.
  apply bind_Ok in Hrun as ([] & s0 & Hdne & Hrun). unfold on_kim, zoom in Hdne.
  rewrite does_not_exist_run, pstate_eta in Hdne. change (kim_view (kim s)) with (mappings s) in Hdne.
  destruct (mappings s !! triple a (gk_key_name op)) eqn:Hfree; [done|]. injection Hdne as <-.
  destruct (is_public_key _); [done|]. apply bind_Ok in Hrun as (params & s2 & Hp & Hrun).
  injection Hp as Hp <-. apply bind_Ok in Hrun as ([x o] & s3 & Hc & Hrun).
  unfold tss, on_err, on_dev, zoom in Hc.
  destruct (create_key params AUTH_VAL_LEN (dev s)) as [[[x' o']|e|] c1] eqn:Hck; simpl in Hc; [|done|done].
  injection Hc as -> -> <-. destruct o as [auth|]; [|done].
  unfold on_kim, zoom in Hrun. simpl in Hrun. set (pc := Build_PasswordContext x auth) in *.
  destruct (bincode_serialize pc) as [b|] eqn:Hb.
  2: { unfold insert_key_info in Hrun. run_unfold. by rewrite Hb in Hrun. }
  destruct (insert_key_info_cases (key_info_store self) (triple a (gk_key_name op)) pc
    (gk_attributes op) (kim s) b Hb) as (k1 & [[Hi Hv]|[Hi Hv]]); rewrite Hi in Hrun; [done|].
  unfold mappings in Hfree. rewrite Hfree in Hrun. injection Hrun as <-. apply bincode_round in Hb.
  set (s1 := {| kim := k1; dev := c1 |}).
  assert (Hmap : mappings s1 !! triple a (gk_key_name op) =
    Some {| ki_id := b; ki_attributes := gk_attributes op |})
    by (unfold mappings; simpl; by rewrite Hv, lookup_insert_eq).
  exists params, pc. split_and!; [done|done| | |].
  - intros sop Hn. unfold psa_sign_hash_internal. rewrite Hn.
    by apply (with_key self _ pc b (gk_attributes op) (fun pc attrs => sign_with pc attrs sop)).
  - intros vop Hn. unfold psa_verify_hash_internal. rewrite Hn.
    by apply (with_key self _ pc b (gk_attributes op) (fun pc attrs => verify_with pc attrs vop)).
  - by apply (with_key self _ pc b (gk_attributes op) (fun pc attrs => export_with pc attrs)).
Qed.
End Spec.
