(* ===== verification/TpmScenario.v ===== *)
(** * A concrete TPM

    A TPM that numbers its keys, with the TPM provider over it; the theorems of
    [TpmSpec] are applied to it. *)
From S2P Require Import Prelude RustStd Interface Authenticators Fs KeyInfo OnDisk Concrete Provide.
From S2P Require Import CoreProvider ProviderState Mbed MbedSpec Scenario CryptoAuthLib.
From S2P Require Import CryptoAuthLibSpec Pkcs11 Pkcs11Spec Pkcs11Scenario Tpm TpmSpec.
Import TpmProvider.

(** The saved context of a key is its number as a byte; a signature is the digest
    in both numbers.  Buffers hold 64 bytes. *)
Definition bounded (b : bytes) : result tss_error bytes :=
  if length b <=? 64 then Ok b else Err (TssWrapperError 0).

#[export] Instance demo_tss : Tss ascii N := {
  RSA_KEY_SIZES := [1024; 2048]%Z;
  is_rsa_alg a := match a with Ecdsa _ => false | _ => true end;
  create_key _ n c := (Ok (ascii_of_N c, Some (replicate n "a"%char)), (c + 1)%N);
  load_external_rsa_public_key _ c := (Ok (ascii_of_N c), (c + 1)%N);
  load_external_rsa _ _ _ c := (Ok (ascii_of_N c), (c + 1)%N);
  read_public_key x := mret (EccPub (replicate 32 x) (replicate 32 x));
  tss_sign _ auth d :=
    if decide (auth = Some (replicate 32 "a"%char)) then
      mret {| scheme := TpmECDSA TpmSha256; signature := EcdsaSignature d d |}
    else raise (TssWrapperError 1);
  tss_verify_signature _ d g :=
    match signature g with
    | EcdsaSignature r s =>
      if decide (r = d /\ s = d) then mret tt else raise (Tss2Error (Some RcSignature))
    | _ => raise (Tss2Error (Some RcSignature))
    end;
  rsa_encrypt _ _ m _ _ := mret m;
  rsa_decrypt _ _ m _ _ := mret m;
  auth_try_from := bounded;
  digest_try_from := bounded;
  public_key_rsa_try_from := bounded;
  data_try_from := bounded;
}.

Lemma bounded_returns b : bounded b <> Panic.
Proof. unfold bounded. by case_match. Qed.

#[export] Instance demo_tss_laws : TssLaws ascii N.
Proof.
  split; simpl; try done.
  - intros p n c x o _ [= <- <-]. by eexists.
  - intros x a d c. by case_decide.
  - intros x d g c. destruct (signature g); [done|]. by case_decide.
  - intros b. split_and!; apply bounded_returns.
Qed.

#[export] Instance demo_tpm_der : TpmDer := {
  rsa_private_key_from_bytes _ := None;
  from_bytes_be_signed b := b;
}.

#[export] Instance demo_context : Bincode (PasswordContext ascii) := {
  bincode_serialize pc := Some (pc_context pc :: auth_value pc);
  bincode_deserialize b :=
    match b with [] => None | x :: a => Some (Build_PasswordContext x a) end;
}.
#[export] Instance demo_context_laws : BincodeLaws (PasswordContext ascii).
Proof. by intros [x a] b [= <-]. Qed.

Definition tpm_client : KeyInfoManagerClient := {| client_provider_id := Tpm |}.
Definition tpm_self : Provider := {| key_info_store := tpm_client |}.
Definition tpm_blank : pstate OnDisk N :=
  {| kim := {| od_manager := {| key_store := ∅; mappings_dir_path := ["map"] |};
               od_disk := {| Fs.nodes := {[ ["map"] := Fs.Dir ]}; Fs.faults := [] |} |};
     dev := 65%N |}.
Definition tpm_app : ApplicationName := from_name "app".
Definition tpm_gen : GenerateKeyOp := {| gk_key_name := "k"; gk_attributes := ecc_attributes |}.
Definition tpm1 : pstate OnDisk N := (psa_generate_key_internal tpm_self tpm_app tpm_gen tpm_blank).2.
Definition tpm_digest : bytes := replicate 32 "d"%char.
Definition tpm_sign_op : SignHashOp :=
  {| sh_key_name := "k"; sh_alg := Ecdsa (SignHash_Specific Sha256); sh_hash := tpm_digest |}.
Definition p521_attributes : Attributes :=
  {| lifetime := Persistent; key_type := EccKeyPair SecpR1; bits := 521;
     policy := policy ecc_attributes |}.

Lemma tpm_blank_ok : tpm_ok tpm_blank.
Proof.
  intros t i. assert (Hv : mappings tpm_blank = ∅) by reflexivity.
  rewrite Hv. by rewrite lookup_empty.
Qed.

Lemma tpm_signature_roundtrip_witness :
  signature_data_to_bytes (EcdsaSignature tpm_digest tpm_digest) ecc_attributes =
    Ok (tpm_digest ++ tpm_digest) /\
  bytes_to_signature_data (tpm_digest ++ tpm_digest) ecc_attributes =
    Ok (EcdsaSignature tpm_digest tpm_digest).
Proof.
  split; [reflexivity|].
  apply (tpm_signature_roundtrip ecc_attributes (EcdsaSignature tpm_digest tpm_digest)
    (tpm_digest ++ tpm_digest) I). reflexivity.
Defined.

Lemma tpm_p521_unusable_witness :
  parsec_to_tpm_params p521_attributes = Ok (EccParams (TpmECDSA TpmSha256) NistP521) /\
  pub_key_to_bytes (EccPub (replicate 66 "x"%char) (replicate 66 "y"%char)) p521_attributes =
    Err PsaErrorCommunicationFailure.
Proof.
  destruct (tpm_p521_unusable p521_attributes Sha256 TpmSha256) as [Hp Hk]; try reflexivity.
  split; [exact Hp|]. apply (Hk (replicate 66 "x"%char) (replicate 66 "y"%char)); reflexivity.
Defined.

Lemma tpm_invariant_witness : tpm_ok tpm1.
Proof.
  refine (proj1 (tpm_invariant Some tpm_self tpm_app (PsaGenerateKey tpm_gen) tpm_blank
    (provider_call (provide Some tpm_self) tpm_app (PsaGenerateKey tpm_gen) tpm_blank).1 tpm1
    tpm_blank_ok _)).
  vm_compute. reflexivity.
Defined.

(** The key generated first signs with the authorisation value it was given. *)
Lemma tpm_generated_key_used_witness :
  (psa_sign_hash_internal tpm_self tpm_app tpm_sign_op tpm1).1 = Ok (tpm_digest ++ tpm_digest).
Proof.
  destruct (tpm_generated_key_used tpm_self tpm_app tpm_gen tpm_blank tpm1)
    as (params & pc & _ & Hc & Hsign & _); [vm_compute; reflexivity|].
  rewrite (Hsign tpm_sign_op) by reflexivity.
  destruct pc as [x auth]. injection Hc as <- <-. vm_compute. reflexivity.
Defined.
