(* ===== verification/FullService.v ===== *)
(** * The service with all its providers

    The arms of [get_provider] ([src/utils/service_builder.rs]) with the builders
    of the five providers in them: [full_builders] is what [ServiceBuilder] takes
    as an argument.  The theorems speak of any service built with it, whatever
    providers its configuration names and whether they share a key info manager. *)
From S2P Require Import Prelude RustStd Interface Authenticators Fs KeyInfo OnDisk Provide.
From S2P Require Import Backend FrontEnd CoreProvider Mbed MbedSpec CryptoAuthLib CryptoAuthLibSpec.
From S2P Require Import Config ServiceBuilder ServiceSpec Residence ProviderState TrustedService.
From S2P Require Import TrustedServiceSpec Pkcs11 Pkcs11Spec Tpm TpmSpec.

(** What the libraries and the providers keep in the process.  The Mbed Crypto
    provider and the software operations of the PKCS 11 provider use the same
    crypto library. *)
Record Libraries (B T G C D R : Type) := {
  l_psa : B; l_mbed_counter : Z;
  l_token : T; l_rng : G; l_local_ids : gset Z;
  l_tpm : C;
  l_chip : D; l_slots : list AteccKeySlot;
  l_rpc : R; l_ts_counter : Z;
}.
Arguments l_psa {B T G C D R}.
Arguments l_mbed_counter {B T G C D R}.
Arguments l_token {B T G C D R}.
Arguments l_rng {B T G C D R}.
Arguments l_local_ids {B T G C D R}.
Arguments l_tpm {B T G C D R}.
Arguments l_chip {B T G C D R}.
Arguments l_slots {B T G C D R}.
Arguments l_rpc {B T G C D R}.
Arguments l_ts_counter {B T G C D R}.

Section Residences.
Context {B T G C D R : Type}.
Abbreviation L := (Libraries B T G C D R).

Definition mbed_res : residence L (MbedProvider.state OnDisk B) (B * Z) := {|
  lib_get l := (l_psa l, l_mbed_counter l);
  lib_put q l := {| l_psa := q.1; l_mbed_counter := q.2; l_token := l_token l; l_rng := l_rng l;
    l_local_ids := l_local_ids l; l_tpm := l_tpm l; l_chip := l_chip l; l_slots := l_slots l;
    l_rpc := l_rpc l; l_ts_counter := l_ts_counter l |};
  make k q := {| MbedProvider.kim := k; MbedProvider.crypto := q.1; MbedProvider.id_counter := q.2 |};
  kim_of := MbedProvider.kim;
  lib_of s := (MbedProvider.crypto s, MbedProvider.id_counter s);
|}.

Definition pkcs11_res : residence L (pstate OnDisk (Pkcs11Provider.device T B G))
    (Pkcs11Provider.device T B G) := {|
  lib_get l := {| Pkcs11Provider.token := l_token l; Pkcs11Provider.psa_lib := l_psa l;
    Pkcs11Provider.rng := l_rng l; Pkcs11Provider.local_ids := l_local_ids l |};
  lib_put q l := {| l_psa := Pkcs11Provider.psa_lib q; l_mbed_counter := l_mbed_counter l;
    l_token := Pkcs11Provider.token q; l_rng := Pkcs11Provider.rng q;
    l_local_ids := Pkcs11Provider.local_ids q; l_tpm := l_tpm l; l_chip := l_chip l;
    l_slots := l_slots l; l_rpc := l_rpc l; l_ts_counter := l_ts_counter l |};
  make := Build_pstate _ _;
  kim_of := kim;
  lib_of := dev;
|}.

Definition tpm_res : residence L (pstate OnDisk C) C := {|
  lib_get := l_tpm;
  lib_put q l := {| l_psa := l_psa l; l_mbed_counter := l_mbed_counter l; l_token := l_token l;
    l_rng := l_rng l; l_local_ids := l_local_ids l; l_tpm := q; l_chip := l_chip l;
    l_slots := l_slots l; l_rpc := l_rpc l; l_ts_counter := l_ts_counter l |};
  make := Build_pstate _ _;
  kim_of := kim;
  lib_of := dev;
|}.

Definition cal_res : residence L (CalProvider.state OnDisk D) (D * list AteccKeySlot) := {|
  lib_get l := (l_chip l, l_slots l);
  lib_put q l := {| l_psa := l_psa l; l_mbed_counter := l_mbed_counter l; l_token := l_token l;
    l_rng := l_rng l; l_local_ids := l_local_ids l; l_tpm := l_tpm l; l_chip := q.1;
    l_slots := q.2; l_rpc := l_rpc l; l_ts_counter := l_ts_counter l |};
  make k q := {| CalProvider.kim := k; CalProvider.device := q.1; CalProvider.key_slots := q.2 |};
  kim_of := CalProvider.kim;
  lib_of s := (CalProvider.device s, CalProvider.key_slots s);
|}.

Definition ts_res : residence L (pstate OnDisk (TsProvider.device R)) (TsProvider.device R) := {|
  lib_get l := {| TsProvider.rpc := l_rpc l; TsProvider.id_counter := l_ts_counter l |};
  lib_put q l := {| l_psa := l_psa l; l_mbed_counter := l_mbed_counter l; l_token := l_token l;
    l_rng := l_rng l; l_local_ids := l_local_ids l; l_tpm := l_tpm l; l_chip := l_chip l;
    l_slots := l_slots l; l_rpc := TsProvider.rpc q; l_ts_counter := TsProvider.id_counter q |};
  make := Build_pstate _ _;
  kim_of := kim;
  lib_of := dev;
|}.

#[export] Instance mbed_res_laws : ResidenceLaws mbed_res.
Proof. by split; [intros []|intros []| |intros ? []]. Qed.
#[export] Instance pkcs11_res_laws : ResidenceLaws pkcs11_res.
Proof. by split; [intros []|intros []| |]. Qed.
#[export] Instance tpm_res_laws : ResidenceLaws tpm_res.
Proof. by split; [|intros []| |]. Qed.
#[export] Instance cal_res_laws : ResidenceLaws cal_res.
Proof. by split; [intros []|intros []| |intros ? []]. Qed.
#[export] Instance ts_res_laws : ResidenceLaws ts_res.
Proof. by split; [intros []|intros []| |]. Qed.
End Residences.

(** ** The arms of [get_provider] *)
Section Arms.
Context {B T G X C D R TC CC : Type}.
Context `{ParsecInterface} `{Base64} `{Bincode KeyInfo}.
Context `{PsaCrypto B} `{Validate} `{Cryptoki T} `{Rng G} `{Der} `{KeyApi}.
Context `{Tss X C} `{TpmDer} `{BX : Bincode (TpmProvider.PasswordContext X)}.
Context `{!TpmProvider.TssSetup TC C} `{Atecc D} `{AtcaConfig CC D}.
Context `{PsaTypes} `{TsProtobuf} `{RpcCaller R}.
(** The encoding of identifiers: [u8] for slots, [u32] for the others.  How many
    draws of an identifier are followed.  The access key files. *)
Context {BZ : Bincode Z} (fuel : nat) (files : CalProvider.AccessKeyFiles).
Context (parse_uuid : string -> option string).
Abbreviation W := (World (Libraries B T G C D R)).
Implicit Types (client : nat * KeyInfoManagerClient) (h : nat).

(** What a provider's builder does to the service's state. *)
Definition built {S Q A} (r : residence (Libraries B T G C D R) S Q) h (m : ST S string A)
    : ST W string A :=
  zoom (res_get r h) (res_put r h) m.

(** The limit on random buffers is read from the global configuration at each
    call. *)
Definition mbed_resident h (self : MbedProvider.Provider) : Provide W :=
  resident mbed_res h (MbedProvider.describe parse_uuid) (fun w =>
    MbedProvider.provide parse_uuid (buffer_size_limit (w_global w)) self).
Definition mbed_crypto_builder client : ST W string (Provide W) :=
  let '(h, c) := client in
  self ← built mbed_res h (MbedProvider.build
    (MbedProvider.with_key_info_store c MbedProvider.ProviderBuilder_new));
  mret (mbed_resident h self).

Definition pkcs11_resident h (self : Pkcs11Provider.Provider) : Provide W :=
  resident pkcs11_res h (Pkcs11Provider.describe parse_uuid) (fun _ =>
    Pkcs11Provider.provide fuel parse_uuid self).
Definition pkcs11_builder client (library_path : string) (slot_number : Z)
    (user_pin : option string) (software_public_operations allow_export : option bool)
    : ST W string (Provide W) :=
  let '(h, c) := client in
  self ← built pkcs11_res h (Pkcs11Provider.build
    (Pkcs11Provider.with_allow_export allow_export
      (Pkcs11Provider.with_software_public_operations software_public_operations
        (Pkcs11Provider.with_user_pin user_pin
          (Pkcs11Provider.with_slot_number slot_number
            (Pkcs11Provider.with_pkcs11_library_path library_path
              (Pkcs11Provider.with_key_info_store c Pkcs11Provider.ProviderBuilder_new)))))));
  mret (pkcs11_resident h self).

Definition tpm_resident h (self : TpmProvider.Provider) : Provide W :=
  resident tpm_res h (TpmProvider.describe parse_uuid) (fun _ =>
    TpmProvider.provide parse_uuid self).
Definition tpm_builder client (tcti owner_hierarchy_auth : string) : ST W string (Provide W) :=
  let '(h, c) := client in
  self ← built tpm_res h (TpmProvider.build (T := TC)
    (TpmProvider.with_owner_hierarchy_auth owner_hierarchy_auth
      (TpmProvider.with_tcti tcti
        (TpmProvider.with_key_info_store c TpmProvider.ProviderBuilder_new))));
  mret (tpm_resident h self).

Definition cal_resident h (self : CalProvider.Provider) : Provide W :=
  resident cal_res h (CalProvider.describe parse_uuid self) (fun _ =>
    CalProvider.provide parse_uuid self).
Definition cryptoauthlib_builder client (device_type iface_type : string)
    (wake_delay rx_retries slave_address bus baud : option Z)
    (access_key_file_name : option string) : ST W string (Provide W) :=
  let '(h, c) := client in
  self ← built cal_res h (CalProvider.build (C := CC) files
    (CalProvider.with_access_key_file access_key_file_name
      (CalProvider.with_baud baud
        (CalProvider.with_bus bus
          (CalProvider.with_slave_address slave_address
            (CalProvider.with_rx_retries rx_retries
              (CalProvider.with_wake_delay wake_delay
                (CalProvider.with_iface_type iface_type
                  (CalProvider.with_device_type device_type
                    (CalProvider.with_key_info_store c CalProvider.ProviderBuilder_new))))))))));
  mret (cal_resident h self).

Definition ts_resident h (self : TsProvider.Provider) : Provide W :=
  resident ts_res h (TsProvider.describe parse_uuid) (fun _ => TsProvider.provide parse_uuid self).
Definition trusted_service_builder client : ST W string (Provide W) :=
  let '(h, c) := client in
  self ← built ts_res h (TsProvider.build
    (TsProvider.with_key_info_store c TsProvider.ProviderBuilder_new));
  mret (ts_resident h self).
End Arms.

Section FullService.
Context {B T G X C D R TC CC : Type}.
Context `{ParsecInterface} `{Base64} `{Bincode KeyInfo}.
Context `{PsaLaws B} `{ValidateLaws} `{Cryptoki T} `{Rng G} `{Der} `{KeyApiLaws}.
Context `{TssLaws X C} `{TpmDer} `{BX : Bincode (TpmProvider.PasswordContext X)}.
Context `{!BincodeLaws (TpmProvider.PasswordContext X)}.
Context `{!TpmProvider.TssSetup TC C} `{AteccLaws D} `{AtcaConfig CC D}.
Context `{TsLaws R}.
Context (B32 B8 : Bincode Z).
Context `{!BincodeLaws (H := B32) Z} `{!BincodeU32 (H := B32)}.
Context `{!BincodeLaws (H := B8) Z} `{!BincodeU8 (H := B8)}.
(** [TctiNameConf::from_str] succeeds, and [TctiContext::initialize]. *)
Context (tcti_name_conf : string -> bool) (tcti_initialize : string -> ST C string unit).
Context (fuel : nat) (files : CalProvider.AccessKeyFiles) (parse_uuid : string -> option string).
Abbreviation L := (Libraries B T G C D R).
Abbreviation W := (World L).

Definition full_builders : ProviderBuilders W := {|
  build_mbed_crypto := mbed_crypto_builder (BZ := B32) parse_uuid;
  build_pkcs11 := pkcs11_builder (BZ := B32) fuel parse_uuid;
  ServiceBuilder.tcti_name_conf := tcti_name_conf;
  ServiceBuilder.tcti_initialize tcti :=
    zoom (fun w => l_tpm (w_rest w)) (fun c w => set_w_rest (lib_put tpm_res c (w_rest w)) w)
      (tcti_initialize tcti);
  build_tpm := tpm_builder (TC := TC) parse_uuid;
  build_cryptoauthlib := cryptoauthlib_builder (CC := CC) (BZ := B8) files parse_uuid;
  build_trusted_service := trusted_service_builder (BZ := B32) parse_uuid;
|}.

Implicit Types (config : ServiceConfig) (w : W) (h : nat).

(** [p] is the resident provider [id] on the manager [h]. *)
Definition is_resident (id : ProviderId) h (p : Provide W) : Prop :=
  match id with
  | MbedCrypto => exists self, p = mbed_resident (BZ := B32) parse_uuid h self
  | Pkcs11 => exists self, p = pkcs11_resident (BZ := B32) fuel parse_uuid h self
  | Tpm => exists self, p = tpm_resident parse_uuid h self
  | CryptoAuthLib => exists self, p = cal_resident (BZ := B8) parse_uuid h self /\
      client_provider_id (CalProvider.key_info_store self) = CryptoAuthLib
  | TrustedService => exists self, p = ts_resident (BZ := B32) parse_uuid h self
  | Core => False
  end.

Lemma cal_new_client {BZ : Bincode Z} c setup name (s : CalProvider.state OnDisk D) self s' :
  CalProvider.new c setup files name s = (Ok self, s') -> CalProvider.key_info_store self = c.
Proof.
  unfold CalProvider.new. intros Hrun. apply bind_Ok in Hrun as (dev & s1 & _ & Hrun).
  destruct (negb _); [done|]. apply bind_Ok in Hrun as (? & s2 & _ & Hrun).
  apply bind_Ok in Hrun as ([err cfg] & s3 & _ & Hrun). case_decide; [done|].
  do 6 apply bind_Ok in Hrun as (? & ? & _ & Hrun). by injection Hrun as <- <-.
Qed.

Lemma cal_build_client {BZ : Bincode Z} b c (s : CalProvider.state OnDisk D) self s' :
  CalProvider.b_key_info_store b = Some c ->
  CalProvider.build (C := CC) files b s = (Ok self, s') -> CalProvider.key_info_store self = c.
Proof.
  intros Hb. unfold CalProvider.build. intros Hrun. apply bind_Ok in Hrun as (cfg & s1 & _ & Hrun).
  rewrite Hb in Hrun. apply bind_Ok in Hrun as (? & s2 & Hc & Hrun). injection Hc as <- <-.
  unfold on_err in Hrun. destruct (CalProvider.new _ _ _ _ _) as [[x|e|] s3] eqn:Hn; [|done|done].
  injection Hrun as -> <-. by apply cal_new_client in Hn.
Qed.

Lemma built_Ok {S Q A} (r : residence L S Q) h (m : ST S string A) w a w' :
  built r h m w = (Ok a, w') -> exists s', m (res_get r h w) = (Ok a, s').
Proof. unfold built, zoom. destruct (m _) as [x s']. intros [= -> <-]. eauto. Qed.

Lemma get_provider_resident features c f w p w' :
  get_provider full_builders features c f w = (Ok (Some p), w') ->
  is_resident (config_provider_id c) (key_info_manager_impl f) p.
Proof.
  unfold get_provider. case_decide; [|done]. destruct c; simpl; intros Hrun.
  - apply bind_Ok in Hrun as (q & w1 & Hb & Hrun). injection Hrun as <- <-.
    apply bind_Ok in Hb as (self & w2 & _ & Hb). injection Hb as <- <-. eauto.
  - apply bind_Ok in Hrun as (q & w1 & Hb & Hrun). injection Hrun as <- <-.
    apply bind_Ok in Hb as (self & w2 & _ & Hb). injection Hb as <- <-. eauto.
  - apply bind_Ok in Hrun as (? & w1 & _ & Hrun). apply bind_Ok in Hrun as ([] & w2 & _ & Hrun);
      [done|]. apply bind_Ok in Hrun as (q & w3 & Hb & Hrun). injection Hrun as <- <-.
    apply bind_Ok in Hb as (self & w4 & _ & Hb). injection Hb as <- <-. eauto.
  - apply bind_Ok in Hrun as (q & w1 & Hb & Hrun). injection Hrun as <- <-.
    apply bind_Ok in Hb as (self & w2 & Hs & Hb). injection Hb as <- <-.
    apply built_Ok in Hs as (s' & Hs). eexists. split; [done|].
    eapply cal_build_client in Hs; [|reflexivity]. by rewrite Hs.
  - apply bind_Ok in Hrun as (q & w1 & Hb & Hrun). injection Hrun as <- <-.
    apply bind_Ok in Hb as (self & w2 & _ & Hb). injection Hb as <- <-. eauto.
Qed.

(** The manager a provider of the configuration works on, given what the
    configured managers were built into. *)
Definition on_manager (kims : gmap string KeyInfoManagerFactory) config (id : ProviderId) h : Prop :=
  exists c f, c ∈ default [] (provider_configs config) /\ config_provider_id c = id /\
    kims !! key_info_manager c = Some f /\ key_info_manager_impl f = h.

Lemma add_provider_resident features kims l c w l' w' :
  add_provider full_builders features kims l c w = (Ok l', w') ->
  l' = l \/ exists f p, kims !! key_info_manager c = Some f /\
    is_resident (config_provider_id c) (key_info_manager_impl f) p /\
    l' = l ++ [(config_provider_id c, p)].
Proof.
  unfold add_provider. destruct (existsb _ l); [done|]. run_unfold.
  destruct (kims !! key_info_manager c) as [f|] eqn:Hf; [|done]. simpl.
  destruct (get_provider _ _ _ _ w) as [[[p|]| |] w1] eqn:Hg; simpl; try done; intros [= <- <-];
    [right|by left]. exists f, p. split_and!; [done| |done]. by eapply get_provider_resident.
Qed.

Lemma build_providers_resident features kims l configs w l' w' :
  fold_each configs l (add_provider full_builders features kims) w = (Ok l', w') ->
  forall id p, (id, p) ∈ l' -> (id, p) ∈ l \/ exists c f, c ∈ configs /\
    config_provider_id c = id /\ kims !! key_info_manager c = Some f /\
    is_resident id (key_info_manager_impl f) p.
Proof.
  revert l w. induction configs as [|c configs IH]; intros l w Hrun id p Hin.
  - injection Hrun as <- <-. by left.
  - simpl in Hrun. apply bind_Ok in Hrun as (l1 & w1 & Hl%add_provider_resident & Hrun).
    destruct (IH l1 w1 Hrun id p Hin) as [Hp|(c' & f & Hc & Hrest)].
    + destruct Hl as [->|(f & q & Hf & Hq & ->)]; [by left|].
      apply elem_of_app in Hp as [Hp|Hp%list_elem_of_singleton]; [by left|right].
      injection Hp as -> ->. exists c, f. split_and!; try done. left.
    + right. exists c', f. split; [by right|done].
Qed.

(** ** Members *)
Definition nothing_res : residence L OnDisk unit :=
  {| lib_get _ := tt; lib_put _ l := l; make k _ := k; kim_of k := k; lib_of _ := tt |}.
#[local] Instance nothing_res_laws : ResidenceLaws nothing_res.
Proof. split; [by intros [] l|done|done|by intros k []]. Qed.
Definition bystander (id : ProviderId) : member L := {|
  mb_id := id;
  mb_res := nothing_res;
  mb_inv _ := True;
|}.
(** The invariants of the providers whose calls always return; nothing is said of
    the other two. *)
Definition member_of (id : ProviderId) : member L :=
  match id with
  | MbedCrypto => {| mb_id := MbedCrypto; mb_res := mbed_res; mb_inv := mbed_ok (BZ := B32) |}
  | Tpm => {| mb_id := Tpm; mb_res := tpm_res; mb_inv := tpm_ok (X := X) |}
  | CryptoAuthLib =>
    {| mb_id := CryptoAuthLib; mb_res := cal_res; mb_inv := cal_ok (BZ := B8) |}
  | TrustedService =>
    {| mb_id := TrustedService; mb_res := ts_res; mb_inv := ts_ok (BZ := B32) |}
  | Core | Pkcs11 => bystander id
  end.

Lemma member_of_id id : mb_id (member_of id) = id.
Proof. by destruct id. Qed.

Lemma members_apart id1 id2 : id1 <> id2 -> apart (member_of id1) (member_of id2).
Proof. intros Hne q l. by destruct id1, id2. Qed.

Lemma mapped_local {I} `{Bincode I} p (live : I -> Prop) m m' :
  mapped p live m -> (forall t, kt_provider_id t = p -> m' !! t = m !! t) -> mapped p live m'.
Proof.
  intros [Hi Hd] Hm. split.
  - intros t i Ht Hp. rewrite Hm in Ht by done. by eapply Hi.
  - intros t1 t2 i1 i2 id Ht1 Ht2 Hp1 Hp2. rewrite Hm in Ht1, Ht2 by done. by eapply Hd.
Qed.

Lemma member_of_laws id : member_laws (member_of id).
Proof.
  destruct id; (split; [apply _|]); simpl; try done.
  - intros s s' [Hc Hi Hd] Hv [= Hk Hn]. unfold res_view in Hv. simpl in Hv.
    split.
    + unfold counter_ok. by rewrite Hn.
    + intros t i. unfold view, kim_view. simpl. intros Ht Hp. rewrite Hv in Ht by done.
      unfold MbedSpec.keys. rewrite Hk, Hn. by eapply Hi.
    + intros t1 t2 i1 i2 id. unfold view, kim_view. simpl. intros Ht1 Ht2 Hp1 Hp2.
      rewrite Hv in Ht1, Ht2 by done. by eapply Hd.
  - intros s s' Hok Hv _ t i. unfold mappings, kim_view. simpl. intros Ht Hp.
    unfold res_view in Hv. simpl in Hv. rewrite Hv in Ht by done. by eapply Hok.
  - intros s s' [Hl Ht Hd] Hv [= Hk Hn]. unfold res_view in Hv. simpl in Hv. split.
    + by rewrite Hn.
    + intros t i. unfold cal_view, kim_view. simpl. intros Hi Hp. rewrite Hv in Hi by done.
      rewrite Hn. by eapply Ht.
    + intros t1 t2 i1 i2 j. unfold cal_view, kim_view. simpl. intros Ht1 Ht2 Hp1 Hp2.
      rewrite Hv in Ht1, Ht2 by done. by eapply Hd.
  - intros s s' [Hc Hm] Hv Hq. split.
    + unfold counter. by rewrite Hq.
    + apply (mapped_local _ _ _ _ Hm) in Hv. apply (mapped_mono _ _ _ _ Hv). intros id _.
      unfold ts_live, counter, TrustedServiceSpec.keys. by rewrite Hq.
Qed.

(** ** Start-up *)

(** What a stored mapping has to be like for a provider to start from it: nothing
    for the CryptoAuthLib provider, which drops its mappings; the TPM provider and
    the Trusted Service provider do not check that their keys exist. *)
Definition ready (id : ProviderId) (m : gmap KeyTriple KeyInfo) (l : L) : Prop :=
  match id with
  | MbedCrypto => ids_distinct (BZ := B32) m /\
      forall t i j, m !! t = Some i -> kt_provider_id t = MbedCrypto ->
        key_id_of (BZ := B32) i = Some j -> (j <= PSA_KEY_ID_USER_MAX)%Z
  | Tpm => forall t i, m !! t = Some i -> kt_provider_id t = Tpm ->
      is_Some (id_of (T := TpmProvider.PasswordContext X) i)
  | TrustedService =>
      (forall t i j, m !! t = Some i -> kt_provider_id t = TrustedService ->
         id_of (H := B32) (T := Z) i = Some j ->
         (j <= psa_key_id_user_max)%Z /\ j ∈ ts_keys (l_rpc l)) /\
      (forall t1 t2 i1 i2 j, m !! t1 = Some i1 -> m !! t2 = Some i2 ->
         kt_provider_id t1 = TrustedService -> kt_provider_id t2 = TrustedService ->
         id_of (H := B32) (T := Z) i1 = Some j -> id_of (H := B32) i2 = Some j -> t1 = t2)
  | CryptoAuthLib | Core | Pkcs11 => True
  end.

(** Only the provider's own mappings and libraries matter. *)
Lemma ready_local id m m' (l l' : L) :
  ready id m l -> (forall t, kt_provider_id t = id -> m' !! t = m !! t) ->
  lib_get (mb_res (member_of id)) l' = lib_get (mb_res (member_of id)) l -> ready id m' l'.
Proof.
  intros Hr Hm Hl. destruct id; simpl in *; try done.
  - destruct Hr as [Hd Hx]. split.
    + intros t1 t2 i1 i2 j H1' H2' Hp1 Hp2. rewrite Hm in H1', H2' by done. by eapply Hd.
    + intros t i j Ht Hp. rewrite Hm in Ht by done. by eapply Hx.
  - intros t i Ht Hp. rewrite Hm in Ht by done. by eapply Hr.
  - injection Hl as Hl _. rewrite Hl. destruct Hr as [Hx Hd]. split.
    + intros t i j Ht Hp. rewrite Hm in Ht by done. by eapply Hx.
    + intros t1 t2 i1 i2 j H1' H2' Hp1 Hp2. rewrite Hm in H1', H2' by done. by eapply Hd.
Qed.

(** A provider that ran well can be started again from its mapping. *)
Lemma ok_ready id (s : mb_state (member_of id)) l :
  mb_inv (member_of id) s -> lib_get (mb_res (member_of id)) l = lib_of (mb_res (member_of id)) s ->
  ready id (res_view (mb_res (member_of id)) s) l.
Proof.
  intros Hi Hl. destruct id; simpl in *; try done.
  - destruct Hi as [Hc Hids Hd]. split; [done|]. intros t i j Ht Hp Hj.
    destruct (Hids t i Ht Hp) as (j' & Hj' & _ & Hle). unfold counter_ok in Hc.
    assert (j' = j) as -> by congruence. lia.
  - destruct Hi as [Hc [Hids Hd]]. split; [|done]. intros t i j Ht Hp Hj.
    destruct (Hids t i Ht Hp) as (j' & Hj' & Hle & Hin). assert (j' = j) as -> by congruence.
    unfold TrustedServiceSpec.keys in Hin. rewrite <- Hl in Hin. simpl in Hin.
    split; [lia|done].
Qed.

(** What the start of a provider does: its invariant holds, and only mappings of
    its own have changed. *)
Definition starts (id : ProviderId) (s s' : mb_state (member_of id)) : Prop :=
  mb_inv (member_of id) s' /\
  agree_off (fun t => kt_provider_id t = id) (res_view (mb_res (member_of id)) s')
    (res_view (mb_res (member_of id)) s).

Lemma lookup_eq_iff {A} (m m' : gmap KeyTriple A) t :
  (forall a, m' !! t = Some a <-> m !! t = Some a) -> m' !! t = m !! t.
Proof. intros Hm. apply option_eq, Hm. Qed.

Lemma mbed_build_starts c (s : mb_state (member_of MbedCrypto)) l self s' :
  client_provider_id c = MbedCrypto ->
  ready MbedCrypto (res_view (mb_res (member_of MbedCrypto)) s) l ->
  MbedProvider.build (H2 := B32)
    (MbedProvider.with_key_info_store c MbedProvider.ProviderBuilder_new) s = (Ok self, s') -> starts MbedCrypto s s'.
Proof.
  intros Hc [Hd Hx] Hb. unfold MbedProvider.build in Hb.
  apply bind_Ok in Hb as (c' & s1 & Hl & Hb). injection Hl as <- <-. unfold on_err in Hb.
  destruct (MbedProvider.new c s) as [[x|e|] s2] eqn:Hn; [|done|done]. injection Hb as <- <-.
  pose proof (mbed_new_spec (K := OnDisk) (BZ := B32) c s (Ok x) s2 Hc) as Hs.
  destruct (Hs Hd Hx Hn) as (_ & Hok & _ & Hv). split; [done|].
  intros t Ht. apply lookup_eq_iff. intros i. etrans; [apply Hv|]. naive_solver.
Qed.

Lemma tpm_build_starts b (s : mb_state (member_of Tpm)) l self s' :
  ready Tpm (res_view (mb_res (member_of Tpm)) s) l ->
  TpmProvider.build (T := TC) b s = (Ok self, s') -> starts Tpm s s'.
Proof.
  intros Hr Hb.
  assert (Hk : kim s' = kim s).
  2:{ split; [|unfold res_view; simpl; by rewrite Hk]. intros t i. unfold mappings.
      rewrite Hk. apply Hr. }
  revert Hb. unfold TpmProvider.build. run_unfold. unfold on_dev, zoom.
  destruct (TpmProvider.get_hierarchy_auth _); try done. simpl.
  destruct (TpmProvider.find_default_context_cipher _ _) as [[| |] d]; try done. simpl.
  destruct (TpmProvider.parse_tcti _); try done. simpl.
  destruct (TpmProvider.b_key_info_store b); try done. simpl.
  destruct (TpmProvider.transient_context_build _ _) as [[| |] d']; try done. simpl.
  by intros [= <- <-].
Qed.

Lemma cal_build_starts b c (s : mb_state (member_of CryptoAuthLib)) self s' :
  CalProvider.b_key_info_store b = Some c -> client_provider_id c = CryptoAuthLib ->
  CalProvider.build (H2 := B8) (C := CC) files b s = (Ok self, s') -> starts CryptoAuthLib s s'.
Proof.
  intros Hs Hc Hb. unfold CalProvider.build in Hb.
  apply bind_Ok in Hb as (cfg & s1 & Hcfg & Hb). unfold lift in Hcfg. injection Hcfg as _ <-.
  rewrite Hs in Hb. apply bind_Ok in Hb as (c' & s2 & Hl & Hb). injection Hl as <- <-.
  unfold on_err in Hb. destruct (CalProvider.new _ _ _ _ _) as [[x|e|] s3] eqn:Hn; [|done|done].
  injection Hb as <- <-. by eapply (cal_new_established (K := OnDisk) (BZ := B8)) in Hn.
Qed.

Lemma ts_build_starts c (s : mb_state (member_of TrustedService)) l self s' :
  client_provider_id c = TrustedService ->
  lib_get (mb_res (member_of TrustedService)) l = lib_of (mb_res (member_of TrustedService)) s ->
  ready TrustedService (res_view (mb_res (member_of TrustedService)) s) l ->
  TsProvider.build (H3 := B32) (TsProvider.with_key_info_store c TsProvider.ProviderBuilder_new) s =
    (Ok self, s') -> starts TrustedService s s'.
Proof.
  intros Hc Hl [Hx Hd] Hb. unfold TsProvider.build in Hb.
  apply bind_Ok in Hb as (c' & s1 & Hc' & Hb). injection Hc' as <- <-.
  destruct (ts_new_spec (K := OnDisk) (BZ := B32) c s _ _ Hc Hb)
    as (_ & Hk & Hv & Hmin & Hcnt & Hused).
  pose proof ts_id_bounds as Hbounds.
  assert (Hle : forall id, used (H := B32) (T := Z) TrustedService (mappings s') id ->
    (id <= psa_key_id_user_max)%Z /\ id ∈ TrustedServiceSpec.keys s').
  { intros id (t & i & [Ht _]%Hv & Hp & Hi). rewrite Hk. unfold TrustedServiceSpec.keys.
    destruct (Hx t i id Ht Hp Hi) as [? Hin]. split; [done|].
    apply (f_equal TsProvider.rpc) in Hl. simpl in Hl. by rewrite <- Hl. }
  split.
  - split.
    + split; [lia|]. destruct Hcnt as [->|Hu]; [lia|].
      by apply Hle in Hu as [? _].
    + split.
      * intros t i Ht Hp. pose proof Ht as [Ht0 Hsome]%Hv. destruct (Hsome Hp) as [id Hi].
        exists id. split; [done|]. split; [apply Hused|apply Hle]; by exists t, i.
      * intros t1 t2 i1 i2 id [H1' _]%Hv [H2' _]%Hv. by eapply Hd.
  - intros t Ht. apply lookup_eq_iff. intros i. etrans; [apply Hv|]. naive_solver.
Qed.

(** What the probe of the TPM before its builder may change. *)
Definition tpm_probed w1 w : Prop :=
  exists q, w1 = set_w_rest (lib_put tpm_res q (w_rest w)) w.

Lemma built_put {S Q A} (r : residence L S Q) h (m : ST S string A) w a w' :
  built r h m w = (Ok a, w') ->
  exists s', m (res_get r h w) = (Ok a, s') /\ w' = res_put r h s' w.
Proof. unfold built, zoom. destruct (m _) as [x s']. intros [= -> <-]. eauto. Qed.

Lemma member_view id h w :
  res_view (mb_res (member_of id)) (res_get (mb_res (member_of id)) h w) = manager_view h w.
Proof.
  pose proof (ml_res _ (member_of_laws id)) as Hr. by apply (res_view_get _ (ResidenceLaws0 := Hr)).
Qed.

(** What the start finds to do about a missing TPM changes the TPM only. *)
Lemma tpm_probe_run (skip : option bool) tcti w x w' :
  (if decide (skip = Some true) then
     r ← attempt (ServiceBuilder.tcti_initialize full_builders tcti);
     match r with
     | Ok _ => mret false
     | Err _ => mret true
     | Panic => panic
     end
   else mret false) w = (Ok (E := string) x, w') -> tpm_probed w' w.
Proof.
  case_decide.
  - run_unfold. unfold attempt, ServiceBuilder.tcti_initialize. simpl. unfold zoom.
    destruct (tcti_initialize _ _) as [[| |] q]; intros [= <- <-]; by exists q.
  - intros [= <- <-]. exists (l_tpm (w_rest w)). by destruct w as [? ? ? []].
Qed.

(** A provider that was built has been started on its manager. *)
Lemma get_provider_starts features c f w p w' :
  let id := config_provider_id c in
  let h := key_info_manager_impl f in
  get_provider full_builders features c f w = (Ok (Some p), w') -> id <> Pkcs11 ->
  ready id (manager_view h w) (w_rest w) ->
  exists s', w' = res_put (mb_res (member_of id)) h s' w /\
    starts id (res_get (mb_res (member_of id)) h w) s'.
Proof.
  intros id h. unfold get_provider. case_decide; [|done].
  subst id h. destruct c; intros Hrun Hpk Hr; [|done|..].
  - apply bind_Ok in Hrun as (q & w1 & Hb & Hrun). injection Hrun as <- <-.
    apply bind_Ok in Hb as (self & w2 & Hs & Hb). injection Hb as <- <-.
    apply built_put in Hs as (s' & Hs & ->). exists s'. split; [done|].
    eapply mbed_build_starts; [|by rewrite member_view|exact Hs]. done.
  - apply bind_Ok in Hrun as (u & w0 & Hv & Hrun).
    assert (w0 = w) as -> by (destruct (ServiceBuilder.tcti_name_conf _ _); by injection Hv).
    apply bind_Ok in Hrun as (skipped & w1 & Hsk & Hrun). destruct skipped; [done|].
    apply bind_Ok in Hrun as (q & w2 & Hb & Hrun). injection Hrun as <- <-.
    apply bind_Ok in Hb as (self & w3 & Hs & Hb). injection Hb as <- <-.
    apply built_put in Hs as (s' & Hs & ->). exists s'. apply tpm_probe_run in Hsk as [q ->].
    split; [by destruct w as [? ? ? []]|]. eapply tpm_build_starts in Hs; [exact Hs|exact Hr].
  - apply bind_Ok in Hrun as (q & w1 & Hb & Hrun). injection Hrun as <- <-.
    apply bind_Ok in Hb as (self & w2 & Hs & Hb). injection Hb as <- <-.
    apply built_put in Hs as (s' & Hs & ->). exists s'. split; [done|].
    by eapply cal_build_starts; [..|exact Hs].
  - apply bind_Ok in Hrun as (q & w1 & Hb & Hrun). injection Hrun as <- <-.
    apply bind_Ok in Hb as (self & w2 & Hs & Hb). injection Hb as <- <-.
    apply built_put in Hs as (s' & Hs & ->). exists s'. split; [done|].
    eapply ts_build_starts; [| |by rewrite member_view|exact Hs]; [done|].
    by destruct w as [? ? ? []].
Qed.

Lemma get_provider_skips features c f w w' :
  get_provider full_builders features c f w = (Ok None, w') ->
  config_provider_id c = Tpm /\ tpm_probed w' w.
Proof.
  unfold get_provider. case_decide; [|done].
  destruct c; intros Hrun; try by apply bind_Ok in Hrun as (q & w1 & Hb & Hrun).
  split; [done|]. apply bind_Ok in Hrun as (u & w0 & Hv & Hrun).
  assert (w0 = w) as -> by (destruct (ServiceBuilder.tcti_name_conf _ _); by injection Hv).
  apply bind_Ok in Hrun as (skipped & w1 & Hsk%tpm_probe_run & Hrun). destruct skipped.
  - by injection Hrun as <-.
  - by apply bind_Ok in Hrun as (q & w2 & Hb & Hrun).
Qed.


(** A service's providers with the managers they are on, as members. *)
Definition members (hs : gmap ProviderId nat) : list (member L * nat) :=
  (fun '(id, h) => (member_of id, h)) <$> map_to_list hs.

Lemma elem_of_members hs m h :
  (m, h) ∈ members hs <-> exists id, m = member_of id /\ hs !! id = Some h.
Proof.
  unfold members. rewrite list_elem_of_fmap. split.
  - intros ([id ?] & [= -> ->] & Hin%elem_of_map_to_list). eauto.
  - intros (id & -> & Hin). exists (id, h). by rewrite elem_of_map_to_list.
Qed.

Lemma members_unique hs id h m' h' :
  hs !! id = Some h -> (m', h') ∈ members hs ->
  member_laws m' /\
  (m' = member_of id /\ h' = h \/ mb_id m' <> mb_id (member_of id) /\ apart m' (member_of id)).
Proof.
  intros Hin (id' & -> & Hin')%elem_of_members. split; [apply member_of_laws|].
  destruct (decide (id' = id)) as [->|Hne]; [left; by simplify_eq|].
  right. rewrite !member_of_id. split; [done|]. by apply members_apart.
Qed.

(** The loop of [build_providers] between two turns, with [configs] left: the
    providers built so far are on managers where their invariants hold, and the
    others can still be started. *)
Record started (kims : gmap string KeyInfoManagerFactory) (configs : list ProviderConfig)
    (hs : gmap ProviderId nat) (l : list (ProviderId * Provide W)) w : Prop := {
  sd_dom : dom hs = list_to_set l.*1;
  sd_residents id p : (id, p) ∈ l -> exists h, hs !! id = Some h /\ is_resident id h p;
  sd_ok : residents_ok (members hs) w;
  sd_ready c f : c ∈ configs -> kims !! key_info_manager c = Some f ->
    key_info_manager_impl f < length (w_managers w) /\
    (config_provider_id c ∉ dom hs ->
     ready (config_provider_id c) (manager_view (key_info_manager_impl f) w) (w_rest w));
}.

(** A skipped TPM disturbs nobody: the invariant of its provider is about mappings. *)
Lemma tpm_probed_ok m h w w' :
  tpm_probed w' w -> (exists id, m = member_of id) ->
  mb_inv m (res_get (mb_res m) h w) -> mb_inv m (res_get (mb_res m) h w').
Proof. intros [q ->] [id ->]. by destruct id. Qed.

Lemma tpm_probed_ready id h w w' :
  tpm_probed w' w -> ready id (manager_view h w) (w_rest w) ->
  ready id (manager_view h w') (w_rest w').
Proof. intros [q ->]. by destruct id. Qed.

Lemma started_probed kims c configs hs l w w' :
  started kims (c :: configs) hs l w -> tpm_probed w' w -> started kims configs hs l w'.
Proof.
  intros [Hd Hr Ho Hs] Hp. assert (Hm : w_managers w' = w_managers w) by (by destruct Hp as [q ->]).
  split; [done|done|..].
  - intros m h Hin. destruct (Ho m h Hin) as [Hl Hi]. rewrite Hm. split; [done|].
    apply elem_of_members in Hin as (id & -> & _). eapply tpm_probed_ok; eauto.
  - intros c' f Hc Hf. destruct (Hs c' f) as [Hl Hrd]; [by right|done|]. rewrite Hm.
    split; [done|]. intros Hn. eapply tpm_probed_ready; eauto.
Qed.

Lemma started_put kims c configs hs l w f p s' :
  let id := config_provider_id c in let h := key_info_manager_impl f in
  started kims (c :: configs) hs l w -> kims !! key_info_manager c = Some f -> id ∉ dom hs ->
  is_resident id h p -> starts id (res_get (mb_res (member_of id)) h w) s' ->
  started kims configs (<[id := h]> hs) (l ++ [(id, p)]) (res_put (mb_res (member_of id)) h s' w).
Proof.
  intros id h [Hd Hr Ho Hs] Hf Hnew Hres [Hinv Hag]. rewrite member_view in Hag.
  destruct (Hs c f) as [Hlen _]; [left|done|]. fold h in Hlen.
  assert (Hne : forall id' h', hs !! id' = Some h' -> id' <> id)
    by (intros id' h' Hl ->; apply elem_of_dom_2 in Hl; done).
  split.
  - rewrite dom_insert_L, Hd, fmap_app, list_to_set_app_L. simpl. set_solver.
  - intros id' p' [Hin|Hin%list_elem_of_singleton]%elem_of_app.
    + destruct (Hr id' p' Hin) as (h' & Hl & ?). exists h'.
      rewrite lookup_insert_ne by (by apply not_eq_sym, (Hne id' h')). done.
    + injection Hin as -> ->. exists h. by rewrite lookup_insert_eq.
  - intros m h' (id' & -> & Hl)%elem_of_members.
    apply resident_put; [apply member_of_laws|apply member_of_laws|done|done| |].
    { by rewrite member_of_id. }
    apply lookup_insert_Some in Hl as [[<- <-]|[Hn Hl]]; [by left|right].
    destruct (Ho (member_of id') h') as [? ?]; [apply elem_of_members; eauto|].
    rewrite !member_of_id. split_and!; [done|by apply members_apart|done|done].
  - intros c' f' Hc' Hf'. destruct (Hs c' f') as [Hl Hrd]; [by right|done|].
    simpl. rewrite length_insert. split; [done|]. rewrite dom_insert_L.
    intros Hn. assert (config_provider_id c' <> id) by set_solver.
    apply (ready_local _ _ _ _ _ (Hrd ltac:(set_solver))).
    + intros t Ht. pose proof (ml_res _ (member_of_laws id)) as Hrl.
      apply (manager_view_put (mb_res (member_of id)) (ResidenceLaws0 := Hrl)
        (fun t => kt_provider_id t = id)); [by rewrite member_view|congruence].
    + by apply (members_apart (config_provider_id c') id).
Qed.

Lemma add_provider_starts features kims c configs hs l w l' w' :
  started kims (c :: configs) hs l w ->
  add_provider full_builders features kims l c w = (Ok l', w') -> Pkcs11 ∉ l'.*1 ->
  exists hs', started kims configs hs' l' w' /\
    forall id h, hs' !! id = Some h -> hs !! id = Some h \/
      exists f, config_provider_id c = id /\ kims !! key_info_manager c = Some f /\
        key_info_manager_impl f = h.
Proof.
  intros Hst Hrun Hpk. unfold add_provider in Hrun.
  destruct (existsb _ l) eqn:Hex; [done|]. revert Hrun. run_unfold.
  destruct (kims !! key_info_manager c) as [f|] eqn:Hf; [|done]. simpl.
  destruct (get_provider _ _ _ _ w) as [[[p|]| |] w1] eqn:Hg; simpl; try done; intros [= <- <-].
  - assert (Hn : config_provider_id c ∉ dom hs).
    { rewrite (sd_dom _ _ _ _ _ Hst), elem_of_list_to_set.
      intros ([id q] & Heq & Hin)%list_elem_of_fmap. simpl in Heq.
      apply not_true_iff_false in Hex. apply Hex, existsb_exists. exists (id, q).
      split; [by apply list_elem_of_In|]. by apply bool_decide_eq_true. }
    destruct (get_provider_starts _ _ _ _ _ _ Hg) as (s' & -> & Hs').
    { intros Heq. apply Hpk. rewrite fmap_app. simpl. rewrite Heq. set_solver. }
    { apply (sd_ready _ _ _ _ _ Hst c f); [left|done|done]. }
    eexists. split; [eapply started_put; eauto using get_provider_resident|].
    intros id h [[<- <-]|[_ Hl]]%lookup_insert_Some; [right; eauto|by left].
  - apply get_provider_skips in Hg as [_ Hp]. exists hs. split; [|by left].
    by eapply started_probed.
Qed.

Lemma build_providers_prefix features kims configs : forall l w l' w',
  fold_each configs l (add_provider full_builders features kims) w = (Ok l', w') ->
  l `prefix_of` l'.
Proof.
  induction configs as [|c configs IH]; intros l w l' w' Hrun; simpl in Hrun.
  - by injection Hrun as <- <-.
  - apply bind_Ok in Hrun as (l1 & w1 & Hl%add_provider_resident & Hrun%IH).
    destruct Hl as [->|(f & p & _ & _ & ->)]; [done|]. by eapply prefix_app_l.
Qed.

(** When the loop is through, the providers are all at work. *)
Lemma build_providers_start features kims configs : forall hs l w l' w',
  started kims configs hs l w ->
  fold_each configs l (add_provider full_builders features kims) w = (Ok l', w') ->
  Pkcs11 ∉ l'.*1 ->
  exists hs', started kims [] hs' l' w' /\
    forall id h, hs' !! id = Some h -> hs !! id = Some h \/
      exists c f, c ∈ configs /\ config_provider_id c = id /\
        kims !! key_info_manager c = Some f /\ key_info_manager_impl f = h.
Proof.
  induction configs as [|c configs IH]; intros hs l w l' w' Hst Hrun Hpk; simpl in Hrun.
  - injection Hrun as <- <-. exists hs. split; [done|by left].
  - apply bind_Ok in Hrun as (l1 & w1 & Hl & Hrun).
    assert (Hpre : l1 `prefix_of` l').
    { by eapply build_providers_prefix. }
    destruct (add_provider_starts _ _ _ _ _ _ _ _ _ Hst Hl) as (hs1 & Hst1 & Hhs1).
    { destruct Hpre as [k ->]. rewrite fmap_app in Hpk. set_solver. }
    destruct (IH _ _ _ _ _ Hst1 Hrun Hpk) as (hs' & Hst' & Hhs').
    exists hs'. split; [done|]. intros id h [Hh|(c' & f & Hc' & ?)]%Hhs'.
    + apply Hhs1 in Hh as [?|(f & ?)]; [by left|right]. exists c, f. split; [left|done].
    + right. exists c', f. split; [by right|done].
Qed.

(** Every factory holds a manager that exists. *)
Lemma managers_exist (configs : list KeyInfoManagerConfig) :
  forall (map : gmap string KeyInfoManagerFactory) w kims w',
  fold_each configs map (fun map kc => factory ← Factory_new kc;
    mret (<[manager_name kc := factory]> map)) w = (Ok kims, w') ->
  map_Forall (fun _ f => key_info_manager_impl f < length (w_managers w)) map ->
  map_Forall (fun _ f => key_info_manager_impl f < length (w_managers w')) kims.
Proof.
  induction configs as [|kc configs IH]; intros map w kims w' Hrun Hmap; simpl in Hrun.
  - by injection Hrun as <- <-.
  - apply bind_Ok in Hrun as (map1 & w1 & H1' & Hrun). refine (IH _ _ _ _ Hrun _). clear IH Hrun.
    apply bind_Ok in H1' as (f & w2 & Hf & Hm). injection Hm as <- <-.
    unfold Factory_new in Hf. apply bind_Ok in Hf as (m & w3 & Hbuild & Hf).
    assert (Hlen : w_managers w3 = w_managers w).
    { revert Hbuild. destruct (manager_type kc). unfold zoom.
      destruct (OnDiskKeyInfoManagerBuilder_build _ _). by intros [= -> <-]. }
    revert Hf. run_unfold. intros [= <- <-]. simpl. rewrite length_app, Hlen. simpl.
    apply map_Forall_insert_2; simpl; [lia|].
    intros n g Hg. specialize (Hmap n g Hg). simpl in *. lia.
Qed.

(** ** Isolation *)
Lemma resident_well_behaved id h h' p :
  is_resident id h p -> well_behaved (manager_view h') p.
Proof.
  destruct id; [done|intros [self ->]|intros [self ->]|intros [self ->]|intros (self & -> & _)|
    intros [self ->]]; eapply keeps_to_well_behaved, resident_keeps_to; try apply _; intros w.
  - exact (mbed_keeps_to (K := OnDisk) (BZ := B32) _ _ _).
  - exact (pkcs11_keeps_to (K := OnDisk) (BZ := B32) _ _ _).
  - exact (tpm_keeps_to (K := OnDisk) _ _).
  - exact (cal_keeps_to (K := OnDisk) (BZ := B8) _ _).
  - exact (ts_keeps_to (K := OnDisk) (BZ := B32) _ _).
Qed.

Section Built.
Context (features : gset ProviderId) (auth_features : gset AuthType).
Context (spiffe_connect : string -> option JwtSvidAuthenticator.WorkloadApiClient).
Context (ProtobufConverter : Convert) (crate_version : option (Z * Z * Z)).
Context {Str : Type} `{Wire Str} `{!WireLaws Str} `{!ParsecInterfaceLaws}.
Context (Hconv : converter_faithful ProtobufConverter).
Implicit Types (fe : FrontEndHandler W).
Abbreviation build_service := (ServiceBuilder.build_service full_builders features auth_features
  spiffe_connect ProtobufConverter crate_version parse_uuid).

(** The providers of a built service and the managers they are on. *)
Lemma built_residents config w0 fe w1 :
  build_service config w0 = (Ok fe, w1) ->
  exists g kims w2, gey_key_info_manager_builders (default [] (key_manager config))
      (set_w_global g w0) = (Ok kims, w2) /\
    forall id b, id <> Core -> backends (dispatcher fe) !! id = Some b ->
      exists h, on_manager kims config id h /\ is_resident id h (provider b).
Proof.
  intros (g & kims & w2 & providers & w3 & Hk & Hp & Hw & _)%build_service_parts.
  exists g, kims, w2. split; [done|]. intros id b Hne Hb.
  destruct (wired_lookup _ _ _ _ _ _ _ _ Hw Hne Hb) as (p & Hin & ->).
  destruct (build_providers_resident _ _ _ _ _ _ _ Hp id p Hin)
    as [Hnil|(c & f & Hc & Hid & Hf & Hres)]; [by apply not_elem_of_nil in Hnil|].
  exists (key_info_manager_impl f). split; [|done]. by exists c, f.
Qed.

(** C2: End to end, from the configuration: whatever providers a service was built
    with, a connection changes no mapping of any key info manager but those of
    the application that the configured authenticator recognised, unless the name
    of that application is in the configured list of administrators. *)
Theorem full_service_isolation config w0 fe w1 h metadata w str :
  build_service config w0 = (Ok fe, w1) ->
  agree_off (fun t => exists request app,
      (read_from_stream (body_len_limit fe) str).1 = Ok request /\
      identify fe metadata request = Ok (Some app) /\
      (kt_app_name t = get_name app \/
       exists adm, adm ∈ config_admins (authenticator config) /\
         admin_name adm = app_name_string (get_name app)))
    (manager_view h (handle_request fe metadata (w, str)).2.1) (manager_view h w).
Proof.
  intros Hrun. eapply built_service_isolation; [done|apply _|exact Hconv|exact Hrun|].
  intros id b Hne Hb. destruct (built_residents _ _ _ _ Hrun) as (g & kims & w2 & _ & Hres).
  destruct (Hres id b Hne Hb) as (h' & _ & Hp). by eapply resident_well_behaved.
Qed.

(** ** All providers at work *)
Lemma resident_safe (hs : gmap ProviderId nat) id h p :
  hs !! id = Some h -> id <> Pkcs11 -> is_resident id h p ->
  safe (residents_ok (members hs)) p.
Proof.
  intros Hin Hpk Hres.
  assert (Hm : (member_of id, h) ∈ members hs) by (apply elem_of_members; eauto).
  pose proof (fun m' h' => members_unique hs id h m' h' Hin) as Hu.
  destruct id; [done| |done| | |].
  - destruct Hres as [self ->]. refine (residents_safe _ _ _ _ _ Hm Hu _ _); intros w.
    + exact (mbed_safe (K := OnDisk) (BZ := B32) _ _ _).
    + exact (mbed_keeps_to (K := OnDisk) (BZ := B32) _ _ _).
  - destruct Hres as [self ->]. refine (residents_safe _ _ _ _ _ Hm Hu _ _); intros w.
    + exact (tpm_safe (K := OnDisk) _ _).
    + exact (tpm_keeps_to (K := OnDisk) _ _).
  - destruct Hres as (self & -> & Hc). refine (residents_safe _ _ _ _ _ Hm Hu _ _); intros w.
    + exact (cal_safe (K := OnDisk) (BZ := B8) _ _ Hc).
    + simpl. rewrite <- Hc. exact (cal_keeps_to (K := OnDisk) (BZ := B8) _ _).
  - destruct Hres as [self ->]. refine (residents_safe _ _ _ _ _ Hm Hu _ _); intros w.
    + exact (ts_safe (K := OnDisk) (BZ := B32) _ _).
    + exact (ts_keeps_to (K := OnDisk) (BZ := B32) _ _).
Qed.

(** The mappings a service finds can be started from. *)
Definition all_ready (kims : gmap string KeyInfoManagerFactory) config w : Prop :=
  forall id h, on_manager kims config id h -> ready id (manager_view h w) (w_rest w).

Lemma build_service_starts config w0 fe w1 :
  build_service config w0 = (Ok fe, w1) -> backends (dispatcher fe) !! Pkcs11 = None ->
  exists g kims w2,
    gey_key_info_manager_builders (default [] (key_manager config)) (set_w_global g w0) =
      (Ok kims, w2) /\
    (all_ready kims config w2 -> exists hs,
      dom hs = dom (backends (dispatcher fe)) ∖ {[Core]} /\
      (forall id h, hs !! id = Some h -> on_manager kims config id h) /\
      (forall id b, id <> Core -> backends (dispatcher fe) !! id = Some b ->
         exists h, hs !! id = Some h /\ is_resident id h (provider b)) /\
      residents_ok (members hs) w1).
Proof.
  intros (g & kims & w2 & providers & w3 & Hk & Hp & Hw & ->)%build_service_parts Hpk.
  exists g, kims, w2. split; [done|]. intros Hready.
  assert (Hids : forall id, id ∈ providers.*1 -> id <> Core ->
    id ∈ dom (backends (dispatcher fe)) ∖ {[Core]}).
  { intros id ([id' p] & -> & Hin)%list_elem_of_fmap Hc. simpl in *.
    eapply wired_provider, elem_of_dom_2 in Hin; [|exact Hw]. set_solver. }
  edestruct (build_providers_start features kims (default [] (provider_configs config)) ∅ [])
    as (hs & [Hd Hr Ho _] & Hon); [|exact Hp| |].
  - split; [done|by intros id p ?%not_elem_of_nil| |].
    + intros m h (id & _ & Hl)%elem_of_members. by rewrite lookup_empty in Hl.
    + intros c f Hc Hf. split; [|intros _; apply Hready; by exists c, f].
      by apply (managers_exist _ ∅ _ _ _ Hk) in Hf; [|apply map_Forall_empty].
  - intros Hin. apply Hids in Hin; [|done].
    apply elem_of_difference in Hin as [[b Hb]%elem_of_dom _]. congruence.
  - exists hs. split_and!; [| |by intros id b Hne Hb;
      destruct (wired_lookup _ _ _ _ _ _ _ _ Hw Hne Hb) as (p & Hin & ->); apply Hr|done].
    + rewrite Hd. apply leibniz_equiv. intros id. rewrite elem_of_list_to_set. split.
      * intros Hin. apply Hids; [done|]. intros ->.
        apply list_elem_of_fmap in Hin as ([id p] & [= <-] & Hin).
        by destruct (Hr _ _ Hin) as (? & _ & []).
      * intros [[b Hb]%elem_of_dom Hne%not_elem_of_singleton]%elem_of_difference.
        destruct (wired_lookup _ _ _ _ _ _ _ _ Hw Hne Hb) as (p & Hin & _).
        apply list_elem_of_fmap. by exists (id, p).
    + intros id h [Hl|(c & f & ?)]%Hon; [by rewrite lookup_empty in Hl|]. by exists c, f.
Qed.

Lemma residents_ready hs w id h :
  residents_ok (members hs) w -> hs !! id = Some h -> ready id (manager_view h w) (w_rest w).
Proof.
  intros Hok Hh. destruct (Hok (member_of id) h) as [_ Hi]; [apply elem_of_members; eauto|].
  rewrite <- (member_view id h w). apply ok_ready; [done|].
  pose proof (ml_res _ (member_of_laws id)) as Hr. unfold res_get.
  by rewrite (lib_of_make (ResidenceLaws := Hr)).
Qed.

(** A service that starts from such mappings, whatever providers it is built with but
    PKCS 11, has an invariant in which nothing panics. *)
Lemma full_service_free config w0 fe w1 hs :
  build_service config w0 = (Ok fe, w1) -> backends (dispatcher fe) !! Pkcs11 = None ->
  (forall id b, id <> Core -> backends (dispatcher fe) !! id = Some b ->
     exists h, hs !! id = Some h /\ is_resident id h (provider b)) ->
  panic_free (residents_ok (members hs)) fe.
Proof.
  intros Hrun Hpk Hres. eapply built_panic_free; [done|exact Hrun|]. intros id b Hne Hb.
  destruct (Hres id b Hne Hb) as (h & Hh & Hp). apply (resident_safe hs id h); auto.
  intros ->. congruence.
Qed.

(** What [full_service_responds] says, for use elsewhere. *)
Lemma full_service_answers config w0 fe w1 :
  build_service config w0 = (Ok fe, w1) -> backends (dispatcher fe) !! Pkcs11 = None ->
  exists g kims w2,
    gey_key_info_manager_builders (default [] (key_manager config)) (set_w_global g w0) =
      (Ok kims, w2) /\
    (all_ready kims config w2 -> exists hs,
      dom hs = dom (backends (dispatcher fe)) ∖ {[Core]} /\
      (forall id h, hs !! id = Some h -> on_manager kims config id h) /\
      residents_ok (members hs) w1 /\
      forall conns w, residents_ok (members hs) w ->
        exists strs w', serve_connections fe conns w = (Ok strs, w') /\
          residents_ok (members hs) w' /\
          (forall id h, hs !! id = Some h -> ready id (manager_view h w') (w_rest w')) /\
          Forall2 (fun c str' => exists response,
            str' = (write_to_stream response (read_from_stream (body_len_limit fe) c.2).2).2)
            conns strs).
Proof.
  intros Hrun Hpk.
  destruct (build_service_starts _ _ _ _ Hrun Hpk) as (g & kims & w2 & Hk & Hst).
  exists g, kims, w2. split; [done|]. intros Hready.
  destruct (Hst Hready) as (hs & Hd & Hon & Hres & Hok1).
  exists hs. split_and!; [done|done|done|]. intros conns w Hok.
  assert (Hsafe : forall id b, id <> Core -> backends (dispatcher fe) !! id = Some b ->
    safe (residents_ok (members hs)) (provider b)).
  { intros id b Hne Hb. destruct (Hres id b Hne Hb) as (h & Hh & Hp).
    apply (resident_safe hs id h); auto. intros ->. congruence. }
  pose proof (built_service_responds (Str := Str) full_builders features auth_features
    spiffe_connect ProtobufConverter crate_version parse_uuid Hconv _ config w0 fe w1 conns w
    Hrun Hsafe Hok) as (strs & w' & Hs & Hok' & Hf).
  exists strs, w'. split_and!; eauto using residents_ready.
Qed.

(** C3: A service that starts from mappings it can be started from establishes the
    invariants of all its providers and then answers every sequence of
    connections, one response each, keeping these invariants together, so that
    after any history it could be started again.  It was built with any of the
    Mbed Crypto, TPM, CryptoAuthLib and Trusted Service providers, each on the key
    info manager the configuration names for it, some possibly on the same.  (The
    PKCS 11 provider may draw identifiers for ever.) *)
Theorem full_service_responds config w0 fe w1 :
  build_service config w0 = (Ok fe, w1) -> backends (dispatcher fe) !! Pkcs11 = None ->
  exists g kims w2,
    gey_key_info_manager_builders (default [] (key_manager config)) (set_w_global g w0) =
      (Ok kims, w2) /\
    (all_ready kims config w2 -> exists hs,
      dom hs = dom (backends (dispatcher fe)) ∖ {[Core]} /\
      (forall id h, hs !! id = Some h -> on_manager kims config id h) /\
      residents_ok (members hs) w1 /\
      forall conns w, residents_ok (members hs) w ->
        exists strs w', serve_connections fe conns w = (Ok strs, w') /\
          residents_ok (members hs) w' /\
          (forall id h, hs !! id = Some h -> ready id (manager_view h w') (w_rest w')) /\
          Forall2 (fun c str' => exists response,
            str' = (write_to_stream response (read_from_stream (body_len_limit fe) c.2).2).2)
            conns strs).
Proof. apply full_service_answers. Qed.
End Built.
End FullService.
