(* ===== verification/ServiceScenario.v ===== *)
(** * A service built from a configuration file and run

    One key info manager under [/map], shared by the providers, the direct
    authenticator with one administrator; the disk is empty at first. *)
From S2P Require Import Prelude RustStd Interface Authenticators KeyInfo Fs OnDisk Concrete.
From S2P Require Import Persistence Provide Backend FrontEnd CoreProvider Mbed MbedSpec.
From S2P Require Import Scenario CryptoAuthLib CryptoAuthLibSpec Config ServiceBuilder ServiceSpec.
From S2P Require Import Residence ProviderState TrustedService TrustedServiceSpec Pkcs11 Pkcs11Spec.
From S2P Require Import Pkcs11Scenario Tpm TpmSpec TpmScenario FullService.

(** A machine with a TPM behind the TCTI "device" only. *)
#[export] Instance demo_tss_setup : TpmProvider.TssSetup string N := {
  TpmProvider.tcti_from_str := Some;
  TpmProvider.hex_decode_str s := Some (as_bytes s);
  TpmProvider.probe_context_new tcti :=
    if decide (tcti = "device") then mret tt else raise (TssWrapperError 0);
  TpmProvider.probe_test_parms _ := mret tt;
  TpmProvider.probe_context_drop c := c;
  TpmProvider.transient_context_build _ := mret tt;
}.
#[export] Instance demo_atca_config : AtcaConfig string unit := {
  default_iface_cfg := "";
  set_iface_type s c := String.append c s;
  set_devtype s c := String.append c s;
  set_wake_delay _ c := c;
  set_rx_retries _ c := c;
  set_iface _ c := c;
  setup_atecc_device _ := Ok tt;
}.

(** The encoding of slots in one byte. *)
#[export] Instance bincode_u8_laws : BincodeLaws (H := bincode_uint 1) Z.
Proof.
  intros z b. cbn [bincode_serialize bincode_uint]. case_decide; [|done].
  intros Hb. assert (b = to_le_bytes 1 z) as -> by congruence.
  cbn [bincode_deserialize bincode_uint].
  rewrite length_to_le_bytes, decide_True by done. by rewrite from_to_le_bytes.
Qed.
#[export] Instance bincode_u8_total : BincodeU8 (H := bincode_uint 1).
Proof. intros z Hz. simpl. rewrite decide_True; [eauto|]. simpl. lia. Qed.

Abbreviation demo_world :=
  (World (Libraries library demo_token Z N unit ts_world)).
Definition demo_builders : ProviderBuilders demo_world :=
  full_builders (X := ascii) (TC := string) (CC := string) demo_bincode_u32 (bincode_uint 1)
    (fun _ => true)
    (fun tcti => if decide (tcti = "device") then mret tt else raise "no TPM") 3
    no_files Some.
Definition demo_settings : CoreSettings :=
  {| thread_pool_size := None; idle_listener_sleep_duration := None; log_level := None;
     log_timestamp := None; cs_body_len_limit := None; cs_log_error_details := None;
     allow_root := None; cs_buffer_size_limit := None |}.
Definition demo_config (providers : list ProviderConfig) : ServiceConfig :=
  {| core_settings := demo_settings;
     listener := {| listener_type := DomainSocket; listener_timeout := 200; socket_path := None |};
     authenticator := DirectConfig (Some [{| admin_name := "root" |}]);
     key_manager := Some [{| manager_name := "km"; manager_type := OnDiskManagerType;
                             store_path := Some "/map" |}];
     provider_configs := Some providers |}.
Definition demo_world0 : demo_world :=
  {| w_disk := {| nodes := ∅; faults := [] |}; w_managers := []; w_global := GlobalConfig_new;
     w_rest := {| l_psa := ∅; l_mbed_counter := 0%Z; l_token := {| tk_objects := ∅; tk_sessions := ∅ |};
       l_rng := 5%Z; l_local_ids := ∅; l_tpm := 65%N; l_chip := tt; l_slots := [];
       l_rpc := {| w_keys := ∅; w_calls := ∅ |}; l_ts_counter := 0%Z |} |}.
Definition all_providers : gset ProviderId :=
  {[ MbedCrypto; Tpm; Pkcs11; CryptoAuthLib; TrustedService ]}.
Definition demo_build (providers : list ProviderConfig)
    : result string (FrontEndHandler demo_world) * demo_world :=
  build_service demo_builders all_providers {[ Direct ]} (fun _ => None) demo_convert
    (Some (0, 7, 0)%Z) Some (demo_config providers) demo_world0.
(** Four providers on one manager. *)
Definition four_providers : list ProviderConfig :=
  [ MbedCryptoConfig "km"; TpmConfig "km" "device" "str:" (Some true);
    CryptoAuthLibConfig "km" "atecc608a" "test-interface" None None None None None None;
    TrustedServiceConfig "km" ].
Definition demo_world1 : demo_world := (demo_build four_providers).2.

(** A machine without a TPM: the configured provider is skipped. *)
Example tpm_skipped :
  is_ok (demo_build [TpmConfig "km" "none" "" (Some true); MbedCryptoConfig "km"]).1 = true /\
  (demo_build [TpmConfig "km" "none" "" (Some true)]).1 = Err "need one provider" /\
  (demo_build [TpmConfig "km" "none" "" None]).1 = Err "failed to create provider" /\
  (demo_build [MbedCryptoConfig "km"; MbedCryptoConfig "km"]).1 =
    Err "only one provider per type is supported" /\
  (demo_build [MbedCryptoConfig "other"]).1 = Err "key info manager builder not found".
Proof. split_and!; vm_compute; reflexivity. Qed.

Lemma demo_built : exists fe, demo_build four_providers = (Ok fe, demo_world1).
Proof.
  assert (Hok : is_ok (demo_build four_providers).1 = true) by (vm_compute; reflexivity).
  unfold demo_world1. destruct (demo_build _) as [[fe| |] w]; [by exists fe|done|done].
Qed.

Abbreviation demo_ready := (ready (X := ascii) demo_bincode_u32).

(** Nothing is stored yet. *)
Lemma empty_ready id (m : gmap KeyTriple KeyInfo)
    (l : Libraries library demo_token Z N unit ts_world) : m = ∅ -> demo_ready id m l.
Proof. intros ->. by destruct id. Qed.

Lemma build_service_wiring_witness :
  exists fe, demo_build four_providers = (Ok fe, demo_world1) /\
    body_len_limit fe = 1048576%Z /\ backends (dispatcher fe) !! Pkcs11 = None /\
    exists b, backends (dispatcher fe) !! TrustedService = Some b /\
      is_capable b (demo_request TrustedService OpPsaDestroyKey "k" "eve") = Ok tt.
Proof.
  destruct demo_built as [fe Hrun]. exists fe. split; [exact Hrun|].
  destruct (build_service_wiring _ _ _ _ _ _ _ _ _ _ _ Hrun)
    as (kims & w1 & providers & _ & _ & Hall & Hw & Hreq).
  split; [rewrite (wired_limit _ _ _ _ _ _ Hw); reflexivity|]. split.
  - apply (wired_nothing_else _ _ _ _ _ _ Hw); [discriminate|].
    intros Hin. pose proof (sublist_subseteq _ _ (wired_order _ _ _ _ _ _ Hw) _ Hin) as Hc.
    simpl in Hc. revert Hc. apply (bool_decide_eq_false_1 (_ ∈ _)). reflexivity.
  - apply (Hreq (demo_request TrustedService OpPsaDestroyKey "k" "eve")); [|reflexivity..].
    right. apply (Hall (TrustedServiceConfig "km")); [|reflexivity].
    do 3 right. left.
Defined.

(** Eve's request does not change the mappings of the application "app". *)
Lemma full_service_isolation_witness :
  exists fe, demo_build four_providers = (Ok fe, demo_world1) /\
    forall w, manager_view 0 (handle_request fe None
        (w, {| to_read := Some request_eve; written := [] |})).2.1 !! MbedProvider.triple app "k" =
      manager_view 0 w !! MbedProvider.triple app "k".
Proof.
  destruct demo_built as [fe Hrun]. exists fe. split; [exact Hrun|]. intros w.
  apply (full_service_isolation _ _ _ _ _ _ _ _ _ _ _ _ demo_convert_faithful
    _ _ _ _ 0 None w {| to_read := Some request_eve; written := [] |} Hrun).
  intros (request & who & Hread & Hid & Hwho).
  destruct (build_service_wired _ _ _ _ _ _ _ _ _ _ _ Hrun) as [providers Hw].
  rewrite (wired_limit _ _ _ _ _ _ Hw) in Hread. vm_compute in Hread. injection Hread as <-.
  destruct (wired_authenticator _ _ _ _ _ _ Hw) as (au & Hau & Hbuilt & _).
  vm_compute in Hbuilt. injection Hbuilt as <-.
  revert Hid. unfold identify. rewrite Hau. intros Hid. vm_compute in Hid. injection Hid as <-.
  destruct Hwho as [Hc|(adm & Hadm & Hc)]; [discriminate Hc|].
  apply list_elem_of_singleton in Hadm as ->. discriminate Hc.
Defined.

(** Three connections: a client that sends nothing, Eve, and the application. *)
Definition three_connections : list (option ConnectionMetadata * demo_stream) :=
  [ (None, {| to_read := None; written := [] |});
    (None, {| to_read := Some request_eve; written := [] |});
    (None, {| to_read := Some request_owner; written := [] |}) ].

Lemma demo_no_pkcs11 fe :
  demo_build four_providers = (Ok fe, demo_world1) -> backends (dispatcher fe) !! Pkcs11 = None.
Proof.
  intros Hrun. destruct (build_service_wired _ _ _ _ _ _ _ _ _ _ _ Hrun) as [providers Hw].
  apply (wired_nothing_else _ _ _ _ _ _ Hw); [discriminate|].
  intros Hin. pose proof (sublist_subseteq _ _ (wired_order _ _ _ _ _ _ Hw) _ Hin) as Hc.
  simpl in Hc. revert Hc. apply (bool_decide_eq_false_1 (_ ∈ _)). reflexivity.
Qed.

Lemma demo_all_ready g kims (w2 : demo_world) :
  gey_key_info_manager_builders (default [] (key_manager (demo_config four_providers)))
    (set_w_global g demo_world0) = (Ok kims, w2) ->
  all_ready demo_bincode_u32 kims (demo_config four_providers) w2.
Proof.
  intros Hk id h (c & f & Hc & _ & Hf & <-). apply empty_ready.
  assert (Hkm : key_info_manager c = "km").
  { simpl in Hc. repeat (apply elem_of_cons in Hc as [->|Hc]; [reflexivity|]).
    destruct (not_elem_of_nil _ Hc). }
  rewrite Hkm in Hf. pose proof (f_equal snd Hk) as Hw2. cbn [snd] in Hw2. rewrite <- Hw2.
  apply (f_equal (fun x => match x.1 with Ok m => m !! "km" | _ => None end)) in Hk.
  cbn beta in Hk. cbn [fst] in Hk. rewrite Hf in Hk. vm_compute in Hk. injection Hk as <-.
  vm_compute. reflexivity.
Qed.

Lemma full_service_responds_witness :
  exists fe strs w', demo_build four_providers = (Ok fe, demo_world1) /\
    serve_connections fe three_connections demo_world1 = (Ok strs, w') /\ length strs = 3.
Proof.
  destruct demo_built as [fe Hrun].
  destruct (full_service_responds _ _ _ _ _ _ _ _ _ _ _ _
    demo_convert_faithful _ _ _ _ Hrun (demo_no_pkcs11 fe Hrun)) as (g & kims & w2 & Hk & Hst).
  destruct (Hst (demo_all_ready g kims w2 Hk)) as (hs & _ & _ & Hok & Hall).
  destruct (Hall three_connections demo_world1 Hok) as (strs & w' & Hs & _ & _ & HF).
  exists fe, strs, w'. split; [exact Hrun|]. split; [exact Hs|].
  apply Forall2_length in HF. symmetry. exact HF.
Defined.
