(* ===== verification/MainSpec.v ===== *)
(** * The program with all its providers

    [Main] follows the loop for any provider builders; here they are those of
    [FullService].  A service that finds mappings it can be started from, at the start
    and at each reload, answers every connection it accepts. *)
From S2P Require Import Prelude RustStd Interface Authenticators Fs KeyInfo OnDisk Provide.
From S2P Require Import Backend FrontEnd CoreProvider Mbed MbedSpec CryptoAuthLib CryptoAuthLibSpec.
From S2P Require Import Config ServiceBuilder ServiceSpec Listener Main Residence ProviderState.
From S2P Require Import TrustedService TrustedServiceSpec Pkcs11 Pkcs11Spec Tpm TpmSpec FullService.

Section MainSpec.
Context {B T G X C D R TC CC O Str : Type}.
Context `{ParsecInterface} `{Base64} `{Bincode KeyInfo}.
Context `{PsaLaws B} `{ValidateLaws} `{Cryptoki T} `{Rng G} `{Der} `{KeyApiLaws}.
Context `{TssLaws X C} `{TpmDer} `{BX : Bincode (TpmProvider.PasswordContext X)}.
Context `{!BincodeLaws (TpmProvider.PasswordContext X)}.
Context `{!TpmProvider.TssSetup TC C} `{AteccLaws D} `{AtcaConfig CC D}.
Context `{TsLaws R}.
Context (B32 B8 : Bincode Z).
Context `{!BincodeLaws (H := B32) Z} `{!BincodeU32 (H := B32)}.
Context `{!BincodeLaws (H := B8) Z} `{!BincodeU8 (H := B8)}.
Context (tcti_name_conf : string -> bool) (tcti_initialize : string -> ST C string unit).
Context (fuel : nat) (files : CalProvider.AccessKeyFiles) (parse_uuid : string -> option string).
Context (features : gset ProviderId) (auth_features : gset AuthType).
Context (spiffe_connect : string -> option JwtSvidAuthenticator.WorkloadApiClient).
Context (ProtobufConverter : Convert) (crate_version : option (Z * Z * Z)).
Context `{Wire Str} `{!WireLaws Str} `{!ParsecInterfaceLaws}.
Context (Hconv : converter_faithful ProtobufConverter).
Context `{SocketLaws O Str} `{ProcessOs O}.
Abbreviation W := (World (Libraries B T G C D R)).
Context (drop_front_end : FrontEndHandler W -> W -> W) (opts : Opts).
Abbreviation builders := (full_builders (X := X) (TC := TC) (CC := CC) B32 B8 tcti_name_conf
  tcti_initialize fuel files parse_uuid).
Abbreviation start := (Main.start builders features auth_features spiffe_connect ProtobufConverter
  crate_version parse_uuid opts).
Abbreviation main_step := (Main.main_step (Str := Str) builders features auth_features
  spiffe_connect ProtobufConverter crate_version parse_uuid drop_front_end opts).

(** A service without the PKCS 11 provider (which may draw identifiers for ever) can be
    started at [w]: the mappings that its managers read are sound. *)
Definition startable (config : ServiceConfig) (w : W) : Prop :=
  (Pkcs11 ∉ config_provider_id <$> default [] (provider_configs config)) /\
  forall g kims w2, gey_key_info_manager_builders (default [] (key_manager config))
    (set_w_global g w) = (Ok kims, w2) -> all_ready B32 kims config w2.

Lemma startable_safe config w :
  startable config w -> safely_builds builders features auth_features spiffe_connect
    ProtobufConverter crate_version parse_uuid config w.
Proof.
  intros [Hno Hready] fe w' Hrun.
  assert (Hpk : backends (dispatcher fe) !! Pkcs11 = None).
  { destruct (build_service_wired _ _ _ _ _ _ _ _ _ _ _ Hrun) as [providers Hw].
    apply (wired_nothing_else _ _ _ _ _ _ Hw); [done|]. intros Hin. apply Hno.
    exact (sublist_subseteq _ _ (wired_order _ _ _ _ _ _ Hw) _ Hin). }
  destruct (build_service_starts B32 B8 tcti_name_conf tcti_initialize fuel files parse_uuid
    features auth_features spiffe_connect ProtobufConverter crate_version Hconv config w fe w' Hrun Hpk)
    as (g & kims & w2 & Hk & Hst).
  destruct (Hst (Hready g kims w2 Hk)) as (hs & _ & _ & Hres & Hok).
  exists (residents_ok (members B32 B8 hs)). split; [|done].
  eapply full_service_free; eauto.
Qed.

(** C6: Whatever connections and signals arrive, in whatever order the threads work:
    no connection that was accepted is lost or served twice, every job waiting belongs
    to the configuration in force, whose handler was built from it, and when [main]
    returns nothing is left waiting.  If the service does not use the PKCS 11 provider
    and finds mappings it can be started from, at the start and at each reload, then no
    thread panics, and each connection that was finished got one response: the read
    error, or the answer of the front end to the request that was read. *)
Theorem main_serves_all s0 service w o x :
  start s0 = (Ok service, (w, o)) -> rtc main_step (loop_start service w o) x ->
  cf_accepted x ≡ₚ (cf_jobs x).*2 ++ (fin_connection <$> cf_finished x) /\
  Forall (fun j => j.1 = sv_front_end (cf_service x)) (cf_jobs x) /\
  built_from builders features auth_features spiffe_connect ProtobufConverter crate_version
    parse_uuid (sv_config (cf_service x)) (sv_front_end (cf_service x)) /\
  (forall r, cf_pc x = Exited r -> cf_accepted x ≡ₚ fin_connection <$> cf_finished x) /\
  (startable (sv_config service) s0.1 ->
   rtc (fun y z => main_step y z /\ reloads_at drop_front_end startable y z)
     (loop_start service w o) x ->
   Forall answered (cf_finished x)).
Proof.
  intros Hstart Hrun. pose proof (main_start_ok _ _ _ _ _ _ _ _ _ _ _ _ Hstart) as Hini.
  destruct (main_run_ok _ _ _ _ _ _ _ _ _ _ _ Hini Hrun) as [Hc Hcur Hb He].
  split_and!; try done; [intros r Hr; by rewrite Hc, (He r Hr)|].
  intros Hready Hsafe. eapply main_answers; [done|done|exact Hstart|by apply startable_safe|].
  refine (rtc_subrel _ _ _ _ _ Hsafe). intros y z [Hyz Hre]. split; [done|].
  intros Hp Ha. by apply startable_safe, Hre.
Qed.
End MainSpec.
