(* ===== verification/MainScenario.v ===== *)
(** * The program started and stopped

    An operating system that keeps the files of sockets and the connections that
    wait, on which the service of [ServiceScenario] is started, serves two
    connections and is stopped. *)
From S2P Require Import Prelude RustStd Interface Authenticators KeyInfo Fs OnDisk Concrete.
From S2P Require Import Persistence Provide Backend FrontEnd CoreProvider Mbed MbedSpec.
From S2P Require Import Scenario CryptoAuthLib CryptoAuthLibSpec Config ServiceBuilder ServiceSpec.
From S2P Require Import ProviderState TrustedService TrustedServiceSpec Pkcs11 Pkcs11Spec Tpm TpmSpec.
From S2P Require Import Pkcs11Scenario TpmScenario.
From S2P Require Import Listener Main Residence FullService ServiceScenario MainSpec.

(** A stream with its options and the process at the other end. *)
Record os_stream := { os_data : demo_stream; os_read : option Z; os_write : option Z;
  os_block : bool; os_peer : ucred }.
Definition with_data (d : demo_stream) (s : os_stream) : os_stream :=
  {| os_data := d; os_read := os_read s; os_write := os_write s; os_block := os_block s;
     os_peer := os_peer s |}.
#[export] Instance os_wire : Wire os_stream := {
  read_from_stream limit := zoom os_data with_data (read_from_stream limit);
  write_to_stream r := zoom os_data with_data (write_to_stream r);
}.
#[export] Instance os_wire_laws : WireLaws os_stream.
Proof.
  split.
  - intros n s. pose proof (read_no_panic n (os_data s)) as Hr. cbn [read_from_stream os_wire].
    unfold zoom. by destruct (read_from_stream n (os_data s)).
  - intros r s. done.
Qed.

Record demo_os := { os_files : gmap string (file_kind * Z); os_waiting : list os_stream;
  os_uid : Z }.
Definition with_files (f : gmap string (file_kind * Z)) (o : demo_os) : demo_os :=
  {| os_files := f; os_waiting := os_waiting o; os_uid := os_uid o |}.
Definition timed (d : Z) (s : os_stream) : ST demo_os io_error os_stream :=
  if decide (d = 0%Z) then raise "invalid timeout" else mret s.

#[export] Instance demo_sockets : SocketOs demo_os os_stream := {
  listen_fds := mret 0%Z;
  SD_LISTEN_FDS_START := 3;
  path_exists p o := (bool_decide (is_Some (os_files o !! p)), o);
  metadata_is_socket p := fun o =>
    match os_files o !! p with
    | Some (k, _) => (Ok (bool_decide (k = SocketFile)), o)
    | None => (Err "no such file", o)
    end;
  remove_socket_file p := fun o => (Ok tt, with_files (delete p (os_files o)) o);
  bind p := fun o =>
    match os_files o !! p with
    | Some _ => (Err "address in use", o)
    | None => (Ok 7%Z, with_files (<[p := (SocketFile, 493%Z)]> (os_files o)) o)
    end;
  set_listener_nonblocking _ _ := mret tt;
  set_mode p m := fun o =>
    match os_files o !! p with
    | Some (k, _) => (Ok tt, with_files (<[p := (k, m)]> (os_files o)) o)
    | None => (Err "no such file", o)
    end;
  socket_accept _ := fun o =>
    match os_waiting o with
    | s :: rest => (Ok s, {| os_files := os_files o; os_waiting := rest; os_uid := os_uid o |})
    | [] => (Err WouldBlock, o)
    end;
  set_read_timeout d s := timed d {| os_data := os_data s; os_read := Some d;
    os_write := os_write s; os_block := os_block s; os_peer := os_peer s |};
  set_write_timeout d s := timed d {| os_data := os_data s; os_read := os_read s;
    os_write := Some d; os_block := os_block s; os_peer := os_peer s |};
  set_stream_nonblocking b s := mret {| os_data := os_data s; os_read := os_read s;
    os_write := os_write s; os_block := negb b; os_peer := os_peer s |};
  getsockopt_peercred s _ size o := ((0%Z, os_peer s, size), o);
  last_os_error _ := "error";
}.

#[export] Instance demo_socket_laws : SocketLaws demo_os os_stream.
Proof.
  refine {| socket_files := os_files; read_timeout := os_read; write_timeout := os_write;
            is_blocking := os_block; peer_of := os_peer |}; try done.
  - intros p o. simpl. destruct (os_files o !! p) as [[k m]|]; [|done]. eauto.
  - intros p o. simpl. destruct (os_files o !! p) as [[k m]|] eqn:Hp; [done|]. by eauto.
  - intros p m o. simpl. destruct (os_files o !! p) as [[k m']|] eqn:Hp; [|done]. by eauto.
  - intros l o. simpl. by destruct (os_waiting o).
  - intros d s o. simpl. unfold timed. by case_decide.
  - intros d s o. simpl. unfold timed. by case_decide.
Defined.

Definition main_config : ServiceConfig := demo_config four_providers.
#[export] Instance demo_process : ProcessOs demo_os := {
  register_signals := mret tt;
  read_config_file p := if decide (p = "config.toml") then mret "file" else raise "no such file";
  toml_from_str _ := Some main_config;
  get_current_uid := os_uid;
  init_logger _ o := o;
  sd_notify _ o := o;
  thread_sleep _ o := o;
  close_listener _ o := o;
}.
Definition demo_opts : Opts := {| config_path := "config.toml" |}.

(** A process of user 1000 that connects. *)
Definition client_stream (r : option Request) : os_stream :=
  {| os_data := {| to_read := r; written := [] |}; os_read := None; os_write := None;
     os_block := true; os_peer := {| cred_pid := 42; cred_uid := 1000; cred_gid := 1000 |} |}.
Definition demo_machine (uid : Z) : demo_os :=
  {| os_files := {[ "/run/parsec/parsec.sock" := (SocketFile, 493%Z);
                    "/etc/passwd" := (OtherFile, 420%Z) ]};
     os_waiting := [client_stream (Some request_eve); client_stream None]; os_uid := uid |}.

Definition demo_start (uid : Z) : result string (Service demo_world) * (demo_world * demo_os) :=
  start demo_builders all_providers {[ Direct ]} (fun _ => None) demo_convert
    (Some (0, 7, 0)%Z) Some demo_opts (demo_world0, demo_machine uid).
Abbreviation demo_step := (main_step demo_builders all_providers {[ Direct ]} (fun _ => None)
  demo_convert (Some (0, 7, 0)%Z) Some (fun _ w => w) demo_opts).
Abbreviation demo_work := (work_step demo_builders all_providers {[ Direct ]} (fun _ => None)
  demo_convert (Some (0, 7, 0)%Z) Some (fun _ w => w) demo_opts).

Lemma start_listener_spec_witness :
  let r := DomainSocket.start_listener (listener main_config) (demo_machine 1) in
  is_ok r.1 = true /\
  os_files r.2 !! "/run/parsec/parsec.sock" = Some (SocketFile, 438%Z) /\
  os_files r.2 !! "/etc/passwd" = Some (OtherFile, 420%Z).
Proof.
  cbv zeta. destruct (DomainSocket.start_listener (listener main_config) (demo_machine 1))
    as [r o'] eqn:Hrun.
  pose proof (start_listener_spec (listener main_config) (demo_machine 1) r o' 0 eq_refl Hrun)
    as (Hother & _ & Hr).
  destruct r as [l|e|]; [|vm_compute in Hrun; discriminate Hrun|destruct Hr].
  split; [reflexivity|]. split.
  - destruct Hr as [_ [[_ Hp]|[Hn _]]]; [exact Hp|discriminate Hn].
  - apply (Hother "/etc/passwd"). discriminate.
Defined.

Lemma demo_started : exists service w o, demo_start 1000 = (Ok service, (w, o)) /\
  sv_listener service = {| DomainSocket.listener := 7; DomainSocket.timeout := 200 |} /\
  os_waiting o = [client_stream (Some request_eve); client_stream None] /\
  sv_config service = main_config.
Proof.
  assert (Hc : match (demo_start 1000).1 with Ok s => sv_config s = main_config | _ => False end)
    by (vm_compute; reflexivity).
  assert (Hl : match (demo_start 1000).1 with Ok s => Some (sv_listener s) | _ => None end =
    Some {| DomainSocket.listener := 7; DomainSocket.timeout := 200 |}) by (vm_compute; reflexivity).
  assert (Hw : os_waiting (demo_start 1000).2.2 =
    [client_stream (Some request_eve); client_stream None]) by (vm_compute; reflexivity).
  destruct (demo_start 1000) as [[service|e|] [w o]]; [|discriminate Hl|discriminate Hl].
  exists service, w, o. split; [reflexivity|]. split; [|split; [exact Hw|exact Hc]]. simpl in Hl. congruence.
Qed.

(** The first connection, as the listener hands it over. *)
Definition eve_connection : Connection os_stream :=
  {| stream := {| os_data := {| to_read := Some request_eve; written := [] |};
                  os_read := Some 200%Z; os_write := Some 200%Z; os_block := true;
                  os_peer := {| cred_pid := 42; cred_uid := 1000; cred_gid := 1000 |} |};
     metadata := Some (UnixPeerCredentialsMeta 1000 1000 (Some 42%Z)) |}.

Lemma demo_accepts o :
  os_waiting o = [client_stream (Some request_eve); client_stream None] ->
  exists o', DomainSocket.accept {| DomainSocket.listener := 7; DomainSocket.timeout := 200 |} o =
    (Ok (Some eve_connection), o').
Proof. destruct o as [f wt u]. simpl. intros ->. by eexists. Qed.

Abbreviation demo_startable := (startable (X := ascii) demo_bincode_u32).
Lemma demo_is_startable : demo_startable main_config demo_world0.
Proof.
  split; [|intros g kims w2; apply demo_all_ready].
  apply (bool_decide_eq_false_1 (_ ∈ _)). reflexivity.
Qed.

(** Steps at which nothing is reloaded. *)
Abbreviation quiet_step := (fun y z => demo_step y z /\
  reloads_at (Str := os_stream) (fun _ w => w) demo_startable y z).
Lemma no_reload (y z : LoopState) :
  cf_pc y <> ReloadJoin -> demo_step y z -> quiet_step y z.
Proof. intros Hp Hs. split; [exact Hs|]. intros Hr. by destruct (Hp Hr). Qed.

(** Eve is accepted, SIGTERM arrives, and the thread still serves her. *)
Lemma demo_run service w o :
  sv_listener service = {| DomainSocket.listener := 7; DomainSocket.timeout := 200 |} ->
  os_waiting o = [client_stream (Some request_eve); client_stream None] ->
  exists x, rtc quiet_step (loop_start service w o) x /\ cf_pc x = Exited (Ok tt) /\
    cf_accepted x = [eve_connection].
Proof.
  intros Hl Hw. destruct (demo_accepts o Hw) as [o' Ha].
  destruct (handle_request (sv_front_end service) (metadata eve_connection)
    (w, stream eve_connection)) as [out [w' str']] eqn:Hh.
  eexists. split; [|split; [|]].
  - eapply rtc_l; [apply no_reload; [done|]; left; by apply step_no_reload|].
    eapply rtc_l; [apply no_reload; [done|]; left; eapply step_accept; [reflexivity|]; simpl;
      rewrite Hl; exact Ha|].
    eapply rtc_l; [apply no_reload; [done|]; right; apply step_sigterm; by intros r|].
    eapply rtc_l; [apply no_reload; [done|]; left; by apply step_kill|].
    eapply rtc_l; [apply no_reload; [done|]; left;
      eapply (step_worker _ _ _ _ _ _ _ _ _ _ []); [by intros r|reflexivity|exact Hh]|].
    eapply rtc_l; [apply no_reload; [done|]; left; by apply step_stop|]. apply rtc_refl.
  - reflexivity.
  - reflexivity.
Qed.

Lemma main_serves_all_witness :
  exists service w o x f, demo_start 1000 = (Ok service, (w, o)) /\
    rtc demo_step (loop_start service w o) x /\ cf_pc x = Exited (Ok tt) /\
    cf_finished x = [f] /\ fin_connection f = eve_connection /\ fin_outcome f = Ok tt.
Proof.
  destruct demo_started as (service & w & o & Hs & Hl & Hw & Hc).
  destruct (demo_run service w o Hl Hw) as (x & Hquiet & Hpc & Hacc).
  assert (Hrun : rtc demo_step (loop_start service w o) x)
    by (refine (rtc_subrel _ _ _ _ _ Hquiet); intros y z [Hyz _]; exact Hyz).
  destruct (main_serves_all _ _ _ _ _ _ _ _ _ _ _ _ demo_convert_faithful _ _ _ _ _ _ _ Hs Hrun)
    as (_ & _ & _ & Hend & Hans).
  assert (Hready : demo_startable (sv_config service) (demo_world0, demo_machine 1000).1)
    by (rewrite Hc; exact demo_is_startable).
  pose proof (Hend _ Hpc) as Hp. rewrite Hacc in Hp. apply Permutation_singleton_l in Hp.
  specialize (Hans Hready Hquiet). destruct (cf_finished x) as [|f [|]] eqn:Hf; try discriminate Hp.
  injection Hp as Hp. exists service, w, o, x, f.
  split; [exact Hs|]. split; [exact Hrun|]. split; [exact Hpc|]. split; [exact Hf|].
  split; [symmetry; exact Hp|].
  inversion_clear Hans as [|? ? Hone _]. exact (proj1 Hone).
Defined.

Lemma main_terminates_witness :
  exists service w o,
    demo_start 1000 = (Ok service, (w, o)) /\
    let x := signalled true false (loop_start (Str := os_stream) service w o) in
    (forall n y, nsteps demo_work n x y -> n <= 5) /\ exists y, demo_work x y.
Proof.
  destruct demo_started as (service & w & o & Hs & _). exists service, w, o. split; [exact Hs|].
  cbv zeta. destruct (main_terminates demo_builders all_providers {[ Direct ]} (fun _ => None)
    demo_convert (Some (0, 7, 0)%Z) Some (fun _ w => w) demo_opts
    (signalled true false (loop_start service w o)) eq_refl) as [Hn Hgo].
  split; [|apply Hgo; intros r; discriminate]. intros n y Hs'. exact (proj1 (Hn n y Hs')).
Defined.

Lemma main_refuses_root_witness : (demo_start 0).1 = Err "Insecure configuration".
Proof.
  destruct (main_refuses_root demo_builders all_providers {[ Direct ]} (fun _ => None)
    demo_convert (Some (0, 7, 0)%Z) Some demo_opts (demo_world0, demo_machine 0)
    (demo_world0, demo_machine 0) (demo_world0, demo_machine 0) main_config) as [Hs _];
    [reflexivity|reflexivity|discriminate|reflexivity|].
  exact (f_equal fst Hs).
Defined.
