(* ===== verification/TestClient.v ===== *)
(** * The client of the end-to-end tests ([e2e_tests/src/lib.rs])

    [TestClient] wraps the [BasicClient] of the [parsec_client] crate, which is a
    parameter: the state [W] is whatever lies behind it, the service and other
    clients included, and each call of it is one atomic step on [W].  The wrapper
    keeps the set of the keys it created and destroys them when it is dropped.  A
    panic leaves the client in the state it had, because it is dropped then too. *)
From S2P Require Import Prelude RustStd Interface Threads.

(** [parsec_client::error::Error]: a status of the service, or a failure on the
    side of the client ([ClientErrorKind]). *)
Inductive ClientError := Service (s : ResponseStatus) | Client (kind : string).
(** [parsec_client::auth::Authentication] *)
Inductive Authentication := Authentication_Direct (app_name : string) | Authentication_other (n : nat).

(** [BasicClient]: the calls of the service and the two settings of the client. *)
Class BasicClient (BC W : Type) := {
  bc_new : option string -> ST W ClientError BC;
  implicit_provider : BC -> ProviderId;
  set_implicit_provider : ProviderId -> BC -> BC;
  auth_data : BC -> Authentication;
  bc_set_default_auth : option string -> ST (BC * W) ClientError unit;
  bc_list_providers : BC -> ST W ClientError (list ProviderInfo);
  bc_list_authenticators : BC -> ST W ClientError (list AuthenticatorInfo);
  bc_list_opcodes : BC -> ProviderId -> ST W ClientError (gset Opcode);
  bc_list_keys : BC -> ST W ClientError (list ListedKey);
  bc_list_clients : BC -> ST W ClientError (list string);
  bc_delete_client : BC -> string -> ST W ClientError unit;
  bc_ping : BC -> ST W ClientError (Z * Z);
  bc_generate_key : BC -> string -> Attributes -> ST W ClientError unit;
  bc_import_key : BC -> string -> bytes -> Attributes -> ST W ClientError unit;
  bc_destroy_key : BC -> string -> ST W ClientError unit;
  bc_export_key : BC -> string -> ST W ClientError bytes;
  bc_export_public_key : BC -> string -> ST W ClientError bytes;
  bc_sign_hash : BC -> string -> bytes -> AsymmetricSignature -> ST W ClientError bytes;
  bc_verify_hash : BC -> string -> bytes -> AsymmetricSignature -> bytes -> ST W ClientError unit;
  bc_sign_message : BC -> string -> bytes -> AsymmetricSignature -> ST W ClientError bytes;
  bc_verify_message : BC -> string -> bytes -> AsymmetricSignature -> bytes ->
    ST W ClientError unit;
  bc_asymmetric_encrypt : BC -> string -> AsymmetricEncryption -> bytes -> option bytes ->
    ST W ClientError bytes;
  bc_asymmetric_decrypt : BC -> string -> AsymmetricEncryption -> bytes -> option bytes ->
    ST W ClientError bytes;
  bc_aead_encrypt : BC -> string -> Aead -> bytes -> bytes -> bytes -> ST W ClientError bytes;
  bc_aead_decrypt : BC -> string -> Aead -> bytes -> bytes -> bytes -> ST W ClientError bytes;
  bc_hash_compute : BC -> Hash -> bytes -> ST W ClientError bytes;
  bc_hash_compare : BC -> Hash -> bytes -> bytes -> ST W ClientError unit;
  bc_raw_key_agreement : BC -> RawKeyAgreement -> string -> bytes -> ST W ClientError bytes;
  bc_generate_random : BC -> Z -> ST W ClientError bytes;
}.

Module TestClient.
(** A key as the client remembers it: its name, the application name used for
    direct authentication and the provider. *)
Abbreviation created_key := (string * option string * ProviderId)%type.

Record TestClient (BC : Type) := {
  basic_client : BC;
  created_keys : option (gset created_key);
}.
Arguments basic_client {BC}.
Arguments created_keys {BC}.

(** A client error makes the test panic. *)
Definition convert_error {A} (err : ClientError) : result ResponseStatus A :=
  match err with
  | Service resp_status => Err resp_status
  | Client _ => Panic
  end.
Definition converted {A} (r : result ClientError A) : result ResponseStatus A :=
  match r with
  | Ok a => Ok a
  | Err e => convert_error e
  | Panic => Panic
  end.

Definition usage (sign_hash verify_hash sign_message verify_message export encrypt decrypt
    cache copy derive : bool) : UsageFlags :=
  {| Interface.sign_hash := sign_hash; Interface.verify_hash := verify_hash;
     Interface.sign_message := sign_message; Interface.verify_message := verify_message;
     Interface.export := export; Interface.encrypt := encrypt; Interface.decrypt := decrypt;
     Interface.cache := cache; Interface.copy := copy; Interface.derive := derive |}.
(** [UsageFlags { derive: true, ..Default::default() }] *)
Definition usage_derive : UsageFlags :=
  usage false false false false false false false false false true.

Definition attributes (l : Lifetime) (t : KeyType) (n : Z) (u : UsageFlags) (a : Algorithm)
    : Attributes :=
  {| lifetime := l; key_type := t; bits := n;
     policy := {| usage_flags := u; permitted_algorithms := a |} |}.

Section Client.
Context {BC W : Type} `{BasicClient BC W}.
Abbreviation M A := (TH W (TestClient BC) ResponseStatus A).
Implicit Types (key_name : string) (s : TestClient BC).

(** A call of the service, with its error converted. *)
Definition call {A} (m : BC -> ST W ClientError A) : M A := fun s =>
  prog_bind (atomic (m (basic_client s))) (fun r => Ret (converted r, s)).

(** The [unwrap] of the source panics. *)
Definition new : prog W (result ResponseStatus (TestClient BC)) :=
  prog_bind (atomic (bc_new (Some "root"))) (fun r =>
    Ret (match r with
         | Ok bc => Ok {| basic_client := bc; created_keys := Some ∅ |}
         | _ => Panic
         end)).

Definition set_basic_client (bc : BC) s : TestClient BC :=
  {| basic_client := bc; created_keys := created_keys s |}.

Definition set_provider (provider : ProviderId) : M unit :=
  own (modify (fun s => set_basic_client (set_implicit_provider provider (basic_client s)) s)).
Definition provider s : ProviderId := implicit_provider (basic_client s).

Definition set_default_auth (auth : option string) : M unit := fun s =>
  prog_bind (atomic (fun w => let '(r, (bc, w')) := bc_set_default_auth auth (basic_client s, w) in
                              ((r, bc), w')))
    (fun '(r, bc) => Ret (match r with Ok _ => Ok tt | _ => Panic end, set_basic_client bc s)).

Definition get_direct_auth s : option string :=
  match auth_data (basic_client s) with
  | Authentication_Direct app_name => Some app_name
  | Authentication_other _ => None
  end.

Definition do_not_destroy_keys : M unit :=
  own (modify (fun s => {| basic_client := basic_client s; created_keys := None |})).

(** What the client remembers of a key it names now. *)
Definition remembered s key_name : created_key := (key_name, get_direct_auth s, provider s).
Definition on_created_keys (f : created_key -> gset created_key -> gset created_key) key_name
    : M unit :=
  own (modify (fun s => {| basic_client := basic_client s;
                           created_keys := f (remembered s key_name) <$> created_keys s |})).

Definition generate_key key_name (attributes : Attributes) : M unit :=
  call (fun bc => bc_generate_key bc key_name attributes) ;;
  on_created_keys (fun k ks => {[k]} ∪ ks) key_name.

Definition generate_bytes (nbytes : Z) : M bytes := call (fun bc => bc_generate_random bc nbytes).

Definition generate_rsa_sign_key key_name : M unit :=
  generate_key key_name (attributes Persistent RsaKeyPair 1024
    (usage true true true true false false false false false false)
    (Alg_AsymmetricSignature (RsaPkcs1v15Sign (SignHash_Specific Sha256)))).

Definition generate_long_rsa_sign_key key_name : M unit :=
  generate_key key_name (attributes Persistent RsaKeyPair 2048
    (usage true true true true false false false false false false)
    (Alg_AsymmetricSignature (RsaPkcs1v15Sign (SignHash_Specific Sha256)))).

Definition generate_rsa_encryption_keys_rsapkcs1v15crypt key_name : M unit :=
  generate_key key_name (attributes Persistent RsaKeyPair 1024
    (usage false false false false false true true false false false)
    (Alg_AsymmetricEncryption RsaPkcs1v15Crypt)).

Definition generate_aes_keys_ccm key_name : M unit :=
  generate_key key_name (attributes Persistent Aes 192
    (usage false false false false false true true false false false)
    (Alg_Aead (Aead_WithDefaultLengthTag Ccm))).

Definition generate_rsa_encryption_keys_rsaoaep_sha256 key_name : M unit :=
  generate_key key_name (attributes Persistent RsaKeyPair 1024
    (usage false false false false false true true false false false)
    (Alg_AsymmetricEncryption (RsaOaep Sha256))).

Definition generate_rsa_encryption_keys_rsaoaep_sha1 key_name : M unit :=
  generate_key key_name (attributes Persistent RsaKeyPair 1024
    (usage false false false false false true true false false false)
    (Alg_AsymmetricEncryption (RsaOaep Sha1))).

Definition generate_ecc_key_pair_secpk1_deterministic_ecdsa_sha256 key_name : M unit :=
  generate_key key_name (attributes Persistent (EccKeyPair SecpK1) 256
    (usage true true true false false false false false false false)
    (Alg_AsymmetricSignature (DeterministicEcdsa (SignHash_Specific Sha256)))).

Definition generate_ecc_key_pair_secpr1_ecdsa_sha256 key_name : M unit :=
  generate_key key_name (attributes Persistent (EccKeyPair SecpR1) 256
    (usage true true true true false false false false false false)
    (Alg_AsymmetricSignature (Ecdsa (SignHash_Specific Sha256)))).

Definition generate_ecc_pair_secp_r1_key key_name : M unit :=
  generate_key key_name (attributes Volatile (EccKeyPair SecpR1) 256 usage_derive
    (Alg_KeyAgreement (KeyAgreement_Raw Ecdh))).

Definition import_key key_name (attributes : Attributes) (data : bytes) : M unit :=
  call (fun bc => bc_import_key bc key_name data attributes) ;;
  on_created_keys (fun k ks => {[k]} ∪ ks) key_name.

Definition import_rsa_key_pair_for_encryption key_name (data : bytes) : M unit :=
  import_key key_name (attributes Persistent RsaKeyPair 1024
    (usage false false false false false true true false false false)
    (Alg_AsymmetricEncryption RsaPkcs1v15Crypt)) data.

Definition import_rsa_public_key_for_encryption key_name (data : bytes) : M unit :=
  import_key key_name (attributes Persistent RsaPublicKey 1024
    (usage false false false true false true true false false false)
    (Alg_AsymmetricEncryption RsaPkcs1v15Crypt)) data.

Definition import_rsa_public_key key_name (data : bytes) : M unit :=
  import_key key_name (attributes Persistent RsaPublicKey 1024
    (usage false true false true false false false false false false)
    (Alg_AsymmetricSignature (RsaPkcs1v15Sign (SignHash_Specific Sha256)))) data.

Definition import_aes_key key_name (data : bytes) : M unit :=
  import_key key_name (attributes Persistent Aes 0
    (usage false false false false false true true false false false)
    (Alg_Aead (Aead_WithDefaultLengthTag Ccm))) data.

Definition import_ecc_pair_secp_r1_key key_name (data : bytes) : M unit :=
  import_key key_name (attributes Volatile (EccKeyPair SecpR1) 256 usage_derive
    (Alg_KeyAgreement (KeyAgreement_Raw Ecdh))) data.

Definition import_ecc_pair_brainpoolpr1_key key_name (data : bytes) : M unit :=
  import_key key_name (attributes Volatile (EccKeyPair BrainpoolPR1) 0 usage_derive
    (Alg_KeyAgreement (KeyAgreement_Raw Ecdh))) data.

Definition import_ecc_public_secp_r1_ecdsa_sha256_key key_name (data : bytes) : M unit :=
  import_key key_name (attributes Persistent (EccPublicKey SecpR1) 256
    (usage false true false true false false false false false false)
    (Alg_AsymmetricSignature (Ecdsa (SignHash_Specific Sha256)))) data.

Definition import_ecc_key_pair_secpr1_ecdsa_sha256 key_name (data : bytes) : M unit :=
  import_key key_name (attributes Persistent (EccKeyPair SecpR1) 256
    (usage true true true true false false false false false false)
    (Alg_AsymmetricSignature (Ecdsa (SignHash_Specific Sha256)))) data.

Definition export_key key_name : M bytes := call (fun bc => bc_export_key bc key_name).
Definition export_public_key key_name : M bytes :=
  call (fun bc => bc_export_public_key bc key_name).

Definition destroy_key key_name : M unit :=
  call (fun bc => bc_destroy_key bc key_name) ;;
  on_created_keys (fun k ks => ks ∖ {[k]}) key_name.

Definition sign key_name (alg : AsymmetricSignature) (hash : bytes) : M bytes :=
  call (fun bc => bc_sign_hash bc key_name hash alg).
Definition sign_with_rsa_sha256 key_name (hash : bytes) : M bytes :=
  sign key_name (RsaPkcs1v15Sign (SignHash_Specific Sha256)) hash.
Definition sign_with_ecdsa_sha256 key_name (hash : bytes) : M bytes :=
  sign key_name (Ecdsa (SignHash_Specific Sha256)) hash.

Definition verify key_name (alg : AsymmetricSignature) (hash signature : bytes) : M unit :=
  call (fun bc => bc_verify_hash bc key_name hash alg signature).
Definition verify_with_rsa_sha256 key_name (hash signature : bytes) : M unit :=
  verify key_name (RsaPkcs1v15Sign (SignHash_Specific Sha256)) hash signature.
Definition verify_with_ecdsa_sha256 key_name (hash signature : bytes) : M unit :=
  verify key_name (Ecdsa (SignHash_Specific Sha256)) hash signature.

Definition sign_msg key_name (alg : AsymmetricSignature) (msg : bytes) : M bytes :=
  call (fun bc => bc_sign_message bc key_name msg alg).
Definition sign_msg_with_ecdsa_sha256 key_name (msg : bytes) : M bytes :=
  sign_msg key_name (Ecdsa (SignHash_Specific Sha256)) msg.

Definition verify_msg key_name (alg : AsymmetricSignature) (msg signature : bytes) : M unit :=
  call (fun bc => bc_verify_message bc key_name msg alg signature).
Definition verify_msg_with_ecdsa_sha256 key_name (msg signature : bytes) : M unit :=
  verify_msg key_name (Ecdsa (SignHash_Specific Sha256)) msg signature.

Definition asymmetric_encrypt_message key_name (encryption_alg : AsymmetricEncryption)
    (plaintext : bytes) (salt : option bytes) : M bytes :=
  call (fun bc => bc_asymmetric_encrypt bc key_name encryption_alg plaintext salt).
Definition asymmetric_decrypt_message key_name (encryption_alg : AsymmetricEncryption)
    (ciphertext : bytes) (salt : option bytes) : M bytes :=
  call (fun bc => bc_asymmetric_decrypt bc key_name encryption_alg ciphertext salt).

Definition asymmetric_encrypt_message_with_rsapkcs1v15 key_name (plaintext : bytes) : M bytes :=
  asymmetric_encrypt_message key_name RsaPkcs1v15Crypt plaintext None.
Definition asymmetric_decrypt_message_with_rsapkcs1v15 key_name (ciphertext : bytes) : M bytes :=
  asymmetric_decrypt_message key_name RsaPkcs1v15Crypt ciphertext None.
Definition asymmetric_encrypt_message_with_rsaoaep_sha256 key_name (plaintext salt : bytes)
    : M bytes :=
  asymmetric_encrypt_message key_name (RsaOaep Sha256) plaintext (Some salt).
Definition asymmetric_decrypt_message_with_rsaoaep_sha256 key_name (ciphertext salt : bytes)
    : M bytes :=
  asymmetric_decrypt_message key_name (RsaOaep Sha256) ciphertext (Some salt).
Definition asymmetric_encrypt_message_with_rsaoaep_sha1 key_name (plaintext salt : bytes)
    : M bytes :=
  asymmetric_encrypt_message key_name (RsaOaep Sha1) plaintext (Some salt).
Definition asymmetric_decrypt_message_with_rsaoaep_sha1 key_name (ciphertext salt : bytes)
    : M bytes :=
  asymmetric_decrypt_message key_name (RsaOaep Sha1) ciphertext (Some salt).

Definition aead_encrypt_message key_name (encryption_alg : Aead)
    (nonce additional_data plaintext : bytes) : M bytes :=
  call (fun bc => bc_aead_encrypt bc key_name encryption_alg nonce additional_data plaintext).
Definition aead_decrypt_message key_name (encryption_alg : Aead)
    (nonce additional_data ciphertext : bytes) : M bytes :=
  call (fun bc => bc_aead_decrypt bc key_name encryption_alg nonce additional_data ciphertext).

Definition hash_compute (alg : Hash) (input : bytes) : M bytes :=
  call (fun bc => bc_hash_compute bc alg input).
Definition hash_compare (alg : Hash) (input hash : bytes) : M unit :=
  call (fun bc => bc_hash_compare bc alg input hash).
Definition raw_key_agreement (alg : RawKeyAgreement) (private_key : string) (peer_key : bytes)
    : M bytes :=
  call (fun bc => bc_raw_key_agreement bc alg private_key peer_key).

Definition list_providers : M (list ProviderInfo) := call bc_list_providers.
Definition list_authenticators : M (list AuthenticatorInfo) := call bc_list_authenticators.
Definition list_opcodes (provider_id : ProviderId) : M (gset Opcode) :=
  call (fun bc => bc_list_opcodes bc provider_id).
Definition list_keys : M (list ListedKey) := call bc_list_keys.
Definition list_clients : M (list string) := call bc_list_clients.
Definition delete_client (client : string) : M unit :=
  call (fun bc => bc_delete_client bc client).
Definition ping : M (Z * Z) := call bc_ping.

Definition is_operation_supported (op : Opcode) : M bool :=
  p ← own (gets provider);
  opcodes ← expect (list_opcodes p);
  mret (bool_decide (op ∈ opcodes)).

(** One turn of the loop of [Drop::drop].  A key that the service refuses to destroy is
    logged: the keys are gathered whose names the messages have. *)
Definition drop_key (logged : list created_key) (k : created_key) : M (list created_key) :=
  let '(key_name, auth, provider) := k in
  set_provider provider ;;
  set_default_auth auth ;;
  r ← caught (destroy_key key_name);
  mret (if is_ok r then logged else logged ++ [k]).

Fixpoint drop_keys (logged : list created_key) (ks : list created_key) : M (list created_key) :=
  match ks with
  | [] => mret logged
  | k :: ks' => logged' ← drop_key logged k; drop_keys logged' ks'
  end.

(** [Drop::drop]: the loop is over a copy of the set, in the order [iter] of its
    iterator.  The value is what was logged, and nothing if there was no loop because of
    [do_not_destroy_keys]. *)
Definition drop (iter : gset created_key -> list created_key) : M (option (list created_key)) :=
  fun s =>
  match created_keys s with
  | Some ks => (logged ← drop_keys [] (iter ks); mret (Some logged)) s
  | None => Ret (Ok None, s)
  end.

(** How the life of a client ends: it was not created; what uses it returned, failed or
    panicked, and it was dropped; it panicked when it was dropped; or it did so while it
    was dropped because of a panic, which takes the process with it. *)
Inductive ended (A : Type) :=
  | NotCreated
  | Returned (a : A) (logged : option (list created_key))
  | Failed (e : ResponseStatus) (logged : option (list created_key))
  | Panicked (logged : option (list created_key))
  | DropPanicked
  | Aborted.
Arguments NotCreated {A}.
Arguments Returned {A}.
Arguments Failed {A}.
Arguments Panicked {A}.
Arguments DropPanicked {A}.
Arguments Aborted {A}.

(** The end, from the outcome of what uses the client and that of dropping it. *)
Definition ending {A : Type} (r : result ResponseStatus A)
    (d : result ResponseStatus (option (list created_key))) : ended A :=
  match r, d with
  | Ok a, Ok logged => Returned a logged
  | Err e, Ok logged => Failed e logged
  | Panic, Ok logged => Panicked logged
  | Panic, _ => Aborted
  | _, _ => DropPanicked
  end.

(** A client is created, used and dropped. *)
Definition scope {A : Type} (iter : gset created_key -> list created_key) (m : M A)
    : prog W (ended A) :=
  prog_bind new (fun created =>
    match created with
    | Ok s =>
      prog_bind (m s) (fun '(r, s') => prog_bind (drop iter s') (fun '(d, _) => Ret (ending r d)))
    | _ => Ret NotCreated
    end).
End Client.
Arguments NotCreated {A}.
Arguments Returned {A}.
Arguments Failed {A}.
Arguments Panicked {A}.
Arguments DropPanicked {A}.
Arguments Aborted {A}.
End TestClient.
