(* ===== verification/TestClientSpec.v ===== *)
(** * What the test client leaves behind

    Proved for any [BasicClient] whose calls have the documented effect on the keys
    the service holds ([BasicClientLaws]), while other clients are at work under
    other application names: a test written against the client leaves no key of its own
    with the service except those the service refused to destroy, unless it asked for its
    keys to be kept. *)
From S2P Require Import Prelude RustStd Interface Threads TestClient.
Import TestClient.

(** The name a client authenticates with directly. *)
Definition direct_name {BC W} `{BasicClient BC W} (bc : BC) : option string :=
  match auth_data bc with
  | Authentication_Direct app_name => Some app_name
  | Authentication_other _ => None
  end.
Definition named {BC W} `{BasicClient BC W} (bc : BC) (key_name : string) : created_key :=
  (key_name, direct_name bc, implicit_provider bc).

(** What a call does to the keys of the service: nothing, whatever its outcome. *)
Definition queries {BC W A : Type} (keys : W -> gset created_key)
    (m : BC -> ST W ClientError A) : Prop :=
  forall bc w, (m bc w).1 <> Panic /\ keys (m bc w).2 = keys w.
(** It creates the key; an error of the service means that it did not, after an error
    of the client it may have been created. *)
Definition creates {W : Type} (keys : W -> gset created_key) (k : created_key)
    (m : ST W ClientError unit) : Prop := forall w,
  match m w with
  | (Ok _, w') => (k ∉ keys w) /\ keys w' = {[k]} ∪ keys w
  | (Err (Service _), w') => keys w' = keys w
  | (Err (Client _), w') => keys w' = keys w \/ keys w' = {[k]} ∪ keys w
  | (Panic, _) => False
  end.

Class BasicClientLaws (BC W : Type) `{BasicClient BC W} := {
  (** the keys the service holds, by the names this program has for them *)
  service_keys : W -> gset created_key;
  (** the service uses the direct authenticator *)
  direct_service : bool;
  bc_new_spec name w : match bc_new name w with
    | (Ok bc, w') => direct_name bc = (if direct_service then name else None) /\
        service_keys w' = service_keys w
    | (Err _, w') => service_keys w' = service_keys w
    | (Panic, _) => False
    end;
  bc_set_provider_spec p bc : implicit_provider (set_implicit_provider p bc) = p /\
    direct_name (set_implicit_provider p bc) = direct_name bc;
  (** the name is needed with the direct authenticator and ignored otherwise *)
  bc_set_default_auth_spec name bc w :
    let '(r, (bc', w')) := bc_set_default_auth name (bc, w) in
    implicit_provider bc' = implicit_provider bc /\ service_keys w' = service_keys w /\
    match r with
    | Ok _ => if direct_service then is_Some name /\ direct_name bc' = name
              else direct_name bc' = None
    | Err _ => direct_name bc' = direct_name bc
    | Panic => False
    end;
  bc_generate_spec bc n a : creates service_keys (named bc n) (bc_generate_key bc n a);
  bc_import_spec bc n d a : creates service_keys (named bc n) (bc_import_key bc n d a);
  bc_destroy_spec bc n w : match bc_destroy_key bc n w with
    | (Ok _, w') => service_keys w' = service_keys w ∖ {[named bc n]}
    | (Err _, w') => service_keys w' = service_keys w \/
        service_keys w' = service_keys w ∖ {[named bc n]}
    | (Panic, _) => False
    end;
  bc_delete_client_spec bc c w : (bc_delete_client bc c w).1 <> Panic /\
    service_keys (bc_delete_client bc c w).2 ⊆ service_keys w;
  bc_list_providers_spec : queries service_keys bc_list_providers;
  bc_list_authenticators_spec : queries service_keys bc_list_authenticators;
  bc_list_opcodes_spec p : queries service_keys (fun bc => bc_list_opcodes bc p);
  bc_list_keys_spec : queries service_keys bc_list_keys;
  bc_list_clients_spec : queries service_keys bc_list_clients;
  bc_ping_spec : queries service_keys bc_ping;
  bc_export_key_spec n : queries service_keys (fun bc => bc_export_key bc n);
  bc_export_public_key_spec n : queries service_keys (fun bc => bc_export_public_key bc n);
  bc_sign_hash_spec n h a : queries service_keys (fun bc => bc_sign_hash bc n h a);
  bc_verify_hash_spec n h a s : queries service_keys (fun bc => bc_verify_hash bc n h a s);
  bc_sign_message_spec n h a : queries service_keys (fun bc => bc_sign_message bc n h a);
  bc_verify_message_spec n h a s : queries service_keys (fun bc => bc_verify_message bc n h a s);
  bc_asymmetric_encrypt_spec n a p s :
    queries service_keys (fun bc => bc_asymmetric_encrypt bc n a p s);
  bc_asymmetric_decrypt_spec n a p s :
    queries service_keys (fun bc => bc_asymmetric_decrypt bc n a p s);
  bc_aead_encrypt_spec n a x y z : queries service_keys (fun bc => bc_aead_encrypt bc n a x y z);
  bc_aead_decrypt_spec n a x y z : queries service_keys (fun bc => bc_aead_decrypt bc n a x y z);
  bc_hash_compute_spec a x : queries service_keys (fun bc => bc_hash_compute bc a x);
  bc_hash_compare_spec a x y : queries service_keys (fun bc => bc_hash_compare bc a x y);
  bc_raw_key_agreement_spec a n x : queries service_keys (fun bc => bc_raw_key_agreement bc a n x);
  bc_generate_random_spec n : queries service_keys (fun bc => bc_generate_random bc n);
}.

(** ** Programs that use the client *)
Section Code.
Context {BC W : Type} `{BasicClientLaws BC W}.
Abbreviation M A := (TH W (TestClient BC) ResponseStatus A).

(** What a test can do with a client: everything, [do_not_destroy_keys] when [keeping] is
    true; a test that shares the service with others may change to application names of
    its own only, and deletes no clients. *)
Inductive client_code (mine : option string -> Prop) (keeping : bool) : forall A, M A -> Prop :=
  | cc_ret A (a : A) : client_code mine keeping A (mret a)
  | cc_lift A (r : result ResponseStatus A) : client_code mine keeping A (own (lift r))
  | cc_gets A (f : TestClient BC -> A) : client_code mine keeping A (own (gets f))
  | cc_bind A B (m : M A) (k : A -> M B) : client_code mine keeping A m ->
      (forall a, client_code mine keeping B (k a)) -> client_code mine keeping B (x ← m; k x)
  | cc_caught A (m : M A) : client_code mine keeping A m -> client_code mine keeping _ (caught m)
  | cc_query A (m : BC -> ST W ClientError A) : queries service_keys m ->
      client_code mine keeping A (call m)
  | cc_generate n a : client_code mine keeping unit (generate_key n a)
  | cc_import n a d : client_code mine keeping unit (import_key n a d)
  | cc_destroy n : client_code mine keeping unit (destroy_key n)
  | cc_set_provider p : client_code mine keeping unit (set_provider p)
  | cc_set_default_auth name : mine (if direct_service then name else None) ->
      client_code mine keeping unit (set_default_auth name)
  | cc_delete_client c : (forall a, mine a) -> client_code mine keeping unit (delete_client c)
  | cc_keep : keeping = true -> client_code mine keeping unit do_not_destroy_keys.
End Code.
#[global] Arguments client_code {BC W H H0} mine keeping {A} m.
Create HintDb client.
#[export] Hint Resolve bc_list_providers_spec bc_list_authenticators_spec bc_list_opcodes_spec
  bc_list_keys_spec bc_list_clients_spec bc_ping_spec bc_export_key_spec bc_export_public_key_spec
  bc_sign_hash_spec bc_verify_hash_spec bc_sign_message_spec bc_verify_message_spec
  bc_asymmetric_encrypt_spec bc_asymmetric_decrypt_spec bc_aead_encrypt_spec bc_aead_decrypt_spec
  bc_hash_compute_spec bc_hash_compare_spec bc_raw_key_agreement_spec bc_generate_random_spec
  : client.

(** Every method of the client is such code. *)
Create HintDb client_api.
#[export] Hint Unfold generate_bytes generate_rsa_sign_key generate_long_rsa_sign_key
  generate_rsa_encryption_keys_rsapkcs1v15crypt generate_aes_keys_ccm
  generate_rsa_encryption_keys_rsaoaep_sha256 generate_rsa_encryption_keys_rsaoaep_sha1
  generate_ecc_key_pair_secpk1_deterministic_ecdsa_sha256
  generate_ecc_key_pair_secpr1_ecdsa_sha256 generate_ecc_pair_secp_r1_key
  import_rsa_key_pair_for_encryption import_rsa_public_key_for_encryption import_rsa_public_key
  import_aes_key import_ecc_pair_secp_r1_key import_ecc_pair_brainpoolpr1_key
  import_ecc_public_secp_r1_ecdsa_sha256_key import_ecc_key_pair_secpr1_ecdsa_sha256 export_key
  export_public_key sign sign_with_rsa_sha256 sign_with_ecdsa_sha256 verify
  verify_with_rsa_sha256 verify_with_ecdsa_sha256 sign_msg sign_msg_with_ecdsa_sha256
  verify_msg verify_msg_with_ecdsa_sha256 asymmetric_encrypt_message asymmetric_decrypt_message
  asymmetric_encrypt_message_with_rsapkcs1v15 asymmetric_decrypt_message_with_rsapkcs1v15
  asymmetric_encrypt_message_with_rsaoaep_sha256 asymmetric_decrypt_message_with_rsaoaep_sha256
  asymmetric_encrypt_message_with_rsaoaep_sha1 asymmetric_decrypt_message_with_rsaoaep_sha1
  aead_encrypt_message aead_decrypt_message hash_compute hash_compare raw_key_agreement
  list_providers list_authenticators list_opcodes list_keys list_clients ping : client_api.
Ltac client_code_tac :=
  repeat first
    [ progress intros
    | progress autounfold with client_api
    | match goal with
      | |- client_code _ _ (let '(_, _) := ?x in _) => destruct x
      | |- client_code _ _ (match ?x with _ => _ end) => destruct x
      end
    | apply cc_generate | apply cc_import | apply cc_destroy | apply cc_set_provider
    | apply cc_bind | apply cc_caught | apply cc_ret | apply cc_lift | apply cc_gets
    | solve [apply cc_query; auto with client] ].

Section Spec.
Context {BC W : Type} `{BasicClientLaws BC W}.
(** The application names that no other client uses, and whether the test may ask for
    its keys to be kept. *)
Context (mine : option string -> Prop) (keeping : bool).
Abbreviation M A := (TH W (TestClient BC) ResponseStatus A).
Abbreviation code := (client_code mine keeping).
Implicit Types (s : TestClient BC) (w : W) (base ks : gset created_key).

Definition app_of (k : created_key) : option string := k.1.2.

(** Others leave the keys of these applications alone, and we those of others. *)
Definition others w w' : Prop :=
  forall k, mine (app_of k) -> k ∈ service_keys w' <-> k ∈ service_keys w.
Definition ours w w' : Prop :=
  forall k, ~ mine (app_of k) -> k ∈ service_keys w' <-> k ∈ service_keys w.
#[export] Instance others_preorder : PreOrder others.
Proof.
  split; [by intros w k|]. intros w1 w2 w3 H1 H2 k Hk. etrans; [by apply H2|by apply H1].
Qed.
Lemma ours_same w w' : service_keys w' = service_keys w -> ours w w'.
Proof. intros Hw k _. by rewrite Hw. Qed.

Definition proper_name (a : option string) : Prop := mine a /\ (direct_service = false -> a = None).

(** The client remembers every key of its applications that was not there when it
    started, unless it keeps them. *)
Definition tracks base s w : Prop :=
  match created_keys s with
  | Some ks => (forall k, k ∈ ks -> proper_name (app_of k)) /\
      forall k, mine (app_of k) -> k ∈ service_keys w -> k ∈ base \/ k ∈ ks
  | None => keeping = true
  end.
(** It also uses one of its application names. *)
Record tidy base s w : Prop := {
  td_name : proper_name (get_direct_auth s);
  td_keys : tracks base s w;
}.

Lemma tracks_others base s w w' : tracks base s w -> others w w' -> tracks base s w'.
Proof.
  unfold tracks. destruct (created_keys s) as [ks|]; [|done]. intros [Hp Ht] Ho.
  split; [done|]. intros k Hk Hin. apply Ht; [done|]. by apply Ho.
Qed.
Lemma tidy_others base s w w' : tidy base s w -> others w w' -> tidy base s w'.
Proof. intros [Hn Ht] Ho. split; [done|]. by eapply tracks_others. Qed.
(** Fewer keys are no trouble. *)
Lemma tracks_fewer base s w w' :
  tracks base s w -> (forall k, mine (app_of k) -> k ∈ service_keys w' -> k ∈ service_keys w) ->
  tracks base s w'.
Proof.
  unfold tracks. destruct (created_keys s) as [ks|]; [|done]. intros [Hp Ht] Hw. split; [done|].
  intros k Hk Hin. apply Ht; [done|]. by apply Hw.
Qed.

(** After a panic one key may be there that the client does not remember: the one whose
    creation was not confirmed. *)
Definition but_one base s w : Prop := exists k, tracks (base ∪ {[k]}) s w.
Definition after {A} base (x : result ResponseStatus A * TestClient BC) w : Prop :=
  match x.1 with
  | Panic => but_one base x.2 w
  | _ => tidy base x.2 w
  end.
Definition keeps_tidy {A} (m : M A) : Prop := forall base s w, tidy base s w ->
  rg others ours (after base) (m s) w.

Lemma tracks_but_one base s w : tracks base s w -> but_one base s w.
Proof.
  intros Ht. exists (""%string, None, Core). unfold tracks in *.
  destruct (created_keys s) as [ks|]; [|done]. destruct Ht as [Hp Ht]. split; [done|].
  intros k Hk Hin. destruct (Ht k Hk Hin); set_solver.
Qed.
Lemma after_tidy {A} base (r : result ResponseStatus A) s w : tidy base s w -> after base (r, s) w.
Proof. intros Ht. destruct r; [done..|]. by apply tracks_but_one, Ht. Qed.
Lemma after_panic {A} base s w : but_one base s w -> after (A := A) base (Panic, s) w.
Proof. done. Qed.
Lemma after_others {A} base (x : result ResponseStatus A * TestClient BC) w w' :
  after base x w -> others w w' -> after base x w'.
Proof.
  unfold after. intros Hx Ho. destruct x.1; [by eapply tidy_others..|].
  destruct Hx as [k Hk]. exists k. by eapply tracks_others.
Qed.
Lemma after_ret {A} base (r : result ResponseStatus A) s w :
  after base (r, s) w -> rg others ours (after base) (Ret (r, s)) w.
Proof. intros Hx w' Ho. by eapply after_others. Qed.
Lemma tidy_ret {A} base (r : result ResponseStatus A) s w :
  tidy base s w -> rg others ours (after base) (Ret (r, s)) w.
Proof. intros Ht. by apply after_ret, after_tidy. Qed.
Hint Resolve after_tidy after_panic after_ret tidy_ret tidy_others tracks_but_one : core.

Lemma keeps_own {A} (m : ST (TestClient BC) ResponseStatus A) :
  (forall base s w, tidy base s w -> tidy base (m s).2 w) -> keeps_tidy (own m).
Proof.
  intros Hm base s w Ht. unfold own. specialize (Hm base s w Ht). destruct (m s) as [r s'].
  by apply tidy_ret.
Qed.

Lemma keeps_bind {A B} (m : M A) (k : A -> M B) :
  keeps_tidy m -> (forall a, keeps_tidy (k a)) -> keeps_tidy (x ← m; k x).
Proof.
  intros Hm Hk base s w Ht. unfold mbind, TH_bind. apply rg_bind; [apply _|].
  refine (rg_mono _ _ _ _ _ _ (Hm base s w Ht) _). intros [[a|e|] s'] w' Hx.
  - by apply Hk.
  - by apply tidy_ret.
  - by apply after_ret.
Qed.

Lemma keeps_caught {A} (m : M A) : keeps_tidy m -> keeps_tidy (caught (F := ResponseStatus) m).
Proof.
  intros Hm base s w Ht. unfold caught. apply rg_bind; [apply _|].
  refine (rg_mono _ _ _ _ _ _ (Hm base s w Ht) _).
  intros [[a|e|] s'] w' Hx; [by apply tidy_ret..|by apply after_ret].
Qed.

(** A call whose effect on the keys is within the client's own. *)
Lemma keeps_call {A} (m : BC -> ST W ClientError A) base s w :
  (forall w', others w w' ->
     let x := m (basic_client s) w' in ours w' x.2 /\ tidy base s x.2) ->
  rg others ours (after base) (call m s) w.
Proof.
  intros Hm. unfold call. apply rg_bind; [apply _|]. apply rg_atomic. intros w' Hw.
  destruct (Hm w' Hw) as [Ho Ht]. split; [done|]. intros w2 Hw2. apply tidy_ret. eauto.
Qed.

Lemma keeps_query {A} (m : BC -> ST W ClientError A) :
  queries service_keys m -> keeps_tidy (call m).
Proof.
  intros Hq base s w Ht. apply keeps_call. intros w' Hw.
  destruct (Hq (basic_client s) w') as [_ Hk].
  split; [by apply ours_same|]. apply (tidy_others _ _ _ _ Ht).
  intros k Hm. rewrite Hk. by apply Hw.
Qed.

Lemma ours_insert w w' k :
  mine (app_of k) -> service_keys w' = {[k]} ∪ service_keys w -> ours w w'.
Proof. intros Hk Hw k' Hk'. rewrite Hw. assert (k' <> k) by congruence. set_solver. Qed.

Lemma ours_delete w w' k :
  mine (app_of k) -> service_keys w' = service_keys w ∖ {[k]} -> ours w w'.
Proof. intros Hk Hw k' Hk'. rewrite Hw. assert (k' <> k) by congruence. set_solver. Qed.

(** A key was created: the client has to remember it, or there is one too many. *)
Lemma tracks_created base s w w' k :
  tracks base s w -> service_keys w' = {[k]} ∪ service_keys w -> but_one base s w'.
Proof.
  intros Ht Hw. exists k. unfold tracks in *. destruct (created_keys s) as [ks|]; [|done].
  destruct Ht as [Hp Ht]. split; [done|]. intros k' Hk'. rewrite Hw.
  intros [->%elem_of_singleton|Hin]%elem_of_union; [set_solver|].
  destruct (Ht k' Hk' Hin); set_solver.
Qed.
Lemma tracks_remembered base s w w' n :
  tidy base s w -> service_keys w' = {[named (basic_client s) n]} ∪ service_keys w ->
  tidy base {| basic_client := basic_client s;
               created_keys := (fun ks => {[remembered s n]} ∪ ks) <$> created_keys s |} w'.
Proof.
  intros [Hn Ht] Hw. split; [done|]. unfold tracks in *. cbn [created_keys].
  destruct (created_keys s) as [ks|]; [|done]. destruct Ht as [Hp Ht]. split.
  - intros k [->%elem_of_singleton|Hin]%elem_of_union; [done|by apply Hp].
  - intros k Hk. rewrite Hw. intros [Hin|Hin]%elem_of_union; [right; by apply elem_of_union_l|].
    destruct (Ht k Hk Hin) as [?|?]; [by left|right; by apply elem_of_union_r].
Qed.

(** Creating a key and remembering it. *)
Lemma keeps_creating (m : BC -> ST W ClientError unit) n :
  (forall bc, creates service_keys (named bc n) (m bc)) ->
  keeps_tidy (call m ;; on_created_keys (fun k ks => {[k]} ∪ ks) n).
Proof.
  intros Hm base s w Ht w' Hw. apply (tidy_others _ _ _ w') in Ht; [|done].
  specialize (Hm (basic_client s) w').
  assert (Hk : mine (app_of (named (basic_client s) n))) by apply Ht.
  simpl. destruct (m (basic_client s) w') as [[u|[e|e]|] w2]; simpl.
  - destruct Hm as [_ Hm]. split; [by eapply ours_insert|].
    intros w3 Hw3. apply after_tidy. apply (tidy_others _ _ w2); [|done].
    by eapply tracks_remembered.
  - split; [by apply ours_same|]. intros w3 Hw3. apply after_tidy.
    apply (tidy_others _ _ w2); [|done]. split; [apply Ht|].
    apply (tracks_fewer _ _ w'); [apply Ht|]. intros k _. by rewrite Hm.
  - assert (Hb : but_one base s w2).
    { destruct Hm as [Hm|Hm]; [|eapply tracks_created; [apply Ht|done]].
      apply tracks_but_one, (tracks_fewer _ _ w'); [apply Ht|]. intros k _. by rewrite Hm. }
    split; [|by intros w3 Hw3; apply (after_others _ (Panic, s) w2)].
    destruct Hm as [Hm|Hm]; [by apply ours_same|by eapply ours_insert].
  - done.
Qed.

Lemma keeps_destroy n : keeps_tidy (destroy_key n).
Proof.
  intros base s w Ht w' Hw. apply (tidy_others _ _ _ w') in Ht; [|done].
  pose proof (bc_destroy_spec (basic_client s) n w') as Hm.
  assert (Hk : mine (app_of (named (basic_client s) n))) by apply Ht.
  assert (Hours : forall w2, service_keys w2 = service_keys w' \/
    service_keys w2 = service_keys w' ∖ {[named (basic_client s) n]} ->
    ours w' w2 /\ tidy base s w2).
  { intros w2 Hw2. split; [destruct Hw2; [by apply ours_same|by eapply ours_delete]|].
    split; [apply Ht|]. apply (tracks_fewer _ _ w'); [apply Ht|]. intros k _. set_solver. }
  simpl. destruct (bc_destroy_key (basic_client s) n w') as [[u|e|] w2]; simpl; [| |done].
  - split; [by apply Hours; right|]. intros w3 Hw3. apply after_tidy.
    apply (tidy_others _ _ w2); [|done]. destruct Ht as [Hn Ht]. split; [done|].
    unfold tracks in *. cbn [created_keys]. destruct (created_keys s) as [ks|]; [|done].
    destruct Ht as [Hp Ht]. split; [intros k Hin; apply Hp; set_solver|].
    intros k Hk'. rewrite Hm. intros [Hin Hne]%elem_of_difference.
    destruct (Ht k Hk' Hin) as [?|?]; [by left|right; by apply elem_of_difference].
  - destruct (Hours w2 Hm) as [Ho Ht2]. split; [done|]. destruct e; simpl; by apply tidy_ret.
Qed.

Lemma keeps_set_provider p : keeps_tidy (set_provider p).
Proof.
  apply keeps_own. intros base s w [Hn Hk]. split; [|done].
  unfold get_direct_auth. simpl. destruct (bc_set_provider_spec p (basic_client s)) as [_ Hd].
  unfold direct_name in Hd. by rewrite Hd.
Qed.

(** Changing to a name of its own makes a client tidy that was under another name. *)
Lemma set_default_auth_tidies name base s w :
  mine (if direct_service then name else None) -> tracks base s w ->
  rg others ours (after base) (set_default_auth name s) w.
Proof.
  intros Hmine Ht w' Hw. apply (tracks_others _ _ _ w') in Ht; [|done].
  pose proof (bc_set_default_auth_spec name (basic_client s) w') as Hs. simpl.
  destruct (bc_set_default_auth name (basic_client s, w')) as [r [bc w2]]. simpl.
  destruct Hs as (_ & Hk & Hr). split; [by apply ours_same|].
  assert (Ht2 : tracks base (set_basic_client bc s) w2).
  { apply (tracks_fewer _ _ w'); [done|]. intros k _. by rewrite Hk. }
  intros w3 Hw3. apply (after_others _ _ w2); [|done].
  destruct r as [u|e|]; simpl in *; [|by apply tracks_but_one|done]. split; [|done].
  assert (Hd : get_direct_auth (set_basic_client bc s) = if direct_service then name else None)
    by (destruct direct_service; apply Hr).
  change (proper_name (get_direct_auth (set_basic_client bc s))). rewrite Hd.
  split; [done|]. by intros ->.
Qed.

Lemma keeps_delete_client c : (forall a, mine a) -> keeps_tidy (delete_client c).
Proof.
  intros Hall base s w Ht. apply keeps_call. intros w' Hw.
  destruct (bc_delete_client_spec (basic_client s) c w') as [_ Hk].
  split; [intros k Hk'; by destruct (Hk' (Hall _))|].
  apply (tidy_others _ _ _ w') in Ht; [|done]. split; [apply Ht|].
  apply (tracks_fewer _ _ w'); [apply Ht|]. intros k _. apply Hk.
Qed.

Lemma code_keeps {A} (m : M A) : code m -> keeps_tidy m.
Proof.
  induction 1.
  - by intros base s w; apply tidy_ret.
  - by apply keeps_own.
  - by apply keeps_own.
  - by apply keeps_bind.
  - by apply keeps_caught.
  - by apply keeps_query.
  - apply keeps_creating. intros bc. apply bc_generate_spec.
  - apply keeps_creating. intros bc. apply bc_import_spec.
  - apply keeps_destroy.
  - apply keeps_set_provider.
  - intros base s w [_ Ht]. by apply set_default_auth_tidies.
  - by apply keeps_delete_client.
  - apply keeps_own. by intros base s w [Hn _].
Qed.

(** ** Dropping the client *)
(** The keys that were not there before are still to be destroyed, or logged. *)
Definition left_over base (l logged : list created_key) w : Prop :=
  forall k, mine (app_of k) -> k ∈ service_keys w -> k ∈ base \/ k ∈ l \/ k ∈ logged.

Lemma left_over_others base l logged w w' :
  left_over base l logged w -> others w w' -> left_over base l logged w'.
Proof. intros Hl Ho k Hk Hin. apply Hl; [done|]. by apply Ho. Qed.

Lemma drop_key_spec base l logged k s w :
  proper_name (app_of k) -> left_over base (k :: l) logged w ->
  rg others ours (fun x w' => if x.1 is Ok logged' then left_over base l logged' w' else True)
    (drop_key logged k s) w.
Proof.
  destruct k as [[n a] p]. intros [Hmine Hdir] Hl w1 Hw1.
  apply (left_over_others _ _ _ _ w1) in Hl; [|done]. simpl.
  set (bc0 := set_implicit_provider p (basic_client s)).
  pose proof (bc_set_default_auth_spec a bc0 w1) as Hs.
  destruct (bc_set_default_auth a (bc0, w1)) as [r [bc w2]]. simpl.
  destruct Hs as (Hp & Hk & Hr). split; [by apply ours_same|].
  destruct r as [u|e|]; [|done|done]. simpl. intros w3 Hw3.
  assert (Hname : named bc n = (n, a, p)).
  { unfold named. rewrite Hp. unfold bc0. rewrite (proj1 (bc_set_provider_spec p (basic_client s))).
    f_equal. f_equal. destruct direct_service; [apply Hr|]. rewrite Hr. symmetry. by apply Hdir. }
  assert (Hl3 : left_over base ((n, a, p) :: l) logged w3).
  { apply (left_over_others _ _ _ w2); [|done]. intros k. rewrite Hk. apply Hl. }
  pose proof (bc_destroy_spec bc n w3) as Hd. rewrite Hname in Hd.
  destruct (bc_destroy_key bc n w3) as [[u'|e|] w4]; simpl; [| |done].
  - split; [by eapply (ours_delete _ _ (n, a, p))|]. intros w5 Hw5.
    refine (left_over_others _ _ _ w4 _ _ Hw5). intros k Hk4 Hin. rewrite Hd in Hin.
    apply elem_of_difference in Hin as [Hin Hne%not_elem_of_singleton].
    destruct (Hl3 k Hk4 Hin) as [?|[[?|?]%elem_of_cons|?]]; auto. done.
  - assert (Ho : ours w3 w4) by (destruct Hd as [Hd|Hd];
      [by apply ours_same|by eapply (ours_delete _ _ (n, a, p))]).
    split; [done|]. destruct e as [e|e]; simpl; [|done]. intros w5 Hw5.
    refine (left_over_others _ _ _ w4 _ _ Hw5). intros k Hk4 Hin.
    assert (Hin3 : k ∈ service_keys w3) by (destruct Hd as [Hd|Hd]; rewrite Hd in Hin; set_solver).
    destruct (Hl3 k Hk4 Hin3) as [?|[[->|?]%elem_of_cons|?]]; auto; right; right;
      apply elem_of_app; [right; left|by left].
Qed.

Lemma drop_keys_spec base l : forall logged s w,
  (forall k, k ∈ l -> proper_name (app_of k)) -> left_over base l logged w ->
  rg others ours (fun x w' => if x.1 is Ok logged' then left_over base [] logged' w' else True)
    (drop_keys logged l s) w.
Proof.
  induction l as [|k l IH]; intros logged s w Hp Hl.
  - intros w' Hw'. by eapply left_over_others.
  - cbn [drop_keys]. unfold mbind, TH_bind. apply rg_bind; [apply _|].
    refine (rg_mono _ _ _ _ _ _ (drop_key_spec base l logged k s w _ Hl) _).
    { apply Hp. left. }
    intros [[logged'|e|] s'] w' Hx; [|by intros w2 _..]. apply IH; [|done].
    intros k' Hin. apply Hp. by right.
Qed.

(** ** The life of a client *)
(** What is left when the client was dropped: what was there before and what was logged,
    unless the client was to keep its keys. *)
Definition dropped base (logged : option (list created_key)) w : Prop :=
  match logged with
  | Some logged => left_over base [] logged w
  | None => keeping = true
  end.
Lemma dropped_others base logged w w' :
  dropped base logged w -> others w w' -> dropped base logged w'.
Proof. destruct logged; simpl; intros Hl Ho; [by eapply left_over_others|done]. Qed.

Definition ends_clean {A} base (x : ended A) w : Prop :=
  match x with
  | NotCreated => left_over base [] [] w
  | Returned _ logged | Failed _ logged => dropped base logged w
  | Panicked logged => exists k, dropped (base ∪ {[k]}) logged w
  | DropPanicked | Aborted => True
  end.

Lemma ends_clean_others {A} base (x : ended A) w w' :
  ends_clean base x w -> others w w' -> ends_clean base x w'.
Proof.
  destruct x; simpl; intros Hl Ho; try done; try (by eapply dropped_others);
    [by eapply left_over_others|]. destruct Hl as [k Hk]. exists k. by eapply dropped_others.
Qed.

(** What uses the client has to be right from where a client starts. *)
Definition root_name : option string := if direct_service then Some "root" else None.
Definition from_root {A} (m : M A) : Prop := forall base s w,
  tracks base s w -> get_direct_auth s = root_name -> rg others ours (after base) (m s) w.

Lemma from_root_code {A} (m : M A) : mine root_name -> code m -> from_root m.
Proof.
  intros Hroot Hm%code_keeps base s w Ht Hn. apply Hm. split; [|done]. rewrite Hn.
  split; [done|]. unfold root_name. by intros ->.
Qed.

Lemma from_root_bind {A B} (m : M A) (k : A -> M B) :
  from_root m -> (forall a, code (k a)) -> from_root (x ← m; k x).
Proof.
  intros Hm Hk base s w Ht Hn. unfold mbind, TH_bind. apply rg_bind; [apply _|].
  refine (rg_mono _ _ _ _ _ _ (Hm base s w Ht Hn) _). intros [[a|e|] s'] w' Hx.
  - by apply (code_keeps _ (Hk a)).
  - by apply tidy_ret.
  - by apply after_ret.
Qed.

Lemma from_root_renamed {A} name (m : M A) :
  mine (if direct_service then name else None) -> code m ->
  from_root (set_default_auth name ;; m).
Proof.
  intros Hname Hm. apply from_root_bind; [|done]. intros base s w Ht _.
  by apply set_default_auth_tidies.
Qed.

Lemma new_spec w : rg others ours (fun r w' => if r is Ok s then
    tracks (service_keys w) s w' /\ get_direct_auth s = root_name
    else left_over (service_keys w) [] [] w') new w.
Proof.
  intros w1 Hw1. simpl. pose proof (bc_new_spec (Some "root") w1) as Hn.
  assert (Hold : forall w2 w3, service_keys w2 = service_keys w1 -> others w2 w3 ->
    forall k, mine (app_of k) -> k ∈ service_keys w3 -> k ∈ service_keys w).
  { intros w2 w3 Hk Hw3 k Hk' Hin. apply Hw1; [done|]. rewrite <- Hk. by apply Hw3. }
  destruct (bc_new (Some "root") w1) as [[bc|e|] w2]; simpl; [| |done].
  - destruct Hn as [Hd Hk]. split; [by apply ours_same|]. intros w3 Hw3. split; [|exact Hd].
    split; [set_solver|]. intros k Hk' Hin. left. by eapply Hold.
  - split; [by apply ours_same|]. intros w3 Hw3 k Hk' Hin. left. by eapply Hold.
Qed.

Context (iter : gset created_key -> list created_key).
Context (Hiter : forall ks, iter ks ≡ₚ elements ks).

Lemma drop_tracks base s w :
  tracks base s w ->
  rg others ours (fun x w' => if x.1 is Ok logged then dropped base logged w' else True)
    (drop iter s) w.
Proof.
  unfold tracks, drop. destruct (created_keys s) as [ks|]; [|by intros Hk w' _].
  intros [Hp Ht]. unfold mbind, TH_bind. apply rg_bind; [apply _|].
  refine (rg_mono _ _ _ _ _ _ (drop_keys_spec base (iter ks) [] s w _ _) _).
  - intros k Hin. apply Hp. by rewrite Hiter, elem_of_elements in Hin.
  - intros k Hk Hin. destruct (Ht k Hk Hin) as [?|?]; [by left|]. right. left.
    by rewrite Hiter, elem_of_elements.
  - intros [[logged|e|] s'] w' Hl w2 Hw2; simpl in *; [by eapply left_over_others|done|done].
Qed.

Lemma drop_after {A} base (r : result ResponseStatus A) s w :
  after base (r, s) w ->
  rg others ours (fun x w' => ends_clean base (ending r x.1) w') (drop iter s) w.
Proof.
  intros Hx. destruct r as [a|e|].
  - refine (rg_mono _ _ _ _ _ _ (drop_tracks base s w (td_keys _ _ _ Hx)) _).
    by intros [[logged|e|] s2] w2.
  - refine (rg_mono _ _ _ _ _ _ (drop_tracks base s w (td_keys _ _ _ Hx)) _).
    by intros [[logged|e'|] s2] w2.
  - destruct Hx as [k Hk]. refine (rg_mono _ _ _ _ _ _ (drop_tracks _ s w Hk) _).
    intros [[logged|e|] s2] w2 Hd; [by exists k|done|done].
Qed.

Lemma scope_spec {A} (m : M A) w :
  from_root m -> rg others ours (ends_clean (service_keys w)) (scope iter m) w.
Proof.
  intros Hm. unfold scope. apply rg_bind; [apply _|]. refine (rg_mono _ _ _ _ _ _ (new_spec w) _).
  intros [s|e|] w1 Hn; [|by intros w2 Hw2; eapply left_over_others..]. destruct Hn as [Ht Hr].
  apply rg_bind; [apply _|].
  refine (rg_mono _ _ _ _ _ _ (Hm _ _ _ Ht Hr) _). intros [r s'] w2 Ha. apply rg_bind; [apply _|].
  refine (rg_mono _ _ _ _ _ _ (drop_after _ _ _ _ Ha) _). intros [d s2] w3 Hd w4 Hw4.
  by eapply ends_clean_others.
Qed.

End Spec.
