(* ===== verification/Stress.v ===== *)
(** * The stress test ([e2e_tests/src/stress.rs])

    Worker threads send random requests through clients of their own, a checker
    thread repeats two checks until it is told to stop, and [StressClient::execute]
    waits for all of them.  Each thread is a program of atomic calls ([Threads]); the
    threads, the channel and the joins are the step relation [stress_step]. *)
From S2P Require Import Prelude RustStd Interface Threads TestClient.
Import TestClient.

Definition HASH : bytes := (fun z => ascii_of_N (Z.to_N z)) <$>
  [ 0x69; 0x3E; 0xDB; 0x1B; 0x22; 0x79; 0x03; 0xF4; 0xC0; 0xBF; 0xD6; 0x91; 0x76; 0x37; 0x84; 0xA2;
    0x94; 0x8E; 0x92; 0x50; 0x35; 0xC2; 0x8C; 0x5C; 0x3C; 0xCA; 0xFE; 0x18; 0xE8; 0x81; 0x37;
    0x78 ]%Z.

Definition KEY_DATA : bytes := (fun z => ascii_of_N (Z.to_N z)) <$>
  [ 48; 129; 137; 2; 129; 129; 0; 153; 165; 220; 135; 89; 101; 254; 229; 28; 33; 138; 247; 20; 102;
    253; 217; 247; 246; 142; 107; 51; 40; 179; 149; 45; 117; 254; 236; 161; 109; 16; 81; 135; 72;
    112; 132; 150; 175; 128; 173; 182; 122; 227; 214; 196; 130; 54; 239; 93; 5; 203; 185; 233; 61;
    159; 156; 7; 161; 87; 48; 234; 105; 161; 108; 215; 211; 150; 168; 156; 212; 6; 63; 81; 24; 101;
    72; 160; 97; 243; 142; 86; 10; 160; 122; 8; 228; 178; 252; 35; 209; 222; 228; 16; 143; 99; 143;
    146; 241; 186; 187; 22; 209; 86; 141; 24; 159; 12; 146; 44; 111; 254; 183; 54; 229; 109; 28;
    39; 22; 141; 173; 85; 26; 58; 9; 128; 27; 57; 131; 2; 3; 1; 0; 1 ]%Z.

(** [std::time::Duration] in nanoseconds; addition and subtraction panic outside its
    range. *)
Definition Duration_max : Z := (2 ^ 64 - 1) * 1000000000 + 999999999.
Definition from_millis (n : Z) : Z := n * 1000000.
Definition duration_add {E} (a b : Z) : result E Z :=
  if decide (a + b <= Duration_max)%Z then Ok (a + b)%Z else Panic.
Definition duration_sub {E} (a b : Z) : result E Z :=
  if decide (b <= a)%Z then Ok (a - b)%Z else Panic.

Record StressTestConfig := {
  no_threads : Z;
  req_per_thread : Z;
  req_interval : option Z;
  req_interval_deviation_millis : option Z;
  check_interval : option Z;
}.

(** [rand]: a letter or digit, and a number below a bound. *)
Class StressRng (G : Type) := {
  sample_alphanumeric : G -> ascii * G;
  uniform_below : Z -> G -> Z * G;
}.

(** [Rng::gen_range(0, high)], which panics for an empty range. *)
Definition gen_range {G E} `{StressRng G} (high : Z) (g : G) : result E (Z * G) :=
  if decide (0 < high)%Z then Ok (uniform_below high g) else Panic.

Fixpoint generate_string {G} `{StressRng G} (size : nat) (g : G) : string * G :=
  match size with
  | O => ("", g)
  | S size' =>
    let '(c, g1) := sample_alphanumeric g in
    let '(rest, g2) := generate_string size' g1 in
    (String c rest, g2)
  end.

Inductive Operation :=
  | CreateDestroyKey | Sign | Verify | SignEcc | VerifyEcc | DestroyKey | ImportDestroyKey
  | ExportPublicKey | AsymEncrypt | AsymDecrypt.
#[export] Instance Operation_eq_dec : EqDecision Operation.
Proof. solve_decision. Defined.

(** [Distribution<Operation> for Standard] *)
Definition sample {G} `{StressRng G} (rng : G) : Operation * G :=
  let '(n, rng') := uniform_below 10 rng in
  (match n with
   | 0 => CreateDestroyKey
   | 1 => Sign
   | 2 => Verify
   | 3 => DestroyKey
   | 4 => ImportDestroyKey
   | 5 => ExportPublicKey
   | 6 => AsymEncrypt
   | 7 => AsymDecrypt
   | 8 => SignEcc
   | _ => VerifyEcc
   end%Z, rng').

Module StressTestWorker.
(** The client is the state the thread owns; its random generator is passed along. *)
Record StressTestWorker := {
  config : StressTestConfig;
  sign_key_name : string;
  ecc_key_name : option string;
  encrypt_key_name : option string;
}.

Section Worker.
Context {BC W G : Type} `{BasicClient BC W} `{StressRng G}.
(** How many draws of an operation are followed. *)
Context (fuel : nat).
Abbreviation M A := (TH W (TestClient BC) ResponseStatus A).
Implicit Types (self : StressTestWorker) (g : G).

(** [if !(res.is_ok() || res == Err(PsaErrorNotSupported)) { panic!(..) }] and
    [res.is_ok()]. *)
Definition ok_or_not_supported {A} (m : M A) : M bool :=
  res ← caught m;
  own (lift (match res with
             | Ok _ => Ok true
             | Err e => if decide (e = PsaErrorNotSupported) then Ok false else Panic
             | Panic => Panic
             end)).

(** [StressTestWorker::new] after [TestClient::new]. *)
Definition new (config : StressTestConfig) g : M (StressTestWorker * G) :=
  let '(auth, g) := generate_string 10 g in
  set_default_auth (Some auth) ;;
  p ← own (gets provider);
  opcodes ← expect (list_opcodes p);
  let '(sign_key_name, g) := generate_string 10 g in
  expect (generate_rsa_sign_key sign_key_name) ;;
  let '(ecc_key_name, g) := generate_string 10 g in
  ecc ← ok_or_not_supported (generate_ecc_key_pair_secpr1_ecdsa_sha256 ecc_key_name);
  let '(encrypt_key_name, g) := generate_string 10 g in
  enc ← ok_or_not_supported (generate_rsa_encryption_keys_rsapkcs1v15crypt encrypt_key_name);
  mret ({| config := config; sign_key_name := sign_key_name;
           ecc_key_name := if ecc : bool then Some ecc_key_name else None;
           encrypt_key_name :=
             if enc && bool_decide (OpPsaAsymmetricEncrypt ∈ opcodes) &&
                bool_decide (OpPsaAsymmetricDecrypt ∈ opcodes)
             then Some encrypt_key_name else None |}, g).

(** The condition of the [while] of [execute_request]. *)
Definition not_available self (op : Operation) : bool :=
  (bool_decide (ecc_key_name self = None) && bool_decide (op = SignEcc \/ op = VerifyEcc)) ||
  (bool_decide (encrypt_key_name self = None) &&
   bool_decide (op = AsymEncrypt \/ op = AsymDecrypt)).

(** The loop has no bound in the source; [None] means that it went on. *)
Fixpoint draw_operation (n : nat) self g : option Operation * G :=
  let '(op, g') := sample g in
  if not_available self op then
    match n with
    | O => (None, g')
    | S n' => draw_operation n' self g'
    end
  else (Some op, g').

Definition check_status (allowed : list ResponseStatus) (status : ResponseStatus) : M unit :=
  own (lift (if decide (status ∈ allowed) then Ok tt else Panic)).

Definition perform self (op : Operation) g : M G :=
  match op with
  | CreateDestroyKey =>
    let '(key_name, g) := generate_string 10 g in
    expect (generate_rsa_sign_key key_name) ;;
    expect (destroy_key key_name) ;;
    mret g
  | Sign =>
    expect (sign_with_rsa_sha256 (sign_key_name self) HASH) ;;
    mret g
  | Verify =>
    status ← expect_err (verify_with_rsa_sha256 (sign_key_name self) HASH
               (replicate 128 (ascii_of_N 255)));
    check_status [PsaErrorInvalidSignature; PsaErrorCorruptionDetected] status ;;
    mret g
  | SignEcc =>
    key_name ← own (lift (unwrap (ecc_key_name self)));
    ok_or_not_supported (sign_with_ecdsa_sha256 key_name HASH) ;;
    mret g
  | VerifyEcc =>
    key_name ← own (lift (unwrap (ecc_key_name self)));
    status ← expect_err (verify_with_ecdsa_sha256 key_name HASH
               (replicate 64 (ascii_of_N 255)));
    check_status [PsaErrorInvalidSignature; PsaErrorCorruptionDetected; PsaErrorNotSupported]
      status ;;
    mret g
  | DestroyKey =>
    let '(key_name, g) := generate_string 10 g in
    expect_err (destroy_key key_name) ;;
    mret g
  | ImportDestroyKey =>
    let '(key_name, g) := generate_string 10 g in
    expect (import_rsa_public_key key_name KEY_DATA) ;;
    expect (destroy_key key_name) ;;
    mret g
  | ExportPublicKey =>
    expect (export_public_key (sign_key_name self)) ;;
    mret g
  | AsymEncrypt =>
    encrypt_key_name ← own (lift (unwrap (encrypt_key_name self)));
    expect (asymmetric_encrypt_message_with_rsapkcs1v15 encrypt_key_name
      (replicate 16 (ascii_of_N 165))) ;;
    mret g
  | AsymDecrypt =>
    encrypt_key_name ← own (lift (unwrap (encrypt_key_name self)));
    expect_err (asymmetric_decrypt_message_with_rsapkcs1v15 encrypt_key_name
      (replicate 128 (ascii_of_N 165))) ;;
    mret g
  end.

(** A loop that goes on is a thread that never returns; it is [Panic] here. *)
Definition execute_request self g : M G :=
  match draw_operation fuel self g with
  | (Some op, g') => perform self op g'
  | (None, _) => own panic
  end.

(** How long [run_test] sleeps after a request.  [2 * deviation] is checked for
    overflow, as the tests are built. *)
Definition interval (config : StressTestConfig) g : result ResponseStatus (option Z * G) :=
  match req_interval config with
  | None => Ok (None, g)
  | Some interval =>
    match req_interval_deviation_millis config with
    | None => Ok (Some interval, g)
    | Some deviation =>
      if decide (2 * deviation < 2 ^ 64)%Z then
        '(dev, g') ← gen_range (2 * deviation) g;
        interval ← duration_add interval (from_millis dev);
        interval ← duration_sub interval (from_millis deviation);
        Ok (Some interval, g')
      else Panic
    end
  end.

Fixpoint run_requests (n : nat) self g : M unit :=
  match n with
  | O => mret tt
  | S n' =>
    g ← execute_request self g;
    '(_, g) ← own (lift (interval (config self) g));
    run_requests n' self g
  end.
Definition run_test self g : M unit :=
  run_requests (Z.to_nat (req_per_thread (config self))) self g.

(** The application name of a worker is its first draw. *)
Definition worker_name g : string := (generate_string 10 g).1.
(** The closure of a worker thread, with its client dropped at the end. *)
Definition thread (iter : gset created_key -> list created_key) (config : StressTestConfig) g
    : prog W (ended unit) :=
  scope iter ('(worker, g) ← new config g; run_test worker g).
End Worker.
End StressTestWorker.

Module ServiceChecker.
Section Checker.
Context {BC W : Type} `{BasicClient BC W}.
Abbreviation M A := (TH W (TestClient BC) ResponseStatus A).

Definition check_sign : M unit :=
  let sign_key_name := "sign_checking_key" in
  expect (generate_rsa_sign_key sign_key_name) ;;
  signature ← expect (sign_with_rsa_sha256 sign_key_name HASH);
  expect (verify_with_rsa_sha256 sign_key_name HASH signature) ;;
  expect (destroy_key sign_key_name).

Definition check_encrypt : M unit :=
  let encr_key_name := "encrypt_checking_key" in
  expect (generate_rsa_encryption_keys_rsapkcs1v15crypt encr_key_name) ;;
  ciphertext ← expect (asymmetric_encrypt_message_with_rsapkcs1v15 encr_key_name
                 (replicate 16 (ascii_of_N 165)));
  plaintext ← expect (asymmetric_decrypt_message_with_rsapkcs1v15 encr_key_name ciphertext);
  own (lift (if decide (plaintext = replicate 16 (ascii_of_N 165)) then Ok tt else Panic)) ;;
  expect (destroy_key encr_key_name).

(** What comes before the loop of [run_check], and one turn of it up to the sleep. *)
Definition begin : M (gset Opcode) := p ← own (gets provider); expect (list_opcodes p).
Definition turn (opcodes : gset Opcode) : M unit :=
  check_sign ;;
  if bool_decide (OpPsaAsymmetricDecrypt ∈ opcodes) &&
     bool_decide (OpPsaAsymmetricEncrypt ∈ opcodes)
  then check_encrypt else mret tt.
End Checker.
End ServiceChecker.

Module StressClient.
Section Execute.
Context {BC W G : Type} `{BasicClient BC W} `{StressRng G}.
Context (fuel : nat) (iter : gset created_key -> list created_key).
Abbreviation own_result A := (result ResponseStatus A * TestClient BC)%type.

(** The checker thread: before its loop, in a turn of it, at the [try_recv] after the
    sleep, and while its client is dropped, after a panic or not.  The receiver of the
    channel lives as long as [run_check]. *)
Inductive checker :=
  | Creating (p : prog W (result ResponseStatus (TestClient BC)))
  | Beginning (p : prog W (own_result (gset Opcode)))
  | Turning (opcodes : gset Opcode) (p : prog W (own_result unit))
  | Receiving (opcodes : gset Opcode) (s : TestClient BC)
  | Dropping (panicking : bool) (p : prog W (own_result (option (list created_key))))
  | CheckerReturned (logged : option (list created_key)) | CheckerPanicked.

(** The thread that called [execute]: waiting for worker [n], about to send, waiting
    for the checker, and the ends.  [Killed]: some thread panicked twice. *)
Inductive caller :=
  | Joining (n : nat) | Sending | JoiningChecker | Finished | CallerPanicked | Killed.
#[export] Instance caller_eq_dec : EqDecision caller.
Proof. solve_decision. Defined.

Record state := {
  workers : list (prog W (ended unit));
  checking : checker;
  main : caller;
  sent : bool;
  world : W;
}.

Definition run_check_start (config : StressTestConfig) : checker :=
  match check_interval config with
  | None => CheckerReturned (Some [])
  | Some _ => Creating TestClient.new
  end.

(** [execute] up to the first [join]; [seeds] are the generators of the threads. *)
Definition execute (config : StressTestConfig) (seeds : nat -> G) (w : W) : state := {|
  workers := (fun i => StressTestWorker.thread fuel iter config (seeds i)) <$>
               seq 0 (Z.to_nat (no_threads config));
  checking := run_check_start config;
  main := Joining 0;
  sent := false;
  world := w;
|}.

(** The checker goes on without a call of the service. *)
Definition checker_next (sent : bool) (c : checker) : option checker :=
  match c with
  | Creating (Ret (Ok s)) => Some (Beginning (ServiceChecker.begin s))
  | Creating (Ret _) => Some CheckerPanicked
  | Beginning (Ret (Ok opcodes, s)) => Some (Turning opcodes (ServiceChecker.turn opcodes s))
  | Turning opcodes (Ret (Ok _, s)) => Some (Receiving opcodes s)
  | Beginning (Ret (_, s)) | Turning _ (Ret (_, s)) => Some (Dropping true (drop iter s))
  | Receiving opcodes s =>
    Some (if sent then Dropping false (drop iter s)
          else Turning opcodes (ServiceChecker.turn opcodes s))
  | Dropping false (Ret (Ok logged, _)) => Some (CheckerReturned logged)
  | Dropping _ (Ret _) => Some CheckerPanicked
  | _ => None
  end.
(** A call of the service by the checker. *)
Definition checker_call (c : checker) (w : W) : option (checker * W) :=
  match c with
  | Creating (Step f k) => Some (Creating (k w), f w)
  | Beginning (Step f k) => Some (Beginning (k w), f w)
  | Turning opcodes (Step f k) => Some (Turning opcodes (k w), f w)
  | Dropping b (Step f k) => Some (Dropping b (k w), f w)
  | _ => None
  end.
(** A second panic while the client is dropped. *)
Definition checker_aborts (c : checker) : bool :=
  match c with
  | Dropping true (Ret (Ok _, _)) => false
  | Dropping true (Ret _) => true
  | _ => false
  end.

(** What the calling thread does next. *)
Definition caller_next (config : StressTestConfig) (st : state) : option (caller * bool) :=
  match main st with
  | Joining n =>
    match workers st !! n with
    | None => Some (Sending, sent st)
    | Some (Ret (NotCreated | Panicked _ | DropPanicked)) => Some (CallerPanicked, sent st)
    | Some (Ret Aborted) => None
    | Some (Ret _) => Some (Joining (S n), sent st)
    | Some (Step _ _) => None
    end
  | Sending =>
    match check_interval config with
    | None => Some (JoiningChecker, sent st)
    | Some _ =>
      match checking st with
      | CheckerReturned _ | CheckerPanicked => Some (CallerPanicked, sent st)
      | _ => Some (JoiningChecker, true)
      end
    end
  | JoiningChecker =>
    match checking st with
    | CheckerReturned _ => Some (Finished, sent st)
    | CheckerPanicked => Some (CallerPanicked, sent st)
    | _ => None
    end
  | Finished | CallerPanicked | Killed => None
  end.

Inductive stress_step (config : StressTestConfig) : state -> state -> Prop :=
  | worker_step st i f k : main st <> Killed -> workers st !! i = Some (Step f k) ->
      stress_step config st {| workers := <[i := k (world st)]> (workers st);
        checking := checking st; main := main st; sent := sent st; world := f (world st) |}
  | worker_abort st i : workers st !! i = Some (Ret Aborted) ->
      stress_step config st {| workers := workers st; checking := checking st; main := Killed;
        sent := sent st; world := world st |}
  | checker_calls st c w : main st <> Killed ->
      checker_call (checking st) (world st) = Some (c, w) ->
      stress_step config st {| workers := workers st; checking := c; main := main st;
        sent := sent st; world := w |}
  | checker_goes_on st c : main st <> Killed -> checker_aborts (checking st) = false ->
      checker_next (sent st) (checking st) = Some c ->
      stress_step config st {| workers := workers st; checking := c; main := main st;
        sent := sent st; world := world st |}
  | checker_abort st : checker_aborts (checking st) = true ->
      stress_step config st {| workers := workers st; checking := checking st; main := Killed;
        sent := sent st; world := world st |}
  | caller_goes_on st m b : caller_next config st = Some (m, b) ->
      stress_step config st {| workers := workers st; checking := checking st; main := m;
        sent := b; world := world st |}.
End Execute.
End StressClient.
