(* ===== verification/StressSpec.v ===== *)
(** * The stress test

    For a service with the direct authenticator and workers that drew different
    names: however the threads are interleaved, when [execute] returns they have left
    no keys behind; the pauses between requests; and the draw of an operation. *)
From S2P Require Import Prelude RustStd Interface Threads TestClient TestClientSpec Stress.
Import TestClient.

(** ** Pauses and draws *)
Class StressRngLaws (G : Type) `{StressRng G} : Prop :=
  uniform_below_range high g : (0 < high)%Z -> (0 <= (uniform_below high g).1 < high)%Z.

Section Draws.
Context {G : Type} `{StressRngLaws G}.
Implicit Types (g : G).
#[local] Open Scope Z_scope.

(** The pause after a request of the stress test.  With an interval of [t]
    nanoseconds and a deviation of [d] milliseconds the worker sleeps for [t] and the
    drawn deviation, which is in the range of [d] around [t] when it does not panic;
    it panics exactly for a deviation of zero, for one that cannot be doubled, when
    the interval with the draw is beyond the range of [Duration], and when the
    interval is shorter than what is to be taken off. *)
Theorem interval_spec config t d g :
  req_interval config = Some t -> req_interval_deviation_millis config = Some d ->
  0 <= t -> 0 <= d ->
  let dev := (uniform_below (2 * d) g).1 in
  match StressTestWorker.interval config g with
  | Ok (pause, g') => exists p, pause = Some p /\ p = t + (dev - d) * 1000000 /\
      t - d * 1000000 <= p < t + d * 1000000 /\ g' = (uniform_below (2 * d) g).2
  | Err _ => False
  | Panic => d = 0 \/ 2 ^ 64 <= 2 * d \/ Duration_max < t + dev * 1000000 \/
      t + dev * 1000000 < d * 1000000
  end.
Proof.
  intros Ht Hd Ht0 Hd0 dev. unfold StressTestWorker.interval. rewrite Ht, Hd.
  destruct (decide (2 * d < 2 ^ 64)) as [Hlt|Hge]; [|right; left; lia].
  unfold gen_range. destruct (decide (0 < 2 * d)) as [Hpos|Hz]; [|left; lia].
  pose proof (uniform_below_range (2 * d) g Hpos) as Hr. fold dev in Hr. simpl.
  destruct (uniform_below (2 * d) g) as [n g'] eqn:Hn. simpl in dev. subst dev.
  unfold duration_add, from_millis. case_decide as Ha; [|right; right; left; lia]. simpl.
  unfold duration_sub. case_decide as Hs; simpl; [|right; right; right; lia].
  exists (t + n * 1000000 - d * 1000000). split_and!; try done; lia.
Qed.

(** The draws of [rand::random] one after the other. *)
Fixpoint nth_operation (i : nat) g : Operation :=
  match i with
  | O => (sample g).1
  | S i' => nth_operation i' (sample g).2
  end.

(** The operation of a request is the first one drawn that the worker's keys allow,
    as long as it is among the draws that are followed; with it, the names the request
    unwraps are there.  Six of the ten operations are always allowed. *)
Theorem draw_operation_spec self fuel g i :
  (forall j, (j < i)%nat -> StressTestWorker.not_available self (nth_operation j g) = true) ->
  StressTestWorker.not_available self (nth_operation i g) = false -> (i <= fuel)%nat ->
  (StressTestWorker.draw_operation fuel self g).1 = Some (nth_operation i g) /\
  (nth_operation i g ∈ [SignEcc; VerifyEcc] -> StressTestWorker.ecc_key_name self <> None) /\
  (nth_operation i g ∈ [AsymEncrypt; AsymDecrypt] ->
     StressTestWorker.encrypt_key_name self <> None) /\
  forall op, op ∈ [CreateDestroyKey; Sign; Verify; DestroyKey; ImportDestroyKey;
    ExportPublicKey] ->
    StressTestWorker.not_available self op = false.
Proof.
  intros Hbefore Hi Hle. split_and!.
  - revert fuel g Hbefore Hi Hle. induction i as [|i IH]; intros fuel g Hbefore Hi Hle.
    + destruct fuel; simpl in *; destruct (sample g); simpl in *; by rewrite Hi.
    + destruct fuel as [|fuel]; [lia|]. simpl. pose proof (Hbefore 0%nat ltac:(lia)) as H0'.
      simpl in *. destruct (sample g) as [op g'] eqn:Hs. simpl in *. rewrite H0'.
      apply IH; [|done|lia]. intros j Hj. specialize (Hbefore (S j) ltac:(lia)). simpl in Hbefore.
      by rewrite Hs in Hbefore.
  - intros Hop Hnone. revert Hi. unfold StressTestWorker.not_available. rewrite Hnone.
    destruct (nth_operation i g); simpl; try done; set_solver.
  - intros Hop Hnone. revert Hi. unfold StressTestWorker.not_available. rewrite Hnone.
    destruct (nth_operation i g); simpl; rewrite ?orb_true_r; try done; set_solver.
  - intros op Hop. unfold StressTestWorker.not_available.
    rewrite !elem_of_cons, elem_of_nil in Hop.
    destruct op; simpl; try (by rewrite !andb_false_r); naive_solver.
Qed.
End Draws.

(** ** The requests of a worker *)
Section Code.
Context {BC W G : Type} `{BasicClientLaws BC W} `{StressRng G}.
Context (mine : option string -> Prop) (fuel : nat).
Abbreviation M A := (TH W (TestClient BC) ResponseStatus A).
Implicit Types (g : G).

Ltac code := unfold expect, expect_err, StressTestWorker.ok_or_not_supported,
  StressTestWorker.check_status; client_code_tac.

Lemma perform_code self op g : client_code mine false (StressTestWorker.perform self op g).
Proof. destruct op; cbn [StressTestWorker.perform]; code. Qed.

Lemma execute_request_code self g : client_code mine false (StressTestWorker.execute_request fuel self g).
Proof.
  unfold StressTestWorker.execute_request.
  destruct (StressTestWorker.draw_operation fuel self g) as [[op|] g'];
    [apply perform_code|apply (cc_lift _ _ _ Panic)].
Qed.

Lemma run_test_code self g : client_code mine false (StressTestWorker.run_test fuel self g).
Proof.
  unfold StressTestWorker.run_test.
  generalize (Z.to_nat (req_per_thread (StressTestWorker.config self))). intros n. revert g.
  induction n as [|n IH]; intros g; simpl; [apply cc_ret|].
  apply cc_bind; [apply execute_request_code|]. intros g1. apply cc_bind; [apply cc_lift|].
  by intros [? g2].
Qed.

Lemma check_turn_code opcodes : client_code mine false (ServiceChecker.turn opcodes).
Proof.
  unfold ServiceChecker.turn, ServiceChecker.check_sign, ServiceChecker.check_encrypt. code.
Qed.
Lemma check_begin_code : client_code mine false ServiceChecker.begin.
Proof. unfold ServiceChecker.begin. code. Qed.

Lemma thread_from_root config g :
  direct_service = true -> mine (Some (StressTestWorker.worker_name g)) ->
  from_root mine false
    ('(worker, g) ← StressTestWorker.new config g; StressTestWorker.run_test fuel worker g).
Proof.
  intros Hd Hmine. apply from_root_bind.
  - unfold StressTestWorker.new, StressTestWorker.worker_name in *.
    destruct (generate_string 10 g) as [auth g1]. apply from_root_renamed; [by rewrite Hd|]. code.
  - intros [worker g1]. apply run_test_code.
Qed.
End Code.

(** ** The threads together *)
Section Together.
Context {BC W G : Type} `{BasicClientLaws BC W} `{StressRng G}.
Context (fuel : nat) (iter : gset created_key -> list created_key).
Context (Hiter : forall ks, iter ks ≡ₚ elements ks).
Context (config : StressTestConfig) (seeds : nat -> G).
Context (Hdirect : direct_service = true).
Abbreviation n := (Z.to_nat (no_threads config)).
Definition name_of (i : nat) : string := StressTestWorker.worker_name (seeds i).
(** The workers drew different names, none of them that of the checker. *)
Context (Hnames : forall i j, i < n -> j < n -> name_of i = name_of j -> i = j).
Context (Hroot : forall i, i < n -> name_of i <> "root").
Implicit Types (st : StressClient.state (BC := BC) (W := W)) (w : W).
Import StressClient.

Definition of_worker (i : nat) (a : option string) : Prop := a = Some (name_of i).
Definition of_checker (a : option string) : Prop := a = Some "root".

Lemma ours_others (P Q : option string -> Prop) w w' :
  (forall a, P a -> ~ Q a) -> ours P w w' -> others Q w w'.
Proof. intros Hpq Ho k Hk. apply Ho. intros Hp. by eapply Hpq. Qed.

Definition checker_ok base (c : checker (BC := BC) (W := W)) w : Prop :=
  let R := others of_checker in let Gr := ours of_checker in
  match c with
  | Creating p => rg R Gr (fun r w' => if r is Ok s then
      tracks of_checker false base s w' /\ get_direct_auth s = root_name
      else left_over of_checker base [] [] w') p w
  | Beginning p => rg R Gr (after of_checker false base) p w
  | Turning _ p => rg R Gr (after of_checker false base) p w
  | Receiving _ s => tidy of_checker false base s w
  | Dropping panicking p => rg R Gr (fun x w' => panicking = false ->
      if x.1 is Ok logged then dropped of_checker false base logged w' else True) p w
  | CheckerReturned logged => dropped of_checker false base logged w
  | CheckerPanicked => True
  end.

Lemma checker_ok_others base c w w' :
  checker_ok base c w -> others of_checker w w' -> checker_ok base c w'.
Proof.
  destruct c; simpl; intros Hc Ho; try done; first
    [ by eapply rg_others; [apply _|..] | by eapply tidy_others | by eapply dropped_others ].
Qed.

(** The thread of the client did not panic. *)
Definition ended_well {A} (x : ended A) : bool :=
  match x with Returned _ _ | Failed _ _ => true | _ => false end.
(** The caller has found that the worker [i] returned. *)
Definition joined (m : caller) (i : nat) : Prop :=
  match m with
  | Joining j => i < j
  | Sending | JoiningChecker | Finished => True
  | CallerPanicked | Killed => False
  end.

Record stress_ok base st : Prop := {
  so_workers i p : workers st !! i = Some p -> i < n /\
    rg (others (of_worker i)) (ours (of_worker i)) (ends_clean (of_worker i) false base) p (world st);
  so_checker : checker_ok base (checking st) (world st);
  so_joined i p : workers st !! i = Some p -> joined (main st) i ->
    exists x, p = Ret x /\ ended_well x = true;
  so_finished : main st = Finished -> exists logged, checking st = CheckerReturned logged;
}.

Lemma stress_ok_start w : stress_ok (service_keys w) (execute fuel iter config seeds w).
Proof.
  split.
  - intros i p (j & -> & Hj)%list_lookup_fmap_Some. apply lookup_seq in Hj as [-> Hlt]. simpl.
    split; [done|]. apply scope_spec; [done|]. by apply thread_from_root.
  - simpl. unfold run_check_start. destruct (check_interval config); [by apply new_spec|].
    intros k Hk Hin. by left.
  - simpl. intros i p _ Hlt. lia.
  - done.
Qed.

Lemma worker_names_differ i j a : i < n -> j < n -> i <> j -> of_worker i a -> ~ of_worker j a.
Proof. unfold of_worker. intros Hi Hj Hne -> [= Heq]. by apply Hne, Hnames. Qed.

Lemma worker_not_checker i a : i < n -> of_worker i a -> ~ of_checker a.
Proof. unfold of_worker, of_checker. intros Hi -> [= Heq]. by apply (Hroot i). Qed.

Lemma checker_call_ok base c w c' w' :
  checker_ok base c w -> checker_call c w = Some (c', w') ->
  ours of_checker w w' /\ checker_ok base c' w'.
Proof.
  destruct c as [[r|f k]|[x|f k]|o [x|f k]|o s|b [x|f k]|l|]; simpl; intros Hc [= <- <-];
    by apply Hc.
Qed.

Lemma checker_next_ok base sent c w c' :
  checker_ok base c w -> checker_aborts c = false -> checker_next iter sent c = Some c' ->
  checker_ok base c' w.
Proof.
  destruct c as [[r|f k]|[[r s]|f k]|o [[r s]|f k]|o s|b [[r s]|f k]|l|]; simpl; intros Hc Hab Hn;
    try done.
  - specialize (Hc w ltac:(done)). destruct r as [s|e|]; injection Hn as <-; try done.
    destruct Hc as [Ht Hr]. apply (from_root_code of_checker false); [|apply check_begin_code|done|done].
    unfold of_checker, root_name. by rewrite Hdirect.
  - specialize (Hc w ltac:(done)). destruct r as [o|e|]; injection Hn as <-.
    + by apply (code_keeps _ _ _ (check_turn_code _ o)).
    + by refine (rg_mono _ _ _ _ _ _ (drop_after _ _ _ Hiter _ _ s w Hc) _).
    + by refine (rg_mono _ _ _ _ _ _ (drop_after _ _ _ Hiter _ _ s w Hc) _).
  - specialize (Hc w ltac:(done)). destruct r as [u|e|]; injection Hn as <-.
    + done.
    + by refine (rg_mono _ _ _ _ _ _ (drop_after _ _ _ Hiter _ _ s w Hc) _).
    + by refine (rg_mono _ _ _ _ _ _ (drop_after _ _ _ Hiter _ _ s w Hc) _).
  - injection Hn as <-. destruct sent; simpl.
    + refine (rg_mono _ _ _ _ _ _ (drop_tracks _ _ _ Hiter base s w (td_keys _ _ _ _ _ Hc)) _). auto.
    + by apply (code_keeps _ _ _ (check_turn_code _ o)).
  - specialize (Hc w ltac:(done)). destruct b, r as [l|e|]; injection Hn as <-; try done.
    by apply Hc.
  - by destruct b.
Qed.

Lemma left_over_done (P : option string -> Prop) base logged w :
  left_over P base [] logged w ->
  forall k, P (app_of k) -> k ∈ service_keys w -> k ∈ base \/ k ∈ logged.
Proof.
  intros Hl k Hk Hin. destruct (Hl k Hk Hin) as [?|[?%not_elem_of_nil|?]]; [by left|done|by right].
Qed.

(** The caller only gets past workers that returned. *)
Lemma caller_joined st m b i p :
  (forall j q, workers st !! j = Some q -> joined (main st) j ->
     exists x, q = Ret x /\ ended_well x = true) ->
  caller_next config st = Some (m, b) -> workers st !! i = Some p -> joined m i ->
  exists x, p = Ret x /\ ended_well x = true.
Proof.
  intros Hj Hm Hp Hjoin. unfold caller_next in Hm.
  destruct (main st) as [j| | | | |] eqn:Hmain; try done.
  - destruct (workers st !! j) as [[x|]|] eqn:Hx; [|done|].
    + destruct (decide (i = j)) as [->|Hne].
      * rewrite Hx in Hp. injection Hp as <-. exists x. split; [done|].
        destruct x; simplify_eq; done.
      * apply (Hj i p Hp). destruct x; simplify_eq; simpl in *; lia.
    + injection Hm as <- <-. apply (Hj i p Hp). simpl. apply lookup_ge_None in Hx.
      apply lookup_lt_Some in Hp. lia.
  - by apply (Hj i p Hp).
  - by apply (Hj i p Hp).
Qed.

Lemma caller_finishes st b :
  caller_next config st = Some (Finished, b) -> exists logged, checking st = CheckerReturned logged.
Proof.
  unfold caller_next. destruct (main st); try done.
  - destruct (workers st !! _) as [[[]|]|]; try done.
  - destruct (check_interval config); [|done]. by destruct (checking st).
  - destruct (checking st); try done. eauto.
Qed.

Lemma stress_step_ok base st st' :
  stress_ok base st -> stress_step iter config st st' -> stress_ok base st'.
Proof.
  intros [Hw Hc Hj Hf] Hstep. destruct Hstep as
    [st i f k Hk Hi|st i Hi|st c w Hk Hcall|st c Hk Hab Hnext|st Hab|st m b Hm]; simpl in *.
  - destruct (Hw i _ Hi) as [Hlt Hrg]. destruct (Hrg (world st)) as [Hours Hrg']; [done|].
    split; simpl.
    + intros j p [(<- & <- & _)|(Hne & Hp)]%list_lookup_insert_Some; [done|].
      destruct (Hw j p Hp) as [Hltj Hrgj]. split; [done|].
      apply (rg_others _ _ _ _ (world st)); [done|]. apply (ours_others (of_worker i)); [|done].
      intros a. by apply worker_names_differ.
    + eapply checker_ok_others; [done|]. apply (ours_others (of_worker i)); [|done].
      intros a. by apply worker_not_checker.
    + intros j p [(<- & <- & _)|(Hne & Hp)]%list_lookup_insert_Some Hjoin; [|by eapply Hj].
      by destruct (Hj i _ Hi Hjoin) as (x & ? & _).
    + done.
  - split; simpl; [done|done|done|done].
  - destruct (checker_call_ok _ _ _ _ _ Hc Hcall) as [Hours Hc']. split; simpl; [|done|done|].
    + intros i p Hp. destruct (Hw i p Hp) as [Hlt Hrg]. split; [done|].
      apply (rg_others _ _ _ _ (world st)); [done|]. apply (ours_others of_checker); [|done].
      intros a Ha Hi. by apply (worker_not_checker i a).
    + intros Hfin. destruct (Hf Hfin) as [logged Hl]. by rewrite Hl in Hcall.
  - split; simpl; [done|by eapply checker_next_ok|done|].
    intros Hfin. destruct (Hf Hfin) as [logged Hl]. by rewrite Hl in Hnext.
  - split; simpl; done.
  - split; simpl; [done|done|..].
    + intros i p Hp Hjoin. eapply caller_joined; eauto.
    + intros ->. eapply caller_finishes; eauto.
Qed.

(** Until the test has ended some thread can go on. *)
Lemma stress_goes_on st :
  main st <> Finished -> main st <> CallerPanicked -> main st <> Killed ->
  exists st', stress_step iter config st st'.
Proof.
  intros Hf Hp Hk.
  assert (Hcheck : (forall l, checking st <> CheckerReturned l) -> checking st <> CheckerPanicked ->
    exists st', stress_step iter config st st').
  { intros Hr Hcp.
    destruct (checker_aborts (checking st)) eqn:Hab; [eexists; by apply checker_abort|].
    destruct (checker_call (checking st) (world st)) as [[c w]|] eqn:Hcall;
      [eexists; by eapply checker_calls|].
    destruct (checker_next iter (sent st) (checking st)) as [c|] eqn:Hnext;
      [eexists; by eapply checker_goes_on|].
    destruct (checking st) as [[[]|]|[[[]]|]|o [[[]]|]|o s|[] [[[]]|]|l|]; try done.
    by destruct (Hr l). }
  destruct (caller_next config st) as [[m b]|] eqn:Hm; [eexists; by eapply caller_goes_on|].
  unfold caller_next in Hm. destruct (main st) as [j| | | | |] eqn:Hmain; try done.
  - destruct (workers st !! j) as [[[]|f k]|] eqn:Hj; try done.
    + eexists. by eapply worker_abort.
    + eexists. eapply worker_step; [by rewrite Hmain|done].
  - destruct (check_interval config); [|done]. by destruct (checking st).
  - apply Hcheck; by destruct (checking st).
Qed.

(** C33: For a service with the direct authenticator, and workers that drew names
    different from each other's and from the name of the checker: when the stress test
    has finished, however its threads were interleaved, no thread panicked, and each key
    under the name of a worker or of the checker that the service still holds was there
    before the test, or is one of those that the service refused to destroy when the
    client of that thread was dropped, which were logged. *)
Theorem stress_test_leaves_no_keys w st :
  rtc (stress_step iter config) (execute fuel iter config seeds w) st -> main st = Finished ->
  (forall i p, workers st !! i = Some p -> exists logged,
     (p = Ret (Returned tt (Some logged)) \/ exists e, p = Ret (Failed e (Some logged))) /\
     forall k, app_of k = Some (name_of i) -> k ∈ service_keys (world st) ->
       k ∈ service_keys w \/ k ∈ logged) /\
  exists logged, checking st = CheckerReturned (Some logged) /\
    forall k, app_of k = Some "root" -> k ∈ service_keys (world st) ->
      k ∈ service_keys w \/ k ∈ logged.
Proof.
  intros Hsteps Hfin.
  assert (Hok : stress_ok (service_keys w) st).
  { eapply (rtc_ind_l (fun st0 => stress_ok (service_keys w) st0 -> stress_ok (service_keys w) st));
      [done| |exact Hsteps|apply stress_ok_start].
    intros st1 st2 Hs _ IH Hok. eapply IH, stress_step_ok; eauto. }
  destruct Hok as [Hw Hc Hj Hf]. split.
  - intros i p Hp. destruct (Hw i p Hp) as [_ Hrg]. destruct (Hj i p Hp) as (x & -> & Hx);
      [by rewrite Hfin|]. apply rg_now in Hrg; [|apply _].
    destruct x as [|u [l|]|e [l|]|l| |]; try done.
    + exists l. destruct u. split; [by left|]. exact (left_over_done (of_worker i) _ _ _ Hrg).
    + exists l. split; [right; by exists e|]. exact (left_over_done (of_worker i) _ _ _ Hrg).
  - destruct (Hf Hfin) as [[logged|] Hl]; rewrite Hl in Hc; [|done]. exists logged. split; [done|].
    exact (left_over_done of_checker _ _ _ Hc).
Qed.
End Together.
