(* ===== verification/StressScenario.v ===== *)
(** * A service for the test client, and a stress test on it

    A service with the direct authenticator that keeps a set of keys, for which the
    hypotheses of the theorems on the test client and the stress test hold, and the
    stress test run on it to the end. *)
From S2P Require Import Prelude RustStd Interface Threads TestClient TestClientSpec.
From S2P Require Import Stress StressSpec.
Import TestClient.

(** The client is its provider and its application name. *)
Abbreviation toy_client := (ProviderId * string)%type.
Abbreviation toy_world := (gset created_key).

Definition toy_key (bc : toy_client) (n : string) : created_key := (n, Some bc.2, bc.1).
Definition toy_create (bc : toy_client) (n : string) : ST toy_world ClientError unit := fun w =>
  if decide (toy_key bc n ∈ w) then (Err (Service PsaErrorAlreadyExists), w)
  else (Ok tt, {[toy_key bc n]} ∪ w).
Definition toy_destroy (bc : toy_client) (n : string) : ST toy_world ClientError unit := fun w =>
  if decide (toy_key bc n ∈ w) then (Ok tt, w ∖ {[toy_key bc n]})
  else (Err (Service PsaErrorDoesNotExist), w).
Definition answers {A} (r : result ClientError A) : ST toy_world ClientError A := fun w => (r, w).

#[export] Instance toy_basic_client : BasicClient toy_client toy_world := {|
  bc_new name := answers (match name with
                          | Some n => Ok (MbedCrypto, n)
                          | None => Err (Client "MissingParam")
                          end);
  implicit_provider bc := bc.1;
  set_implicit_provider p bc := (p, bc.2);
  auth_data bc := Authentication_Direct bc.2;
  bc_set_default_auth name '(bc, w) :=
    match name with
    | Some n => (Ok tt, ((bc.1, n), w))
    | None => (Err (Client "MissingParam"), (bc, w))
    end;
  bc_list_providers _ := answers (Ok []);
  bc_list_authenticators _ := answers (Ok []);
  bc_list_opcodes _ _ := answers (Ok (list_to_set all_opcodes));
  bc_list_keys _ := answers (Ok []);
  bc_list_clients _ := answers (Ok []);
  bc_delete_client _ c w := (Ok tt, filter (fun k => app_of k <> Some c) w);
  bc_ping _ := answers (Ok (1, 0)%Z);
  bc_generate_key bc n _ := toy_create bc n;
  bc_import_key bc n _ _ := toy_create bc n;
  bc_destroy_key := toy_destroy;
  bc_export_key _ _ := answers (Err (Service PsaErrorNotPermitted));
  bc_export_public_key _ _ := answers (Ok []);
  bc_sign_hash _ _ h _ := answers (Ok h);
  bc_verify_hash _ _ h _ s := answers (if decide (s = h) then Ok tt
                                        else Err (Service PsaErrorInvalidSignature));
  bc_sign_message _ _ h _ := answers (Ok h);
  bc_verify_message _ _ h _ s := answers (if decide (s = h) then Ok tt
                                           else Err (Service PsaErrorInvalidSignature));
  bc_asymmetric_encrypt _ _ _ p _ := answers (Ok (ascii_of_N 0 :: p));
  bc_asymmetric_decrypt _ _ _ c _ :=
    answers (if decide (head c = Some (ascii_of_N 0)) then Ok (tail c)
             else Err (Service PsaErrorInvalidArgument));
  bc_aead_encrypt _ _ _ _ _ p := answers (Ok p);
  bc_aead_decrypt _ _ _ _ _ p := answers (Ok p);
  bc_hash_compute _ _ x := answers (Ok x);
  bc_hash_compare _ _ _ _ := answers (Ok tt);
  bc_raw_key_agreement _ _ _ x := answers (Ok x);
  bc_generate_random _ n := answers (Ok (replicate (Z.to_nat n) (ascii_of_N 7)));
|}.

#[export] Instance toy_laws : BasicClientLaws toy_client toy_world.
Proof.
  refine {| service_keys := fun w => w; direct_service := true |}; try done.
  - by intros [n|] w.
  - by intros [n|] bc w.
  - intros bc n a w. simpl. unfold toy_create. by case_decide.
  - intros bc n d a w. simpl. unfold toy_create. by case_decide.
  - intros bc n w. simpl. unfold toy_destroy. case_decide; [done|by left].
  - intros bc c w. split; [done|]. simpl. set_solver.
  - intros n h a s bc w. simpl. by case_decide.
  - intros n h a s bc w. simpl. by case_decide.
  - intros n a p s bc w. simpl. by case_decide.
Defined.

Lemma toy_direct : direct_service (BC := toy_client) (W := toy_world) = true.
Proof. reflexivity. Qed.

(** A test that creates two keys, one of them under another name, destroys neither, and
    asks for something it is refused. *)
Definition some_test : TH toy_world (TestClient toy_client) ResponseStatus bytes :=
  generate_rsa_sign_key "one" ;;
  set_default_auth (Some "alice") ;;
  set_provider Tpm ;;
  import_aes_key "two" [] ;;
  _ ← caught (F := ResponseStatus) (export_key "two");
  sign_with_ecdsa_sha256 "two" HASH.

Definition returned {A} (x : ended A) : bool := if x is Returned _ (Some []) then true else false.


(** A test that asks for its keys to be kept leaves them. *)
Example keys_kept :
  let '(x, w') := run (scope elements (do_not_destroy_keys ;; some_test)) ∅ in
  (if x is Returned _ None then true else false) = true /\
  w' = {[("one", Some "root", MbedCrypto); ("two", Some "alice", Tpm)]}.
Proof. vm_compute. split; reflexivity. Qed.

(** ** A stress test *)
#[export] Instance toy_rng : StressRng Z := {|
  sample_alphanumeric g := (ascii_of_N (Z.to_N (97 + g `mod` 26)), g + 1)%Z;
  uniform_below high g := (g `mod` high, g + 1)%Z;
|}.
#[export] Instance toy_rng_laws : StressRngLaws Z.
Proof. intros high g Hh. apply Z.mod_pos_bound. exact Hh. Qed.

Definition toy_config : StressTestConfig :=
  {| no_threads := 2; req_per_thread := 12; req_interval := Some (from_millis 10);
     req_interval_deviation_millis := Some 4%Z; check_interval := Some (from_millis 500) |}.
Definition toy_seeds (i : nat) : Z := Z.of_nat i.

(** A scheduler: the caller first, then the first worker that can go on, then the
    checker. *)
Abbreviation toy_state := (StressClient.state (BC := toy_client) (W := toy_world)).
Fixpoint first_step {W A : Type} (i : nat) (ps : list (prog W A)) : option nat :=
  match ps with
  | [] => None
  | Step _ _ :: _ => Some i
  | Ret _ :: ps' => first_step (S i) ps'
  end.
Import StressClient.
Definition schedule (st : toy_state) : option toy_state :=
  match caller_next toy_config st with
  | Some (m, b) => Some {| workers := workers st; checking := checking st; main := m; sent := b;
                           world := world st |}
  | None =>
    if decide (main st = Killed) then None else
    match first_step 0 (workers st) with
    | Some i =>
      match workers st !! i with
      | Some (Step f k) =>
        Some {| workers := <[i := k (world st)]> (workers st); checking := checking st;
                main := main st; sent := sent st; world := f (world st) |}
      | _ => None
      end
    | None =>
      match checker_call (checking st) (world st) with
      | Some (c, w) => Some {| workers := workers st; checking := c; main := main st;
                               sent := sent st; world := w |}
      | None =>
        if checker_aborts (checking st) then None else
        match checker_next elements (sent st) (checking st) with
        | Some c => Some {| workers := workers st; checking := c; main := main st; sent := sent st;
                            world := world st |}
        | None => None
        end
      end
    end
  end.
Fixpoint play (n : nat) (st : toy_state) : toy_state :=
  match n with
  | O => st
  | S n' => match schedule st with Some st' => play n' st' | None => st end
  end.

Lemma schedule_steps st st' : schedule st = Some st' -> stress_step elements toy_config st st'.
Proof.
  unfold schedule. destruct (caller_next toy_config st) as [[m b]|] eqn:Hm.
  - intros [= <-]. by apply caller_goes_on.
  - case_decide as Hk; [done|]. destruct (first_step 0 (workers st)) as [i|].
    + destruct (workers st !! i) as [[|f k]|] eqn:Hi; try done. intros [= <-]. by apply worker_step.
    + destruct (checker_call _ _) as [[c w]|] eqn:Hc; [intros [= <-]; by apply checker_calls|].
      destruct (checker_aborts _) eqn:Hab; [done|].
      destruct (checker_next _ _ _) as [c|] eqn:Hn; [|done]. intros [= <-].
      by apply checker_goes_on.
Qed.
Lemma play_steps n : forall st, rtc (stress_step elements toy_config) st (play n st).
Proof.
  induction n as [|n IH]; intros st; simpl; [done|].
  destruct (schedule st) as [st'|] eqn:Hs; [|done].
  eapply rtc_l; [by apply schedule_steps|apply IH].
Qed.

Definition toy_start : toy_state :=
  execute 20 elements toy_config toy_seeds {[("k", Some "root", Tpm)]}.
Definition toy_end : toy_state := play 400 toy_start.

(** Two workers of twelve requests and the checker: the test finishes, and whatever it
    logged nothing of the first worker is left. *)
Lemma stress_test_leaves_no_keys_witness :
  main toy_end = Finished /\
  exists p logged, workers toy_end !! 0 = Some p /\ p = Ret (Returned tt (Some logged)) /\
    forall k, app_of k = Some (name_of toy_seeds 0) -> k ∈ world toy_end -> k ∈ logged.
Proof.
  assert (Hfin : main toy_end = Finished)
    by (apply (bool_decide_eq_true_1 _); vm_compute; reflexivity).
  split; [exact Hfin|].
  destruct (stress_test_leaves_no_keys 20 elements (fun ks => reflexivity _) toy_config toy_seeds
    toy_direct) with (w := {[("k", Some "root", Tpm)]} : toy_world) (st := toy_end) as [Hw _].
  - intros i j Hi Hj. assert (i = 0 \/ i = 1) as [-> | ->] by (vm_compute in Hi; lia);
      assert (j = 0 \/ j = 1) as [-> | ->] by (vm_compute in Hj; lia); vm_compute; congruence.
  - intros i Hi. assert (i = 0 \/ i = 1) as [-> | ->] by (vm_compute in Hi; lia);
      vm_compute; congruence.
  - apply play_steps.
  - exact Hfin.
  - assert (Hret : (if workers toy_end !! 0 is Some (Ret (Returned _ _)) then true else false)
      = true) by (vm_compute; reflexivity).
    destruct (workers toy_end !! 0) as [p|] eqn:Hp; [|discriminate Hret]. exists p.
    destruct (Hw 0 p Hp) as (logged & Hcase & Hk). exists logged. split; [reflexivity|]. split.
    + destruct Hcase as [->|[e ->]]; [reflexivity|discriminate Hret].
    + intros k Ha Hin. destruct (Hk k Ha Hin) as [Hold|Hl]; [|exact Hl].
      rewrite (proj1 (elem_of_singleton _ _) Hold) in Ha. vm_compute in Ha. discriminate Ha.
Defined.

(** A deviation of four milliseconds around ten; none at all makes the worker panic. *)
Lemma interval_spec_witness :
  exists p g, StressTestWorker.interval toy_config 6%Z = Ok (Some p, g) /\
    (6000000 <= p < 14000000)%Z.
Proof.
  pose proof (interval_spec toy_config (from_millis 10) 4%Z 6%Z eq_refl eq_refl
    ltac:(unfold from_millis; lia) ltac:(lia)) as Hs.
  destruct (StressTestWorker.interval toy_config 6%Z) as [[pause g]|e|] eqn:Hi.
  - destruct Hs as (p & -> & _ & Hr & _). exists p, g. split; [reflexivity|].
    unfold from_millis in Hr. lia.
  - destruct Hs.
  - vm_compute in Hi. discriminate Hi.
Defined.
Example no_deviation_panics :
  StressTestWorker.interval {| no_threads := 1; req_per_thread := 1;
    req_interval := Some (from_millis 10); req_interval_deviation_millis := Some 0%Z;
    check_interval := None |} 6%Z = Panic.
Proof. reflexivity. Qed.

(** A worker without keys for encryption and elliptic curves draws on until it gets an
    operation it can perform. *)
Definition poor_worker : StressTestWorker.StressTestWorker :=
  {| StressTestWorker.config := toy_config; StressTestWorker.sign_key_name := "s";
     StressTestWorker.ecc_key_name := None; StressTestWorker.encrypt_key_name := None |}.
Lemma draw_operation_spec_witness :
  (StressTestWorker.draw_operation 20 poor_worker 6%Z).1 = Some CreateDestroyKey.
Proof.
  destruct (draw_operation_spec poor_worker 20 6%Z 4) as [Hd _].
  - intros j Hj. assert (j = 0 \/ j = 1 \/ j = 2 \/ j = 3) as [->|[->|[->| ->]]] by lia;
      reflexivity.
  - reflexivity.
  - lia.
  - exact Hd.
Defined.
