(* ===== verification/Tooling.v ===== *)
(** * Tools around the service

    The corpus of the fuzz tests ([fuzz/build.rs]), the stream of the fuzz target
    ([fuzz/fuzz_targets/fuzz_service.rs]), the raw client of the end-to-end tests
    ([e2e_tests/src/raw_request.rs]) and the choice of files of the build script
    ([build.rs]). *)
From S2P Require Import Prelude RustStd Interface Fs TestClient.

(** ** The corpus of the fuzz tests *)
Module Corpus.
Import TestClient.

Definition example_usage : UsageFlags :=
  usage true true true true true false false false false false.
Definition rsa_sha256 : AsymmetricSignature := RsaPkcs1v15Sign (SignHash_Specific Sha256).
Definition ecdsa_sha256 : AsymmetricSignature := Ecdsa (SignHash_Specific Sha256).
Definition hash_5a : bytes := replicate 32 (ascii_of_N 90).
Definition signature_ff : bytes := replicate 32 (ascii_of_N 255).

Definition import_data : bytes := (fun z => ascii_of_N (Z.to_N z)) <$>
  [ 153; 165; 220; 135; 89; 101; 254; 229; 28; 33; 138; 247; 20; 102; 253; 217;
    247; 246; 142; 107; 51; 40; 179; 149; 45; 117; 254; 236; 161; 109; 16; 81; 135;
    72; 112; 132; 150; 175; 128; 173; 182; 122; 227; 214; 196; 130; 54; 239; 93; 5;
    203; 185; 233; 61; 159; 156; 7; 161; 87; 48; 234; 105; 161; 108; 215; 211; 150;
    168; 156; 212; 6; 63; 81; 24; 101; 72; 160; 97; 243; 142; 86; 10; 160; 122; 8;
    228; 178; 252; 35; 209; 222; 228; 16; 143; 99; 143; 146; 241; 186; 187; 22;
    209; 86; 141; 24; 159; 12; 146; 44; 111; 254; 183; 54; 229; 109; 28; 39; 22;
    141; 173; 85; 26; 58; 9; 128; 27; 57; 131 ]%Z.

Definition operations : list (string * NativeOperation) :=
  [ ("example-create-rsa-key", PsaGenerateKey {|
       gk_key_name := "rsa-key-name";
       gk_attributes := attributes Persistent RsaKeyPair 1024 example_usage
         (Alg_AsymmetricSignature rsa_sha256) |});
    ("example-create-ecdsa-key", PsaGenerateKey {|
       gk_key_name := "ecdsa-key-name";
       gk_attributes := attributes Persistent (EccKeyPair SecpR1) 256 example_usage
         (Alg_AsymmetricSignature ecdsa_sha256) |});
    ("example-destroy-rsa-key", PsaDestroyKey "rsa-key-name");
    ("example-destroy-ecdsa-key", PsaDestroyKey "ecdsa-key-name");
    ("example-export-rsa-public-key", PsaExportPublicKey "rsa-key-name");
    ("example-export-ecdsa-public-key", PsaExportPublicKey "ecdsa-key-name");
    ("example-sign-hash-rsa", PsaSignHash {|
       sh_key_name := "rsa-key-name"; sh_alg := rsa_sha256; sh_hash := hash_5a |});
    ("example-sign-hash-ecdsa", PsaSignHash {|
       sh_key_name := "ecdsa-key-name"; sh_alg := ecdsa_sha256; sh_hash := hash_5a |});
    ("example-verify-hash-rsa", PsaVerifyHash {|
       vh_key_name := "rsa-key-name"; vh_alg := rsa_sha256; vh_hash := hash_5a;
       vh_signature := signature_ff |});
    ("example-verify-hash-ecdsa", PsaVerifyHash {|
       vh_key_name := "ecdsa-key-name"; vh_alg := ecdsa_sha256; vh_hash := hash_5a;
       vh_signature := signature_ff |});
    ("example-import-rsa", PsaImportKey {|
       ik_key_name := "key-name";
       ik_attributes := attributes Persistent (EccKeyPair SecpR1) 256 example_usage
         (Alg_AsymmetricSignature rsa_sha256);
       ik_data := import_data |}) ].

(** [format!("{:?}", id)] *)
Definition debug_provider (id : ProviderId) : string :=
  match id with
  | Core => "Core"
  | MbedCrypto => "MbedCrypto"
  | Pkcs11 => "Pkcs11"
  | Tpm => "Tpm"
  | CryptoAuthLib => "CryptoAuthLib"
  | TrustedService => "TrustedService"
  end.
Definition file_name (file_name_root : string) (id : ProviderId) : string :=
  file_name_root +:+ "-" +:+ debug_provider id.

(** [OperationClient::process_operation] with the handler that connects it. *)
Class OperationClient :=
  process_operation : ST fs ClientError path -> NativeOperation -> ProviderId -> Authentication ->
    ST fs ClientError NativeResult.

(** [fs::create_dir] *)
Definition create_dir (p : path) : ST fs io_error unit :=
  Fs.call no_effect (fun s =>
    if is_dir (nodes s) p || is_file (nodes s) p then (Err "File exists", s)
    else if is_dir (nodes s) (removelast p) then (Ok tt, with_nodes (<[p := Dir]> (nodes s)) s)
    else (Err "No such file", s)).

Section Corpus.
Context `{OperationClient}.

(** [FileHandler::connect] panics when the file cannot be created. *)
Definition connect (file_path : path) : ST fs ClientError path :=
  r ← attempt (create file_path);
  match r with
  | Ok _ => mret file_path
  | _ => panic
  end.

(** A turn of the loop; the operation is expected to fail. *)
Definition write_example (id : ProviderId) (p : path) (example : string * NativeOperation)
    : ST fs string unit :=
  let '(file_name_root, operation) := example in
  let file_path := join p (file_name file_name_root id) in
  r ← attempt (process_operation (connect file_path) operation id
                 (Authentication_Direct "app-ident"));
  match r with
  | Err _ => mret tt
  | _ => panic
  end.
Definition generate_corpus (id : ProviderId) (p : path) : ST fs string unit :=
  for_each operations (write_example id p).

(** The providers that [main] knows; [features] are the cargo features. *)
Definition known_providers : list ProviderId := [MbedCrypto; Tpm; Pkcs11].
Definition main (features : gset ProviderId) (manifest_dir : path) : ST fs string unit :=
  let p := join manifest_dir "init_corpus" in
  d ← gets (fun s => is_dir (nodes s) p);
  (if d : bool then mret tt
   else r ← attempt (create_dir p); if is_ok r then mret tt else panic) ;;
  for_each known_providers (fun id =>
    if decide (id ∈ features) then generate_corpus id p else mret tt) ;;
  if existsb (fun id => bool_decide (id ∈ features)) known_providers then mret tt else panic.
End Corpus.
End Corpus.

(** ** The stream of the fuzz target *)
Module MockStream.
(** [self.0.drain(0..n)]; a range past the end panics. *)
Definition drain (n : nat) : ST bytes io_error bytes := fun self =>
  if decide (n <= length self) then (Ok (take n self), drop n self) else (Panic, self).
(** The loop over the drained bytes; an index past the end of the buffer panics. *)
Fixpoint fill (idx : nat) (vals buf : bytes) : result io_error bytes :=
  match vals with
  | [] => Ok buf
  | val :: rest =>
    if decide (idx < length buf) then fill (S idx) rest (<[idx := val]> buf) else Panic
  end.

(** [Read::read]: the number of bytes read and the buffer afterwards. *)
Definition read (buf : bytes) : ST bytes io_error (nat * bytes) :=
  self ← gets id;
  if decide (self = []) then mret (0, buf)
  else
    let n := min (length buf) (length self) in
    vals ← drain n;
    buf' ← lift (fill 0 vals buf);
    mret (n, buf').
(** [Write::write] and [Write::flush] *)
Definition write (buf : bytes) : ST bytes io_error nat := mret (length buf).
Definition flush : ST bytes io_error unit := mret tt.
End MockStream.

(** ** The raw client *)
Module RawRequestClient.
Definition MAX_BODY_SIZE : Z := 2 ^ 31.
Definition SOCKET_PATH : string := "/tmp/parsec.sock".
(** Seconds. *)
Definition TIMEOUT : Z := 60.

(** What it uses of the system and of the wire format, for streams [C] and raw headers
    [Hd]. *)
Class RawOs (O C Hd : Type) := {
  unix_connect : string -> ST O io_error C;
  sleep : Z -> O -> O;
  set_read_timeout : C -> Z -> ST O io_error unit;
  set_write_timeout : C -> Z -> ST O io_error unit;
  write_header : C -> Hd -> ST O ResponseStatus unit;
  write_stream : C -> bytes -> ST O io_error unit;
  read_response : C -> Z -> ST O ResponseStatus Response;
}.

Section Client.
Context {O C Hd : Type} `{RawOs O C Hd}.

Definition expecting {E F A} (m : ST O E A) : ST O F A :=
  r ← attempt m; match r with Ok a => mret a | _ => panic end.

(** Connects once, and once more after a pause. *)
Definition connect_twice : ST O io_error C :=
  stream ← attempt (unix_connect SOCKET_PATH);
  match stream with
  | Err _ => modify (sleep TIMEOUT) ;; unix_connect SOCKET_PATH
  | Ok stream => mret stream
  | Panic => panic
  end.

Definition send_raw_request (request_hdr : Hd) (data : bytes) : ST O ResponseStatus Response :=
  stream ← expecting connect_twice;
  expecting (set_read_timeout stream TIMEOUT) ;;
  expecting (set_write_timeout stream TIMEOUT) ;;
  expecting (write_header stream request_hdr) ;;
  expecting (write_stream stream data) ;;
  read_response stream MAX_BODY_SIZE.
End Client.
End RawRequestClient.

(** ** The build script *)
Module BuildScript.
(** [str::ends_with] *)
Definition ends_with (suffix s : string) : bool :=
  bool_decide (as_bytes suffix = drop (String.length s - String.length suffix) (as_bytes s)).

(** The files of [generate_proto_sources]: [entries] is what the directory listing
    yields, with [None] for a path that is not valid UTF-8; the first error ends it. *)
Fixpoint collect_paths (entries : list (result io_error (option string)))
    : result io_error (list string) :=
  match entries with
  | [] => Ok []
  | protos_file :: rest =>
    path ← protos_file;
    path ← ok_or path "conversion from OsString to String failed"%string;
    files ← collect_paths rest;
    Ok (path :: files)
  end.
Definition proto_files (entries : list (result io_error (option string)))
    : result io_error (list string) :=
  files ← collect_paths entries;
  Ok (List.filter (ends_with ".proto") files).

(** What is set in [bindgen::Builder] before [generate]. *)
Record Bindgen := { clang_arg : string; rustfmt_bindings : bool; headers : list string;
  generate_comments : bool; size_t_is_usize : bool; derive_default : bool }.

(** What the script uses of the system, of [bindgen] and of [prost_build], with the text
    of the bindings as [B]. *)
Class BuildOs (O B : Type) := {
  println : string -> O -> O;
  read_dir : string -> ST O io_error (list (result io_error (option string)));
  env_var : string -> O -> option string;
  bindgen_generate : Bindgen -> ST O string B;
  write_to_file : B -> string -> ST O io_error unit;
  compile_protos : list string -> list string -> ST O io_error unit;
}.

(** [Path::join] with a relative path. *)
Definition path_join (p file : string) : string :=
  if decide (p = "") then file
  else if ends_with "/" p then p +:+ file
  else p +:+ "/" +:+ file.

Section Build.
Context {O B : Type} `{BuildOs O B}.

Definition generate_ts_bindings (ts_include_dir : string) : ST O io_error unit :=
  let header := ts_include_dir +:+ "/components/service/locator/interface/service_locator.h" in
  let encoding_header := ts_include_dir +:+ "/protocols/rpc/common/packed-c/encoding.h" in
  modify (println ("cargo:rerun-if-changed=" +:+ header)) ;;
  bindings ← on_err
    (fun _ : string => "Unable to generate bindings to trusted services locator"%string)
    (bindgen_generate {|
       clang_arg := "-I" +:+ (ts_include_dir +:+ "/components/rpc/common/interface");
       rustfmt_bindings := true;
       headers := [header; encoding_header];
       generate_comments := false;
       size_t_is_usize := true;
       derive_default := true |});
  out_dir ← gets (env_var "OUT_DIR");
  match out_dir with
  | None => panic
  | Some out_path =>
    write_to_file bindings (path_join out_path "ts_bindings.rs") ;;
    modify (println "cargo:rustc-link-lib=dylib=ts")
  end.

Definition generate_proto_sources (contract_dir : string) : ST O io_error unit :=
  let crypto_pb_dir := contract_dir +:+ "/service/crypto/protobuf" in
  dir_entries ← read_dir crypto_pb_dir;
  files_slices ← lift (proto_files dir_entries);
  compile_protos files_slices [contract_dir].

(** [main] with and without the feature [trusted-service-provider]. *)
Definition main (trusted_service_provider : bool) : ST O io_error unit :=
  if trusted_service_provider then
    generate_proto_sources "trusted-services-vendor/protocols" ;;
    generate_ts_bindings "trusted-services-vendor"
  else mret tt.
End Build.
End BuildScript.
