(* ===== verification/ToolingSpec.v ===== *)
(** * The tools around the service

    The corpus generator writes every example for every provider it was built for, and
    nothing else; the stream of the fuzz target delivers its bytes in order; the build
    script compiles exactly the protobuf files. *)
From S2P Require Import Prelude RustStd Interface Fs TestClient Tooling.

(** ** The corpus *)
(** Inserting a list of entries, the last one wins. *)
Definition insert_all {K V} `{Countable K} (l : list (K * V)) (m : gmap K V) : gmap K V :=
  foldl (fun m kv => <[kv.1 := kv.2]> m) m l.

Lemma insert_all_old {K V} `{Countable K} (l : list (K * V)) : forall m k,
  k ∉ l.*1 -> insert_all l m !! k = m !! k.
Proof.
  induction l as [|[k' v] l IH]; intros m k Hk; simpl in *; [done|].
  apply not_elem_of_cons in Hk as [Hne Hk]. rewrite IH by done. by rewrite lookup_insert_ne.
Qed.

Lemma insert_all_new {K V} `{Countable K} (l : list (K * V)) : forall m k v,
  NoDup l.*1 -> (k, v) ∈ l -> insert_all l m !! k = Some v.
Proof.
  induction l as [|[k' v'] l IH]; intros m k v Hnd Hin; simpl in *; [by apply elem_of_nil in Hin|].
  apply NoDup_cons in Hnd as [Hk' Hnd].
  apply elem_of_cons in Hin as [[= -> ->]|Hin]; [|by apply IH].
  rewrite insert_all_old by done. apply lookup_insert_eq.
Qed.

Section Corpus.
Import Corpus.
Context `{OperationClient}.

(** Documented behaviour of the client: it connects, writes the request and reads the
    response, of which a file just created has none. *)
Class OperationClientLaws := {
  request_bytes : NativeOperation -> ProviderId -> Authentication -> bytes;
  process_writes c op id a s p s' : c s = (Ok p, s') -> faults s' = [] ->
    exists e, process_operation c op id a s =
      (Err e, with_nodes (<[p := File (request_bytes op id a)]> (nodes s')) s');
}.
Context `{OperationClientLaws}.
Implicit Types (p : path) (s : fs) (id : ProviderId).

(** The file of one example. *)
Definition example_file p id (example : string * NativeOperation) : path * node :=
  (p ++ [file_name example.1 id],
   File (request_bytes example.2 id (Authentication_Direct "app-ident"))).
Definition corpus p (ids : list ProviderId) : list (path * node) :=
  ids ≫= fun id => example_file p id <$> operations.

(** A healthy disk with the directory [p] and no directory in it. *)
Definition corpus_dir p s : Prop :=
  faults s = [] /\ is_dir (nodes s) p = true /\
  forall name, is_dir (nodes s) (p ++ [name]) = false.

Lemma file_name_not_empty root id : file_name root id <> "".
Proof. by destruct root. Qed.

Lemma corpus_dir_insert p name data s :
  corpus_dir p s -> corpus_dir p (with_nodes (<[p ++ [name] := File data]> (nodes s)) s).
Proof.
  intros (Hf & Hd & Hc). split_and!; [done|..]; simpl.
  - revert Hd. unfold is_dir. destruct (bool_decide (p = [])); [done|]. simpl.
    rewrite lookup_insert_ne; [done|]. intros Heq. apply (f_equal length) in Heq.
    rewrite length_app in Heq. simpl in Heq. lia.
  - intros name'. specialize (Hc name'). revert Hc. unfold is_dir.
    rewrite !(bool_decide_eq_false_2 (p ++ [_] = [])) by (by destruct p). simpl.
    destruct (decide (p ++ [name] = p ++ [name'])) as [->|Hne];
      [by rewrite lookup_insert_eq|by rewrite lookup_insert_ne].
Qed.

Lemma write_example_run p id example s :
  corpus_dir p s ->
  write_example id p example s =
    (Ok tt, with_nodes (<[(example_file p id example).1 := (example_file p id example).2]>
                          (nodes s)) s) /\
  corpus_dir p (with_nodes (<[(example_file p id example).1 := (example_file p id example).2]>
                              (nodes s)) s).
Proof.
  intros Hs. split; [|by apply corpus_dir_insert]. destruct Hs as (Hf & Hd & Hc).
  destruct example as [root op]. unfold write_example. simpl.
  assert (Hj : join p (file_name root id) = p ++ [file_name root id]).
  { unfold join. rewrite decide_False; [done|]. apply file_name_not_empty. }
  rewrite Hj. set (q := p ++ [file_name root id]).
  assert (Hcon : connect q s = (Ok q, with_nodes (<[q := File []]> (nodes s)) s)).
  { unfold connect, create. run_unfold. rewrite call_healthy by done. unfold q at 1.
    rewrite Hc. unfold q. rewrite removelast_last, Hd. done. }
  destruct (process_writes (connect q) op id (Authentication_Direct "app-ident") s q _ Hcon Hf)
    as [e He].
  run_unfold. rewrite He. simpl. unfold with_nodes. simpl. by rewrite insert_insert_eq.
Qed.

Lemma generate_corpus_run p id (l : list (string * NativeOperation)) : forall s,
  corpus_dir p s -> exists s', for_each l (write_example id p) s = (Ok tt, s') /\ corpus_dir p s' /\
    nodes s' = insert_all (example_file p id <$> l) (nodes s).
Proof.
  induction l as [|example l IH]; intros s Hs; simpl; [by exists s|].
  destruct (write_example_run p id example s Hs) as [Hrun Hs1].
  destruct (IH _ Hs1) as (s' & Hl & Hs' & Hn). exists s'. unfold mbind, ST_bind. by rewrite Hrun.
Qed.

Lemma insert_all_app {K V} `{Countable K} (l l' : list (K * V)) m :
  insert_all (l ++ l') m = insert_all l' (insert_all l m).
Proof. apply foldl_app. Qed.

Lemma all_corpora_run (features : gset ProviderId) p (ids : list ProviderId) : forall s,
  corpus_dir p s -> exists s', for_each ids (fun id =>
      if decide (id ∈ features) then generate_corpus id p else mret tt) s = (Ok tt, s') /\
    nodes s' = insert_all (corpus p (filter (.∈ features) ids)) (nodes s).
Proof.
  induction ids as [|id ids IH]; intros s Hs; simpl; [by exists s|]. rewrite filter_cons.
  unfold mbind, ST_bind. destruct (decide (id ∈ features)) as [Hin|Hout].
  - destruct (generate_corpus_run p id operations s Hs) as (s1 & Hrun & Hs1 & Hn1).
    unfold generate_corpus. rewrite Hrun. destruct (IH s1 Hs1) as (s' & Hl & Hn). exists s'.
    split; [done|]. rewrite Hn, Hn1. unfold corpus. by rewrite bind_cons, insert_all_app.
  - by apply IH.
Qed.

(** The names of the files are pairwise different. *)
Lemma corpus_names :
  NoDup (known_providers ≫= fun id => (fun e => file_name e.1 id) <$> operations).
Proof. apply (bool_decide_eq_true_1 _). vm_compute. reflexivity. Qed.

Lemma corpus_paths p ids :
  (corpus p ids).*1 = (fun name => p ++ [name]) <$>
    (ids ≫= fun id => (fun e => file_name e.1 id) <$> operations).
Proof.
  unfold corpus. induction ids as [|id ids IH]; [done|]. by rewrite !bind_cons, !fmap_app, IH.
Qed.

Lemma corpus_NoDup p (features : gset ProviderId) :
  NoDup (corpus p (filter (.∈ features) known_providers)).*1.
Proof.
  rewrite corpus_paths. apply NoDup_fmap_2; [intros x y Heq; by simplify_list_eq|].
  eapply sublist_NoDup; [apply corpus_names|]. induction known_providers as [|id ids IH]; [done|].
  rewrite filter_cons, bind_cons. case_decide.
  - rewrite bind_cons. by apply sublist_app.
  - by apply sublist_inserts_l.
Qed.

(** The first step of [main]. *)
Lemma corpus_dir_made manifest_dir s :
  let p := manifest_dir ++ ["init_corpus"] in
  faults s = [] -> is_dir (nodes s) manifest_dir = true -> is_file (nodes s) p = false ->
  (forall name, is_dir (nodes s) (p ++ [name]) = false) ->
  exists s0, (if is_dir (nodes s) p then mret tt
    else r ← attempt (F := string) (create_dir p); if is_ok r then mret tt else panic) s =
      (Ok tt, s0) /\
    corpus_dir p s0 /\ nodes s0 !! p = Some Dir /\ forall q, q <> p -> nodes s0 !! q = nodes s !! q.
Proof.
  intros p Hf Hd Hfile Hc. run_unfold.
  assert (Hne : p <> []) by (by destruct manifest_dir).
  destruct (is_dir (nodes s) p) eqn:Hp.
  - exists s. split_and!; [done|by split_and!| |done]. by apply is_dir_lookup.
  - unfold create_dir. rewrite call_healthy by done. rewrite Hp, Hfile. simpl.
    unfold p at 1. rewrite removelast_last, Hd. eexists. split; [done|]. split_and!; simpl.
    + split_and!; [done|simpl; apply is_dir_lookup; [done|apply lookup_insert_eq]|].
      intros name. rewrite <- (Hc name). unfold is_dir. simpl. rewrite lookup_insert_ne; [done|].
      intros Heq. apply (f_equal length) in Heq. rewrite length_app in Heq. simpl in Heq. lia.
    + apply lookup_insert_eq.
    + intros q Hq. by rewrite lookup_insert_ne.
Qed.

(** On a healthy disk the corpus generator, built for at least one of its three
    providers, writes for each of them every example under a name of its own, with the
    bytes of the request, and changes nothing else; the directory is made when it is
    missing. *)
Theorem corpus_complete (features : gset ProviderId) manifest_dir s :
  let p := manifest_dir ++ ["init_corpus"] in
  faults s = [] -> is_dir (nodes s) manifest_dir = true -> is_file (nodes s) p = false ->
  (forall name, is_dir (nodes s) (p ++ [name]) = false) ->
  (exists id, id ∈ known_providers /\ id ∈ features) ->
  exists s', main features manifest_dir s = (Ok tt, s') /\ nodes s' !! p = Some Dir /\
    (forall id root op, id ∈ known_providers -> id ∈ features -> (root, op) ∈ operations ->
       nodes s' !! (p ++ [file_name root id]) =
         Some (File (request_bytes op id (Authentication_Direct "app-ident")))) /\
    (forall q, q <> p -> (forall id root op, id ∈ known_providers -> id ∈ features ->
       (root, op) ∈ operations -> q <> p ++ [file_name root id]) -> nodes s' !! q = nodes s !! q).
Proof.
  intros p Hf Hd Hfile Hc (id0 & Hk0 & Hin0).
  destruct (corpus_dir_made manifest_dir s Hf Hd Hfile Hc) as (s0 & Hmk & Hdir & Hp0 & Hn0).
  destruct (all_corpora_run features p known_providers s0 Hdir) as (s' & Hrun & Hn).
  exists s'.
  assert (Hex : existsb (fun id => bool_decide (id ∈ features)) known_providers = true).
  { apply existsb_exists. exists id0. split; [by apply list_elem_of_In|].
    by apply bool_decide_eq_true. }
  assert (Hout : forall q, (forall id root op, id ∈ known_providers -> id ∈ features ->
    (root, op) ∈ operations -> q <> p ++ [file_name root id]) ->
    q ∉ (corpus p (filter (.∈ features) known_providers)).*1).
  { intros q Hq ([q' n] & -> & Hin)%list_elem_of_fmap. simpl in Hq.
    apply list_elem_of_bind in Hin as (id & ([root op] & Heq & Hop)%list_elem_of_fmap & Hid).
    apply list_elem_of_filter in Hid as [Hid1 Hid2]. injection Heq as -> _.
    by apply (Hq id root op). }
  split_and!.
  - unfold main. change (join manifest_dir "init_corpus") with p. fold p in Hmk.
    unfold mbind, ST_bind, gets in *. rewrite Hmk, Hrun, Hex. done.
  - rewrite Hn, insert_all_old; [done|]. apply Hout. intros id root op _ _ _ Heq.
    apply (f_equal length) in Heq. rewrite length_app in Heq. simpl in Heq. lia.
  - intros id root op Hid Hfe Hop. rewrite Hn. apply insert_all_new; [apply corpus_NoDup|].
    apply list_elem_of_bind. exists id. split; [|by apply list_elem_of_filter].
    apply list_elem_of_fmap. by exists (root, op).
  - intros q Hq Hqs. rewrite Hn, insert_all_old by by apply Hout. by apply Hn0.
Qed.
End Corpus.

(** ** The stream of the fuzz target *)
Lemma fill_spec vals : forall idx buf,
  idx + length vals <= length buf ->
  MockStream.fill idx vals buf = Ok (take idx buf ++ vals ++ drop (idx + length vals) buf).
Proof.
  induction vals as [|v vals IH]; intros idx buf Hle; simpl in *.
  - by rewrite Nat.add_0_r, take_drop.
  - rewrite decide_True by lia. rewrite IH by (rewrite length_insert; lia). f_equal.
    rewrite (take_S_r _ idx v) by (rewrite list_lookup_insert_eq; [done|lia]).
    rewrite take_insert_ge, drop_insert_lt by lia. rewrite <- app_assoc. simpl.
    by rewrite Nat.add_succ_r.
Qed.

(** The stream delivers its bytes in order and fills a buffer as far as they go; no
    index is past the end of the buffer or of the stream. *)
Lemma mock_read buf self :
  let n := min (length buf) (length self) in
  MockStream.read buf self = (Ok (n, take n self ++ drop n buf), drop n self).
Proof.
  cbv zeta. unfold MockStream.read, MockStream.drain. run_unfold. simpl. case_decide as He.
  - subst self. by rewrite Nat.min_0_r.
  - rewrite decide_True by lia. set (n := min (length buf) (length self)).
    assert (Hn : length (take n self) = n) by (rewrite length_take; lia).
    rewrite fill_spec by (rewrite Hn; lia). simpl. by rewrite Hn.
Qed.

(** ** The build script *)
Lemma proto_files_spec entries files :
  BuildScript.proto_files entries = Ok files <->
  exists paths, entries = (fun x => Ok (Some x)) <$> paths /\
    files = List.filter (BuildScript.ends_with ".proto") paths.
Proof.
  assert (Hc : forall l paths, BuildScript.collect_paths l = Ok paths <->
    l = (fun x => Ok (Some x)) <$> paths).
  { induction l as [|x l IH]; intros paths; simpl.
    - split; [by intros [= <-]|]. by destruct paths.
    - destruct x as [[x|]|e|]; simpl; [|by split; [|destruct paths]..].
      destruct (BuildScript.collect_paths l) as [fs|e|] eqn:Hl; simpl.
      + split; [intros [= <-]; simpl; f_equal; by apply IH|].
        destruct paths as [|y paths]; [done|]. intros [= -> Hp]. apply IH in Hp. by simplify_eq.
      + split; [done|]. destruct paths as [|y paths]; [done|]. intros [= -> Hp]. by apply IH in Hp.
      + split; [done|]. destruct paths as [|y paths]; [done|].
        intros [= -> Hp]. by apply IH in Hp. }
  unfold BuildScript.proto_files.
  destruct (BuildScript.collect_paths entries) as [fs|e|] eqn:Hf; simpl.
  - apply Hc in Hf as ->. split; [intros [= <-]; by exists fs|].
    intros (paths & Heq & ->). apply list_fmap_eq_inj in Heq as ->; [done|]. congruence.
  - split; [done|]. intros (paths & Heq & _). apply Hc in Heq. congruence.
  - split; [done|]. intros (paths & Heq & _). apply Hc in Heq. congruence.
Qed.

(** The builder of the bindings that the script sets up. *)
Definition ts_bindgen : BuildScript.Bindgen := {|
  BuildScript.clang_arg := "-Itrusted-services-vendor/components/rpc/common/interface";
  BuildScript.rustfmt_bindings := true;
  BuildScript.headers :=
    [ "trusted-services-vendor/components/service/locator/interface/service_locator.h";
      "trusted-services-vendor/protocols/rpc/common/packed-c/encoding.h" ];
  BuildScript.generate_comments := false;
  BuildScript.size_t_is_usize := true;
  BuildScript.derive_default := true |}.

(** The build succeeds exactly if the directory of the contracts can be listed with
    names that are valid, the compiler takes its protobuf files and only these, and the
    bindings are generated and written to the output directory, in this order; then
    cargo is told to link the library. *)
Lemma build_script_spec {O B} `{BuildScript.BuildOs O B} (o o' : O) :
  BuildScript.main true o = (Ok tt, o') <->
  exists paths o1 o2 bindings o3 out_dir o4,
    BuildScript.read_dir "trusted-services-vendor/protocols/service/crypto/protobuf" o =
      (Ok ((fun x => Ok (Some x)) <$> paths), o1) /\
    BuildScript.compile_protos (List.filter (BuildScript.ends_with ".proto") paths)
      ["trusted-services-vendor/protocols"] o1 = (Ok tt, o2) /\
    BuildScript.bindgen_generate ts_bindgen
      (BuildScript.println ("cargo:rerun-if-changed=trusted-services-vendor"
         +:+ "/components/service/locator/interface/service_locator.h") o2) = (Ok bindings, o3) /\
    BuildScript.env_var "OUT_DIR" o3 = Some out_dir /\
    BuildScript.write_to_file bindings (BuildScript.path_join out_dir "ts_bindings.rs") o3 =
      (Ok tt, o4) /\
    o' = BuildScript.println "cargo:rustc-link-lib=dylib=ts" o4.
Proof.
  unfold BuildScript.main, BuildScript.generate_proto_sources, BuildScript.generate_ts_bindings.
  cbv [String.append]. fold ts_bindgen. run_unfold. split.
  - destruct (BuildScript.read_dir _ o) as [[es|e|] o1] eqn:Hd; [|done|done].
    destruct (BuildScript.proto_files es) as [files|e|] eqn:Hf; [|done|done].
    apply proto_files_spec in Hf as (paths & -> & ->).
    destruct (BuildScript.compile_protos _ _ o1) as [[[]|e|] o2] eqn:Hc; [|done|done].
    destruct (BuildScript.bindgen_generate _ _) as [[b|e|] o3] eqn:Hb; [|done|done]. simpl.
    destruct (BuildScript.env_var _ o3) as [out|] eqn:He; [|done].
    destruct (BuildScript.write_to_file _ _ o3) as [[[]|e|] o4] eqn:Hw; [|done|done].
    intros [= <-]. by exists paths, o1, o2, b, o3, out, o4.
  - intros (paths & o1 & o2 & b & o3 & out & o4 & Hd & Hc & Hb & He & Hw & ->).
    rewrite Hd. rewrite (proj2 (proto_files_spec _ _)) by eauto.
    rewrite Hc, Hb. simpl. by rewrite He, Hw.
Qed.

(** ** The raw client *)
Lemma expecting_Ok {O E F A} (m : ST O E A) o (a : A) o' :
  RawRequestClient.expecting (F := F) m o = (Ok a, o') -> m o = (Ok a, o').
Proof.
  unfold RawRequestClient.expecting. run_unfold. destruct (m o) as [[x|e|] o1]; simpl; congruence.
Qed.
Lemma expecting_no_Err {O E F A} (m : ST O E A) o e o' :
  RawRequestClient.expecting (F := F) m o <> (Err e, o').
Proof.
  unfold RawRequestClient.expecting. run_unfold. by destruct (m o) as [[x|e'|] o1].
Qed.

(** An answer, good or bad, is what was read from a stream that had been connected, at
    the first or the second attempt, and given the timeouts, the header and the bytes in
    this order; everything else that can go wrong panics. *)
Lemma send_raw_request_spec {O C Hd} `{RawRequestClient.RawOs O C Hd} hdr data o r o' :
  RawRequestClient.send_raw_request hdr data o = (r, o') -> r <> Panic ->
  exists stream o1 o2 o3 o4 o5,
    (RawRequestClient.unix_connect RawRequestClient.SOCKET_PATH o = (Ok stream, o1) \/
     exists e o0, RawRequestClient.unix_connect RawRequestClient.SOCKET_PATH o = (Err e, o0) /\
       RawRequestClient.unix_connect RawRequestClient.SOCKET_PATH
         (RawRequestClient.sleep RawRequestClient.TIMEOUT o0) = (Ok stream, o1)) /\
    RawRequestClient.set_read_timeout stream 60 o1 = (Ok tt, o2) /\
    RawRequestClient.set_write_timeout stream 60 o2 = (Ok tt, o3) /\
    RawRequestClient.write_header stream hdr o3 = (Ok tt, o4) /\
    RawRequestClient.write_stream stream data o4 = (Ok tt, o5) /\
    RawRequestClient.read_response stream RawRequestClient.MAX_BODY_SIZE o5 = (r, o').
Proof.
  intros Hrun Hr.
  assert (Hgo : forall (E A : Type) (m : ST O E A) (k : A -> ST O ResponseStatus Response) o0,
    (x ← RawRequestClient.expecting m; k x) o0 = (r, o') ->
    exists a o1, m o0 = (Ok a, o1) /\ k a o1 = (r, o')).
  { intros E A m k o0. unfold mbind at 1, ST_bind at 1.
    destruct (RawRequestClient.expecting m o0) as [[a|e|] o1] eqn:Hm.
    - apply expecting_Ok in Hm. eauto.
    - by apply expecting_no_Err in Hm.
    - intros [= <- _]. by destruct Hr. }
  unfold RawRequestClient.send_raw_request in Hrun.
  apply Hgo in Hrun as (stream & o1 & Hcon & Hrun).
  apply Hgo in Hrun as ([] & o2 & Hrt & Hrun). apply Hgo in Hrun as ([] & o3 & Hwt & Hrun).
  apply Hgo in Hrun as ([] & o4 & Hwh & Hrun). apply Hgo in Hrun as ([] & o5 & Hws & Hrun).
  exists stream, o1, o2, o3, o4, o5. split_and!; try done.
  revert Hcon. unfold RawRequestClient.connect_twice. run_unfold.
  destruct (RawRequestClient.unix_connect _ o) as [[c|e|] o0] eqn:Hc; simpl; [|eauto 6|done].
  intros [= <- <-]. by left.
Qed.

(** ** A run of the generator *)
Definition toy_process : Corpus.OperationClient := fun c op id _ =>
  p ← c;
  modify (fun s => with_nodes (<[p := File (as_bytes (Corpus.debug_provider id))]> (nodes s)) s) ;;
  raise (Client "Interface").
#[local] Existing Instance toy_process.
Definition toy_process_laws : OperationClientLaws.
Proof.
  refine {| request_bytes := fun _ id _ => as_bytes (Corpus.debug_provider id) |}.
  intros c op id a s p s' Hc _. exists (Client "Interface").
  unfold Corpus.process_operation, toy_process.
  run_unfold. rewrite Hc. reflexivity.
Defined.

Lemma corpus_complete_witness :
  exists s', Corpus.main {[Tpm; Core]} ["fuzz"]
      {| nodes := {[ ["fuzz"] := Dir ]}; faults := [] |} = (Ok tt, s') /\
    nodes s' !! ["fuzz"; "init_corpus"; "example-sign-hash-rsa-Tpm"] =
      Some (File (as_bytes "Tpm")) /\
    nodes s' !! ["fuzz"] = Some Dir.
Proof.
  destruct (corpus_complete (H0 := toy_process_laws) {[Tpm; Core]} ["fuzz"]
    {| nodes := {[ ["fuzz"] := Dir ]}; faults := [] |}) as (s' & Hrun & _ & Hnew & Hold).
  - reflexivity.
  - reflexivity.
  - reflexivity.
  - intros name. unfold is_dir. cbn [nodes].
    rewrite lookup_singleton_ne; [reflexivity|discriminate].
  - exists Tpm. split; [apply (bool_decide_eq_true_1 _); reflexivity|].
    apply (bool_decide_eq_true_1 _). reflexivity.
  - exists s'. split; [exact Hrun|]. split.
    + apply (Hnew Tpm "example-sign-hash-rsa" (PsaSignHash {|
        sh_key_name := "rsa-key-name"; sh_alg := Corpus.rsa_sha256; sh_hash := Corpus.hash_5a |}));
        [apply (bool_decide_eq_true_1 _); reflexivity..|]. do 6 right. left.
    + apply (Hold ["fuzz"]); [discriminate|]. intros id root op _ _ _ Heq. discriminate Heq.
Defined.
