(* ===== verification/Fuzz.v ===== *)
(** * The fuzz target ([fuzz/fuzz_targets/fuzz_service.rs])

    The target hands each input of the fuzzer to the front end of a service, which is
    built when it is first used.  An input is the content of a stream from which a
    request is read and to which a response is written, through [Tooling.MockStream].
    The code that reads and writes is [parsec_interface]'s: a parameter that uses the
    stream only through its traits ([stream_code]). *)
From S2P Require Import Prelude RustStd Interface Authenticators Fs KeyInfo OnDisk Concrete.
From S2P Require Import Provide Backend FrontEnd CoreProvider Mbed MbedSpec CryptoAuthLib.
From S2P Require Import CryptoAuthLibSpec Config ServiceBuilder ServiceSpec Residence ProviderState.
From S2P Require Import TrustedService TrustedServiceSpec Pkcs11 Pkcs11Spec Tpm TpmSpec FullService.
From S2P Require Import TestClient Tooling ToolingSpec Scenario Pkcs11Scenario TpmScenario.
From S2P Require Import ServiceScenario.

(** ** Code that uses a stream

    What is written against the traits [Read] and [Write] sees of a stream only what
    its calls return; it returns in the end, whatever they are. *)
Inductive stream_code (A : Type) :=
  | Return (r : Result A)
  | Read (buf : bytes) (k : result io_error (nat * bytes) -> stream_code A)
  | Write (buf : bytes) (k : result io_error nat -> stream_code A)
  | Flush (k : result io_error unit -> stream_code A).
Arguments Return {A}.
Arguments Read {A}.
Arguments Write {A}.
Arguments Flush {A}.

(** A call; when it panics the caller does not go on. *)
Definition calling {A B} (m : ST bytes io_error B) (k : result io_error B -> ST bytes ResponseStatus A)
    : ST bytes ResponseStatus A := fun s =>
  match m s with
  | (Panic, s') => (Panic, s')
  | (r, s') => k r s'
  end.
(** The code on the mock stream. *)
Fixpoint on_mock {A} (c : stream_code A) : ST bytes ResponseStatus A :=
  match c with
  | Return r => lift r
  | Read buf k => calling (MockStream.read buf) (fun r => on_mock (k r))
  | Write buf k => calling (MockStream.write buf) (fun r => on_mock (k r))
  | Flush k => calling MockStream.flush (fun r => on_mock (k r))
  end.

(** The code does not panic on a stream that keeps to the traits: a read leaves the
    length of the buffer as it is, and no call reports more bytes than the buffer is
    long. *)
Fixpoint robust {A} (c : stream_code A) : Prop :=
  match c with
  | Return r => r <> Panic
  | Read buf k =>
    (forall n buf', n <= length buf -> length buf' = length buf -> robust (k (Ok (n, buf')))) /\
    forall e, robust (k (Err e))
  | Write buf k => (forall n, n <= length buf -> robust (k (Ok n))) /\ forall e, robust (k (Err e))
  | Flush k => robust (k (Ok tt)) /\ forall e, robust (k (Err e))
  end.

(** The mock stream keeps to the traits, and does not panic itself. *)
Lemma on_mock_no_panic {A} (c : stream_code A) : forall s, robust c -> (on_mock c s).1 <> Panic.
Proof.
  induction c as [r|buf k IH|buf k IH|k IH]; intros s Hc; cbn [on_mock robust] in *.
  - done.
  - unfold calling. rewrite mock_read. destruct Hc as [Hc _]. apply IH, Hc; [lia|].
    rewrite length_app, length_take, length_drop. lia.
  - unfold calling. simpl. apply IH. by apply Hc.
  - unfold calling. simpl. apply IH. by apply Hc.
Qed.

Module FuzzTarget.
(** A [lazy_static]: an initialisation that panics is not tried again. *)
Inductive lazy (A : Type) := Unset | Set_to (a : A) | Poisoned.
Arguments Unset {A}.
Arguments Set_to {A}.
Arguments Poisoned {A}.

(** The process of the fuzzer: the service, and the static [FRONT_END_HANDLER]. *)
Record process (W : Type) := { service : W; FRONT_END_HANDLER : lazy (FrontEndHandler W) }.
Arguments service {W}.
Arguments FRONT_END_HANDLER {W}.

Section Target.
Context {L : Type} `{ParsecInterface}.
Abbreviation W := (World L).
(** [Request::read_from_stream] with its limit, and [Response::write_to_stream]. *)
Context (read_request : Z -> stream_code Request) (write_response : Response -> stream_code unit).
Definition mock_wire : Wire bytes := {|
  read_from_stream limit := on_mock (read_request limit);
  write_to_stream response := on_mock (write_response response);
|}.
#[local] Existing Instance mock_wire.
(** [log_setup] starts the logger; [read_to_string] and [toml::from_str]; the builder
    of the service. *)
Context (log_setup : bool) (read_to_string : string -> option string).
Context (from_str : string -> option ServiceConfig).
Context (build_service : ServiceConfig -> ST W string (FrontEndHandler W)).
Abbreviation M A := (ST (process W) Empty_set A).

(** The initialiser of the static; every [expect] panics. *)
Definition initialise : ST W Empty_set (FrontEndHandler W) :=
  (if log_setup then mret tt else panic) ;;
  config_file ← lift (unwrap (read_to_string "./run_config.toml"));
  config ← lift (unwrap (from_str config_file));
  r ← attempt (build_service config);
  lift (match r with Ok fe => Ok fe | _ => Panic end).

Definition front_end_handler : M (FrontEndHandler W) := fun s =>
  match FRONT_END_HANDLER s with
  | Set_to fe => (Ok fe, s)
  | Poisoned => (Panic, s)
  | Unset =>
    let '(r, w) := initialise (service s) in
    (r, {| service := w;
           FRONT_END_HANDLER := match r with Ok fe => Set_to fe | _ => Poisoned end |})
  end.

(** [fuzz_target!]: one input. *)
Definition handle (fe : FrontEndHandler W) (stream : bytes) : M unit := fun s =>
  let '(r, (w, _)) := handle_request fe None (service s, stream) in
  (r, {| service := w; FRONT_END_HANDLER := FRONT_END_HANDLER s |}).
Definition fuzz_target (stream : bytes) : M unit :=
  fe ← front_end_handler; handle fe stream.

(** The inputs one after the other. *)
Definition fuzz (inputs : list bytes) : M unit := for_each inputs fuzz_target.

(** Once the service is there, the inputs are connections without metadata. *)
Lemma fuzz_serves (fe : FrontEndHandler W) (inputs : list bytes) (w : W) strs w' :
  serve_connections fe (pair None <$> inputs) w = (Ok strs, w') ->
  fuzz inputs {| service := w; FRONT_END_HANDLER := Set_to fe |} =
  (Ok tt, {| service := w'; FRONT_END_HANDLER := Set_to fe |}).
Proof.
  revert w strs. induction inputs as [|x inputs IH]; intros w strs Hs; simpl in *.
  { by injection Hs as _ <-. }
  destruct (handle_request fe None (w, x)) as [[[]| |] [w1 str1]] eqn:Hx; [|done|done].
  apply bind_Ok in Hs as (l & w2 & Hr & Hs). injection Hs as _ <-.
  rewrite <- (IH w1 l Hr). unfold fuzz. cbn [for_each].
  unfold fuzz_target, front_end_handler, handle. run_unfold. by rewrite Hx.
Qed.

Lemma fuzz_started text config fe w0 w1 x inputs :
  log_setup = true -> read_to_string "./run_config.toml" = Some text ->
  from_str text = Some config -> build_service config w0 = (Ok fe, w1) ->
  fuzz (x :: inputs) {| service := w0; FRONT_END_HANDLER := Unset |} =
  fuzz (x :: inputs) {| service := w1; FRONT_END_HANDLER := Set_to fe |}.
Proof.
  intros Hl Hr Hp Hb. unfold fuzz. cbn [for_each]. unfold fuzz_target, front_end_handler, initialise.
  run_unfold. by rewrite Hl, Hr, Hp, Hb.
Qed.
End Target.
End FuzzTarget.
Import FuzzTarget.

(** ** No input stops the service *)
Section Spec.
Context {B T G X C D R TC CC : Type}.
Context `{ParsecInterface} `{Base64} `{Bincode KeyInfo}.
Context `{PsaLaws B} `{ValidateLaws} `{Cryptoki T} `{Rng G} `{Der} `{KeyApiLaws}.
Context `{TssLaws X C} `{TpmDer} `{BX : Bincode (TpmProvider.PasswordContext X)}.
Context `{!BincodeLaws (TpmProvider.PasswordContext X)}.
Context `{!TpmProvider.TssSetup TC C} `{AteccLaws D} `{AtcaConfig CC D}.
Context `{TsLaws R}.
Context (B32 B8 : Bincode Z).
Context `{!BincodeLaws (H := B32) Z} `{!BincodeU32 (H := B32)}.
Context `{!BincodeLaws (H := B8) Z} `{!BincodeU8 (H := B8)}.
Context (tcti_name_conf : string -> bool) (tcti_initialize : string -> ST C string unit).
Context (fuel : nat) (files : CalProvider.AccessKeyFiles) (parse_uuid : string -> option string).
Context (features : gset ProviderId) (auth_features : gset AuthType).
Context (spiffe_connect : string -> option JwtSvidAuthenticator.WorkloadApiClient).
Context (ProtobufConverter : Convert) (crate_version : option (Z * Z * Z)).
Context `{!ParsecInterfaceLaws}.
(** The code of [parsec_interface] that uses the stream. *)
Context (read_request : Z -> stream_code Request) (write_response : Response -> stream_code unit).
Context (Hread_request : forall limit, robust (read_request limit)).
Context (Hwrite_response : forall response, robust (write_response response)).
Context (Hconv : converter_faithful ProtobufConverter).
Abbreviation W := (World (Libraries B T G C D R)).
Abbreviation builders := (full_builders (X := X) (TC := TC) (CC := CC) B32 B8 tcti_name_conf
  tcti_initialize fuel files parse_uuid).
Abbreviation build_service := (ServiceBuilder.build_service builders features auth_features
  spiffe_connect ProtobufConverter crate_version parse_uuid).

#[local] Instance fuzz_wire : Wire bytes := mock_wire read_request write_response.
#[local] Instance fuzz_wire_laws : WireLaws bytes.
Proof. split; intros; by apply on_mock_no_panic. Qed.

(** C22: when the configuration of the fuzzer can be read and builds a service, without
    the PKCS 11 provider and from mappings it can be started from, no sequence of inputs
    makes the target panic, whatever bytes they are and whatever the libraries return.
    The mock stream keeps to the traits [Read] and [Write], so that the code that reads
    the request and writes the response gets no more bytes than it has room for; and the
    service is built once, at the first input, and used for all of them. *)
Theorem fuzz_never_panics read_to_string from_str text config fe w0 w1 :
  read_to_string "./run_config.toml" = Some text -> from_str text = Some config ->
  build_service config w0 = (Ok fe, w1) -> backends (dispatcher fe) !! Pkcs11 = None ->
  exists g kims w2,
    gey_key_info_manager_builders (default [] (key_manager config)) (set_w_global g w0) =
      (Ok kims, w2) /\
    (all_ready B32 kims config w2 ->
     forall x inputs, exists w',
       fuzz read_request write_response true read_to_string from_str build_service (x :: inputs)
         {| service := w0; FRONT_END_HANDLER := Unset |} =
       (Ok tt, {| service := w'; FRONT_END_HANDLER := Set_to fe |})).
Proof.
  intros Hread Hparse Hbuild Hpk.
  destruct (full_service_answers (Str := bytes) B32 B8 tcti_name_conf tcti_initialize fuel files parse_uuid
    features auth_features spiffe_connect ProtobufConverter crate_version Hconv config w0 fe w1
    Hbuild Hpk) as (g & kims & w2 & Hk & Hst).
  exists g, kims, w2. split; [done|]. intros Hready x inputs.
  destruct (Hst Hready) as (hs & _ & _ & Hok & Hall).
  destruct (Hall (pair None <$> (x :: inputs)) w1 Hok) as (strs & w' & Hs & _).
  rewrite (fuzz_started read_request write_response true read_to_string from_str build_service
    text config fe w0 w1) by done.
  exists w'. exact (fuzz_serves read_request write_response true read_to_string from_str
    build_service fe (x :: inputs) w1 strs w' Hs).
Qed.
End Spec.

(** ** A concrete run *)

(** A request is one letter and a body; a byte that was announced and is not there makes
    the indexing of the buffer panic. *)
Definition toy_read_request (limit : Z) : stream_code Request :=
  Read (zeroed 1) (fun r =>
    match r with
    | Ok (1, [c]) => Read (zeroed 8) (fun r =>
        match r with
        | Ok (n, buf) =>
          Return (if decide (n <= length buf) then
            Ok (demo_request MbedCrypto (if decide (c = "D"%char) then OpPsaDestroyKey else OpPing)
                  (string_of_bytes (take n buf)) "eve") else Panic)
        | _ => Return (Err InvalidHeader)
        end)
    | _ => Return (Err InvalidHeader)
    end).
Definition toy_write_response (response : Response) : stream_code unit :=
  Write (zeroed 4) (fun r =>
    match r with
    | Ok n => if decide (n = 4) then Flush (fun r => Return (if is_ok r then Ok tt else Err InvalidHeader))
              else Return (Err InvalidHeader)
    | _ => Return (Err InvalidHeader)
    end).
Lemma toy_read_robust limit : robust (toy_read_request limit).
Proof.
  split; [|done]. intros n buf' Hn Hl. destruct n as [|[|n]]; [done| |done].
  destruct buf' as [|c [|]]; [done| |done]. simpl. split; [|done]. intros m buf'' Hm Hl'.
  simpl. by rewrite decide_True by lia.
Qed.
Lemma toy_write_robust response : robust (toy_write_response response).
Proof.
  split; [|done]. intros n Hn. simpl. case_decide; [|done]. by split.
Qed.

Lemma fuzz_never_panics_witness :
  exists fe w', fuzz toy_read_request toy_write_response true (fun _ => Some "")
     (fun _ => Some (demo_config four_providers))
     (ServiceBuilder.build_service demo_builders all_providers {[ Direct ]} (fun _ => None)
        demo_convert (Some (0, 7, 0)%Z) Some)
     [as_bytes "Dk"; []; as_bytes "??"]
     {| service := demo_world0; FRONT_END_HANDLER := Unset |} =
  (Ok tt, {| service := w'; FRONT_END_HANDLER := Set_to fe |}).
Proof.
  destruct demo_built as [fe Hrun]. exists fe.
  destruct (fuzz_never_panics _ _ _ _ _ _ _ _ _ _ _ _ toy_read_request toy_write_response
    toy_read_robust toy_write_robust demo_convert_faithful
    (fun _ => Some "") (fun _ => Some (demo_config four_providers)) "" _ _ _ _
    eq_refl eq_refl Hrun (demo_no_pkcs11 fe Hrun)) as (g & kims & w2 & Hk & Hst).
  exact (Hst (demo_all_ready g kims w2 Hk) (as_bytes "Dk") [[]; as_bytes "??"]).
Defined.
