(* ===== verification/UnitTests.v ===== *)
(** * The unit tests of the service

    The tests that the repository keeps next to its code, as programs over the model:
    a failed assertion, an [unwrap] of an error and an [expect_err] of a success panic,
    and a test passes when it returns.  What a test draws or asks the operating system
    for (a user identifier, random bytes) is an argument, so that a test that passes
    here passes for every value.  They run the definitions of the components on the
    inputs the authors of the service had in mind. *)
From S2P Require Import Prelude RustStd Interface Authenticators Fs KeyInfo OnDisk Concrete.
From S2P Require Import Provide CoreProvider CryptoAuthLib CryptoAuthLibSpec Listener.

(** ** Assertions *)
Definition assert {S E} (b : bool) : ST S E unit := if b then mret tt else panic.
Definition assert_eq {S E A} `{EqDecision A} (a b : A) : ST S E unit := assert (bool_decide (a = b)).
Definition unwrapped {S E F A} (m : ST S E A) : ST S F A :=
  r ← attempt m; lift (match r with Ok a => Ok a | _ => Panic end).
Definition unwrapped_err {S E F A} (m : ST S E A) : ST S F E :=
  r ← attempt m; lift (match r with Err e => Ok e | _ => Panic end).
Definition some {S E A} (o : option A) : ST S E A := lift (unwrap o).

(** A test on no state. *)
Abbreviation test := (ST unit Empty_set unit).
Definition passes {S} (t : ST S Empty_set unit) (s : S) : Prop := (t s).1 = Ok tt.

(** ** [direct_authenticator/mod.rs] *)
Module DirectAuthenticatorTests.
Import DirectAuthenticator.

Definition successful_authentication : test :=
  let authenticator := {| admins := [] |} in
  let app_name := "app_name" in
  let req_auth := as_bytes app_name in
  let conn_metadata := None in
  app ← unwrapped (lift (authenticate authenticator req_auth conn_metadata));
  assert_eq (get_name app) (from_name app_name) ;;
  assert (negb (is_admin app)).

Definition failed_authentication : test :=
  let authenticator := {| admins := [] |} in
  let conn_metadata := None in
  status ← unwrapped_err (lift (authenticate authenticator (replicate 5 "255"%char) conn_metadata));
  assert_eq status AuthenticationError.

Definition empty_auth : test :=
  let authenticator := {| admins := [] |} in
  let conn_metadata := None in
  status ← unwrapped_err (lift (authenticate authenticator [] conn_metadata));
  assert_eq status AuthenticationError.

Definition admin_check : test :=
  let admin_name := "admin_name" in
  let admin := {| Authenticators.admin_name := admin_name |} in
  let authenticator := {| admins := [admin] |} in
  let app_name := "app_name" in
  let req_auth := as_bytes app_name in
  let conn_metadata := None in
  auth_name ← unwrapped (lift (authenticate authenticator req_auth conn_metadata));
  assert_eq (get_name auth_name) (from_name app_name) ;;
  assert (negb (is_admin auth_name)) ;;
  let req_auth := as_bytes admin_name in
  auth_name ← unwrapped (lift (authenticate authenticator req_auth conn_metadata));
  assert_eq (get_name auth_name) (from_name admin_name) ;;
  assert (is_admin auth_name).
End DirectAuthenticatorTests.

(** ** [unix_peer_credentials_authenticator/mod.rs]

    The two ends of a socket pair have the credentials of the process. *)
Module UnixAuthenticatorTests.
Import UnixPeerCredentialsAuthenticator.
Section Process.
Context (cred : DomainSocket.UCred).
Abbreviation uid := (DomainSocket.uid cred).
Abbreviation gid := (DomainSocket.gid cred).
Abbreviation pid := (DomainSocket.pid cred).

Definition successful_authentication : test :=
  let authenticator := {| admins := [] |} in
  let req_auth := to_le_bytes 4 uid in
  let conn_metadata := Some (UnixPeerCredentialsMeta uid gid None) in
  auth_name ← unwrapped (lift (authenticate authenticator req_auth conn_metadata));
  assert_eq (get_name auth_name) (from_name (int_to_string uid)) ;;
  assert (negb (is_admin auth_name)).

(** The sum panics where it overflows. *)
Definition unsuccessful_authentication_wrong_declared_uid : test :=
  let authenticator := {| admins := [] |} in
  wrong_uid ← (if decide (uid + 1 < 2 ^ 32)%Z then mret (uid + 1)%Z else panic);
  let req_auth := to_le_bytes 4 wrong_uid in
  let conn_metadata := Some (UnixPeerCredentialsMeta uid gid pid) in
  auth_result ← unwrapped_err (lift (authenticate authenticator req_auth conn_metadata));
  assert_eq auth_result AuthenticationError.

Definition unsuccessful_authentication_garbage_data (garbage_data : bytes) : test :=
  let authenticator := {| admins := [] |} in
  let conn_metadata := Some (UnixPeerCredentialsMeta uid gid pid) in
  auth_result ← unwrapped_err (lift (authenticate authenticator garbage_data conn_metadata));
  assert_eq auth_result AuthenticationError.

Definition unsuccessful_authentication_no_metadata : test :=
  let authenticator := {| admins := [] |} in
  let req_auth := as_bytes "secret" in
  let conn_metadata := None in
  auth_result ← unwrapped_err (lift (authenticate authenticator req_auth conn_metadata));
  assert_eq auth_result AuthenticationError.

(** The body is empty: there is one kind of metadata only. *)
Definition unsuccessful_authentication_wrong_metadata : test := mret tt.

Definition admin_check : test :=
  let admin := {| admin_name := int_to_string uid |} in
  let authenticator := {| admins := [admin] |} in
  let req_auth := to_le_bytes 4 uid in
  let conn_metadata := Some (UnixPeerCredentialsMeta uid gid None) in
  auth_name ← unwrapped (lift (authenticate authenticator req_auth conn_metadata));
  assert_eq (get_name auth_name) (from_name (int_to_string uid)) ;;
  assert (is_admin auth_name).
End Process.
End UnixAuthenticatorTests.

(** ** [providers/core/mod.rs] *)
Module CoreTests.
Import CoreProvider.

Definition test_ping : test :=
  let provider : Provider unit := {| wire_protocol_version_min := 8; wire_protocol_version_maj := 10;
                     provider_info := []; authenticator_info := []; provider_opcodes := ∅;
                     prov_list := [] |} in
  result ← unwrapped (ping provider);
  assert_eq result.1 (wire_protocol_version_maj provider) ;;
  assert_eq result.2 (wire_protocol_version_min provider).
End CoreTests.

(** ** [cryptoauthlib/key_slot.rs]

    The fields of a slot's configuration that the provider does not read are left
    out. *)
Module KeySlotTests.
Import KeySlot.

Definition set_config (f : SlotConfig -> SlotConfig) (s : AteccKeySlot) : AteccKeySlot :=
  {| ref_count := ref_count s; slot_status := slot_status s; config := f (config s) |}.
Definition with_type (t : CalKeyType) : AteccKeySlot -> AteccKeySlot := set_config (fun c =>
  {| write_config := write_config c; cfg_key_type := t; ecc_key_attr := ecc_key_attr c;
     is_secret := is_secret c; no_mac := no_mac c; pub_info := pub_info c |}).
Definition with_write_config (w : WriteConfig) : AteccKeySlot -> AteccKeySlot := set_config (fun c =>
  {| write_config := w; cfg_key_type := cfg_key_type c; ecc_key_attr := ecc_key_attr c;
     is_secret := is_secret c; no_mac := no_mac c; pub_info := pub_info c |}).
Definition with_secret (b : bool) : AteccKeySlot -> AteccKeySlot := set_config (fun c =>
  {| write_config := write_config c; cfg_key_type := cfg_key_type c;
     ecc_key_attr := ecc_key_attr c; is_secret := b; no_mac := no_mac c;
     pub_info := pub_info c |}).
Definition with_private (b : bool) : AteccKeySlot -> AteccKeySlot := set_config (fun c =>
  {| write_config := write_config c; cfg_key_type := cfg_key_type c;
     ecc_key_attr := {| is_private := b; ext_sign := ext_sign (ecc_key_attr c) |};
     is_secret := is_secret c; no_mac := no_mac c; pub_info := pub_info c |}).
Definition with_pub_info (b : bool) : AteccKeySlot -> AteccKeySlot := set_config (fun c =>
  {| write_config := write_config c; cfg_key_type := cfg_key_type c;
     ecc_key_attr := ecc_key_attr c; is_secret := is_secret c; no_mac := no_mac c;
     pub_info := b |}).
Definition with_key_type (t : KeyType) (a : Attributes) : Attributes :=
  {| lifetime := lifetime a; key_type := t; bits := bits a; policy := policy a |}.
Definition with_algorithm (alg : Algorithm) (a : Attributes) : Attributes :=
  {| lifetime := lifetime a; key_type := key_type a; bits := bits a;
     policy := {| usage_flags := usage_flags (policy a); permitted_algorithms := alg |} |}.
Definition with_export_copy (b : bool) (a : Attributes) : Attributes :=
  let u := usage_flags (policy a) in
  {| lifetime := lifetime a; key_type := key_type a; bits := bits a;
     policy := {| usage_flags :=
         {| export := b; copy := b; cache := cache u; encrypt := encrypt u; decrypt := decrypt u;
            sign_message := sign_message u; verify_message := verify_message u;
            sign_hash := sign_hash u; verify_hash := verify_hash u; derive := derive u |};
       permitted_algorithms := permitted_algorithms (policy a) |} |}.
Definition without_signing (a : Attributes) : Attributes :=
  let u := usage_flags (policy a) in
  {| lifetime := lifetime a; key_type := key_type a; bits := bits a;
     policy := {| usage_flags :=
         {| export := export u; copy := copy u; cache := cache u; encrypt := encrypt u;
            decrypt := decrypt u; sign_message := false; verify_message := verify_message u;
            sign_hash := false; verify_hash := verify_hash u; derive := derive u |};
       permitted_algorithms := permitted_algorithms (policy a) |} |}.

Section Chip.
Context {D : Type} `{Atecc D}.

Definition test_is_key_type_ok : test :=
  let slot_config := {| write_config := WcAlways; cfg_key_type := P256EccKey;
    ecc_key_attr := {| is_private := false; ext_sign := false |}; is_secret := false;
    no_mac := true; pub_info := false |} in
  let key_slot := {| ref_count := 1; slot_status := Busy; config := slot_config |} in
  let attributes := {| lifetime := Persistent; key_type := EccKeyPair SecpR1; bits := 256;
    policy := {| usage_flags := {| sign_hash := true; verify_hash := true; sign_message := true;
        verify_message := false; export := false; encrypt := false; decrypt := false;
        cache := false; copy := false; derive := false |};
      permitted_algorithms :=
        Alg_AsymmetricSignature (DeterministicEcdsa (SignHash_Specific Sha256)) |} |} in
  assert (negb (is_key_type_ok key_slot 0 attributes)) ;;
  let key_slot := with_private true (with_secret true (with_write_config WcEncrypt
    (with_type P256EccKey key_slot))) in
  assert (is_key_type_ok key_slot 0 attributes) ;;
  let attributes := with_key_type Aes attributes in
  assert (negb (is_key_type_ok key_slot 0 attributes)) ;;
  let attributes := with_key_type RawData attributes in
  assert (negb (is_key_type_ok key_slot 0 attributes)) ;;
  let key_slot := with_type CalAes key_slot in
  let attributes := with_key_type (EccKeyPair SecpR1) attributes in
  assert (negb (is_key_type_ok key_slot 0 attributes)) ;;
  let attributes := with_key_type Aes attributes in
  assert (is_key_type_ok key_slot 0 attributes) ;;
  let attributes := with_key_type RawData attributes in
  assert (negb (is_key_type_ok key_slot 0 attributes)) ;;
  let key_slot := with_type ShaOrText key_slot in
  let attributes := with_key_type (EccKeyPair SecpR1) attributes in
  assert (negb (is_key_type_ok key_slot 0 attributes)) ;;
  let attributes := with_key_type Aes attributes in
  assert (negb (is_key_type_ok key_slot 0 attributes)).

Definition test_is_usage_flags_ok : test :=
  let slot_config := {| write_config := WcAlways; cfg_key_type := P256EccKey;
    ecc_key_attr := {| is_private := true; ext_sign := true |}; is_secret := false;
    no_mac := true; pub_info := true |} in
  let key_slot := {| ref_count := 1; slot_status := Busy; config := slot_config |} in
  let attributes := {| lifetime := Persistent; key_type := EccKeyPair SecpR1; bits := 256;
    policy := {| usage_flags := {| sign_hash := false; verify_hash := true;
        sign_message := false; verify_message := false; export := true; encrypt := false;
        decrypt := false; cache := false; copy := true; derive := false |};
      permitted_algorithms :=
        Alg_AsymmetricSignature (DeterministicEcdsa (SignHash_Specific Sha256)) |} |} in
  assert (is_usage_flags_ok key_slot attributes) ;;
  let key_slot := with_pub_info false key_slot in
  assert (negb (is_usage_flags_ok key_slot attributes)) ;;
  let key_slot := with_pub_info false key_slot in
  assert (negb (is_usage_flags_ok key_slot attributes)) ;;
  let key_slot := with_private false key_slot in
  assert (is_usage_flags_ok key_slot attributes) ;;
  let attributes := with_export_copy false attributes in
  assert (is_usage_flags_ok key_slot attributes) ;;
  let attributes := with_export_copy true attributes in
  let key_slot := with_type CalAes key_slot in
  assert (negb (is_usage_flags_ok key_slot attributes)) ;;
  let attributes := without_signing attributes in
  assert (negb (is_usage_flags_ok key_slot attributes)).

Definition test_is_permitted_algorithms_ok : test :=
  let slot_config := {| write_config := WcEncrypt; cfg_key_type := P256EccKey;
    ecc_key_attr := {| is_private := true; ext_sign := true |}; is_secret := true;
    no_mac := false; pub_info := true |} in
  let key_slot := {| ref_count := 1; slot_status := Busy; config := slot_config |} in
  let attributes := {| lifetime := Persistent; key_type := EccPublicKey SecpR1; bits := 256;
    policy := {| usage_flags := {| sign_hash := true; verify_hash := true; sign_message := true;
        verify_message := false; export := true; encrypt := false; decrypt := false;
        cache := false; copy := true; derive := false |};
      permitted_algorithms := Alg_AsymmetricSignature (Ecdsa (SignHash_Specific Sha256)) |} |} in
  assert (is_permitted_algorithms_ok key_slot attributes None) ;;
  let attributes := with_algorithm (Alg_Mac (Mac_FullLength (Hmac_mac Sha256))) attributes in
  assert (negb (is_permitted_algorithms_ok key_slot attributes None)) ;;
  let attributes := with_algorithm
    (Alg_AsymmetricSignature (DeterministicEcdsa (SignHash_Specific Sha256))) attributes in
  assert (negb (is_permitted_algorithms_ok key_slot attributes None)) ;;
  let attributes := with_algorithm (Alg_KeyAgreement (KeyAgreement_Raw Ecdh)) attributes in
  assert (is_permitted_algorithms_ok key_slot attributes None) ;;
  let attributes := with_algorithm (Alg_Aead (Aead_WithDefaultLengthTag Ccm)) attributes in
  let key_slot := with_type CalAes key_slot in
  assert (is_permitted_algorithms_ok key_slot attributes None) ;;
  let attributes := with_algorithm (Alg_Cipher Cipher_CbcPkcs7) attributes in
  assert (is_permitted_algorithms_ok key_slot attributes None).
End Chip.
End KeySlotTests.

(** ** [cryptoauthlib/key_management.rs] *)
Module CalKeyTests.
Import CalProvider.

Definition u8s (l : list N) : bytes := ascii_of_N <$> l.

Definition raw_public_key : bytes := u8s
  [0x01; 0xf7; 0x69; 0xe2; 0x40; 0x3a; 0xeb; 0x0d; 0x64; 0x3e; 0x81; 0xb8; 0xda; 0x95; 0xb0;
   0x1c; 0x25; 0x80; 0xfe; 0xa3; 0xd3; 0xd0; 0x5b; 0x2f; 0xef; 0x6a; 0x31; 0x9c; 0xa9; 0xca;
   0x5d; 0xe5; 0x2b; 0x4b; 0x49; 0x2c; 0x24; 0x2c; 0xef; 0xf4; 0xf2; 0x3c; 0xef; 0xfa; 0x08;
   0xa7; 0xb4; 0xc6; 0xe0; 0xce; 0x73; 0xac; 0xd0; 0x69; 0xd4; 0xcc; 0xa8; 0xd0; 0x55; 0xee;
   0x6c; 0x65; 0xb5; 0x71]%N.
Definition prefixed_public_key : bytes := u8s [0x04]%N ++ raw_public_key.

Definition test_extract_raw_ecc_public_key : test :=
  ecc_pub_key_ext ← unwrapped (lift (raw_key_extract (EccPublicKey SecpR1) prefixed_public_key));
  assert_eq raw_public_key ecc_pub_key_ext.

Definition test_wrap_raw_ecc_public_key : test :=
  ecc_public_key ← unwrapped (lift (raw_key_wrap (EccPublicKey SecpR1) raw_public_key));
  assert_eq prefixed_public_key ecc_public_key.
End CalKeyTests.

(** ** [on_disk_manager/mod.rs]

    The tests run on a disk on which no call fails; [out_dir] is the directory the
    build gives them. *)
Module OnDiskTests.
Import Manager.

Definition test_key_attributes : Attributes :=
  {| lifetime := Persistent; key_type := Derive; bits := 1024;
     policy := {| usage_flags := {| sign_hash := true; verify_hash := false;
         sign_message := false; verify_message := false; export := false; encrypt := false;
         decrypt := false; cache := false; copy := false; derive := false |};
       permitted_algorithms :=
         Alg_AsymmetricSignature (RsaPkcs1v15Sign (SignHash_Specific Sha256)) |} |}.

Definition vec (l : list N) : bytes := ascii_of_N <$> l.
Definition test_key_info : KeyInfo :=
  {| ki_id := vec [0x11; 0x22; 0x33]%N; ki_attributes := test_key_attributes |}.

Definition new_key_triple (key_name : string) : KeyTriple :=
  KeyTriple_new (from_name "Testing Application 😎") MbedCrypto key_name.

(** [fs::remove_dir_all]; a fault leaves some of the entries. *)
Definition entries (p : path) (m : gmap path node) : list path :=
  filter (fun q => p `prefix_of` q) (map_to_list m).*1.
Definition remove_dir_all (p : path) : ST fs io_error unit :=
  call (fun n m => foldr delete m (take n (entries p m))) (fun s =>
    if is_dir (nodes s) p
    then (Ok tt, with_nodes (foldr delete (nodes s) (entries p (nodes s))) s)
    else (Err "No such directory", s)).

Section Tests.
Context `{ParsecInterface} `{Base64} `{Bincode KeyInfo} (out_dir : path).
Abbreviation disk_test := (ST fs Empty_set unit).

(** A block with a manager of its own. *)
Definition manage (manager : OnDiskKeyInfoManager) (body : ST OnDisk Empty_set unit)
    : disk_test := fun d =>
  let '(r, s) := body {| od_manager := manager; od_disk := d |} in (r, od_disk s).
Definition with_manager (p : path) (body : ST OnDisk Empty_set unit) : disk_test :=
  manager ← unwrapped (new p); manage manager body.

Definition insert_get_key_info : disk_test :=
  let p := join out_dir "insert_get_key_info_mappings" in
  with_manager p (
    let key_triple := new_key_triple "insert_get_key_info" in
    let key_info := test_key_info in
    r ← unwrapped (get key_triple);
    assert (bool_decide (r = None)) ;;
    r ← unwrapped (insert key_triple key_info);
    assert (bool_decide (r = None)) ;;
    r ← unwrapped (get key_triple);
    stored_key_info ← some r;
    assert_eq stored_key_info key_info ;;
    r ← unwrapped (remove key_triple);
    assert (bool_decide (is_Some r))) ;;
  unwrapped (remove_dir_all p).

Definition insert_remove_key : disk_test :=
  let p := join out_dir "insert_remove_key_mappings" in
  with_manager p (
    let key_triple := new_key_triple "insert_remove_key" in
    let key_info := test_key_info in
    _ ← unwrapped (insert key_triple key_info);
    r ← unwrapped (remove key_triple);
    assert (bool_decide (is_Some r))) ;;
  unwrapped (remove_dir_all p).

Definition remove_unexisting_key : disk_test :=
  let p := join out_dir "remove_unexisting_key_mappings" in
  with_manager p (
    let key_triple := new_key_triple "remove_unexisting_key" in
    r ← unwrapped (remove key_triple);
    assert_eq r None) ;;
  unwrapped (remove_dir_all p).

Definition exists_test : disk_test :=
  let p := join out_dir "exists_mappings" in
  with_manager p (
    let key_triple := new_key_triple "exists" in
    let key_info := test_key_info in
    r ← unwrapped (exists_key key_triple);
    assert (negb r) ;;
    _ ← unwrapped (insert key_triple key_info);
    r ← unwrapped (exists_key key_triple);
    assert r ;;
    _ ← unwrapped (remove key_triple);
    r ← unwrapped (exists_key key_triple);
    assert (negb r)) ;;
  unwrapped (remove_dir_all p).

Definition insert_overwrites : disk_test :=
  let p := join out_dir "insert_overwrites_mappings" in
  with_manager p (
    let key_triple := new_key_triple "insert_overwrites" in
    let key_info_1 := test_key_info in
    let key_info_2 :=
      {| ki_id := vec [0xaa; 0xbb; 0xcc]%N; ki_attributes := test_key_attributes |} in
    _ ← unwrapped (insert key_triple key_info_1);
    _ ← unwrapped (insert key_triple key_info_2);
    r ← unwrapped (get key_triple);
    stored_key_info ← some r;
    assert_eq stored_key_info key_info_2 ;;
    r ← unwrapped (remove key_triple);
    assert (bool_decide (is_Some r))) ;;
  unwrapped (remove_dir_all p).

Definition big_names_ascii : disk_test :=
  let p := join out_dir "big_names_ascii_mappings" in
  with_manager p (
    let big_app_name_ascii := from_name "  Lorem ipsum dolor sit amet, ei suas viris sea, deleniti repudiare te qui. Natum paulo decore ut nec, ne propriae offendit adipisci has. Eius clita legere mel at, ei vis minimum tincidunt." in
    let big_key_name_ascii := "  Lorem ipsum dolor sit amet, ei suas viris sea, deleniti repudiare te qui. Natum paulo decore ut nec, ne propriae offendit adipisci has. Eius clita legere mel at, ei vis minimum tincidunt." in
    let key_triple := KeyTriple_new big_app_name_ascii Core big_key_name_ascii in
    let key_info := test_key_info in
    _ ← unwrapped (insert key_triple key_info);
    r ← unwrapped (remove key_triple);
    removed ← some r;
    assert_eq removed key_info) ;;
  unwrapped (remove_dir_all p).

Definition big_names_emoticons : disk_test :=
  let p := join out_dir "big_names_emoticons_mappings" in
  with_manager p (
    let big_app_name_emoticons := from_name "😀😁😂😃😄😅😆😇😈😉😊😋😌😍😎😏😐😑😒😓😔😕😖😗😘😙😚😛😜😝😞😟😠😡😢😣😤😥😦😧😨😩😪😫😬😭😮" in
    let big_key_name_emoticons := "😀😁😂😃😄😅😆😇😈😉😊😋😌😍😎😏😐😑😒😓😔😕😖😗😘😙😚😛😜😝😞😟😠😡😢😣😤😥😦😧😨😩😪😫😬😭😮" in
    let key_triple := KeyTriple_new big_app_name_emoticons MbedCrypto big_key_name_emoticons in
    let key_info := test_key_info in
    _ ← unwrapped (insert key_triple key_info);
    r ← unwrapped (remove key_triple);
    removed ← some r;
    assert_eq removed key_info) ;;
  unwrapped (remove_dir_all p).

Definition create_and_load : disk_test :=
  let p := join out_dir "create_and_load_mappings" in
  let key_triple1 := KeyTriple_new (from_name "😀 Application One 😀") Core "😀 Key One 😀" in
  let key_info1 := test_key_info in
  let key_triple2 :=
    KeyTriple_new (from_name "😇 Application Two 😇") MbedCrypto "😇 Key Two 😇" in
  let key_info2 :=
    {| ki_id := vec [0x12; 0x22; 0x32]%N; ki_attributes := test_key_attributes |} in
  let key_triple3 :=
    KeyTriple_new (from_name "😈 Application Three 😈") Core "😈 Key Three 😈" in
  let key_info3 :=
    {| ki_id := vec [0x13; 0x23; 0x33]%N; ki_attributes := test_key_attributes |} in
  with_manager p (
    _ ← unwrapped (insert key_triple1 key_info1);
    _ ← unwrapped (insert key_triple2 key_info2);
    _ ← unwrapped (insert key_triple3 key_info3);
    mret tt) ;;
  with_manager p (
    r ← unwrapped (remove key_triple1); removed ← some r; assert_eq removed key_info1 ;;
    r ← unwrapped (remove key_triple2); removed ← some r; assert_eq removed key_info2 ;;
    r ← unwrapped (remove key_triple3); removed ← some r; assert_eq removed key_info3) ;;
  unwrapped (remove_dir_all p).

Definition tests : list disk_test :=
  [insert_get_key_info; insert_remove_key; remove_unexisting_key; exists_test; insert_overwrites;
   big_names_ascii; big_names_emoticons; create_and_load].
End Tests.
End OnDiskTests.

(** ** They pass *)

(** [bincode] is a parameter of the tests; to evaluate them it is replaced by a
    serialisation that knows the attributes they use. *)
Definition test_bincode : Bincode KeyInfo := {|
  bincode_serialize i :=
    if decide (ki_attributes i = OnDiskTests.test_key_attributes) then Some (ki_id i) else None;
  bincode_deserialize b :=
    Some {| ki_id := b; ki_attributes := OnDiskTests.test_key_attributes |};
|}.
Definition passes_b {S} (t : ST S Empty_set unit) (s : S) : bool :=
  match (t s).1 with Ok _ => true | _ => false end.
Lemma passes_b_spec {S} (t : ST S Empty_set unit) (s : S) : passes_b t s = true -> passes t s.
Proof. unfold passes_b, passes. by destruct (t s) as [[[]| |] ?]. Qed.

Lemma on_disk_tests_pass :
  Forall (fun t => passes t {| nodes := ∅; faults := [] |})
    (OnDiskTests.tests (H1 := test_bincode) ["out"]).
Proof.
  apply (Forall_impl (fun t => passes_b t {| nodes := ∅; faults := [] |} = true));
    [|intros t; apply passes_b_spec].
  apply Forall_forall. intros t Ht.
  assert (Hall : forallb (fun t => passes_b t {| nodes := ∅; faults := [] |})
    (OnDiskTests.tests (H1 := test_bincode) ["out"]) = true) by (vm_compute; reflexivity).
  rewrite forallb_forall in Hall. apply Hall. by apply list_elem_of_In.
Qed.

Section Unix.
Import UnixAuthenticatorTests UnixPeerCredentialsAuthenticator.
Context (cred : DomainSocket.UCred).
Context (Huid : (0 <= DomainSocket.uid cred < 2 ^ 32 - 1)%Z).

(** What [authenticate] does with a declared identifier. *)
Lemma declared_uid self z meta :
  (0 <= z < 2 ^ 32)%Z ->
  authenticate self (to_le_bytes 4 z) (Some meta) =
  let '(UnixPeerCredentialsMeta u _ _) := meta in
  if decide (u = z) then
    Ok (Application_new (int_to_string u) (AdminList_is_admin (admins self) (int_to_string u)))
  else Err AuthenticationError.
Proof.
  intros Hz. rewrite unix_authenticate_cases. destruct meta as [u g p].
  rewrite length_to_le_bytes, from_to_le_bytes by (change (256 ^ Z.of_nat 4)%Z with (2 ^ 32)%Z; lia).
  repeat case_decide; naive_solver.
Qed.

Definition unix_tests (garbage_data : bytes) : list test :=
  [successful_authentication cred; unsuccessful_authentication_wrong_declared_uid cred;
   unsuccessful_authentication_garbage_data cred garbage_data;
   unsuccessful_authentication_no_metadata; admin_check cred;
   unsuccessful_authentication_wrong_metadata].

Lemma unix_tests_pass garbage_data :
  length garbage_data = 32 -> Forall (fun t => passes t tt) (unix_tests garbage_data).
Proof.
  intros Hg. repeat constructor; unfold passes.
  - unfold successful_authentication. rewrite declared_uid by lia. rewrite decide_True by done.
    unfold assert_eq. run_unfold. by rewrite bool_decide_true.
  - unfold unsuccessful_authentication_wrong_declared_uid. rewrite decide_True by lia.
    unfold mbind at 1, ST_bind at 1, mret, ST_ret. rewrite declared_uid by lia.
    rewrite decide_False by lia. done.
  - unfold unsuccessful_authentication_garbage_data, authenticate, EXPECTED_UID_SIZE_BYTES.
    rewrite decide_False by lia. done.
  - unfold admin_check. rewrite declared_uid by lia. rewrite decide_True by done.
    unfold assert_eq, AdminList_is_admin. run_unfold. by rewrite !bool_decide_true.
Qed.
End Unix.

(** The tests that need nothing but the code. *)
Definition plain_tests {D} `{Atecc D} : list test :=
  [DirectAuthenticatorTests.successful_authentication;
   DirectAuthenticatorTests.failed_authentication; DirectAuthenticatorTests.empty_auth;
   DirectAuthenticatorTests.admin_check; CoreTests.test_ping;
   KeySlotTests.test_is_key_type_ok; KeySlotTests.test_is_usage_flags_ok;
   KeySlotTests.test_is_permitted_algorithms_ok; CalKeyTests.test_extract_raw_ecc_public_key;
   CalKeyTests.test_wrap_raw_ecc_public_key].

(** The unit tests of the service pass on the model, as a check of its definitions: those of the
    authenticators, whatever the credentials of the process and the random bytes (but
    for the largest user identifier, at which the sum in a test overflows), of the core
    provider, of the slots and encodings of the CryptoAuthLib provider, for every chip,
    and of the on-disk key info manager, on an empty disk on which no call fails, with
    the serialisation above. *)
Theorem unit_tests_pass {D} `{Atecc D} (cred : DomainSocket.UCred) (garbage_data : bytes) :
  (0 <= DomainSocket.uid cred < 2 ^ 32 - 1)%Z -> length garbage_data = 32 ->
  Forall (fun t => passes t tt) (plain_tests ++ unix_tests cred garbage_data) /\
  Forall (fun t => passes t {| nodes := ∅; faults := [] |})
    (OnDiskTests.tests (H1 := test_bincode) ["out"]).
Proof.
  intros Hu Hg. split; [|apply on_disk_tests_pass]. apply Forall_app.
  split; [|by apply unix_tests_pass]. repeat constructor.
Qed.

Lemma unit_tests_pass_witness :
  passes (UnixAuthenticatorTests.admin_check
    {| DomainSocket.uid := 1000; DomainSocket.gid := 1000; DomainSocket.pid := Some 42%Z |}) tt.
Proof.
  destruct (unit_tests_pass (D := unit)
    {| DomainSocket.uid := 1000; DomainSocket.gid := 1000; DomainSocket.pid := Some 42%Z |}
    (zeroed 32)) as [Hall _]; [simpl; lia|reflexivity|].
  rewrite Forall_forall in Hall. apply Hall. do 14 right. left.
Defined.
